(* ===== verification/_CoqProject ===== *)
-Q . S2P
Prelude.v
X86.v
Synapse.v
Entries.v
FrameAlloc.v
LegacyMemory.v
BootMemory.v
NukleusMemory.v
Handoff.v
Framebuffer.v
FramebufferLine.v
FramebufferCircle.v
TextInterface.v
Paging.v
Mapping.v
Heap.v
Firmware.v
Kernel.v
KernelSpace.v
KernelCopy.v
KernelSegments.v
KernelFlags.v
KernelRelocs.v
KernelLoad.v
KernelImage.v
KernelEntry.v
KernelSample.v
Initium.v
InitiumSteps.v
InitiumStages.v
InitiumMappings.v
InitiumBoot.v
Boot.v
FirmwareFiles.v
FirmwareSample.v
NukleusMain.v
System.v
BootSample.v
HostFiles.v
FatImage.v
GptDisk.v
DiskImage.v
HostSample.v
