(* ===== verification/Prelude.v ===== *)
(** * L.I.F.E: a boot loader, a kernel and the tool that puts them on a disk

    This library models the Rust program L.I.F.E and proves what makes it
    correct.  The program has four parts.

    - initium (src/initium/src): a UEFI application.  It loads the kernel file
      and a ramdisk through the firmware, chooses a display mode, leaves the
      boot services, builds page tables for the kernel, loads its ELF image,
      writes the boot information and jumps to the kernel.
    - nukleus (src/nukleus/src): the kernel.  It takes the boot information,
      maps its heap from the usable memory regions and draws a picture.
    - synapse (src/synapse/src): the types the two exchange.
    - the host tool (src/src): it puts both on a FAT volume in the partition of
      a GPT disk image and starts an emulator on it.

    ** Conventions

    A function of the source is a function of the same name.  [outcome] is
    a Rust computation: it returns or panics; [result] and [option] are values.
    State is passed explicitly, or by a monad of the component: [load]
    (Kernel.v), [sys] (Initium.v), [fw] (FirmwareFiles.v), [io] (HostFiles.v).
    Machine integers are [Z] with the checked or wrapping arithmetic of this
    file; the class [Profile] says whether overflows panic.  A theorem holds
    for both profiles unless it says otherwise.

    Code outside the repository is a class, with the documented behaviour as a
    second class of laws and a reference instance: the address types of the
    x86_64 crate ([X86_64], X86.v), its page tables ([PageTable], Paging.v;
    [OffsetPageTable] and [Gdt], Initium.v; [EmptyTable], Boot.v), frame
    allocators ([FrameAllocator], [FreeList], FrameAlloc.v), the UEFI memory
    types ([UefiMemoryTypes], LegacyMemory.v), the byte format of relocations
    ([RelaFormat], Kernel.v), the firmware ([GraphicsOutput], [Guids],
    [GraphicsServices], [BootServices], [BootEnd]), the layout that the compiler
    gives BootInfo ([BootInfoLayout]), the global allocator ([LockedHeap], Heap.v), and the
    host, the fatfs crate and the gpt crate ([HostFs], [FatFs], [Gpt]).

    ** Files

    Shared: Prelude.v (this file: outcomes, machine integers, lists), X86.v
    (addresses, pages, frames), Synapse.v (synapse), FrameAlloc.v (the trait
    FrameAllocator and its contract), Paging.v and Mapping.v (page tables as
    maps from pages to leaves; loops of map_to).

    Memory: Entries.v (entries.rs: level 4 entries), LegacyMemory.v (memory.rs,
    descriptor.rs: the boot allocator and the memory map), BootMemory.v (their
    theorems), NukleusMemory.v (nukleus memory.rs), Handoff.v (the two
    allocators together), Heap.v (allocator.rs).

    Loader: Kernel.v (kernel.rs), KernelSpace.v (the address space that the
    loader builds), KernelCopy.v, KernelSegments.v, KernelFlags.v,
    KernelRelocs.v, KernelLoad.v (one pass of the loader each, then all),
    KernelImage.v and KernelEntry.v (their theorems), KernelSample.v (a kernel).

    Boot: Firmware.v and FirmwareFiles.v (main.rs: what is read from the
    firmware, and efi_main), Initium.v (initium.rs, gdt.rs, the rest of
    main.rs), InitiumSteps.v, InitiumStages.v, InitiumMappings.v and
    InitiumBoot.v (its steps, stages and results), Boot.v (the whole), System.v
    (boot loader and kernel together), FirmwareSample.v and BootSample.v (a
    firmware and a machine).

    Kernel: Framebuffer.v (framebuffer_writer.rs, primitive.rs,
    text_based_interface.rs), FramebufferLine.v and FramebufferCircle.v (the
    two loops), TextInterface.v (their theorems), NukleusMain.v (main.rs).

    Host tool: HostFiles.v (files, paths and maps of the standard library;
    file_data.rs), FatImage.v (fat_fs.rs), GptDisk.v (gpt_part.rs), DiskImage.v
    (disk_image.rs, uefi.rs, main.rs), HostSample.v (a host).

    ** What is proved

    - The system (System.v, Boot.v, InitiumMappings.v): from a machine with
      enough memory [main_inner] reaches the jump; the kernel finds its image,
      its stack with a guard page, the framebuffer, the ramdisk, physical memory
      and the boot information in its page table, and the memory map it is
      handed spares all of it; then the kernel's [main] reaches its loop, with
      its heap on frames that hold nothing else and its picture on the screen.
      FirmwareFiles.v: kernel and ramdisk are loaded byte by byte, and whatever
      is opened is closed.
    - The loader (KernelEntry.v, KernelImage.v): the pages it maps read as the
      image that the ELF file describes, relocations included; the file itself
      is never written; it rejects what it must.
    - Memory (BootMemory.v, Handoff.v, NukleusMemory.v, Entries.v): frames are
      handed out once; the memory map is exact; what the kernel may use is
      free, except the frame that the kernel's file ends in (a finding);
      reserved address ranges never meet.
    - The kernel (NukleusMain.v, Heap.v, TextInterface.v): the heap is mapped,
      or the error of the page table is returned; every primitive paints its
      pixels and no others, and its loops end.
    - The host tool (DiskImage.v, FatImage.v): the disk's one
      partition holds a FAT volume with exactly the kernel and the boot loader;
      however the tool ends, no other file is changed, but for a temporary
      file that the host refuses to delete.

    ** Bounds and fuel

    [draw_line] and [draw_circle] are loops without a counter; they run on fuel
    (the larger distance, twice the radius) that is shown to be enough.
    [ancestors] runs on the length of the path, which every parent shortens.
    A step of the boot that takes frames states how many: at most 4 for a
    page that the loader privatises, 3 tables for a [map_to], 7 for a page of
    the boot information, which is mapped twice; the theorems ask for the sum.

    ** Not modelled

    The assembly of context_switch: [Addresses] is what it loads.  The bits of
    page table entries: a page table is what its accessors show, and the link
    to memory bytes is the class [OffsetPageTable].  The bytes of BootInfo, whose
    layout is the compiler's: its contents are returned beside memory.  The
    static SYSTEM_TABLE of main.rs, which is written and never read.  build.rs
    and the emulator's process.

    ** Plan

    Still to come: [efi_main] as one theorem from the files on the volume to
    the jump, which needs the memory map of the firmware tied to the pages it
    has allocated; a bound on the level 4 entries that the boot loader reserves,
    so that the entry of the kernel's heap is known to be free; the invariant of
    the loader as a step relation. *)

From stdpp Require Export base tactics option list list_numbers numbers sorting strings gmap.
From Stdlib Require Export ZArith Lia Sorting.Sorted.
From Stdlib Require Znumtheory.

#[global] Open Scope Z_scope.

(** * Outcomes of a Rust computation *)

(** A Rust expression either produces a value or panics; [OutOfFuel] is the
    value of a bounded loop whose bound was too small, and every theorem about
    such a loop shows that it is not reached. *)
Inductive outcome (A : Type) : Type :=
  | Ret (a : A)
  | Panic (msg : string)
  | OutOfFuel.
Arguments Ret {A} a.
Arguments Panic {A} msg.
Arguments OutOfFuel {A}.

#[global] Instance outcome_mret : MRet outcome := @Ret.

#[global] Instance outcome_mbind : MBind outcome := fun A B f m =>
  match m with
  | Ret a => f a
  | Panic s => Panic s
  | OutOfFuel => OutOfFuel
  end.

(** Rust's [Result<T, E>], a value like any other. *)
Inductive result (T E : Type) : Type :=
  | Ok (t : T)
  | Err (e : E).
Arguments Ok {T E} t.
Arguments Err {T E} e.

(** [Option::unwrap], [Option::expect] and [Result::expect]. *)
Definition expect {A} (msg : string) (o : option A) : outcome A :=
  match o with Some a => Ret a | None => Panic msg end.

Definition expect_ok {A E} (msg : string) (r : result A E) : outcome A :=
  match r with Ok a => Ret a | Err _ => Panic msg end.

(** [assert!(b, msg)]. *)
Definition assert_that (b : bool) (msg : string) : outcome unit :=
  if b then Ret tt else Panic msg.

(** [a[i] = v] on an array or slice: the index is checked. *)
Definition array_set {A} (l : list A) (i : Z) (v : A) : outcome (list A) :=
  if (0 <=? i) && (i <? Z.of_nat (length l)) then Ret (<[Z.to_nat i := v]> l)
  else Panic "index out of bounds".

(** Sequential [for] loops: the body runs once per element, in order, and a
    panic of one iteration is the panic of the loop. *)
Fixpoint foldM {A S} (body : S -> A -> outcome S) (xs : list A) (s : S) : outcome S :=
  match xs with
  | [] => Ret s
  | x :: rest => s' ← body s x; foldM body rest s'
  end.

(** [iter.map(f).collect()] for an [f] that may panic. *)
Fixpoint mapM_out {A B} (f : A -> outcome B) (xs : list A) : outcome (list B) :=
  match xs with
  | [] => Ret []
  | x :: rest => y ← f x; ys ← mapM_out f rest; Ret (y :: ys)
  end.

(** [0..n] as the list of its elements. *)
Definition range0 (n : Z) : list Z := seqZ 0 n.

(** [a..=b] on an integer type. *)
Definition range_incl (a b : Z) : list Z := seqZ a (b - a + 1).

(** * Machine integers *)

(** The build profile of the crate: with [overflow_checks] an arithmetic
    overflow panics (the [dev] profile), without them it wraps (the [release]
    profile, which [cargo install] of build.rs uses for initium). *)
Class Profile := overflow_checks : bool.

Definition u64_size : Z := 2 ^ 64.
Definition isize_min : Z := - 2 ^ 63.
Definition isize_max : Z := 2 ^ 63 - 1.

Definition wrap64 (z : Z) : Z := z mod u64_size.

(** Reading 64 bits as a two's complement number: [x as isize]. *)
Definition as_isize (z : Z) : Z :=
  let w := wrap64 z in if w <? 2 ^ 63 then w else w - u64_size.

(** [x as usize] / [x as u64]. *)
Definition as_usize (z : Z) : Z := wrap64 z.

Section Arithmetic.
Context {P : Profile}.

Definition arith_u64 (z : Z) : outcome Z :=
  if (0 <=? z) && (z <? u64_size) then Ret z
  else if overflow_checks then Panic "arithmetic overflow" else Ret (wrap64 z).

Definition arith_isize (z : Z) : outcome Z :=
  if (isize_min <=? z) && (z <=? isize_max) then Ret z
  else if overflow_checks then Panic "arithmetic overflow" else Ret (as_isize z).

Definition u64_add (a b : Z) : outcome Z := arith_u64 (a + b).
Definition u64_sub (a b : Z) : outcome Z := arith_u64 (a - b).
Definition u64_mul (a b : Z) : outcome Z := arith_u64 (a * b).

Definition isize_add (a b : Z) : outcome Z := arith_isize (a + b).
Definition isize_sub (a b : Z) : outcome Z := arith_isize (a - b).
Definition isize_mul (a b : Z) : outcome Z := arith_isize (a * b).
Definition isize_neg (a : Z) : outcome Z := arith_isize (- a).

Lemma arith_u64_ok z : 0 <= z < u64_size -> arith_u64 z = Ret z.
Proof.
  intros Hz. unfold arith_u64.
  destruct (Z.leb_spec 0 z), (Z.ltb_spec z u64_size); simpl; try lia; done.
Qed.

Lemma arith_isize_ok z : isize_min <= z <= isize_max -> arith_isize z = Ret z.
Proof.
  intros Hz. unfold arith_isize.
  destruct (Z.leb_spec isize_min z), (Z.leb_spec z isize_max); simpl; try lia; done.
Qed.

Lemma arith_u64_range z v : arith_u64 z = Ret v -> 0 <= v < u64_size.
Proof.
  unfold arith_u64, wrap64.
  destruct (Z.leb_spec 0 z), (Z.ltb_spec z u64_size), overflow_checks; simpl;
    intros [= <-]; try (split; lia);
    apply Z.mod_pos_bound; done.
Qed.

Lemma u64_add_ok a b : 0 <= a + b < u64_size -> u64_add a b = Ret (a + b).
Proof. apply arith_u64_ok. Qed.
Lemma u64_add_over a b : u64_size <= a + b ->
  u64_add a b = if overflow_checks then Panic "arithmetic overflow" else Ret (wrap64 (a + b)).
Proof.
  intros H. unfold u64_add, arith_u64. destruct (Z.ltb_spec (a + b) u64_size); [lia|]. by rewrite andb_false_r.
Qed.
Lemma u64_sub_ok a b : 0 <= a - b < u64_size -> u64_sub a b = Ret (a - b).
Proof. apply arith_u64_ok. Qed.
Lemma u64_mul_ok a b : 0 <= a * b < u64_size -> u64_mul a b = Ret (a * b).
Proof. apply arith_u64_ok. Qed.
Lemma isize_add_ok a b : isize_min <= a + b <= isize_max -> isize_add a b = Ret (a + b).
Proof. apply arith_isize_ok. Qed.
Lemma isize_sub_ok a b : isize_min <= a - b <= isize_max -> isize_sub a b = Ret (a - b).
Proof. apply arith_isize_ok. Qed.
Lemma isize_mul_ok a b : isize_min <= a * b <= isize_max -> isize_mul a b = Ret (a * b).
Proof. apply arith_isize_ok. Qed.
Lemma isize_neg_ok a : isize_min <= - a <= isize_max -> isize_neg a = Ret (- a).
Proof. apply arith_isize_ok. Qed.
End Arithmetic.

Lemma as_isize_id z : isize_min <= z <= isize_max -> as_isize z = z.
Proof.
  unfold isize_min, isize_max, as_isize, wrap64, u64_size. intros Hz.
  destruct (Z.ltb_spec (z mod 2 ^ 64) (2 ^ 63)) as [Hlt|Hge].
  - destruct (decide (0 <= z)).
    + rewrite Z.mod_small; lia.
    + rewrite <- (Z.mod_add z 1 (2 ^ 64)), Z.mod_small in Hlt by lia. lia.
  - destruct (decide (0 <= z)).
    + rewrite Z.mod_small in Hge; lia.
    + rewrite <- (Z.mod_add z 1 (2 ^ 64)), Z.mod_small by lia. lia.
Qed.

Lemma as_usize_id z : 0 <= z < u64_size -> as_usize z = z.
Proof. apply Z.mod_small. Qed.

(** A negative [isize] becomes a [usize] in the upper half of the range. *)
Lemma as_usize_neg z : isize_min <= z < 0 -> as_usize z = z + u64_size.
Proof.
  unfold as_usize, wrap64, u64_size, isize_min. intros Hz.
  rewrite <- (Z.mod_add z 1 (2 ^ 64)), Z.mod_small by lia. lia.
Qed.

(** * Laws of the outcome monad *)

Lemma bind_Ret {A B} (a : A) (f : A -> outcome B) : (Ret a ≫= f) = f a.
Proof. done. Qed.

Lemma bind_Panic {A B} (m : outcome A) (f : A -> outcome B) msg : m = Panic msg -> (m ≫= f) = Panic msg.
Proof. by intros ->. Qed.

Lemma bind_Ret_inv {A B} (m : outcome A) (f : A -> outcome B) b :
  (m ≫= f) = Ret b -> exists a, m = Ret a /\ f a = Ret b.
Proof. destruct m; simpl; [eauto|done|done]. Qed.

Lemma bind_assoc {A B C} (m : outcome A) (f : A -> outcome B) (g : B -> outcome C) :
  ((m ≫= f) ≫= g) = (m ≫= fun a => f a ≫= g).
Proof. by destruct m. Qed.

Lemma expect_inv {A} msg (o : option A) a : expect msg o = Ret a -> o = Some a.
Proof. by destruct o; intros [= ->]. Qed.

Lemma assert_that_inv b msg u : assert_that b msg = Ret u -> b = true.
Proof. by destruct b. Qed.

Lemma foldM_app {A S} (body : S -> A -> outcome S) xs ys s :
  foldM body (xs ++ ys) s = (foldM body xs s ≫= foldM body ys).
Proof.
  revert s. induction xs as [|x xs IH]; intros s; simpl; [done|].
  destruct (body s x); simpl; [apply IH|done|done].
Qed.

(** The loop rule for a loop that is to finish: an invariant indexed by the
    elements already processed. *)
Lemma foldM_invariant {A S} (I : list A -> S -> Prop) (body : S -> A -> outcome S) xs s :
  I [] s ->
  (forall done x rest s, xs = done ++ x :: rest -> I done s ->
     exists s', body s x = Ret s' /\ I (done ++ [x]) s') ->
  exists s', foldM body xs s = Ret s' /\ I xs s'.
Proof.
  intros H0 Hstep.
  assert (Hgen : forall rest don s, xs = don ++ rest -> I don s ->
    exists s', foldM body rest s = Ret s' /\ I xs s').
  { intros rest. induction rest as [|x rest IH]; intros don s1 Hxs HI; simpl.
    - exists s1. split; [done|]. by rewrite Hxs, app_nil_r.
    - destruct (Hstep don x rest s1 Hxs HI) as (s2 & Hs2 & HI2).
      rewrite Hs2. simpl. apply (IH (don ++ [x])); [|done].
      by rewrite <- app_assoc. }
  by apply (Hgen xs []).
Qed.

(** The same rule when the loop is known to have finished. *)
Lemma foldM_invariant_partial {A S} (I : list A -> S -> Prop)
    (body : S -> A -> outcome S) xs s s' :
  foldM body xs s = Ret s' ->
  I [] s ->
  (forall done x rest s1 s2, xs = done ++ x :: rest -> I done s1 ->
     body s1 x = Ret s2 -> I (done ++ [x]) s2) ->
  I xs s'.
Proof.
  intros Hrun H0 Hstep.
  assert (Hgen : forall rest don s1, xs = don ++ rest -> I don s1 ->
    foldM body rest s1 = Ret s' -> I xs s').
  { intros rest. induction rest as [|x rest IH]; intros don s1 Hxs HI Hr; simpl in Hr.
    - injection Hr as ->. by rewrite Hxs, app_nil_r.
    - apply bind_Ret_inv in Hr as (s2 & Hb & Hr).
      apply (IH (don ++ [x]) s2); [by rewrite <- app_assoc| |done].
      by apply (Hstep don x rest s1 s2). }
  by apply (Hgen xs [] s).
Qed.

(** * Array writes *)

Lemma array_set_ok {A} (l : list A) i v :
  0 <= i < Z.of_nat (length l) -> array_set l i v = Ret (<[Z.to_nat i := v]> l).
Proof.
  intros Hi. unfold array_set.
  destruct (Z.leb_spec 0 i), (Z.ltb_spec i (Z.of_nat (length l))); simpl; try lia; done.
Qed.

Lemma array_set_inv {A} (l : list A) i v l' :
  array_set l i v = Ret l' -> 0 <= i < Z.of_nat (length l) /\ l' = <[Z.to_nat i := v]> l.
Proof.
  unfold array_set.
  destruct (Z.leb_spec 0 i), (Z.ltb_spec i (Z.of_nat (length l))); simpl; intros [= <-]; auto.
Qed.

(** * Suffixes *)

Lemma tail_drop {A} n (l : list A) : tail (drop n l) = drop (S n) l.
Proof. revert l. induction n as [|n IH]; intros [|x l]; done || apply IH. Qed.

Lemma elem_of_drop {A} (x : A) n l : x ∈ drop n l -> x ∈ l.
Proof. intros Hx. rewrite <- (take_drop n l). apply elem_of_app. by right. Qed.

(** * Ranges *)

Lemma range0_lookup n i x : range0 n !! i = Some x <-> x = Z.of_nat i /\ Z.of_nat i < n.
Proof. unfold range0. rewrite lookup_seqZ. lia. Qed.

Lemma elem_of_range0 n x : x ∈ range0 n <-> 0 <= x < n.
Proof. unfold range0. rewrite elem_of_seqZ. lia. Qed.

Lemma elem_of_range_incl a b x : x ∈ range_incl a b <-> a <= x <= b.
Proof. unfold range_incl. rewrite elem_of_seqZ. lia. Qed.

(** * Aligned addresses *)

(** [a] rounded down to a multiple of [n]. *)
Definition round_down (a n : Z) : Z := a - a mod n.

Lemma round_down_id a n : n <> 0 -> (n | a) -> round_down a n = a.
Proof. intros Hn Hd. unfold round_down. apply Z.mod_divide in Hd; lia. Qed.

Lemma round_down_divide a n : n <> 0 -> (n | round_down a n).
Proof.
  intros Hn. exists (a / n). unfold round_down.
  pose proof (Z.div_mod a n Hn). lia.
Qed.

Lemma round_down_bounds a n : 0 < n -> round_down a n <= a < round_down a n + n.
Proof. intros Hn. unfold round_down. pose proof (Z.mod_pos_bound a n Hn). lia. Qed.

#[export] Instance divide_dec (a b : Z) : Decision (a | b).
Proof. apply Znumtheory.Zdivide_dec. Defined.

(** Two multiples of [n] that are less than [n] apart are equal. *)
Lemma divide_close a b n : 0 < n -> (n | a) -> (n | b) -> a <= b < a + n -> a = b.
Proof.
  intros Hn [x ->] [y ->] Hab.
  assert (x = y) as ->; [|done]. nia.
Qed.

(** Between a multiple of [n] and a larger one lies at least [n]. *)
Lemma divide_lt_step a b n : 0 < n -> (n | a) -> (n | b) -> a < b -> a + n <= b.
Proof.
  intros Hn [x ->] [y ->] Hab.
  assert (x < y) by nia. nia.
Qed.

Lemma round_down_le_multiple a b n :
  0 < n -> (n | a) -> a <= b -> a <= round_down b n.
Proof.
  intros Hn Ha Hab.
  pose proof (round_down_bounds b n Hn).
  destruct (decide (a <= round_down b n)) as [|Hgt]; [done|].
  pose proof (divide_lt_step (round_down b n) a n Hn
                (round_down_divide b n ltac:(lia)) Ha ltac:(lia)). lia.
Qed.

Lemma round_down_unique p a n : 0 < n -> (n | p) -> p <= a < p + n -> round_down a n = p.
Proof.
  intros Hn Hp Ha. pose proof (round_down_bounds a n Hn) as Hb. symmetry.
  apply (divide_close _ _ n Hn Hp); [apply round_down_divide; lia|].
  split; [by apply round_down_le_multiple; [done|..|lia]|lia].
Qed.

Lemma round_down_pred b n : 0 < n -> (n | b) -> round_down (b - 1) n = b - n.
Proof.
  intros Hn Hb.
  assert (Hd : (n | b - n)) by (apply Z.divide_sub_r; [done|apply Z.divide_refl]).
  pose proof (round_down_bounds (b - 1) n Hn).
  pose proof (round_down_le_multiple (b - n) (b - 1) n Hn Hd ltac:(lia)).
  symmetry. apply (divide_close _ _ n Hn Hd (round_down_divide (b - 1) n ltac:(lia))). lia.
Qed.

(** * Automation shared by the components *)

Create HintDb life discriminated.
#[export] Hint Resolve u64_add_ok u64_sub_ok u64_mul_ok isize_add_ok isize_sub_ok
  isize_mul_ok isize_neg_ok as_isize_id as_usize_id : life.
#[export] Hint Resolve round_down_divide Z.divide_refl : life.

(** Peel one monadic bind of a computation that is known to have returned. *)
Ltac bind_inv H :=
  let a := fresh "v" in
  let Ha := fresh "Hv" in
  apply bind_Ret_inv in H as (a & Ha & H).

(** Split the conditions of the goal and of the hypotheses that are tests on
    integers, and close what arithmetic closes. *)
Ltac case_tests :=
  repeat match goal with
    | |- context [?a <=? ?b] => destruct (Z.leb_spec a b)
    | |- context [?a <? ?b] => destruct (Z.ltb_spec a b)
    | |- context [?a =? ?b] => destruct (Z.eqb_spec a b)
    end.

Ltac case_tests_in H :=
  repeat match type of H with
    | context [?a <=? ?b] => destruct (Z.leb_spec a b)
    | context [?a <? ?b] => destruct (Z.ltb_spec a b)
    | context [?a =? ?b] => destruct (Z.eqb_spec a b)
    end.

(** Divisibility of a concrete number. *)
Ltac compute_divide := apply Z.mod_divide; [done|vm_compute; reflexivity].
