(* ===== verification/X86.v ===== *)
(** The x86_64 crate, as the operations of its address, page and frame types
    that initium and nukleus call.

    The crate is not part of the repository: its operations are the fields of
    the class [X86_64], and what the code relies on is the class
    [X86_64_Laws], each law a sentence of the crate's documentation.  An
    address is its [u64] value, a page or frame is its start address.  The
    instance [ref_x86_64] shows that the laws can be met, and the witnesses
    run on it. *)

From S2P Require Import Prelude.

(** [Size4KiB::SIZE] and [Size2MiB::SIZE]. *)
Definition Size4KiB : Z := 4096.
Definition Size2MiB : Z := 2097152.

(** Linear arithmetic on addresses of pages. *)
Ltac page_lia := unfold Size4KiB, Size2MiB in *; lia.

(** The addresses a 48-bit virtual address space has. *)
Definition canonical (a : Z) : Prop :=
  0 <= a < 2 ^ 47 \/ 2 ^ 64 - 2 ^ 47 <= a < 2 ^ 64.

#[export] Instance canonical_dec a : Decision (canonical a).
Proof. unfold canonical. apply _. Defined.

(** Copying bit 47 into the bits above it. *)
Definition sign_extend48 (a : Z) : Z :=
  let w := a mod 2 ^ 48 in if w <? 2 ^ 47 then w else w + (2 ^ 64 - 2 ^ 48).

(** The start addresses of the pages or frames of size [sz] from [s] to [e],
    both included. *)
Definition addr_range (sz s e : Z) : list Z :=
  (fun i => s + sz * i) <$> range0 ((e - s) / sz + 1).

Class X86_64 := {
  (* VirtAddr *)
  VirtAddr_try_new : Z -> result Z Z;
  VirtAddr_new : Z -> outcome Z;
  VirtAddr_add : Z -> Z -> outcome Z;
  VirtAddr_sub : Z -> Z -> outcome Z;
  VirtAddr_diff : Z -> Z -> outcome Z;
  VirtAddr_align_down : Z -> Z -> outcome Z;
  VirtAddr_is_aligned : Z -> Z -> bool;
  VirtAddr_forward_checked : Z -> Z -> option Z;
  VirtAddr_steps_between : Z -> Z -> option Z;
  (* PhysAddr *)
  PhysAddr_new : Z -> outcome Z;
  PhysAddr_add : Z -> Z -> outcome Z;
  PhysAddr_sub : Z -> Z -> outcome Z;
  PhysAddr_is_aligned : Z -> Z -> bool;
  (* PhysFrame<S>, the first argument is S::SIZE *)
  PhysFrame_containing_address : Z -> Z -> Z;
  PhysFrame_add : Z -> Z -> Z -> outcome Z;
  PhysFrame_sub : Z -> Z -> Z -> outcome Z;
  PhysFrame_range_inclusive : Z -> Z -> Z -> list Z;
  (* Page<S>, the first argument is S::SIZE *)
  Page_containing_address : Z -> Z -> Z;
  Page_from_start_address : Z -> Z -> result Z unit;
  Page_add : Z -> Z -> Z -> outcome Z;
  Page_range_inclusive : Z -> Z -> Z -> list Z;
  Page_p4_index : Z -> Z;
  Page_from_page_table_indices_1gib : Z -> Z -> Z;
  (* PageTableIndex, align_up *)
  PageTableIndex_new : Z -> outcome Z;
  align_up : Z -> Z -> outcome Z;
}.

Class X86_64_Laws (X : X86_64) : Prop := {
  (* "Creates a new canonical virtual address"; "panics if the bits in the
     range 48 to 64 contain data" *)
  virt_new_canonical a : canonical a -> VirtAddr_new a = Ret a;
  virt_new_range a v : VirtAddr_new a = Ret v -> canonical v;
  virt_new_panics a : 2 ^ 48 <= a < 2 ^ 64 - 2 ^ 47 -> exists m, VirtAddr_new a = Panic m;
  virt_try_new_canonical a : canonical a -> VirtAddr_try_new a = Ok a;
  (* arithmetic on addresses goes through the checked constructor *)
  virt_add_spec a n : 0 <= n -> 0 <= a -> a + n < 2 ^ 64 ->
    VirtAddr_add a n = VirtAddr_new (a + n);
  virt_sub_spec a n : 0 <= n <= a -> a < 2 ^ 64 -> VirtAddr_sub a n = VirtAddr_new (a - n);
  (* "A canonical 64-bit virtual memory address": the invariant of the type *)
  virt_add_range a n v : VirtAddr_add a n = Ret v -> canonical v;
  virt_sub_range a n v : VirtAddr_sub a n = Ret v -> canonical v;
  virt_diff_spec a b : 0 <= b <= a -> VirtAddr_diff a b = Ret (a - b);
  virt_align_down_spec a n k : n = 2 ^ k -> 0 <= k < 64 -> 0 <= a ->
    VirtAddr_align_down a n = Ret (round_down a n);
  virt_is_aligned_spec a n k : n = 2 ^ k -> 0 <= k < 64 ->
    VirtAddr_is_aligned a n = (a mod n =? 0);
  (* Step for VirtAddr, inside one half of the address space *)
  virt_forward_spec a n : 0 <= n -> 0 <= a -> a + n < 2 ^ 47 ->
    VirtAddr_forward_checked a n = Some (a + n);
  virt_steps_spec a b : 0 <= a <= b -> b < 2 ^ 47 ->
    VirtAddr_steps_between a b = Some (b - a);
  (* "panics if a bit in the range 52 to 64 is set" *)
  phys_new_spec a : 0 <= a < 2 ^ 52 -> PhysAddr_new a = Ret a;
  phys_new_panics a : 2 ^ 52 <= a < 2 ^ 64 -> exists m, PhysAddr_new a = Panic m;
  phys_new_range a v : PhysAddr_new a = Ret v -> v = a /\ 0 <= a < 2 ^ 52;
  phys_add_spec a n : 0 <= a -> 0 <= n -> a + n < 2 ^ 64 ->
    PhysAddr_add a n = PhysAddr_new (a + n);
  phys_sub_spec a n : 0 <= n <= a -> a < 2 ^ 64 -> PhysAddr_sub a n = PhysAddr_new (a - n);
  phys_sub_underflow a n : 0 <= a < n -> exists m, PhysAddr_sub a n = Panic m;
  phys_is_aligned_spec a n k : n = 2 ^ k -> 0 <= k < 64 ->
    PhysAddr_is_aligned a n = (a mod n =? 0);
  (* "Returns the frame (page) that contains the given address" *)
  frame_containing_spec sz a : sz = Size4KiB \/ sz = Size2MiB -> 0 <= a ->
    PhysFrame_containing_address sz a = round_down a sz;
  frame_add_spec sz f n : sz = Size4KiB \/ sz = Size2MiB -> (sz | f) ->
    0 <= f -> 0 <= n -> f + n * sz < 2 ^ 52 -> PhysFrame_add sz f n = Ret (f + n * sz);
  frame_add_result sz f n v : sz = Size4KiB \/ sz = Size2MiB -> (sz | f) ->
    0 <= f < 2 ^ 52 -> 0 <= n < 2 ^ 12 ->
    PhysFrame_add sz f n = Ret v -> v = f + n * sz /\ v < 2 ^ 52;
  frame_sub_spec sz f g : sz = Size4KiB \/ sz = Size2MiB -> (sz | f) -> (sz | g) ->
    0 <= g <= f -> PhysFrame_sub sz f g = Ret ((f - g) / sz);
  frame_range_spec sz s e : sz = Size4KiB \/ sz = Size2MiB -> (sz | s) -> (sz | e) ->
    0 <= s -> e + sz <= 2 ^ 52 -> PhysFrame_range_inclusive sz s e = addr_range sz s e;
  page_containing_spec sz a : sz = Size4KiB \/ sz = Size2MiB -> canonical a ->
    Page_containing_address sz a = round_down a sz;
  page_from_start_spec sz a : sz = Size4KiB \/ sz = Size2MiB -> canonical a ->
    Page_from_start_address sz a = if a mod sz =? 0 then Ok a else Err tt;
  page_add_spec sz p n : sz = Size4KiB \/ sz = Size2MiB -> (sz | p) ->
    0 <= p -> 0 <= n -> p + n * sz < 2 ^ 47 -> Page_add sz p n = Ret (p + n * sz);
  page_range_spec sz s e : sz = Size4KiB \/ sz = Size2MiB -> (sz | s) -> (sz | e) ->
    0 <= s -> e + sz <= 2 ^ 47 -> Page_range_inclusive sz s e = addr_range sz s e;
  (* "Returns the level 4 page table index of this page" *)
  page_p4_spec p : canonical p -> Page_p4_index p = (p / 2 ^ 39) mod 512;
  page_1gib_spec p4 p3 : 0 <= p4 < 512 -> 0 <= p3 < 512 ->
    Page_from_page_table_indices_1gib p4 p3 = sign_extend48 (p4 * 2 ^ 39 + p3 * 2 ^ 30);
  (* "Panics if the given value is >= 512" *)
  index_new_spec i : 0 <= i < 512 -> PageTableIndex_new i = Ret i;
  index_new_panics i : 512 <= i -> exists m, PageTableIndex_new i = Panic m;
  align_up_spec a n k : n = 2 ^ k -> 0 <= k < 64 -> 0 <= a -> a + n <= 2 ^ 64 ->
    align_up a n = Ret (round_down (a + n - 1) n);
}.

#[export] Hint Mode X86_64_Laws ! : typeclass_instances.

(** * A reference implementation *)

Definition ref_virt_try_new (a : Z) : result Z Z :=
  if bool_decide (canonical a) then Ok a
  else if bool_decide (2 ^ 47 <= a < 2 ^ 48) then Ok (sign_extend48 a)
  else Err a.

Definition ref_virt_new (a : Z) : outcome Z :=
  expect_ok "address passed to VirtAddr::new must not contain any data in bits 48 to 64"
    (ref_virt_try_new a).

Definition ref_phys_new (a : Z) : outcome Z :=
  if bool_decide (0 <= a < 2 ^ 52) then Ret a
  else Panic "physical addresses must not have any bits in the range 52 to 64 set".

#[export] Instance ref_x86_64 : X86_64 := {|
  VirtAddr_try_new := ref_virt_try_new;
  VirtAddr_new := ref_virt_new;
  VirtAddr_add a n := ref_virt_new (a + n);
  VirtAddr_sub a n := if n <=? a then ref_virt_new (a - n) else Panic "subtraction overflow";
  VirtAddr_diff a b := if b <=? a then Ret (a - b) else Panic "subtraction overflow";
  VirtAddr_align_down a n := Ret (round_down a n);
  VirtAddr_is_aligned a n := a mod n =? 0;
  VirtAddr_forward_checked a n := if a + n <? 2 ^ 47 then Some (a + n) else None;
  VirtAddr_steps_between a b := if a <=? b then Some (b - a) else None;
  PhysAddr_new := ref_phys_new;
  PhysAddr_add a n := ref_phys_new (a + n);
  PhysAddr_sub a n := if n <=? a then ref_phys_new (a - n) else Panic "subtraction overflow";
  PhysAddr_is_aligned a n := a mod n =? 0;
  PhysFrame_containing_address sz a := round_down a sz;
  PhysFrame_add sz f n := ref_phys_new (f + n * sz);
  PhysFrame_sub sz f g := if g <=? f then Ret ((f - g) / sz) else Panic "subtraction overflow";
  PhysFrame_range_inclusive := addr_range;
  Page_containing_address sz a := round_down a sz;
  Page_from_start_address sz a := if a mod sz =? 0 then Ok a else Err tt;
  Page_add sz p n := ref_virt_new (p + n * sz);
  Page_range_inclusive := addr_range;
  Page_p4_index p := (p / 2 ^ 39) mod 512;
  Page_from_page_table_indices_1gib p4 p3 := sign_extend48 (p4 * 2 ^ 39 + p3 * 2 ^ 30);
  PageTableIndex_new i := if i <? 512 then Ret i else Panic "index out of range";
  align_up a n := Ret (round_down (a + n - 1) n);
|}.

Lemma mod_eqb_divide a n : 0 < n -> (a mod n =? 0) = true <-> (n | a).
Proof. intros Hn. by rewrite Z.eqb_eq, Z.mod_divide by lia. Qed.

Lemma ref_virt_new_canonical a : canonical a -> ref_virt_new a = Ret a.
Proof. intros H. unfold ref_virt_new, ref_virt_try_new. by rewrite bool_decide_true. Qed.

Lemma sign_extend48_canonical a : canonical (sign_extend48 a).
Proof.
  unfold sign_extend48, canonical.
  pose proof (Z.mod_pos_bound a (2 ^ 48) ltac:(lia)).
  case_tests; lia.
Qed.

Lemma ref_virt_new_range a v : ref_virt_new a = Ret v -> canonical v.
Proof.
  unfold ref_virt_new, ref_virt_try_new.
  repeat case_bool_decide; intros [= <-]; [done|]. apply sign_extend48_canonical.
Qed.

Lemma ref_virt_new_panics a :
  2 ^ 48 <= a < 2 ^ 64 - 2 ^ 47 -> exists m, ref_virt_new a = Panic m.
Proof.
  intros H. unfold ref_virt_new, ref_virt_try_new, canonical.
  rewrite !bool_decide_false by lia. by eexists.
Qed.

Lemma ref_phys_new_ok a : 0 <= a < 2 ^ 52 -> ref_phys_new a = Ret a.
Proof. intros H. unfold ref_phys_new. by rewrite bool_decide_true. Qed.

Lemma ref_phys_new_range a v : ref_phys_new a = Ret v -> v = a /\ 0 <= a < 2 ^ 52.
Proof. unfold ref_phys_new. case_bool_decide; intros [= <-]. done. Qed.

#[export] Instance ref_x86_64_laws : X86_64_Laws ref_x86_64.
Proof.
  split; simpl.
  - apply ref_virt_new_canonical.
  - apply ref_virt_new_range.
  - apply ref_virt_new_panics.
  - intros a Ha. unfold ref_virt_try_new. by rewrite bool_decide_true.
  - done.
  - intros a n Hn _. by destruct (Z.leb_spec n a); [|lia].
  - intros a n v. apply ref_virt_new_range.
  - intros a n v. destruct (n <=? a); [apply ref_virt_new_range|done].
  - intros a b Hab. by destruct (Z.leb_spec b a); [|lia].
  - done.
  - done.
  - intros a n ? ? ?. by destruct (Z.ltb_spec (a + n) (2 ^ 47)); [|lia].
  - intros a b ? ?. by destruct (Z.leb_spec a b); [|lia].
  - apply ref_phys_new_ok.
  - intros a Ha. unfold ref_phys_new. rewrite bool_decide_false by lia. by eexists.
  - apply ref_phys_new_range.
  - done.
  - intros a n Hn _. by destruct (Z.leb_spec n a); [|lia].
  - intros a n Hn. destruct (Z.leb_spec n a); [lia|]. by eexists.
  - done.
  - done.
  - intros sz f n Hsz _ Hf Hn Hb. apply ref_phys_new_ok.
    destruct Hsz as [-> | ->]; unfold Size4KiB, Size2MiB in *; lia.
  - intros sz f n v _ _ _ _ Hv. apply ref_phys_new_range in Hv as [-> ?]. lia.
  - intros sz f g _ _ _ H. by destruct (Z.leb_spec g f); [|lia].
  - done.
  - done.
  - done.
  - intros sz p n Hsz _ Hf Hn Hb. apply ref_virt_new_canonical. left.
    destruct Hsz as [-> | ->]; unfold Size4KiB, Size2MiB in *; lia.
  - done.
  - done.
  - done.
  - intros i Hi. by destruct (Z.ltb_spec i 512); [|lia].
  - intros i Hi. destruct (Z.ltb_spec i 512); [lia|]. by eexists.
  - done.
Qed.

(** * Consequences used by the components *)

Section Consequences.
Context {X : X86_64} {XL : X86_64_Laws X}.

Lemma virt_new_low a : 0 <= a < 2 ^ 47 -> VirtAddr_new a = Ret a.
Proof. intros H. apply virt_new_canonical. by left. Qed.

Lemma virt_add_low a n : 0 <= a -> 0 <= n -> a + n < 2 ^ 47 -> VirtAddr_add a n = Ret (a + n).
Proof. intros. rewrite virt_add_spec by lia. apply virt_new_low. lia. Qed.

Lemma virt_sub_low a n : 0 <= n <= a -> a < 2 ^ 47 -> VirtAddr_sub a n = Ret (a - n).
Proof. intros. rewrite virt_sub_spec by lia. apply virt_new_low. lia. Qed.

Lemma phys_add_ok a n : 0 <= a -> 0 <= n -> a + n < 2 ^ 52 -> PhysAddr_add a n = Ret (a + n).
Proof. intros. rewrite phys_add_spec by lia. apply phys_new_spec. lia. Qed.

Lemma phys_sub_ok a n : 0 <= n <= a -> a < 2 ^ 52 -> PhysAddr_sub a n = Ret (a - n).
Proof. intros. rewrite phys_sub_spec by lia. apply phys_new_spec. lia. Qed.

Lemma frame_containing_4k a : 0 <= a -> PhysFrame_containing_address Size4KiB a = round_down a Size4KiB.
Proof. apply frame_containing_spec. by left. Qed.

Lemma page_containing_4k a : 0 <= a < 2 ^ 47 -> Page_containing_address Size4KiB a = round_down a Size4KiB.
Proof. intros H. apply page_containing_spec; [by left|]. by left. Qed.

(** The level 4 index of the page that contains an address. *)
Lemma p4_index_containing a : canonical a ->
  Page_p4_index (Page_containing_address Size4KiB a) = (a / 2 ^ 39) mod 512.
Proof.
  intros Ha. rewrite page_containing_spec by (try (by left); done).
  assert (Hr : canonical (round_down a Size4KiB)).
  { pose proof (round_down_bounds a Size4KiB ltac:(done)).
    unfold canonical in *. destruct Ha as [Ha|Ha].
    - left. pose proof (round_down_le_multiple 0 a Size4KiB ltac:(done)
        (Z.divide_0_r _) ltac:(lia)). lia.
    - right. pose proof (round_down_le_multiple (2 ^ 64 - 2 ^ 47) a Size4KiB ltac:(done)
        ltac:(exists (2 ^ 52 - 2 ^ 35); done) ltac:(lia)). lia. }
  rewrite page_p4_spec by done. f_equal.
  unfold round_down, Size4KiB.
  pose proof (Z.mod_pos_bound a 4096 ltac:(lia)).
  pose proof (Z.mod_pos_bound a (2 ^ 39) ltac:(lia)).
  symmetry. apply (Z.div_unique_pos _ _ _ (a mod 2 ^ 39 - a mod 4096)).
  - assert (a mod 4096 = (a mod 2 ^ 39) mod 4096) as ->.
    { rewrite Z.mod_mod_divide; [done|]. by exists (2 ^ 27). }
    pose proof (Z.mod_le (a mod 2 ^ 39) 4096 ltac:(lia) ltac:(lia)).
    pose proof (Z.mod_pos_bound (a mod 2 ^ 39) 4096 ltac:(lia)). lia.
  - pose proof (Z.div_mod a (2 ^ 39) ltac:(lia)). lia.
Qed.
End Consequences.

Lemma Size4KiB_pos : 0 < Size4KiB.
Proof. done. Qed.
#[export] Hint Resolve Size4KiB_pos virt_new_low virt_add_low virt_sub_low phys_add_ok
  phys_sub_ok phys_new_spec : life.

(** Membership in a range of pages or frames. *)
Lemma elem_of_addr_range sz s e x :
  0 < sz -> (sz | s) -> (sz | e) ->
  x ∈ addr_range sz s e <-> (sz | x) /\ s <= x <= e.
Proof.
  intros Hsz Hs He. unfold addr_range. rewrite list_elem_of_fmap.
  setoid_rewrite elem_of_range0.
  destruct Hs as [i ->], He as [j ->].
  rewrite <- Z.mul_sub_distr_r, Z.div_mul by lia.
  split.
  - intros (k & -> & Hk). split; [exists (i + k); lia|]. nia.
  - intros [[k ->] Hk]. exists (k - i). split; [lia|].
    split; [nia|]. assert (k <= j) by nia. lia.
Qed.

Lemma addr_range_empty sz s e : 0 < sz -> (sz | s) -> (sz | e) -> e < s -> addr_range sz s e = [].
Proof.
  intros Hsz [i ->] [j ->] Hlt. unfold addr_range, range0.
  rewrite <- Z.mul_sub_distr_r, Z.div_mul by lia.
  rewrite seqZ_nil; [done|]. nia.
Qed.

Lemma addr_range_lookup sz s e i x :
  0 < sz -> addr_range sz s e !! i = Some x <->
    x = s + sz * Z.of_nat i /\ Z.of_nat i < (e - s) / sz + 1.
Proof.
  intros Hsz. unfold addr_range. rewrite list_lookup_fmap, fmap_Some.
  setoid_rewrite range0_lookup.
  split; [intros (k & (-> & ?) & ->); done | intros [-> ?]; by exists (Z.of_nat i)].
Qed.

Lemma addr_range_NoDup sz s e : 0 < sz -> NoDup (addr_range sz s e).
Proof.
  intros Hsz. unfold addr_range, range0. apply NoDup_fmap_2.
  - intros a b ?. nia.
  - apply NoDup_seqZ.
Qed.

Lemma addr_range_cons sz s e :
  0 < sz -> (sz | s) -> (sz | e) -> s <= e ->
  addr_range sz s e = s :: addr_range sz (s + sz) e.
Proof.
  intros Hsz [i ->] [j ->] Hle. unfold addr_range, range0.
  replace (j * sz - (i * sz + sz)) with ((j - i - 1) * sz) by lia.
  rewrite <- Z.mul_sub_distr_r, !Z.div_mul by lia.
  rewrite seqZ_cons by nia. simpl. f_equal; [lia|].
  replace (Z.succ 0) with 1 by lia. replace (Z.pred (j - i + 1)) with (j - i) by lia.
  replace (j - i - 1 + 1) with (j - i) by lia.
  rewrite <- (fmap_add_seqZ 1 0), <- list_fmap_compose.
  apply list_fmap_ext. intros k x _. simpl. lia.
Qed.

Lemma seqZ_sorted m n : StronglySorted Z.lt (seqZ m n).
Proof.
  unfold seqZ. apply (StronglySorted_fmap _ lt); [lia|].
  generalize 0%nat. induction (Z.to_nat n) as [|k IH]; intros i; simpl; constructor; [done|].
  apply Forall_forall. intros j [? ?]%elem_of_seq. lia.
Qed.

Lemma addr_range_sorted sz s e : 0 < sz -> StronglySorted Z.lt (addr_range sz s e).
Proof.
  intros Hsz. unfold addr_range. apply (StronglySorted_fmap _ Z.lt); [nia|]. apply seqZ_sorted.
Qed.

Lemma sorted_lt_NoDup (l : list Z) : StronglySorted Z.lt l -> NoDup l.
Proof.
  induction 1 as [|x l _ IH Hall]; constructor; [|done].
  intros Hx. rewrite Forall_forall in Hall. specialize (Hall x Hx). lia.
Qed.
