(* ===== verification/Synapse.v ===== *)
(** synapse: the types that initium and nukleus share (synapse/src).

    Every struct is a [Record], every enum an [Inductive]; [u64] and [usize]
    fields are [Z].  A [MemoryRegions] is a raw pointer and a length, so its
    [Deref] reads a store of regions. *)

From S2P Require Import Prelude.

(** * synapse/src/optional.rs *)

Module Optional.
Inductive t (T : Type) : Type :=
  | Some_ (x : T)
  | None_.
Arguments Some_ {T} x.
Arguments None_ {T}.

(** [impl From<Option<T>> for Optional<T>] *)
Definition from_option {T} (v : option T) : t T :=
  match v with Some v => Some_ v | None => None_ end.

(** [impl From<Optional<T>> for Option<T>] *)
Definition to_option {T} (o : t T) : option T :=
  match o with Some_ v => Some v | None_ => None end.

Definition into_option {T} (self : t T) : option T := to_option self.

Definition as_ref {T} (self : t T) : option T :=
  match self with Some_ x => Some x | None_ => None end.

Lemma to_from {T} (v : option T) : to_option (from_option v) = v.
Proof. by destruct v. Qed.

Lemma from_to {T} (o : t T) : from_option (to_option o) = o.
Proof. by destruct o. Qed.
End Optional.

(** * synapse/src/memory.rs *)

Inductive MemoryRegionKind : Type :=
  | Usable
  | Bootloader
  | UnknownUefi (ty : Z).

#[export] Instance MemoryRegionKind_eq_dec : EqDecision MemoryRegionKind.
Proof. solve_decision. Defined.

Record MemoryRegion : Type := mkMemoryRegion {
  start : Z;
  end_ : Z;
  kind : MemoryRegionKind;
}.

#[export] Instance MemoryRegion_eq_dec : EqDecision MemoryRegion.
Proof. solve_decision. Defined.

Definition MemoryRegion_empty : MemoryRegion := mkMemoryRegion 0 0 Bootloader.

(** The addresses of a region. *)
Definition in_region (a : Z) (r : MemoryRegion) : Prop := start r <= a < end_ r.

#[export] Instance in_region_dec a r : Decision (in_region a r).
Proof. unfold in_region. apply _. Defined.

Record MemoryRegions : Type := mkMemoryRegions { ptr : Z; len : Z }.

(** A slice [&'static mut [MemoryRegion]] is its address and its length. *)
Record RegionSlice : Type := mkRegionSlice { as_mut_ptr : Z; slice_len : Z }.

(** [size_of::<MemoryRegion>()] of the [repr(C)] struct: two [u64] and the
    tag and payload of the [repr(C)] enum. *)
Definition size_of_MemoryRegion : Z := 24.

(** [From<&'static mut [MemoryRegion]> for MemoryRegions] and its inverse. *)
Definition MemoryRegions_from (regions : RegionSlice) : MemoryRegions :=
  mkMemoryRegions (as_mut_ptr regions) (slice_len regions).

Definition MemoryRegions_into (regions : MemoryRegions) : RegionSlice :=
  mkRegionSlice (ptr regions) (len regions).

(** [Deref]: the [len] regions stored from [ptr] on. *)
Definition MemoryRegions_deref (store : Z -> MemoryRegion) (self : MemoryRegions)
  : list MemoryRegion :=
  (fun i => store (ptr self + i * size_of_MemoryRegion)) <$> range0 (len self).

(** * synapse/src/tls_template.rs *)

Record TlsTemplate : Type := mkTlsTemplate {
  start_address : Z;
  file_size : Z;
  mem_size : Z;
}.

(** * synapse/src/framebuffer.rs *)

Inductive PixelFormat : Type := Rgb | Bgr.

#[export] Instance PixelFormat_eq_dec : EqDecision PixelFormat.
Proof. solve_decision. Defined.

Record Color : Type := mkColor { red : Z; green : Z; blue : Z }.

#[export] Instance Color_eq_dec : EqDecision Color.
Proof. solve_decision. Defined.

Record FramebufferInfo : Type := mkFramebufferInfo {
  width : Z;
  height : Z;
  pixel_format : PixelFormat;
  byte_len : Z;
  bytes_per_pixel : Z;
  stride : Z;
}.

Record Framebuffer : Type := mkFramebuffer {
  fb_start_address : Z;
  fb_info : FramebufferInfo;
}.

Definition Framebuffer_new (start_address : Z) (info : FramebufferInfo) : Framebuffer :=
  mkFramebuffer start_address info.

(** [buffer], [buffer_mut] and [into_buffer]: the [byte_len] bytes of memory
    from [start_address] on. *)
Definition create_buffer (mem : Z -> Z) (self : Framebuffer) : list Z :=
  (fun i => mem (fb_start_address self + i)) <$> range0 (byte_len (fb_info self)).

(** * synapse/src/boot.rs *)

Record BootConfig : Type := mkBootConfig {
  framebuffer_width : Z;
  framebuffer_height : Z;
}.

Record BootInfo : Type := mkBootInfo {
  memory_regions : MemoryRegions;
  framebuffer : Optional.t Framebuffer;
  physical_memory_offset : Optional.t Z;
  rsdp_address : Optional.t Z;
  tls_template : Optional.t TlsTemplate;
  ramdisk_address : Optional.t Z;
  ramdisk_len : Z;
}.

Definition BootInfo_new (regions : MemoryRegions) : BootInfo := {|
  memory_regions := regions;
  framebuffer := Optional.None_;
  physical_memory_offset := Optional.None_;
  rsdp_address := Optional.None_;
  tls_template := Optional.None_;
  ramdisk_address := Optional.None_;
  ramdisk_len := 0;
|}.
