(* ===== verification/Entries.v ===== *)
(** initium/src/entries.rs: which of the 512 level 4 page table entries of the
    kernel's address space are in use, and the reservation of free ones.

    An [Entries] value is the [entry_state] array.  Each level 4 entry covers
    2^39 bytes of virtual addresses, so reserving entries reserves address
    ranges; the theorems state that reservations never overlap each other, a
    marked segment, or entry 0. *)

From S2P Require Import Prelude X86.

(** * kernel.rs: VirtualAddressOffset

    The offset added to every virtual address of the kernel file, an [i128]. *)

Module VirtualAddressOffset.
Record t := mk { virtual_address_offset : Z }.

Definition zero : t := mk 0.

(** [Add<u64>]: the sum is computed in [i128] and must be a [u64]. *)
Definition add (self : t) (offset : Z) : outcome Z :=
  let s := virtual_address_offset self + offset in
  if (0 <=? s) && (s <? u64_size) then Ret s
  else Panic "called `Result::unwrap()` on an `Err` value: TryFromIntError".

Lemma add_ok self offset :
  0 <= virtual_address_offset self + offset < u64_size ->
  add self offset = Ret (virtual_address_offset self + offset).
Proof.
  intros H. unfold add. cbv zeta. case_tests; simpl; try lia; done.
Qed.

Lemma add_inv self offset v :
  add self offset = Ret v ->
  v = virtual_address_offset self + offset /\ 0 <= v < u64_size.
Proof. unfold add. cbv zeta. case_tests; simpl; intros [= <-]; lia. Qed.
End VirtualAddressOffset.

Record Entries : Type := mkEntries { entry_state : list bool }.

(** [const LEVEL_4_SIZE] *)
Definition LEVEL_4_SIZE : Z := 4096 * 512 * 512 * 512.

Definition Entries_new : Entries :=
  mkEntries (<[0%nat := true]> (replicate 512 false)).

Definition mark_p4_index_as_used (self : Entries) (p4_index : Z) : outcome Entries :=
  st ← array_set (entry_state self) p4_index true;
  Ret (mkEntries st).

(** [slice::windows(n)], which panics for [n = 0]. *)
Definition windows {A} (n : nat) (l : list A) : outcome (list (list A)) :=
  if decide (n = 0%nat) then Panic "window size must be non-zero"
  else Ret ((fun i => take n (drop i l)) <$> seq 0 (S (length l) - n)).

(** [enumerate().filter(all unused).map(index)] *)
Definition unused_indices (ws : list (list bool)) : list nat :=
  fst <$> filter (fun iw => forallb negb (snd iw) = true) (imap pair ws).

(** [u64::is_power_of_two] *)
Definition is_power_of_two (n : Z) : bool := (0 <? n) && (n =? 2 ^ Z.log2 n).

Section Operations.
Context {X : X86_64} {P : Profile}.

Definition mark_range_as_used (self : Entries) (address size : Z) : outcome Entries :=
  start ← VirtAddr_new address;
  end_ ← VirtAddr_add start size;
  end_inclusive ← VirtAddr_sub end_ 1;
  let start_page := Page_containing_address Size4KiB start in
  let end_page_inclusive := Page_containing_address Size4KiB end_inclusive in
  foldM (fun st p4_index =>
           i ← PageTableIndex_new p4_index; mark_p4_index_as_used st i)
    (range_incl (Page_p4_index start_page) (Page_p4_index end_page_inclusive)) self.

(** A segment is given by its [virtual_addr()] and [mem_size()]. *)
Definition mark_segments (self : Entries) (segments : list (Z * Z))
    (virtual_address_offset : VirtualAddressOffset.t) : outcome Entries :=
  foldM (fun st segment =>
           a ← VirtualAddressOffset.add virtual_address_offset (fst segment);
           mark_range_as_used st a (snd segment))
    (filter (fun s => 0 < snd s) segments) self.

Definition get_free_entries (self : Entries) (num : Z) : outcome (Z * Entries) :=
  ws ← windows (Z.to_nat num) (entry_state self);
  match head (unused_indices ws) with
  | None => Panic "no usable level 4 entries found"
  | Some idx =>
      st ← foldM (fun st i => array_set st (Z.of_nat idx + i) true)
             (range0 num) (entry_state self);
      p4 ← PageTableIndex_new (Z.of_nat idx);
      Ret (p4, mkEntries st)
  end.

Definition get_free_address (self : Entries) (size alignment : Z)
  : outcome (Z * Entries) :=
  _ ← assert_that (is_power_of_two alignment) "assertion failed: alignment.is_power_of_two()";
  s ← u64_add size (LEVEL_4_SIZE - 1);
  let level_4_entries := s / LEVEL_4_SIZE in
  r ← get_free_entries self level_4_entries;
  p3 ← PageTableIndex_new 0;
  Ret (Page_from_page_table_indices_1gib (fst r) p3, snd r).
End Operations.

(** * Invariant *)

(** The entry that an index names. *)
Definition used (e : Entries) (i : Z) : Prop := entry_state e !! Z.to_nat i = Some true.

#[export] Instance used_dec e i : Decision (used e i).
Proof. unfold used. apply _. Defined.

Record wf (e : Entries) : Prop := {
  wf_length : length (entry_state e) = 512%nat;
  wf_zero : used e 0;
}.

Lemma wf_new : wf Entries_new.
Proof. by split. Qed.

Lemma not_used_lookup e i :
  length (entry_state e) = 512%nat -> 0 <= i < 512 ->
  ~ used e i <-> entry_state e !! Z.to_nat i = Some false.
Proof.
  intros Hlen Hi. unfold used.
  destruct (lookup_lt_is_Some_2 (entry_state e) (Z.to_nat i)) as [b Hb]; [lia|].
  rewrite Hb. destruct b; naive_solver.
Qed.

(** What marking a set of indices does to the array. *)
Definition marks (Q : Z -> Prop) (e e' : Entries) : Prop :=
  length (entry_state e') = length (entry_state e) /\
  forall i, 0 <= i < 512 -> used e' i <-> used e i \/ Q i.

Lemma marks_wf Q e e' : wf e -> marks Q e e' -> wf e'.
Proof.
  intros [Hlen H0] [Hlen' Hm]. split; [congruence|].
  apply Hm; [lia|]. by left.
Qed.

Lemma marks_refl e : marks (fun _ => False) e e.
Proof. split; [done|]. tauto. Qed.

Lemma marks_trans Q R e1 e2 e3 :
  marks Q e1 e2 -> marks R e2 e3 -> marks (fun i => Q i \/ R i) e1 e3.
Proof.
  intros [HL1 H1] [HL2 H2]. split; [congruence|].
  intros i Hi. rewrite H2, H1 by done. tauto.
Qed.

Lemma marks_ext Q R e e' :
  (forall i, 0 <= i < 512 -> Q i <-> R i) -> marks Q e e' -> marks R e e'.
Proof. intros HQR [HL H]. split; [done|]. intros i Hi. rewrite H, HQR by done. done. Qed.

Lemma array_set_marks l i l' :
  length l = 512%nat -> array_set l i true = Ret l' ->
  marks (fun j => j = i) (mkEntries l) (mkEntries l').
Proof.
  intros Hlen [Hi ->]%array_set_inv. split; simpl; [apply length_insert|].
  intros j Hj. unfold used; simpl.
  destruct (decide (j = i)) as [->|Hne].
  - rewrite list_lookup_insert_eq by lia. tauto.
  - rewrite list_lookup_insert_ne by lia. tauto.
Qed.

Lemma foldM_array_set_marks idx xs l l' :
  length l = 512%nat ->
  foldM (fun st i => array_set st (idx + i) true) xs l = Ret l' ->
  marks (fun j => exists k, k ∈ xs /\ j = idx + k) (mkEntries l) (mkEntries l').
Proof.
  revert l. induction xs as [|x xs IH]; intros l Hlen H; simpl in H.
  - injection H as <-. eapply marks_ext; [|apply marks_refl].
    intros i _. split; [done|]. by intros (k & Hk%elem_of_nil & _).
  - bind_inv H. pose proof (array_set_marks _ _ _ Hlen Hv) as Hm.
    assert (Hlen' : length v = 512%nat) by (destruct Hm as [Hl _]; simpl in Hl; lia).
    eapply marks_ext; [|exact (marks_trans _ _ _ _ _ Hm (IH _ Hlen' H))].
    intros i _. simpl. setoid_rewrite elem_of_cons. naive_solver.
Qed.

(** * Searching for a free window *)

(** Entries [idx .. idx + n) exist and are unused. *)
Definition window_free (l : list bool) (idx n : nat) : Prop :=
  (idx + n <= length l)%nat /\
  forall k, (idx <= k < idx + n)%nat -> l !! k = Some false.

Lemma forallb_negb_lookup (w : list bool) :
  forallb negb w = true <-> forall k b, w !! k = Some b -> b = false.
Proof.
  rewrite forallb_forall. split.
  - intros H k b Hk. apply list_elem_of_lookup_2, list_elem_of_In, H in Hk.
    by apply negb_true_iff.
  - intros H b Hb. apply negb_true_iff.
    apply list_elem_of_In, list_elem_of_lookup_1 in Hb as [k Hk]. eauto.
Qed.

Lemma window_free_take_drop l idx n :
  (idx + n <= length l)%nat ->
  forallb negb (take n (drop idx l)) = true <-> window_free l idx n.
Proof.
  intros Hlen. rewrite forallb_negb_lookup. unfold window_free. split.
  - intros H. split; [done|]. intros k Hk.
    destruct (lookup_lt_is_Some_2 l k) as [b Hb]; [lia|].
    rewrite Hb. f_equal. apply (H (k - idx)%nat).
    rewrite lookup_take_lt, lookup_drop by lia.
    by replace (idx + (k - idx))%nat with k by lia.
  - intros [_ H] k b Hk. apply lookup_take_Some in Hk as [Hk Hlt].
    rewrite lookup_drop, H in Hk by lia. by injection Hk as <-.
Qed.

Lemma windows_lookup (l : list bool) n ws i w :
  windows n l = Ret ws -> (n <= length l)%nat ->
  ws !! i = Some w <-> (i + n <= length l)%nat /\ w = take n (drop i l).
Proof.
  unfold windows. case_decide; intros [= <-] Hn.
  rewrite list_lookup_fmap, fmap_Some. setoid_rewrite lookup_seq. split.
  - intros (? & [-> ?] & ->). simpl. split; [lia|done].
  - intros [? ->]. exists i. split; [lia|done].
Qed.

(** The head of the filtered enumeration is the first index that passes. *)
Lemma head_filter_imap {A} (Q : A -> Prop) `{!forall x, Decision (Q x)} (ws : list A) k :
  match head (fst <$> filter (fun iw => Q (snd iw)) (imap (fun i => pair (k + i)%nat) ws)) with
  | Some idx => exists i w, idx = (k + i)%nat /\ ws !! i = Some w /\ Q w /\
      forall j w', (j < i)%nat -> ws !! j = Some w' -> ~ Q w'
  | None => forall j w, ws !! j = Some w -> ~ Q w
  end.
Proof.
  revert k. induction ws as [|w ws IH]; intros k; simpl; [done|].
  destruct (decide (Q w)) as [Hq|Hq].
  - rewrite filter_cons_True by done. simpl.
    exists 0%nat, w. split_and!; [lia|done|done|lia].
  - rewrite filter_cons_False by done.
    specialize (IH (S k)).
    replace (imap ((fun i => pair (k + i)%nat) ∘ S) ws)
      with (imap (fun i => pair (S k + i)%nat) ws)
      by (apply imap_ext; intros; simpl; f_equal; lia).
    destruct (head _) as [idx|].
    + destruct IH as (i & w' & -> & Hi & Hw & Hmin). exists (S i), w'.
      split_and!; [lia|done|done|].
      intros [|j] w'' Hj Hl; simpl in Hl; [naive_solver|]. apply (Hmin j); [lia|done].
    + intros [|j] w' Hl; simpl in Hl; [naive_solver|]. by apply (IH j).
Qed.

Lemma unused_indices_head l n ws :
  windows n l = Ret ws -> (n <= length l)%nat ->
  match head (unused_indices ws) with
  | Some idx => window_free l idx n /\ forall j, (j < idx)%nat -> ~ window_free l j n
  | None => forall j, ~ window_free l j n
  end.
Proof.
  intros Hw Hn.
  pose proof (head_filter_imap (fun w => forallb negb w = true) ws 0) as H.
  unfold unused_indices. simpl in H.
  change (fun i : nat => pair i) with (@pair nat (list bool)) in H.
  destruct (head _) as [idx|].
  - destruct H as (i & w & -> & Hi & Hq & Hmin).
    apply (windows_lookup l n ws i w Hw Hn) in Hi as [Hi ->].
    apply window_free_take_drop in Hq; [|done].
    split; [done|]. intros j Hj Hf.
    assert (Hjl : (j + n <= length l)%nat) by apply Hf.
    apply (Hmin j (take n (drop j l)) Hj); [by apply (windows_lookup l n ws j _ Hw Hn)|].
    by apply window_free_take_drop.
  - intros j Hf.
    assert (Hjl : (j + n <= length l)%nat) by apply Hf.
    apply (H j (take n (drop j l))); [by apply (windows_lookup l n ws j _ Hw Hn)|].
    by apply window_free_take_drop.
Qed.

Section Reservation.
Context {X : X86_64} {XL : X86_64_Laws X} {P : Profile}.

Lemma foldM_array_set_total idx xs l :
  (forall x, x ∈ xs -> 0 <= idx + x < Z.of_nat (length l)) ->
  exists l', foldM (fun st i => array_set st (idx + i) true) xs l = Ret l'.
Proof.
  revert l. induction xs as [|x xs IH]; intros l Hb; simpl; [eauto|].
  rewrite array_set_ok by (apply Hb; set_solver). simpl.
  apply IH. intros y Hy. rewrite length_insert. apply Hb. set_solver.
Qed.

(** The reservation of [num] entries: the first free window is found and
    marked, and there is a panic exactly when there is none. *)
Lemma get_free_entries_result e num :
  wf e -> 0 < num ->
  (exists idx e', get_free_entries e num = Ret (idx, e') /\
     0 <= idx /\ idx + num <= 512 /\
     (forall i, idx <= i < idx + num -> ~ used e i) /\
     (forall j, 0 <= j < idx -> exists i, j <= i < j + num /\ used e i) /\
     marks (fun i => idx <= i < idx + num) e e')
  \/ ((forall idx, 0 <= idx -> idx + num <= 512 ->
        exists i, idx <= i < idx + num /\ used e i) /\
      exists m, get_free_entries e num = Panic m).
Proof.
  intros [Hlen _] Hnum. set (l := entry_state e) in *.
  unfold get_free_entries. fold l.
  destruct (windows (Z.to_nat num) l) as [ws|m|] eqn:Hw;
    [|unfold windows in Hw; case_decide; [lia|done]|unfold windows in Hw; by case_decide].
  rewrite bind_Ret. simpl.
  destruct (decide (num <= 512)) as [Hle|Hgt].
  2: { right. split; [lia|].
    assert (ws = []) as ->; [|simpl; eauto].
    unfold windows in Hw. case_decide; [done|]. injection Hw as <-.
    replace (S (length l) - Z.to_nat num)%nat with 0%nat by lia. done. }
  assert (Hused : forall j, 0 <= j -> j + num <= 512 ->
    ~ window_free l (Z.to_nat j) (Z.to_nat num) -> exists i, j <= i < j + num /\ used e i).
  { intros j Hj Hjn Hnf.
    destruct (decide (Exists (fun i => used e i) (seqZ j num))) as [Hex|Hnex].
    - apply Exists_exists in Hex as (i & Hi%elem_of_seqZ & Hu). by exists i.
    - exfalso. apply Hnf. split; [lia|]. intros k Hk.
      replace k with (Z.to_nat (Z.of_nat k)) by lia.
      apply not_used_lookup; [done|lia|]. intros Hu. apply Hnex, Exists_exists.
      exists (Z.of_nat k). split; [apply elem_of_seqZ; lia|done]. }
  pose proof (unused_indices_head l _ ws Hw ltac:(lia)) as Hh.
  destruct (head (unused_indices ws)) as [idx|].
  - destruct Hh as [[Hb Hfree] Hmin]. left.
    destruct (foldM_array_set_total (Z.of_nat idx) (range0 num) l) as [l' Hl'].
    { intros x Hx%elem_of_range0. lia. }
    rewrite Hl'. simpl. rewrite index_new_spec by lia. simpl.
    exists (Z.of_nat idx), (mkEntries l'). split_and!; [done|lia|lia| | |].
    + intros i Hi. apply not_used_lookup; [done|lia|]. apply Hfree. lia.
    + intros j Hj. apply Hused; [lia|lia|]. apply Hmin. lia.
    + eapply marks_ext; [|apply (foldM_array_set_marks _ _ l _ Hlen Hl')].
      intros i Hi. split.
      * intros (k & Hk%elem_of_range0 & ->). lia.
      * intros Hi'. exists (i - Z.of_nat idx). split; [apply elem_of_range0|]; lia.
  - right. split; [|simpl; eauto]. intros j Hj Hjn. apply Hused; [done|done|apply Hh].
Qed.

Lemma get_free_entries_spec e num idx e' :
  wf e -> 0 < num -> get_free_entries e num = Ret (idx, e') ->
  0 < idx /\ idx + num <= 512 /\
  (forall i, idx <= i < idx + num -> ~ used e i) /\
  marks (fun i => idx <= i < idx + num) e e'.
Proof.
  intros Hwf Hnum H.
  destruct (get_free_entries_result e num Hwf Hnum)
    as [(idx' & e'' & H' & Hb & Hn & Hfree & _ & Hm)|[_ [m H']]]; [|congruence].
  rewrite H in H'. injection H' as <- <-. split_and!; [|done|done|done].
  destruct (decide (idx = 0)) as [->|]; [|lia].
  exfalso. apply (Hfree 0); [lia|]. apply Hwf.
Qed.

(** No window has no entries, and none has more than there are. *)
Lemma get_free_entries_zero e : get_free_entries e 0 = Panic "window size must be non-zero".
Proof. done. Qed.

Lemma get_free_entries_many e num :
  length (entry_state e) = 512%nat -> 512 < num -> get_free_entries e num = Panic "no usable level 4 entries found".
Proof.
  intros Hlen Hnum. unfold get_free_entries, windows. rewrite decide_False by lia.
  by replace (S (length (entry_state e)) - Z.to_nat num)%nat with 0%nat by lia.
Qed.
End Reservation.

(** * Marking ranges and segments *)

(** The level 4 entry that covers a virtual address. *)
Definition p4_of (a : Z) : Z := (a / 2 ^ 39) mod 512.

Lemma p4_of_range a : 0 <= p4_of a < 512.
Proof. apply Z.mod_pos_bound. lia. Qed.

Lemma p4_of_mono a b : 0 <= a <= b -> b < 2 ^ 48 -> p4_of a <= p4_of b.
Proof.
  intros Hab Hb. unfold p4_of.
  pose proof (Z.div_le_mono a b (2 ^ 39) ltac:(lia) ltac:(lia)).
  pose proof (Z.div_lt_upper_bound b (2 ^ 39) 512 ltac:(lia) ltac:(lia)).
  pose proof (Z.div_pos a (2 ^ 39) ltac:(lia) ltac:(lia)).
  rewrite !Z.mod_small; lia.
Qed.

Section Marking.
Context {X : X86_64} {XL : X86_64_Laws X} {P : Profile}.

Lemma foldM_mark_total xs e :
  wf e -> (forall x, x ∈ xs -> 0 <= x < 512) ->
  exists e', foldM (fun st p4 => i ← PageTableIndex_new p4; mark_p4_index_as_used st i) xs e
             = Ret e' /\ marks (fun i => i ∈ xs) e e'.
Proof.
  revert e. induction xs as [|x xs IH]; intros e Hwf Hxs; simpl.
  - exists e. split; [done|]. eapply marks_ext; [|apply marks_refl]. set_solver.
  - assert (Hx : 0 <= x < 512) by (apply Hxs; set_solver).
    rewrite index_new_spec by done. rewrite bind_Ret.
    unfold mark_p4_index_as_used at 2. pose proof (wf_length _ Hwf) as Hlen.
    destruct e as [l]; simpl in *.
    rewrite array_set_ok by lia. simpl.
    pose proof (array_set_marks l x _ Hlen (array_set_ok l x true ltac:(lia))) as Hm.
    destruct (IH (mkEntries (<[Z.to_nat x:=true]> l))) as (e' & He' & Hm').
    { by eapply marks_wf. } { set_solver. }
    exists e'. split; [done|].
    eapply marks_ext; [|exact (marks_trans _ _ _ _ _ Hm Hm')]. set_solver.
Qed.

(** [mark_range_as_used] on a range of the lower half succeeds and marks the
    entries from that of its first to that of its last byte. *)
Lemma mark_range_low e address size :
  wf e -> 0 <= address -> 0 < size -> address + size < 2 ^ 47 ->
  exists e', mark_range_as_used e address size = Ret e' /\
    marks (fun i => p4_of address <= i <= p4_of (address + size - 1)) e e'.
Proof.
  intros Hwf Ha Hs Hb. unfold mark_range_as_used.
  rewrite virt_new_low, bind_Ret, virt_add_low, bind_Ret, virt_sub_low, bind_Ret by lia.
  cbv zeta. rewrite !p4_index_containing by (left; lia).
  destruct (foldM_mark_total (range_incl (p4_of address) (p4_of (address + size - 1))) e Hwf)
    as (e' & He' & Hm).
  { intros x Hx%elem_of_range_incl.
    pose proof (p4_of_range address). pose proof (p4_of_range (address + size - 1)). lia. }
  exists e'. split; [done|]. eapply marks_ext; [|exact Hm].
  intros i _. by rewrite elem_of_range_incl.
Qed.

(** Whatever range is marked, entries are only ever added. *)
Lemma mark_range_wf e address size e' :
  wf e -> mark_range_as_used e address size = Ret e' -> exists Q, marks Q e e'.
Proof.
  intros Hwf H. unfold mark_range_as_used in H.
  bind_inv H. bind_inv H. bind_inv H. cbv zeta in H.
  apply virt_new_range in Hv. apply virt_sub_range in Hv1.
  rewrite !p4_index_containing in H by done.
  destruct (foldM_mark_total (range_incl (p4_of v) (p4_of v1)) e Hwf) as (e2 & He2 & Hm).
  { intros x Hx%elem_of_range_incl. pose proof (p4_of_range v). pose proof (p4_of_range v1). lia. }
  unfold p4_of in He2. rewrite H in He2. injection He2 as ->. eauto.
Qed.

(** The bytes of a segment in memory. *)
Definition in_segment (off : VirtualAddressOffset.t) (s : Z * Z) (a : Z) : Prop :=
  let start := VirtualAddressOffset.virtual_address_offset off + fst s in
  start <= a < start + snd s.

Lemma mark_segments_low e segments off :
  wf e ->
  Forall (fun s => 0 <= VirtualAddressOffset.virtual_address_offset off + fst s /\
    VirtualAddressOffset.virtual_address_offset off + fst s + snd s < 2 ^ 47) segments ->
  exists e', mark_segments e segments off = Ret e' /\ wf e' /\
    (forall i, 0 <= i < 512 -> used e i -> used e' i) /\
    (forall s a, s ∈ segments -> in_segment off s a -> used e' (p4_of a)).
Proof.
  intros Hwf Hb. unfold mark_segments. revert e Hwf.
  induction segments as [|s segments IH]; intros e Hwf.
  - exists e. split_and!; [done|done|tauto|]. intros s a Hs. by apply elem_of_nil in Hs.
  - apply Forall_cons in Hb as [Hs Hb]. specialize (IH Hb).
    destruct (decide (0 < snd s)) as [Hpos|Hneg].
    + rewrite filter_cons_True by done. simpl.
      rewrite VirtualAddressOffset.add_ok, bind_Ret by (unfold u64_size; lia).
      destruct (mark_range_low e (VirtualAddressOffset.virtual_address_offset off + fst s)
                  (snd s) Hwf) as (e1 & He1 & Hm); [lia|lia|lia|].
      rewrite He1, bind_Ret.
      destruct (IH e1 (marks_wf _ _ _ Hwf Hm)) as (e2 & He2 & Hwf2 & Hmono & Hin).
      exists e2. destruct Hm as [_ Hm]. split_and!; [done|done| |].
      * intros i Hi Hu. apply Hmono; [done|]. apply Hm; [done|]. by left.
      * intros s' a [->|Hs']%elem_of_cons Ha; [|by eapply Hin].
        unfold in_segment in Ha. simpl in Ha.
        apply Hmono; [apply p4_of_range|]. apply Hm; [apply p4_of_range|]. right.
        split; apply p4_of_mono; lia.
    + rewrite filter_cons_False by done.
      destruct (IH e Hwf) as (e2 & He2 & Hwf2 & Hmono & Hin).
      exists e2. split_and!; [done|done|done|].
      intros s' a [->|Hs']%elem_of_cons Ha; [|by eapply Hin].
      unfold in_segment in Ha. simpl in Ha. lia.
Qed.
End Marking.

(** * Reservations *)

Section Address.
Context {X : X86_64} {XL : X86_64_Laws X} {P : Profile}.

(** The number of level 4 entries that [size] bytes take. *)
Definition level_4_entries (size : Z) : Z := (size + (LEVEL_4_SIZE - 1)) / LEVEL_4_SIZE.

Lemma level_4_entries_covers size : 0 < size -> 
  0 < level_4_entries size /\ size <= level_4_entries size * 2 ^ 39.
Proof.
  intros Hs. unfold level_4_entries. change LEVEL_4_SIZE with (2 ^ 39).
  pose proof (Z.div_mod (size + (2 ^ 39 - 1)) (2 ^ 39) ltac:(lia)).
  pose proof (Z.mod_pos_bound (size + (2 ^ 39 - 1)) (2 ^ 39) ltac:(lia)). lia.
Qed.

Lemma level_4_entries_many size : 512 * LEVEL_4_SIZE < size -> 512 < level_4_entries size.
Proof.
  intros Hs. destruct (level_4_entries_covers size) as [_ Hc]; unfold LEVEL_4_SIZE in *; lia.
Qed.

(** What is left of the rounding when it has wrapped around. *)
Lemma wrapped_entries size :
  0 <= size < u64_size -> u64_size - LEVEL_4_SIZE < size -> wrap64 (size + (LEVEL_4_SIZE - 1)) / LEVEL_4_SIZE = 0.
Proof.
  intros H0 Hs. unfold wrap64.
  replace (size + (LEVEL_4_SIZE - 1)) with (size + (LEVEL_4_SIZE - 1) - u64_size + 1 * u64_size) by lia.
  rewrite Z.mod_add by done. unfold u64_size, LEVEL_4_SIZE in *.
  rewrite Z.mod_small by lia. apply Z.div_small. lia.
Qed.

Lemma get_free_address_run e size alignment : is_power_of_two alignment = true ->
  get_free_address e size alignment =
    (s ← u64_add size (LEVEL_4_SIZE - 1);
     r ← get_free_entries e (s / LEVEL_4_SIZE);
     p3 ← PageTableIndex_new 0;
     Ret (Page_from_page_table_indices_1gib (fst r) p3, snd r)).
Proof. intros Hal. unfold get_free_address. by rewrite Hal. Qed.

Lemma get_free_address_inv e size alignment addr e' :
  0 < size < 2 ^ 63 -> get_free_address e size alignment = Ret (addr, e') ->
  exists idx, get_free_entries e (level_4_entries size) = Ret (idx, e') /\
    addr = Page_from_page_table_indices_1gib idx 0.
Proof.
  intros Hs H. unfold get_free_address in H. bind_inv H.
  rewrite u64_add_ok, bind_Ret in H by (unfold u64_size, LEVEL_4_SIZE; lia).
  cbv zeta in H. bind_inv H. rewrite index_new_spec, bind_Ret in H by lia.
  destruct v0 as [idx e0]. injection H as <- <-. by exists idx.
Qed.

(** A level 4 entry starts at a canonical address that is a multiple of
    512 GiB, and the addresses that follow belong to the entries that follow. *)
Lemma entry_address idx num k :
  0 <= idx -> idx + num <= 512 -> 0 <= k < num * 2 ^ 39 ->
  let addr := sign_extend48 (idx * 2 ^ 39 + 0 * 2 ^ 30) in
  canonical addr /\ (2 ^ 39 | addr) /\ p4_of (addr + k) = idx + k / 2 ^ 39.
Proof.
  intros Hi Hn Hk addr. split; [apply sign_extend48_canonical|].
  assert (Haddr : addr = idx * 2 ^ 39 \/ addr = idx * 2 ^ 39 + 2 ^ 48 * (2 ^ 16 - 1)).
  { unfold addr, sign_extend48. rewrite Z.mod_small by lia. case_tests; lia. }
  assert (Hkd : 0 <= k / 2 ^ 39 < num).
  { split; [apply Z.div_pos; lia|apply Z.div_lt_upper_bound; lia]. }
  split.
  - destruct Haddr as [-> | ->].
    + by exists idx.
    + exists (idx + 2 ^ 9 * (2 ^ 16 - 1)). lia.
  - unfold p4_of.
    assert (exists q, (addr + k) / 2 ^ 39 = idx + k / 2 ^ 39 + q * 512) as [q ->].
    { destruct Haddr as [-> | ->].
      - exists 0. rewrite Z.add_comm, Z.div_add by lia. lia.
      - exists (2 ^ 16 - 1).
        replace (idx * 2 ^ 39 + 2 ^ 48 * (2 ^ 16 - 1) + k)
          with (k + (idx + 2 ^ 9 * (2 ^ 16 - 1)) * 2 ^ 39) by lia.
        rewrite Z.div_add by lia. lia. }
    rewrite Z.mod_add by lia. apply Z.mod_small. lia.
Qed.

Lemma get_free_address_spec e size alignment addr e' :
  wf e -> 0 < size < 2 ^ 63 -> get_free_address e size alignment = Ret (addr, e') ->
  wf e' /\ canonical addr /\ (2 ^ 39 | addr) /\ addr <> 0 /\
  (forall k, 0 <= k < size -> ~ used e (p4_of (addr + k)) /\ used e' (p4_of (addr + k))) /\
  (forall i, 0 <= i < 512 -> used e i -> used e' i).
Proof.
  intros Hwf Hs H. destruct (get_free_address_inv _ _ _ _ _ Hs H) as (idx & Hg & ->).
  destruct (level_4_entries_covers size ltac:(lia)) as [Hpos Hcov].
  destruct (get_free_entries_spec _ _ _ _ Hwf Hpos Hg) as (Hi & Hn & Hfree & Hm).
  rewrite page_1gib_spec by lia.
  assert (Hk : forall k, 0 <= k < size -> _)
    by (intros k Hk; exact (entry_address idx _ k ltac:(lia) Hn ltac:(lia))).
  destruct (Hk 0 ltac:(lia)) as (Hcan & Hdiv & Hp4).
  pose proof (marks_wf _ _ _ Hwf Hm) as Hwf'. destruct Hm as [_ Hm].
  split_and!; [done|done|done| | |].
  - intros Hz. rewrite Hz in Hp4. change (p4_of (0 + 0)) with 0 in Hp4.
    rewrite Z.div_0_l in Hp4 by lia. lia.
  - intros k Hk'. destruct (Hk k Hk') as (_ & _ & ->).
    assert (Hr : idx <= idx + k / 2 ^ 39 < idx + level_4_entries size).
    { pose proof (Z.div_pos k (2 ^ 39) ltac:(lia) ltac:(lia)).
      pose proof (Z.div_lt_upper_bound k (2 ^ 39) (level_4_entries size) ltac:(lia) ltac:(lia)).
      lia. }
    split; [by apply Hfree|]. apply Hm; [lia|]. by right.
  - intros i Hi' Hu. apply Hm; [done|]. by left.
Qed.

(** The runs of the bootloader on its [Entries]: the record of the address
    ranges handed out so far, and the state. *)
Inductive reach : list (Z * Z) -> Entries -> Prop :=
  | reach_new : reach [] Entries_new
  | reach_mark rs e address size e' :
      reach rs e -> mark_range_as_used e address size = Ret e' -> reach rs e'
  | reach_get rs e size alignment addr e' :
      reach rs e -> 0 < size < 2 ^ 63 ->
      get_free_address e size alignment = Ret (addr, e') -> reach ((addr, size) :: rs) e'.

Definition overlap (r1 r2 : Z * Z) : Prop :=
  exists a, (fst r1 <= a < fst r1 + snd r1) /\ (fst r2 <= a < fst r2 + snd r2).

Lemma reach_invariant rs e :
  reach rs e ->
  wf e /\ (forall r k, r ∈ rs -> 0 <= k < snd r -> used e (p4_of (fst r + k))).
Proof.
  induction 1 as [|rs e address size e' _ [Hwf Hin] Hmark|rs e size alignment addr e' _ [Hwf Hin] Hs Hget].
  - split; [apply wf_new|]. intros r k Hr. by apply elem_of_nil in Hr.
  - destruct (mark_range_wf _ _ _ _ Hwf Hmark) as [Q Hm].
    split; [by eapply marks_wf|]. intros r k Hr Hk.
    apply Hm; [apply p4_of_range|]. left. by apply Hin.
  - destruct (get_free_address_spec _ _ _ _ _ Hwf Hs Hget) as (Hwf' & _ & _ & _ & Hk & Hmono).
    split; [done|]. intros r k [->|Hr]%elem_of_cons Hrk.
    + by apply Hk.
    + apply Hmono; [apply p4_of_range|]. by apply Hin.
Qed.

Lemma reach_disjoint rs e : reach rs e -> ForallOrdPairs (fun r1 r2 => ~ overlap r1 r2) rs.
Proof.
  induction 1 as [|rs e address size e' _ IH _|rs e size alignment addr e' Hr IH Hs Hget];
    [constructor|done|].
  constructor; [|done]. apply Forall_forall. intros r2 Hin (a & Ha1 & Ha2). simpl in Ha1.
  destruct (reach_invariant _ _ Hr) as [Hwf Hused].
  destruct (get_free_address_spec _ _ _ _ _ Hwf Hs Hget) as (_ & _ & _ & _ & Hk & _).
  destruct (Hk (a - addr) ltac:(lia)) as [Hnot _]. apply Hnot.
  replace (addr + (a - addr)) with (fst r2 + (a - fst r2)) by lia.
  apply Hused; [done|lia].
Qed.
End Address.

(** * Properties *)

Section Properties.
Context {X : X86_64} {XL : X86_64_Laws X} {P : Profile}.

(** C12: in every run of the bootloader's [Entries] the array keeps its 512
    entries with entry 0 reserved, and the address ranges handed out by
    [get_free_address] are pairwise disjoint, whatever ranges are marked in
    between. *)
Theorem reservations_disjoint rs e :
  reach rs e ->
  length (entry_state e) = 512%nat /\ used e 0 /\
  ForallOrdPairs (fun r1 r2 => ~ overlap r1 r2) rs /\
  (forall r k, r ∈ rs -> 0 <= k < snd r -> used e (p4_of (fst r + k))).
Proof.
  intros Hr. destruct (reach_invariant _ _ Hr) as [[Hlen H0] Hin].
  split_and!; [done|done|by apply (reach_disjoint rs e)|done].
Qed.

(** C13: on a well-formed state, a size that is positive and less than 2^63
    and an alignment that is a power of two, [get_free_address] either reserves the first window of level 4 entries
    that fits (the address is canonical, not null, a multiple of 512 GiB and
    so aligned for every such alignment up to that, no byte of the range was in
    use and every byte is afterwards) or panics, and for these requests it
    panics only when no window is free. *)
Theorem get_free_address_first_fit e size alignment :
  wf e -> 0 < size < 2 ^ 63 -> is_power_of_two alignment = true ->
  let num := level_4_entries size in
  (exists addr e' idx, get_free_address e size alignment = Ret (addr, e') /\
     addr = sign_extend48 (idx * 2 ^ 39) /\ canonical addr /\ addr <> 0 /\ (2 ^ 39 | addr) /\
     (forall k, 0 <= k < size -> ~ used e (p4_of (addr + k)) /\ used e' (p4_of (addr + k))) /\
     (forall j, 0 <= j < idx -> exists i, j <= i < j + num /\ used e i) /\
     (forall i, 0 <= i < 512 -> used e' i <-> used e i \/ idx <= i < idx + num) /\ wf e')
  \/ ((forall idx, 0 <= idx -> idx + num <= 512 -> exists i, idx <= i < idx + num /\ used e i) /\
      exists m, get_free_address e size alignment = Panic m).
Proof.
  intros Hwf Hs Hal num. destruct (level_4_entries_covers size ltac:(lia)) as [Hpos _].
  pose proof (get_free_address_run e size alignment Hal) as Hrun.
  rewrite u64_add_ok, bind_Ret in Hrun by (unfold u64_size, LEVEL_4_SIZE; lia).
  fold (level_4_entries size) in Hrun. fold num in Hrun. rewrite index_new_spec in Hrun by lia.
  destruct (get_free_entries_result e num Hwf Hpos)
    as [(idx & e' & He & H0 & Hn & Hfree & Hfirst & Hm)|[Hno [m He]]]; [left|right].
  - rewrite He, bind_Ret in Hrun. simpl in Hrun. rewrite page_1gib_spec in Hrun by lia.
    pose proof (get_free_address_spec _ _ _ _ _ Hwf Hs Hrun)
      as (Hwf' & Hcan & Hdiv & Hnz & Hk & _).
    eexists _, e', idx. split; [exact Hrun|].
    replace (idx * 2 ^ 39 + 0 * 2 ^ 30) with (idx * 2 ^ 39) in * by lia.
    destruct Hm as [_ Hm]. split_and!; try done; apply Hfirst.
  - split; [done|]. exists m. by rewrite Hrun, He.
Qed.

(** C14: once the segments of the kernel are marked, no byte of a segment is
    in a range reserved later. *)
Theorem reservation_avoids_segments e segments off e' size alignment addr e'' :
  wf e ->
  Forall (fun s => 0 <= VirtualAddressOffset.virtual_address_offset off + fst s /\
    VirtualAddressOffset.virtual_address_offset off + fst s + snd s < 2 ^ 47) segments ->
  mark_segments e segments off = Ret e' -> 0 < size < 2 ^ 63 ->
  get_free_address e' size alignment = Ret (addr, e'') ->
  forall s a, s ∈ segments -> in_segment off s a -> ~ addr <= a < addr + size.
Proof.
  intros Hwf Hseg Hmark Hs Hget s a Hin Ha Hr.
  destruct (mark_segments_low e segments off Hwf Hseg) as (e1 & He1 & Hwf' & _ & Hused).
  rewrite Hmark in He1. injection He1 as <-.
  destruct (get_free_address_spec _ _ _ _ _ Hwf' Hs Hget) as (_ & _ & _ & _ & Hk & _).
  destruct (Hk (a - addr) ltac:(lia)) as [Hnot _]. apply Hnot.
  replace (addr + (a - addr)) with a by lia. by eapply Hused.
Qed.

(** C15: the requests that [get_free_address] rejects, whatever the state, and
    the panic of each.  An alignment that is not a power of two fails the
    assertion, before anything else.  With such an alignment, a size of zero
    asks for a window of no entries, which the standard library refuses; a size
    that does not fit in 64 bits when it is rounded up overflows, or in a
    build without overflow checks wraps around to a window of no entries; and a
    larger range than the 512 entries has no window. *)
Theorem get_free_address_rejects e size alignment :
  length (entry_state e) = 512%nat -> 0 <= size < u64_size ->
  (is_power_of_two alignment = false ->
     get_free_address e size alignment = Panic "assertion failed: alignment.is_power_of_two()") /\
  (is_power_of_two alignment = true ->
     (size = 0 -> get_free_address e size alignment = Panic "window size must be non-zero") /\
     (u64_size - LEVEL_4_SIZE < size -> get_free_address e size alignment =
        Panic (if overflow_checks then "arithmetic overflow" else "window size must be non-zero")) /\
     (512 * LEVEL_4_SIZE < size <= u64_size - LEVEL_4_SIZE ->
        get_free_address e size alignment = Panic "no usable level 4 entries found")).
Proof.
  intros Hlen Hs. split; intros Hal; [unfold get_free_address; by rewrite Hal|].
  pose proof (get_free_address_run e size alignment Hal) as Hrun. split; [|split]; intros Hsize.
  - rewrite Hrun, Hsize, u64_add_ok, bind_Ret by done. by apply bind_Panic, (get_free_entries_zero e).
  - rewrite Hrun. rewrite u64_add_over by (unfold u64_size, LEVEL_4_SIZE in *; lia).
    destruct overflow_checks; [done|]. rewrite bind_Ret, wrapped_entries by done.
    by apply bind_Panic, get_free_entries_zero.
  - rewrite Hrun, u64_add_ok, bind_Ret by (unfold u64_size, LEVEL_4_SIZE in *; lia).
    apply bind_Panic, get_free_entries_many; [done|]. apply level_4_entries_many. lia.
Qed.
End Properties.

(** * Witnesses: a concrete run on the reference crate *)

(** The state that an operation leaves. *)
Definition state_after (r : outcome (Z * Entries)) : Entries :=
  match r with Ret (_, e) => e | _ => Entries_new end.

(** Reserve 88 KiB, mark a segment at 2 TiB, reserve one byte more than 512 GiB:
    the second reservation takes the two entries before the segment. *)
Definition sample_e1 : Entries :=
  state_after (get_free_address (P := false) Entries_new 90112 4096).
Definition sample_e2 : Entries :=
  state_after (e ← mark_range_as_used sample_e1 (2 ^ 41) 5000; Ret (0, e)).
Definition sample_e3 : Entries :=
  state_after (get_free_address (P := false) sample_e2 (2 ^ 39 + 1) 4096).

Lemma reservations_disjoint_witness :
  reach (P := false) [(2 ^ 40, 2 ^ 39 + 1); (2 ^ 39, 90112)] sample_e3 /\
  ForallOrdPairs (fun r1 r2 => ~ overlap r1 r2) [(2 ^ 40, 2 ^ 39 + 1); (2 ^ 39, 90112)].
Proof.
  assert (Hr : reach (P := false) [(2 ^ 40, 2 ^ 39 + 1); (2 ^ 39, 90112)] sample_e3).
  { apply (reach_get _ sample_e2 (2 ^ 39 + 1) 4096); [|lia|vm_compute; reflexivity].
    apply (reach_mark _ sample_e1 (2 ^ 41) 5000); [|vm_compute; reflexivity].
    apply (reach_get [] Entries_new 90112 4096); [constructor|lia|vm_compute; reflexivity]. }
  split; [exact Hr|].
  exact (proj1 (proj2 (proj2 (reservations_disjoint (P := false) _ _ Hr)))).
Defined.

Lemma get_free_address_first_fit_witness :
  exists addr e' idx, get_free_address (P := false) Entries_new 90112 4096 = Ret (addr, e') /\
    addr = sign_extend48 (idx * 2 ^ 39).
Proof.
  destruct (get_free_address_first_fit (P := false) Entries_new 90112 4096 wf_new
              ltac:(lia) ltac:(reflexivity)) as [(addr & e' & idx & H & Ha & _)|[_ [m H]]].
  - by exists addr, e', idx.
  - vm_compute in H. discriminate H.
Defined.

Lemma reservation_avoids_segments_witness :
  is_power_of_two 4096 = true /\
  forall s a, s ∈ [(2 ^ 39, 4096); (2 ^ 40 + 8192, 0)] ->
    in_segment VirtualAddressOffset.zero s a -> ~ 2 ^ 40 <= a < 2 ^ 40 + 90112.
Proof.
  split; [reflexivity|].
  apply (reservation_avoids_segments (P := false) Entries_new [(2 ^ 39, 4096); (2 ^ 40 + 8192, 0)]
    VirtualAddressOffset.zero
    (state_after (e ← mark_segments Entries_new [(2 ^ 39, 4096); (2 ^ 40 + 8192, 0)]
       VirtualAddressOffset.zero; Ret (0, e))) 90112 4096 (2 ^ 40)
    (state_after (e ← mark_segments Entries_new [(2 ^ 39, 4096); (2 ^ 40 + 8192, 0)]
       VirtualAddressOffset.zero; get_free_address (P := false) e 90112 4096))).
  - exact wf_new.
  - repeat constructor; simpl; lia.
  - vm_compute; reflexivity.
  - lia.
  - vm_compute; reflexivity.
Defined.

Lemma get_free_address_rejects_witness :
  get_free_address (P := false) Entries_new 4096 3 = Panic "assertion failed: alignment.is_power_of_two()" /\
  get_free_address (P := false) Entries_new (2 ^ 64 - 1) 4096 = Panic "window size must be non-zero" /\
  get_free_address (P := true) Entries_new (2 ^ 64 - 1) 4096 = Panic "arithmetic overflow" /\
  get_free_address (P := true) Entries_new (2 ^ 49) 4096 = Panic "no usable level 4 entries found".
Proof.
  split; [|split; [|split]].
  - apply (get_free_address_rejects (P := false) Entries_new 4096 3); done.
  - apply (get_free_address_rejects (P := false) Entries_new (2 ^ 64 - 1) 4096); done.
  - apply (get_free_address_rejects (P := true) Entries_new (2 ^ 64 - 1) 4096); done.
  - apply (get_free_address_rejects (P := true) Entries_new (2 ^ 49) 4096); done.
Defined.
