(* ===== verification/FrameAlloc.v ===== *)
(** The FrameAllocator trait of the x86_64 crate, which initium and nukleus
    each implement and the loader, the mapping code and the heap set-up use.

    [FrameAllocator] is the trait.  [FreeList] is what an implementation
    promises its clients: its state stands for a list of free frames, and
    [allocate_frame] takes the first of them.  Clients are proved against
    [FreeList]; LegacyMemory.v and NukleusMemory.v discharge it. *)

From S2P Require Import Prelude X86.

(** [trait FrameAllocator<Size4KiB>]: a frame is its start address. *)
Class FrameAllocator (F : Type) :=
  allocate_frame : F -> outcome (option Z * F).

(** [fa_inv k s]: the state is well formed and good for [k] more calls (an
    implementation that counts its calls in a machine integer has such a
    bound).  A call pops the head of the free list. *)
Class FreeList (F : Type) {FA : FrameAllocator F} := {
  fa_inv : nat -> F -> Prop;
  fa_free : F -> list Z;
  fa_step k s : fa_inv (S k) s ->
    exists s', allocate_frame s = Ret (head (fa_free s), s') /\
      fa_free s' = tail (fa_free s) /\ fa_inv k s';
  fa_inv_le j k s : (j <= k)%nat -> fa_inv k s -> fa_inv j s;
  fa_aligned k s f : fa_inv k s -> f ∈ fa_free s ->
    (Size4KiB | f) /\ 0 <= f /\ f + Size4KiB <= 2 ^ 52;
  fa_nodup k s : fa_inv k s -> NoDup (fa_free s);
}.

(** [n] calls in a row: the frames they returned. *)
Fixpoint allocate_frames {F} {FA : FrameAllocator F} (n : nat) (s : F) : outcome (list (option Z) * F) :=
  match n with
  | O => Ret ([], s)
  | S n =>
      r ← allocate_frame s;
      rs ← allocate_frames n (snd r);
      Ret (fst r :: fst rs, snd rs)
  end.

Section Clients.
Context {F : Type} {FA : FrameAllocator F} {FL : FreeList F}.

Lemma allocate_some k s f rest :
  fa_inv (S k) s -> fa_free s = f :: rest ->
  exists s', allocate_frame s = Ret (Some f, s') /\ fa_free s' = rest /\ fa_inv k s'.
Proof. intros Hi Hf. destruct (fa_step k s Hi) as (s' & Ha & Hr & Hi'). rewrite Hf in *. eauto. Qed.

Lemma allocate_none k s :
  fa_inv (S k) s -> fa_free s = [] ->
  exists s', allocate_frame s = Ret (None, s') /\ fa_free s' = [] /\ fa_inv k s'.
Proof. intros Hi Hf. destruct (fa_step k s Hi) as (s' & Ha & Hr & Hi'). rewrite Hf in *. eauto. Qed.

(** What a successful call says about the free list. *)
Lemma allocate_inv k s r s' :
  fa_inv (S k) s -> allocate_frame s = Ret (r, s') ->
  r = head (fa_free s) /\ fa_free s' = tail (fa_free s) /\ fa_inv k s'.
Proof.
  intros Hi Ha. destruct (fa_step k s Hi) as (s2 & Ha2 & Hr & Hi2).
  rewrite Ha in Ha2. by injection Ha2 as -> ->.
Qed.

Lemma allocate_frames_spec n k s :
  fa_inv (n + k) s ->
  exists s', allocate_frames n s =
    Ret ((fun i => fa_free s !! i) <$> seq 0 n, s') /\ fa_free s' = drop n (fa_free s) /\ fa_inv k s'.
Proof.
  revert s. induction n as [|n IH]; intros s Hi; simpl; [eauto|].
  destruct (fa_step (n + k) s Hi) as (s1 & Ha & Hf1 & Hi1). rewrite Ha. simpl.
  destruct (IH s1 Hi1) as (s2 & -> & Hf2 & Hi2). simpl. exists s2.
  rewrite Hf2, Hf1. split_and!; [|destruct (fa_free s); simpl; by rewrite ?drop_nil|done].
  rewrite <- fmap_S_seq, <- list_fmap_compose.
  by destruct (fa_free s); repeat f_equal.
Qed.
(** [s'] is reached from [s] by at most [n] calls of [allocate_frame]. *)
Definition takes (n : nat) (s s' : F) : Prop :=
  exists j rs, (j <= n)%nat /\ allocate_frames j s = Ret (rs, s').

Lemma takes_refl n s : takes n s s.
Proof. exists O, []. split; [lia|done]. Qed.

Lemma takes_le n m s s' : (n <= m)%nat -> takes n s s' -> takes m s s'.
Proof. intros Hnm (j & rs & Hj & Ha). exists j, rs. split; [lia|done]. Qed.

Lemma allocate_frames_app n m s rs s1 rs' s2 :
  allocate_frames n s = Ret (rs, s1) -> allocate_frames m s1 = Ret (rs', s2) ->
  allocate_frames (n + m) s = Ret (rs ++ rs', s2).
Proof.
  revert s rs. induction n as [|n IH]; intros s rs H1 H2; simpl in *; [by injection H1 as <- <-|].
  bind_inv H1. bind_inv H1. injection H1 as <- <-. rewrite Hv. simpl.
  destruct v0 as [rs1 s1']. by rewrite (IH _ _ Hv0 H2).
Qed.

Lemma takes_trans n m s1 s2 s3 : takes n s1 s2 -> takes m s2 s3 -> takes (n + m) s1 s3.
Proof.
  intros (j & rs & Hj & Ha) (k & rs' & Hk & Hb). exists (j + k)%nat, (rs ++ rs').
  split; [lia|]. by eapply allocate_frames_app.
Qed.

Lemma takes_one s f s' : allocate_frame s = Ret (f, s') -> takes 1 s s'.
Proof. intros Ha. exists 1%nat, [f]. split; [lia|]. simpl. by rewrite Ha. Qed.

(** What calls of [allocate_frame] leave. *)
Lemma takes_free n k s s' :
  fa_inv (n + k) s -> takes n s s' ->
  fa_inv k s' /\ exists j, (j <= n)%nat /\ fa_free s' = drop j (fa_free s).
Proof.
  intros Hi (j & rs & Hj & Ha).
  destruct (allocate_frames_spec j (n + k - j) s) as (s2 & Ha2 & Hf & Hi2);
    [by replace (j + (n + k - j))%nat with (n + k)%nat by lia|].
  rewrite Ha in Ha2. injection Ha2 as _ <-.
  split; [apply (fa_inv_le _ (n + k - j)); [lia|done]|]. by exists j.
Qed.
End Clients.

(** A list of frames is a free list: the smallest implementation. *)
Module ListAllocator.
#[export] Instance list_allocator : FrameAllocator (list Z) :=
  fun s => Ret (head s, tail s).

Definition frame_ok (f : Z) : Prop := (Size4KiB | f) /\ 0 <= f /\ f + Size4KiB <= 2 ^ 52.

#[export] Instance frame_ok_dec f : Decision (frame_ok f).
Proof. unfold frame_ok. apply _. Defined.

#[export] Program Instance list_free_list : FreeList (list Z) := {|
  fa_inv _ s := NoDup s /\ Forall frame_ok s;
  fa_free s := s;
|}.
Next Obligation.
  intros _ s [Hnd Hok]. exists (tail s). split_and!; [done|done| |].
  - destruct s; [done|]. by apply NoDup_cons in Hnd as [_ ?].
  - destruct s; [done|]. by apply Forall_cons in Hok as [_ ?].
Qed.
Next Obligation. done. Qed.
Next Obligation. intros _ s f [_ Hok] Hf. by apply (Forall_forall frame_ok s). Qed.
Next Obligation. by intros _ s [? _]. Qed.
End ListAllocator.
