(* ===== verification/LegacyMemory.v ===== *)
(** initium/src/memory.rs and initium/src/descriptor.rs: the frame allocator
    of the bootloader and the memory map it leaves to the kernel.

    [LegacyMemoryRegion] is the trait of that name, [UefiMemoryDescriptor] its
    implementation.  [LegacyFrameAllocator] is the struct; its iterators are
    the lists of the elements still to come.  [construct_memory_map] fills a
    buffer of optional regions ([MaybeUninit]). *)

From S2P Require Import Prelude X86 Synapse FrameAlloc.

(** [trait LegacyMemoryRegion]; [start] and [len] may panic. *)
Class LegacyMemoryRegion (D : Type) := {
  region_start : D -> outcome Z;
  region_len : D -> outcome Z;
  region_kind : D -> MemoryRegionKind;
  usable_after_bootloader_exit : D -> bool;
}.

Definition region_is_empty {D} `{LegacyMemoryRegion D} (self : D) : outcome bool :=
  l ← region_len self; Ret (l =? 0).

(** * descriptor.rs *)

(** The constants of uefi's [MemoryType] that the code names. *)
Class UefiMemoryTypes := {
  CONVENTIONAL : Z;
  LOADER_CODE : Z;
  LOADER_DATA : Z;
  BOOT_SERVICES_CODE : Z;
  BOOT_SERVICES_DATA : Z;
  RUNTIME_SERVICES_CODE : Z;
  RUNTIME_SERVICES_DATA : Z;
}.

(** They are different types of memory. *)
Class UefiMemoryTypesLaws (U : UefiMemoryTypes) : Prop :=
  memory_types_distinct : NoDup [CONVENTIONAL; LOADER_CODE; LOADER_DATA; BOOT_SERVICES_CODE;
    BOOT_SERVICES_DATA; RUNTIME_SERVICES_CODE; RUNTIME_SERVICES_DATA].

(** The values of the UEFI specification. *)
#[export] Instance ref_memory_types : UefiMemoryTypes := {|
  LOADER_CODE := 1; LOADER_DATA := 2; BOOT_SERVICES_CODE := 3; BOOT_SERVICES_DATA := 4;
  RUNTIME_SERVICES_CODE := 5; RUNTIME_SERVICES_DATA := 6; CONVENTIONAL := 7;
|}.

#[export] Instance ref_memory_types_laws : UefiMemoryTypesLaws ref_memory_types.
Proof. unfold UefiMemoryTypesLaws. simpl. by apply (bool_decide_unpack _). Qed.

(** The fields of uefi's [MemoryDescriptor] that the code reads; a
    [UefiMemoryDescriptor] wraps one. *)
Record UefiMemoryDescriptor : Type := mkDescriptor {
  ty : Z;
  phys_start : Z;
  page_count : Z;
}.

(** [const PAGE_SIZE] *)
Definition PAGE_SIZE : Z := 4096.

Section Descriptor.
Context {X : X86_64} {P : Profile} {U : UefiMemoryTypes}.

Definition descriptor_kind (self : UefiMemoryDescriptor) : MemoryRegionKind :=
  if ty self =? CONVENTIONAL then Usable else UnknownUefi (ty self).

Definition descriptor_usable_after_bootloader_exit (self : UefiMemoryDescriptor) : bool :=
  if ty self =? CONVENTIONAL then true
  else if (ty self =? LOADER_CODE) || (ty self =? LOADER_DATA)
       || (ty self =? BOOT_SERVICES_CODE) || (ty self =? BOOT_SERVICES_DATA) then true
  else if (ty self =? RUNTIME_SERVICES_CODE) || (ty self =? RUNTIME_SERVICES_DATA) then false
  else false.

#[export] Instance uefi_region : LegacyMemoryRegion UefiMemoryDescriptor := {|
  region_start self := PhysAddr_new (phys_start self);
  region_len self := u64_mul (page_count self) PAGE_SIZE;
  region_kind := descriptor_kind;
  usable_after_bootloader_exit := descriptor_usable_after_bootloader_exit;
|}.
End Descriptor.

(** * memory.rs: the frame allocator *)

Record LegacyFrameAllocator (D : Type) : Type := mkAllocator {
  original : list D;
  memory_map : list D;
  current_descriptor : option D;
  next_frame : Z;
}.
Arguments mkAllocator {D}.
Arguments original {D}.
Arguments memory_map {D}.
Arguments current_descriptor {D}.
Arguments next_frame {D}.

Definition set_next_frame {D} (self : LegacyFrameAllocator D) (f : Z) : LegacyFrameAllocator D :=
  mkAllocator (original self) (memory_map self) (current_descriptor self) f.
Definition set_current {D} (self : LegacyFrameAllocator D) (d : option D) : LegacyFrameAllocator D :=
  mkAllocator (original self) (memory_map self) d (next_frame self).
Definition set_memory_map {D} (self : LegacyFrameAllocator D) (mm : list D) : LegacyFrameAllocator D :=
  mkAllocator (original self) mm (current_descriptor self) (next_frame self).

Section Allocator.
Context {X : X86_64} {P : Profile} {D : Type} {R : LegacyMemoryRegion D}.

Definition new_starting_at (frame : Z) (mm : list D) : LegacyFrameAllocator D :=
  mkAllocator mm mm None frame.

Definition LegacyFrameAllocator_new (mm : list D) : outcome (LegacyFrameAllocator D) :=
  a ← PhysAddr_new 0x1000;
  let start_frame := PhysFrame_containing_address Size4KiB a in
  Ret (new_starting_at start_frame mm).

Definition allocate_frame_from_descriptor (self : LegacyFrameAllocator D) (descriptor : D)
  : outcome (option Z * LegacyFrameAllocator D) :=
  start_addr ← region_start descriptor;
  let start_frame := PhysFrame_containing_address Size4KiB start_addr in
  l ← region_len descriptor;
  end_addr ← PhysAddr_add start_addr l;
  last_addr ← PhysAddr_sub end_addr 1;
  let end_frame := PhysFrame_containing_address Size4KiB last_addr in
  let self := if next_frame self <? start_frame then set_next_frame self start_frame else self in
  if next_frame self <=? end_frame then
    let ret := next_frame self in
    next ← PhysFrame_add Size4KiB ret 1;
    Ret (Some ret, set_next_frame self next)
  else Ret (None, self).

(** [self.original.len()] and [is_empty] *)
Definition allocator_len (self : LegacyFrameAllocator D) : Z := Z.of_nat (length (original self)).
Definition allocator_is_empty (self : LegacyFrameAllocator D) : bool := allocator_len self =? 0.

(** [original.map(|r| r.start() + r.len()).max().unwrap()] *)
Definition max_physical_address (self : LegacyFrameAllocator D) : outcome Z :=
  ends ← mapM_out (fun r => s ← region_start r; l ← region_len r; PhysAddr_add s l) (original self);
  match ends with
  | [] => Panic "called `Option::unwrap()` on a `None` value"
  | e :: es => Ret (fold_left Z.max es e)
  end.

(** [while let Some(descriptor) = self.memory_map.next()] *)
Fixpoint allocate_from_map (mm : list D) (self : LegacyFrameAllocator D)
  : outcome (option Z * LegacyFrameAllocator D) :=
  match mm with
  | [] => Ret (None, set_memory_map self [])
  | descriptor :: rest =>
      if decide (region_kind descriptor <> Usable) then allocate_from_map rest self
      else
        r ← allocate_frame_from_descriptor (set_memory_map self rest) descriptor;
        match r with
        | (Some frame, self) => Ret (Some frame, set_current self (Some descriptor))
        | (None, self) => allocate_from_map rest self
        end
  end.

#[export] Instance legacy_frame_allocator : FrameAllocator (LegacyFrameAllocator D) := fun self =>
  match current_descriptor self with
  | Some descriptor =>
      r ← allocate_frame_from_descriptor self descriptor;
      match r with
      | (Some frame, self) => Ret (Some frame, self)
      | (None, self) =>
          let self := set_current self None in allocate_from_map (memory_map self) self
      end
  | None => allocate_from_map (memory_map self) self
  end.

(** ** The memory map handed to the kernel *)

(** The buffer of regions and the next free index. *)
Definition map_buffer : Type := list (option MemoryRegion) * Z.

Definition add_region (region : MemoryRegion) (buf : map_buffer) : outcome map_buffer :=
  let '(regions, next_index) := buf in
  if start region =? end_ region then Ret buf
  else if next_index <? Z.of_nat (length regions) then
    Ret (<[Z.to_nat next_index := Some region]> regions, next_index + 1)
  else Panic "cannot add region: no more free entries in memory map".

(** The match that computes [kind], with the region it may add and the
    [start] it may change. *)
Definition region_kind_and_start (self : LegacyFrameAllocator D) (descriptor : D)
    (start end_ : Z) (buf : map_buffer) : outcome (MemoryRegionKind * Z * map_buffer) :=
  let next_free := next_frame self in
  match region_kind descriptor with
  | Usable =>
      if end_ <=? next_free then Ret (Bootloader, start, buf)
      else
        dstart ← region_start descriptor;
        if next_free <=? dstart then Ret (Usable, start, buf)
        else
          let used_region := mkMemoryRegion dstart next_free Bootloader in
          buf ← add_region used_region buf;
          Ret (Usable, next_free, buf)
  | other =>
      if usable_after_bootloader_exit descriptor then Ret (Usable, start, buf)
      else Ret (other, start, buf)
  end.

(** The body of the loop over the descriptors. *)
Definition map_descriptor (self : LegacyFrameAllocator D)
    (kernel_slice_start kernel_slice_len : Z) (buf : map_buffer) (descriptor : D)
  : outcome map_buffer :=
  start0 ← region_start descriptor;
  l ← region_len descriptor;
  end0 ← PhysAddr_add start0 l;
  r ← region_kind_and_start self descriptor start0 end0 buf;
  let '(kind0, start1, buf) := r in
  let region := mkMemoryRegion start1 end0 kind0 in
  kernel_slice_end ← u64_add kernel_slice_start kernel_slice_len;
  if bool_decide (kind region = Usable) && (kernel_slice_start <? end_ region)
     && (start region <? kernel_slice_end)
  then
    _ ← assert_that (start region <=? kernel_slice_start)
          "region overlaps with kernel, but kernel begins before region";
    _ ← assert_that (kernel_slice_end <=? end_ region)
          "region overlaps with kernel, but region ends before kernel";
    let before_kernel := mkMemoryRegion (start region) kernel_slice_start (kind region) in
    let kernel := mkMemoryRegion kernel_slice_start kernel_slice_end Bootloader in
    let after_kernel := mkMemoryRegion kernel_slice_end (end_ region) (kind region) in
    buf ← add_region before_kernel buf;
    buf ← add_region kernel buf;
    add_region after_kernel buf
  else add_region region buf.

(** Reading [regions[..next_index]] as initialised. *)
Definition assume_init (regions : list (option MemoryRegion)) : outcome (list MemoryRegion) :=
  mapM_out (expect "read of an uninitialised region") regions.

Definition construct_memory_map (self : LegacyFrameAllocator D)
    (regions : list (option MemoryRegion)) (kernel_slice_start kernel_slice_len : Z)
  : outcome (list MemoryRegion) :=
  buf ← foldM (map_descriptor self kernel_slice_start kernel_slice_len)
          (original self) (regions, 0);
  assume_init (take (Z.to_nat (snd buf)) (fst buf)).
End Allocator.

(** * Well-formed memory maps *)

Section Regions.
Context {D : Type} {R : LegacyMemoryRegion D}.

(** The values of [start()] and [len()] where they do not panic. *)
Definition base (d : D) : Z := match region_start d with Ret s => s | _ => 0 end.
Definition size (d : D) : Z := match region_len d with Ret l => l | _ => 0 end.
Definition limit (d : D) : Z := base d + size d.

(** A region of whole pages in the physical address space, as UEFI reports
    them; only a region of memory must not be empty. *)
Record region_ok (d : D) : Prop := {
  ok_start : region_start d = Ret (base d);
  ok_len : region_len d = Ret (size d);
  ok_base_aligned : (Size4KiB | base d);
  ok_size_aligned : (Size4KiB | size d);
  ok_base : 0 <= base d;
  ok_size : 0 <= size d;
  ok_nonempty : region_kind d = Usable -> 0 < size d;
  ok_limit : limit d < 2 ^ 52;
}.

(** [memory_map.sort()] and the disjointness of UEFI's descriptors. *)
Definition before (d1 d2 : D) : Prop := limit d1 <= base d2.
Definition sorted : list D -> Prop := StronglySorted before.

Lemma limit_aligned d : region_ok d -> (Size4KiB | limit d).
Proof. intros Hd. apply Z.divide_add_r; apply Hd. Qed.

Lemma sorted_elem l d1 d2 :
  sorted l -> d1 ∈ l -> d2 ∈ l -> d1 = d2 \/ before d1 d2 \/ before d2 d1.
Proof.
  induction 1 as [|d l Hs IH Hall]; [by intros ?%elem_of_nil|].
  rewrite Forall_forall in Hall.
  intros [->|H1]%elem_of_cons [->|H2]%elem_of_cons; auto.
Qed.

(** At most one region of a sorted map contains an address. *)
Lemma sorted_filter_one (Q : D -> Prop) `{!forall d, Decision (Q d)} l x :
  sorted l -> (forall d, d ∈ l -> Q d -> base d <= x < limit d) ->
  (length (filter Q l) <= 1)%nat.
Proof.
  induction 1 as [|d l Hs IH Hall]; intros HQ; [simpl; lia|].
  destruct (decide (Q d)) as [Hq|Hq].
  - rewrite filter_cons_True by done.
    assert (filter Q l = []) as ->; [|simpl; lia].
    apply elem_of_nil_inv. intros d' [Hq' Hd']%list_elem_of_filter.
    rewrite Forall_forall in Hall. specialize (Hall d' Hd'). unfold before in Hall.
    pose proof (HQ d ltac:(set_solver) Hq). pose proof (HQ d' ltac:(set_solver) Hq'). lia.
  - rewrite filter_cons_False by done. apply IH. intros d' Hd'. apply HQ. set_solver.
Qed.

(** ** The free frames *)

(** The frames of a region from the address [lo] on. *)
Definition frames_from (lo : Z) (d : D) : list Z :=
  addr_range Size4KiB (Z.max lo (base d)) (limit d - Size4KiB).

(** The frames of the usable regions of a map from [lo] on. *)
Definition usable_frames_from (lo : Z) (l : list D) : list Z :=
  mjoin (frames_from lo <$> filter (fun d => region_kind d = Usable) l).

Definition legacy_free (self : LegacyFrameAllocator D) : list Z :=
  match current_descriptor self with
  | Some d => frames_from (next_frame self) d
  | None => []
  end ++ usable_frames_from (next_frame self) (memory_map self).

Record legacy_inv (self : LegacyFrameAllocator D) : Prop := {
  inv_next_aligned : (Size4KiB | next_frame self);
  inv_next : 0 <= next_frame self < 2 ^ 52;
  inv_ok : Forall region_ok (option_list (current_descriptor self) ++ memory_map self);
  inv_sorted : sorted (option_list (current_descriptor self) ++ memory_map self);
  inv_current : forall d, current_descriptor self = Some d ->
    region_kind d = Usable /\ base d <= next_frame self;
}.

Lemma frames_from_nil lo d :
  region_ok d -> (Size4KiB | lo) -> limit d <= Z.max lo (base d) -> frames_from lo d = [].
Proof.
  intros Hd Hlo Hle. apply addr_range_empty; [done| | |unfold Size4KiB; lia].
  - apply Z.max_case; [done|apply Hd].
  - apply Z.divide_sub_r; [by apply limit_aligned|apply Z.divide_refl].
Qed.

Lemma frames_from_cons lo d :
  region_ok d -> (Size4KiB | lo) -> Z.max lo (base d) < limit d ->
  frames_from lo d = Z.max lo (base d) :: frames_from (Z.max lo (base d) + Size4KiB) d.
Proof.
  intros Hd Hlo Hlt. unfold frames_from.
  set (m := Z.max lo (base d)) in *.
  assert (Hm : (Size4KiB | m)) by (apply Z.max_case; [done|apply Hd]).
  rewrite (Z.max_l (m + Size4KiB) (base d)) by (unfold Size4KiB in *; lia).
  apply addr_range_cons; [done|done| |].
  - apply Z.divide_sub_r; [by apply limit_aligned|apply Z.divide_refl].
  - pose proof (divide_lt_step m (limit d) Size4KiB ltac:(done) Hm (limit_aligned _ Hd) Hlt). lia.
Qed.

(** Below the base of a region the bound does not matter. *)
Lemma frames_from_low lo lo' d : lo <= base d -> lo' <= base d -> frames_from lo d = frames_from lo' d.
Proof. intros. unfold frames_from. by rewrite !Z.max_r. Qed.

Lemma usable_frames_from_low lo lo' l :
  Forall (fun d => lo <= base d /\ lo' <= base d) l ->
  usable_frames_from lo l = usable_frames_from lo' l.
Proof.
  intros Hl. unfold usable_frames_from. f_equal.
  apply list_fmap_ext. intros i d Hd%list_elem_of_lookup_2.
  apply list_elem_of_filter in Hd as [_ Hd].
  rewrite Forall_forall in Hl. destruct (Hl d Hd). by apply frames_from_low.
Qed.

Lemma usable_frames_from_cons lo d l :
  usable_frames_from lo (d :: l) =
    (if decide (region_kind d = Usable) then frames_from lo d else []) ++ usable_frames_from lo l.
Proof.
  unfold usable_frames_from. case_decide.
  - by rewrite filter_cons_True.
  - by rewrite filter_cons_False.
Qed.

Lemma elem_of_frames_from lo d f :
  region_ok d -> (Size4KiB | lo) ->
  f ∈ frames_from lo d <-> (Size4KiB | f) /\ lo <= f /\ base d <= f /\ f + Size4KiB <= limit d.
Proof.
  intros Hd Hlo. unfold frames_from. rewrite elem_of_addr_range; [|done| |].
  - split; [intros [? ?]|intros (? & ? & ? & ?)]; (split; [done|lia]).
  - apply Z.max_case; [done|apply Hd].
  - apply Z.divide_sub_r; [by apply limit_aligned|apply Z.divide_refl].
Qed.

Lemma elem_of_usable_frames_from lo l f :
  Forall region_ok l -> (Size4KiB | lo) ->
  f ∈ usable_frames_from lo l <-> exists d, d ∈ l /\ region_kind d = Usable /\
    (Size4KiB | f) /\ lo <= f /\ base d <= f /\ f + Size4KiB <= limit d.
Proof.
  intros Hok Hlo. rewrite Forall_forall in Hok.
  unfold usable_frames_from. rewrite list_elem_of_join. split.
  - intros (fs & Hf & Hfs). apply list_elem_of_fmap in Hfs as (d & -> & Hd).
    apply list_elem_of_filter in Hd as [Hk Hd].
    apply elem_of_frames_from in Hf; [|by apply Hok|done]. eauto 10.
  - intros (d & Hd & Hk & Hf). exists (frames_from lo d).
    split; [apply elem_of_frames_from; [by apply Hok|done|done]|].
    apply list_elem_of_fmap. exists d. split; [done|]. by apply list_elem_of_filter.
Qed.
End Regions.

(** * The allocator refines a free list *)

Section Refinement.
Context {X : X86_64} {XL : X86_64_Laws X} {D : Type} {R : LegacyMemoryRegion D}.
Implicit Types self : LegacyFrameAllocator D.

Lemma allocate_from_descriptor_spec self d :
  region_ok d -> region_kind d = Usable -> (Size4KiB | next_frame self) -> 0 <= next_frame self ->
  allocate_frame_from_descriptor self d =
    if decide (Z.max (next_frame self) (base d) < limit d)
    then Ret (Some (Z.max (next_frame self) (base d)),
              set_next_frame self (Z.max (next_frame self) (base d) + Size4KiB))
    else Ret (None, self).
Proof.
  intros Hd Hk Hal Hn. pose proof (ok_nonempty _ Hd Hk) as Hs. pose proof (ok_limit _ Hd) as Hlim.
  pose proof (ok_base _ Hd) as Hb. unfold limit in *.
  pose proof (divide_lt_step 0 (size d) Size4KiB ltac:(done) (Z.divide_0_r _)
    (ok_size_aligned _ Hd) Hs) as Hs'.
  unfold allocate_frame_from_descriptor.
  rewrite (ok_start _ Hd), bind_Ret, (ok_len _ Hd), bind_Ret.
  rewrite phys_add_ok, bind_Ret by lia. rewrite phys_sub_ok, bind_Ret by lia.
  cbv zeta. rewrite !frame_containing_4k by lia.
  rewrite (round_down_id (base d)) by (done || apply Hd).
  rewrite round_down_pred by (done || by apply (limit_aligned d)).
  set (m := Z.max (next_frame self) (base d)).
  assert (Hm : (Size4KiB | m)) by (apply Z.max_case; [done|apply Hd]).
  assert (next_frame (if next_frame self <? base d then set_next_frame self (base d) else self) = m)
    as Hnext by (unfold m; case_tests; simpl; lia).
  rewrite Hnext. case_decide as Hlt.
  - pose proof (divide_lt_step m _ Size4KiB ltac:(done) Hm (limit_aligned _ Hd) Hlt) as Hstep.
    unfold limit in Hstep. destruct (Z.leb_spec m (base d + size d - Size4KiB)); [|lia].
    rewrite frame_add_spec; [|by left|done|lia|lia|unfold Size4KiB in *; lia].
    simpl. rewrite Z.mul_1_l. by destruct (next_frame self <? base d).
  - destruct (Z.leb_spec m (base d + size d - Size4KiB)); [unfold Size4KiB in *; lia|].
    destruct (Z.ltb_spec (next_frame self) (base d)); [unfold Size4KiB in *; lia|done].
Qed.

(** One frame taken from region [d], the map behind it untouched. *)
Lemma take_from_region self d :
  let m := Z.max (next_frame self) (base d) in
  (Size4KiB | next_frame self) -> 0 <= next_frame self < 2 ^ 52 ->
  region_kind d = Usable ->
  Forall region_ok (d :: memory_map self) -> sorted (d :: memory_map self) -> m < limit d ->
  let self' := set_current (set_next_frame self (m + Size4KiB)) (Some d) in
  legacy_inv self' /\
    frames_from (next_frame self) d ++ usable_frames_from (next_frame self) (memory_map self)
    = m :: legacy_free self'.
Proof.
  intros m Hal Hn Hk Hok Hsort Hlt self'.
  apply Forall_cons in Hok as Hok'. destruct Hok' as [Hd Hrest].
  inversion Hsort as [|? ? _ Hbef]; subst.
  assert (Hm : (Size4KiB | m)) by (apply Z.max_case; [done|apply Hd]).
  pose proof (divide_lt_step m _ Size4KiB ltac:(done) Hm (limit_aligned _ Hd) Hlt) as Hstep.
  pose proof (ok_limit _ Hd) as Hlim.
  split.
  - split; simpl; [by apply Z.divide_add_r|unfold Size4KiB in *; lia|done|done|].
    intros d' [= <-]. split; [done|unfold Size4KiB in *; lia].
  - unfold legacy_free. simpl. rewrite (frames_from_cons (next_frame self) d) by done. fold m.
    simpl. f_equal. f_equal. apply usable_frames_from_low.
    rewrite Forall_forall in *. intros d' Hd'. specialize (Hbef d' Hd').
    unfold before in Hbef. unfold Size4KiB in *. lia.
Qed.

Lemma allocate_from_map_spec mm self :
  (Size4KiB | next_frame self) -> 0 <= next_frame self < 2 ^ 52 ->
  current_descriptor self = None -> Forall region_ok mm -> sorted mm ->
  exists self', allocate_from_map mm self =
      Ret (head (usable_frames_from (next_frame self) mm), self') /\
    legacy_free self' = tail (usable_frames_from (next_frame self) mm) /\
    legacy_inv self' /\
    original self' = original self.
Proof.
  intros Hal Hn. revert self Hal Hn. induction mm as [|d mm IH]; intros self Hal Hn Hc Hok Hsort; simpl.
  - eexists. split; [done|]. unfold legacy_free. simpl. rewrite Hc.
    split_and!; [done| |done]. split; simpl; rewrite ?Hc; done || constructor.
  - apply Forall_cons in Hok as Hok'. destruct Hok' as [Hd Hrest].
    inversion Hsort as [|? ? Hsort' _]; subst.
    rewrite usable_frames_from_cons.
    destruct (decide (region_kind d <> Usable)) as [Hk|Hk].
    { rewrite decide_False by done. by apply IH. }
    apply dec_stable in Hk. rewrite decide_True by done.
    rewrite allocate_from_descriptor_spec by (simpl; (done || lia)).
    change (next_frame (set_memory_map self mm)) with (next_frame self).
    case_decide as Hlt; simpl.
    + destruct (take_from_region (set_memory_map self mm) d Hal Hn Hk Hok Hsort Hlt) as [Hi Hf].
      simpl in Hf. rewrite Hf. simpl. eexists. split; [done|]. done.
    + rewrite frames_from_nil by (done || lia). simpl.
      destruct (IH (set_memory_map self mm)) as (self' & H); try done. by exists self'.
Qed.

Lemma legacy_step self :
  legacy_inv self ->
  exists self', allocate_frame self = Ret (head (legacy_free self), self') /\
    legacy_free self' = tail (legacy_free self) /\
    legacy_inv self' /\
    original self' = original self.
Proof.
  intros [Hal Hn Hok Hsort Hcur]. unfold allocate_frame, legacy_frame_allocator.
  unfold legacy_free. destruct (current_descriptor self) as [d|] eqn:Hc; simpl in Hok, Hsort.
  - destruct (Hcur d eq_refl) as [Hk Hle].
    apply Forall_cons in Hok as Hok'. destruct Hok' as [Hd Hrest].
    rewrite allocate_from_descriptor_spec by (done || lia).
    case_decide as Hlt; simpl.
    + destruct (take_from_region self d Hal Hn Hk Hok Hsort Hlt) as [Hi Hf].
      assert (Heq : set_next_frame self (Z.max (next_frame self) (base d) + Size4KiB) =
        set_current (set_next_frame self (Z.max (next_frame self) (base d) + Size4KiB)) (Some d))
        by (unfold set_current, set_next_frame; simpl; by rewrite Hc).
      rewrite Hf, Heq. eexists. by split.
    + rewrite frames_from_nil by (done || lia). simpl.
      inversion Hsort; subst.
      by apply (allocate_from_map_spec (memory_map self) (set_current self None)).
  - by apply (allocate_from_map_spec (memory_map self) self).
Qed.

(** The frames the allocator can still hand out are frames of usable regions
    of the map that are not below [next_frame]. *)
Lemma legacy_free_elem self f :
  legacy_inv self -> f ∈ legacy_free self <->
  exists d, d ∈ option_list (current_descriptor self) ++ memory_map self /\
    region_kind d = Usable /\ (Size4KiB | f) /\ next_frame self <= f /\
    base d <= f /\ f + Size4KiB <= limit d.
Proof.
  intros [Hal Hn Hok Hsort Hcur]. apply Forall_app in Hok as [Hok1 Hok2].
  unfold legacy_free. rewrite elem_of_app, elem_of_usable_frames_from by done.
  destruct (current_descriptor self) as [d|]; simpl.
  - apply Forall_cons in Hok1 as [Hd _]. destruct (Hcur d eq_refl) as [Hk _].
    rewrite elem_of_frames_from by done.
    setoid_rewrite elem_of_cons. naive_solver.
  - set_solver.
Qed.
End Refinement.

Section FreeListInstance.
Context {X : X86_64} {XL : X86_64_Laws X} {D : Type} {R : LegacyMemoryRegion D}.

Lemma usable_frames_sorted lo (l : list D) :
  Forall region_ok l -> sorted l -> (Size4KiB | lo) ->
  StronglySorted Z.lt (usable_frames_from lo l).
Proof.
  intros Hok Hs Hlo. induction Hs as [|d l Hs IH Hall]; [constructor|].
  apply Forall_cons in Hok as [Hd Hok]. rewrite usable_frames_from_cons.
  case_decide; [|by apply IH].
  apply StronglySorted_app_2; [|by apply addr_range_sorted|by apply IH].
  intros f g Hf Hg. apply elem_of_frames_from in Hf; [|done|done].
  apply elem_of_usable_frames_from in Hg as (d' & Hd' & _ & Hg); [|done|done].
  rewrite Forall_forall in Hall. specialize (Hall d' Hd'). unfold before in Hall.
  unfold Size4KiB in *. lia.
Qed.

(** The frames come out in ascending order. *)
Lemma legacy_free_sorted (self : LegacyFrameAllocator D) :
  legacy_inv self -> StronglySorted Z.lt (legacy_free self).
Proof.
  intros [Hal Hn Hok Hsort Hcur]. unfold legacy_free.
  destruct (current_descriptor self) as [d|] eqn:Hc; simpl in *.
  - destruct (Hcur d eq_refl) as [Hk _].
    replace (frames_from (next_frame self) d ++ usable_frames_from (next_frame self) (memory_map self))
      with (usable_frames_from (next_frame self) (d :: memory_map self))
      by (rewrite usable_frames_from_cons; by rewrite decide_True).
    by apply usable_frames_sorted.
  - by apply usable_frames_sorted.
Qed.

#[export] Program Instance legacy_free_list : FreeList (LegacyFrameAllocator D) := {|
  fa_inv _ := legacy_inv;
  fa_free := legacy_free;
|}.
Next Obligation.
  intros k self Hi. destruct (legacy_step self Hi) as (self' & ? & ? & ? & _). by exists self'.
Qed.
Next Obligation. done. Qed.
Next Obligation.
  intros k self f Hi Hf. pose proof (inv_next _ Hi) as Hn. pose proof (inv_ok _ Hi) as Hok.
  apply legacy_free_elem in Hf as (d & Hd & _ & Hal & Hlo & _ & Hlim); [|done].
  rewrite Forall_forall in Hok. pose proof (ok_limit _ (Hok d Hd)).
  split_and!; [done|lia|lia].
Qed.
Next Obligation. intros k self Hi. by apply sorted_lt_NoDup, legacy_free_sorted. Qed.

(** A fresh allocator owns every frame of usable memory but frame 0. *)
Lemma legacy_new_spec (mm : list D) :
  Forall region_ok mm -> sorted mm ->
  exists self, LegacyFrameAllocator_new mm = Ret self /\ legacy_inv self /\
    original self = mm /\ legacy_free self = usable_frames_from 4096 mm.
Proof.
  intros Hok Hs. unfold LegacyFrameAllocator_new.
  rewrite phys_new_spec, bind_Ret by lia. cbv zeta. rewrite frame_containing_4k by lia.
  eexists. split; [done|]. split; [|done].
  split; simpl; [by apply (round_down_divide 4096)|by vm_compute|done|done|done].
Qed.
End FreeListInstance.

(** * The memory map handed to the kernel *)

Section MemoryMap.
Context {D : Type} {R : LegacyMemoryRegion D}.
Variables (nf ks ke : Z).

(** Where the part of a region that is reported usable begins: behind the
    allocated frames in conventional memory, at the base in memory that the
    firmware or the bootloader gives up. *)
Definition usable_from (d : D) : option Z :=
  match region_kind d with
  | Usable => if limit d <=? nf then None else Some (Z.max (base d) nf)
  | _ => if usable_after_bootloader_exit d then Some (base d) else None
  end.

(** Specification: the kind of memory at an address of a region. *)
Definition kind_at (d : D) (a : Z) : MemoryRegionKind :=
  match usable_from d with
  | Some s => if (s <=? a) && negb ((ks <=? a) && (a <? ke)) then Usable else Bootloader
  | None => match region_kind d with Usable => Bootloader | k => k end
  end.

(** The two assertions: a usable part that the kernel file touches contains it. *)
Definition kernel_fits (d : D) : Prop :=
  forall s, usable_from d = Some s -> ks < limit d -> s < ke -> s <= ks /\ ke <= limit d.

#[export] Instance kernel_fits_dec d : Decision (kernel_fits d).
Proof.
  unfold kernel_fits. destruct (usable_from d) as [s|].
  - destruct (decide (ks < limit d -> s < ke -> s <= ks /\ ke <= limit d)) as [Hy|Hn].
    + left. by intros s' [= <-].
    + right. intros Hf. by apply Hn, Hf.
  - left. by intros.
Defined.

(** The regions a descriptor is cut into. *)
Definition kernel_split (s e : Z) : list MemoryRegion :=
  if (ks <? e) && (s <? ke) then
    [mkMemoryRegion s ks Usable; mkMemoryRegion ks ke Bootloader; mkMemoryRegion ke e Usable]
  else [mkMemoryRegion s e Usable].

Definition pieces (d : D) : list MemoryRegion :=
  match usable_from d with
  | Some s => (if base d <? s then [mkMemoryRegion (base d) s Bootloader] else [])
              ++ kernel_split s (limit d)
  | None => [mkMemoryRegion (base d) (limit d)
               (match region_kind d with Usable => Bootloader | k => k end)]
  end.

Definition keep (rs : list MemoryRegion) : list MemoryRegion :=
  filter (fun r => start r <> end_ r) rs.

Definition map_of (l : list D) : list MemoryRegion := mjoin ((fun d => keep (pieces d)) <$> l).

Lemma usable_from_bounds d s :
  region_ok d -> usable_from d = Some s -> base d <= s <= limit d.
Proof.
  intros Hd. unfold usable_from.
  assert (base d <= limit d) by (pose proof (ok_size _ Hd); unfold limit; lia).
  destruct (region_kind d); [case_tests; intros [= <-]; lia| |];
    case_match; intros [= <-]; lia.
Qed.

Lemma keep_app l1 l2 : keep (l1 ++ l2) = keep l1 ++ keep l2.
Proof. apply filter_app. Qed.

Lemma elem_of_keep r l : r ∈ keep l <-> r ∈ l /\ start r <> end_ r.
Proof. unfold keep. rewrite list_elem_of_filter. tauto. Qed.

(** Every address of a region is in a piece of the specified kind, and the
    pieces have no other addresses. *)
Lemma pieces_cover d a k :
  region_ok d -> 0 <= ks <= ke -> kernel_fits d ->
  (exists r, r ∈ keep (pieces d) /\ in_region a r /\ kind r = k) <->
    base d <= a < limit d /\ kind_at d a = k.
Proof.
  intros Hd Hk Hfit. unfold kernel_fits in Hfit.
  setoid_rewrite elem_of_keep. unfold pieces, kind_at, kernel_split, in_region.
  destruct (usable_from d) as [s|] eqn:Hs.
  - pose proof (usable_from_bounds d s Hd Hs). specialize (Hfit s eq_refl).
    setoid_rewrite elem_of_app. split.
    + intros (r & [[Hr|Hr] Hne] & Hin & <-).
      * destruct (Z.ltb_spec (base d) s); apply list_elem_of_singleton in Hr || by apply elem_of_nil in Hr.
        subst r. simpl in *. split; [lia|]. case_tests; simpl; lia || done.
      * destruct (Z.ltb_spec ks (limit d)), (Z.ltb_spec s ke); simpl in Hr;
          rewrite ?elem_of_cons, ?elem_of_nil in Hr;
          repeat destruct Hr as [->|Hr]; try done; simpl in *;
          (split; [lia|]); case_tests; simpl; lia || done.
    + intros [Ha <-].
      destruct (Z.leb_spec s a) as [Hsa|Hsa]; simpl.
      2: { exists (mkMemoryRegion (base d) s Bootloader).
           destruct (Z.ltb_spec (base d) s); [|lia].
           split_and!; simpl; [left; set_solver|lia|lia|lia|done]. }
      destruct (Z.ltb_spec ks (limit d)), (Z.ltb_spec s ke); simpl;
        [|exists (mkMemoryRegion s (limit d) Usable); case_tests; simpl; try lia;
          split_and!; simpl; (right; set_solver) || lia || done ..].
      destruct Hfit as [? ?]; [lia|lia|].
      destruct (Z.leb_spec ks a), (Z.ltb_spec a ke); simpl; try lia.
      * exists (mkMemoryRegion ks ke Bootloader).
        split_and!; simpl; (right; set_solver) || lia || done.
      * exists (mkMemoryRegion ke (limit d) Usable).
        split_and!; simpl; (right; set_solver) || lia || done.
      * exists (mkMemoryRegion s ks Usable).
        split_and!; simpl; (right; set_solver) || lia || done.
  - setoid_rewrite list_elem_of_singleton. split.
    + intros (r & [-> Hne] & Hin & <-). done.
    + intros [Ha <-]. eexists. split_and!; [done|simpl; lia|simpl; lia|simpl; lia|done].
Qed.

(** Pieces are cut left to right out of the region. *)
Definition follows (r1 r2 : MemoryRegion) : Prop := end_ r1 <= start r2.

Lemma keep_bounds d r :
  region_ok d -> 0 <= ks <= ke -> kernel_fits d -> r ∈ keep (pieces d) ->
  base d <= start r /\ start r < end_ r /\ end_ r <= limit d.
Proof.
  intros Hd Hk Hfit [Hr Hne]%elem_of_keep. unfold pieces, kernel_split in Hr.
  assert (base d <= limit d) by (pose proof (ok_size _ Hd); unfold limit; lia).
  unfold kernel_fits in Hfit. destruct (usable_from d) as [s|] eqn:Hs.
  - pose proof (usable_from_bounds d s Hd Hs). specialize (Hfit s eq_refl).
    destruct (Z.ltb_spec (base d) s), (Z.ltb_spec ks (limit d)), (Z.ltb_spec s ke); simpl in Hr;
      rewrite ?elem_of_cons, ?elem_of_nil in Hr;
      repeat destruct Hr as [->|Hr]; try done; simpl in *; lia.
  - apply list_elem_of_singleton in Hr as ->. simpl in *. lia.
Qed.

Lemma pieces_sorted d :
  region_ok d -> 0 <= ks <= ke -> kernel_fits d -> StronglySorted follows (pieces d).
Proof.
  intros Hd Hk Hfit. unfold pieces, kernel_split, kernel_fits in *.
  destruct (usable_from d) as [s|] eqn:Hs; [|by repeat constructor].
  specialize (Hfit s eq_refl).
  destruct (Z.ltb_spec (base d) s), (Z.ltb_spec ks (limit d)), (Z.ltb_spec s ke); simpl;
    repeat constructor; unfold follows; simpl; lia.
Qed.

Lemma keep_sorted l : StronglySorted follows l -> StronglySorted follows (keep l).
Proof.
  induction 1 as [|r l Hs IH Hall]; [constructor|]. unfold keep.
  destruct (decide (start r <> end_ r)).
  - rewrite filter_cons_True by done. constructor; [done|].
    rewrite Forall_forall in *. intros r' [_ Hr']%list_elem_of_filter. by apply Hall.
  - by rewrite filter_cons_False.
Qed.

Lemma map_of_cons d l : map_of (d :: l) = keep (pieces d) ++ map_of l.
Proof. done. Qed.

Lemma elem_of_map_of l r : r ∈ map_of l <-> exists d, d ∈ l /\ r ∈ keep (pieces d).
Proof.
  unfold map_of. rewrite list_elem_of_join. setoid_rewrite list_elem_of_fmap. naive_solver.
Qed.

Lemma map_of_sorted l :
  Forall region_ok l -> sorted l -> 0 <= ks <= ke -> Forall kernel_fits l ->
  StronglySorted follows (map_of l).
Proof.
  intros Hok Hs Hk Hfit. induction Hs as [|d l Hs IH Hall]; [constructor|].
  apply Forall_cons in Hok as [Hd Hok]. apply Forall_cons in Hfit as [Hfd Hfit].
  rewrite map_of_cons. apply StronglySorted_app_2.
  - intros r1 r2 H1 (d' & Hd' & H2)%elem_of_map_of.
    rewrite Forall_forall in Hall, Hok, Hfit.
    specialize (Hall d' Hd'). unfold before in Hall. unfold follows.
    pose proof (keep_bounds d r1 Hd Hk Hfd H1).
    pose proof (keep_bounds d' r2 (Hok d' Hd') Hk (Hfit d' Hd') H2). lia.
  - apply keep_sorted. by apply pieces_sorted.
  - by apply IH.
Qed.

Lemma map_of_cover l a k :
  Forall region_ok l -> 0 <= ks <= ke -> Forall kernel_fits l ->
  (exists r, r ∈ map_of l /\ in_region a r /\ kind r = k) <->
  (exists d, d ∈ l /\ base d <= a < limit d /\ kind_at d a = k).
Proof.
  intros Hok Hk Hfit. rewrite Forall_forall in Hok, Hfit.
  setoid_rewrite elem_of_map_of. split.
  - intros (r & (d & Hd & Hr) & Hin & Hkind). exists d. split; [done|].
    apply pieces_cover; [by apply Hok|done|by apply Hfit|]. by exists r.
  - intros (d & Hd & Ha). apply pieces_cover in Ha as (r & Hr & ?); [|by apply Hok|done|by apply Hfit].
    exists r. split; [by exists d|done].
Qed.

(** ** How many regions there can be *)

Definition is_split (d : D) : Prop := region_kind d = Usable /\ base d < nf < limit d.
Definition has_kernel (d : D) : Prop :=
  match usable_from d with Some s => ks < limit d /\ s < ke | None => False end.

#[export] Instance is_split_dec d : Decision (is_split d).
Proof. unfold is_split. apply _. Defined.
#[export] Instance has_kernel_dec d : Decision (has_kernel d).
Proof. unfold has_kernel. destruct (usable_from d); apply _. Defined.

Lemma length_pieces d :
  region_ok d ->
  (length (keep (pieces d)) <=
    1 + length (filter is_split [d]) + 2 * length (filter has_kernel [d]))%nat.
Proof.
  intros Hd. etransitivity; [apply length_filter|].
  unfold pieces, kernel_split. rewrite !filter_cons, !filter_nil.
  destruct (usable_from d) as [s|] eqn:Hs; [|simpl; lia].
  rewrite length_app.
  assert (length (if (base d <? s)%Z then [mkMemoryRegion (base d) s Bootloader] else [])
    <= length (if decide (is_split d) then [d] else []))%nat.
  { destruct (Z.ltb_spec (base d) s) as [Hlt|]; [|simpl; lia].
    rewrite decide_True; [done|]. unfold usable_from in Hs. unfold is_split.
    destruct (region_kind d);
      [|destruct (usable_after_bootloader_exit d); [injection Hs as Hs; lia|done] ..].
    destruct (Z.leb_spec (limit d) nf); [done|]. injection Hs as <-. split; [done|lia]. }
  destruct (decide (has_kernel d)) as [Hh|Hh]; unfold has_kernel in Hh; rewrite Hs in Hh.
  - destruct (Z.ltb_spec ks (limit d)), (Z.ltb_spec s ke); simpl; lia.
  - destruct (Z.ltb_spec ks (limit d)), (Z.ltb_spec s ke); simpl; lia.
Qed.

Lemma length_map_of_count l :
  Forall region_ok l ->
  (length (map_of l) <= length l + length (filter is_split l) + 2 * length (filter has_kernel l))%nat.
Proof.
  induction 1 as [|d l Hd _ IH]; [done|].
  rewrite map_of_cons, length_app.
  pose proof (length_pieces d Hd).
  change (d :: l) with ([d] ++ l). rewrite !filter_app, !length_app. simpl (length [d]).
  lia.
Qed.

(** One region is split at the end of the allocated frames and one at the
    kernel, so [len + 3] entries are enough. *)
Lemma length_map_of l :
  Forall region_ok l -> sorted l -> Forall kernel_fits l ->
  (length (map_of l) <= length l + 3)%nat.
Proof.
  intros Hok Hs Hfit. pose proof (length_map_of_count l Hok).
  assert (length (filter is_split l) <= 1)%nat.
  { apply (sorted_filter_one _ _ nf Hs). intros d _ [_ ?]. lia. }
  assert (length (filter has_kernel l) <= 1)%nat.
  { apply (sorted_filter_one _ _ ks Hs). intros d Hd Hh.
    rewrite Forall_forall in Hok, Hfit.
    unfold has_kernel in Hh. destruct (usable_from d) as [s|] eqn:Hu; [|done].
    pose proof (usable_from_bounds d s (Hok d Hd) Hu).
    destruct Hh as [Hlt Hlt']. destruct (Hfit d Hd s Hu Hlt Hlt'). lia. }
  lia.
Qed.
End MemoryMap.

(** * [construct_memory_map] computes [map_of] *)

Section Construct.
Context {X : X86_64} {XL : X86_64_Laws X} {P : Profile} {D : Type} {R : LegacyMemoryRegion D}.

(** A buffer of [cap] entries that holds the regions [out]. *)
Definition holds (cap : nat) (out : list MemoryRegion) (buf : map_buffer) : Prop :=
  length (fst buf) = cap /\ snd buf = Z.of_nat (length out) /\
  take (length out) (fst buf) = Some <$> out.

Lemma add_region_spec cap out buf r :
  holds cap out buf -> (length (out ++ keep [r]) <= cap)%nat ->
  exists buf', add_region r buf = Ret buf' /\ holds cap (out ++ keep [r]) buf'.
Proof.
  destruct buf as [l n]. intros (Hlen & Hn & Htake) Hcap. simpl in *. subst n.
  unfold keep in *. destruct (Z.eqb_spec (start r) (end_ r)) as [He|He].
  - rewrite filter_cons_False, filter_nil by (intros H; by apply H).
    exists (l, Z.of_nat (length out)). by rewrite app_nil_r.
  - rewrite filter_cons_True, filter_nil in * by done. rewrite length_app in Hcap. simpl in Hcap.
    destruct (Z.ltb_spec (Z.of_nat (length out)) (Z.of_nat (length l))); [|lia].
    eexists. split; [done|]. unfold holds. simpl. rewrite length_insert, length_app, Nat2Z.id.
    simpl. split_and!; [done|lia|].
    rewrite Nat.add_1_r, (take_S_r _ _ (Some r)) by (apply list_lookup_insert_eq; lia).
    rewrite take_insert_ge by done. by rewrite Htake, fmap_app.
Qed.

Lemma add_regions_spec cap out buf rs :
  holds cap out buf -> (length (out ++ keep rs) <= cap)%nat ->
  exists buf', foldM (fun buf r => add_region r buf) rs buf = Ret buf' /\
    holds cap (out ++ keep rs) buf'.
Proof.
  revert out buf. induction rs as [|r rs IH]; intros out buf Hh Hcap; simpl.
  - exists buf. unfold keep. by rewrite filter_nil, app_nil_r.
  - change (r :: rs) with ([r] ++ rs) in *. rewrite keep_app, app_assoc in *.
    destruct (add_region_spec cap out buf r Hh) as (b1 & Hb1 & Hh1).
    { rewrite length_app in Hcap. lia. }
    rewrite Hb1, bind_Ret. by apply IH.
Qed.

Lemma region_kind_and_start_spec (self : LegacyFrameAllocator D) d buf :
  region_ok d ->
  region_kind_and_start self d (base d) (limit d) buf =
    match usable_from (next_frame self) d with
    | Some s =>
        b ← foldM (fun buf r => add_region r buf)
              (if base d <? s then [mkMemoryRegion (base d) s Bootloader] else []) buf;
        Ret (Usable, s, b)
    | None => Ret (match region_kind d with Usable => Bootloader | k => k end, base d, buf)
    end.
Proof.
  intros Hd. unfold region_kind_and_start, usable_from.
  destruct (region_kind d).
  - destruct (Z.leb_spec (limit d) (next_frame self)); [done|].
    rewrite (ok_start _ Hd), bind_Ret.
    destruct (Z.leb_spec (next_frame self) (base d)).
    + rewrite Z.max_l, Z.ltb_irrefl by lia. done.
    + rewrite Z.max_r by lia. destruct (Z.ltb_spec (base d) (next_frame self)); [|lia].
      simpl. by destruct (add_region _ _).
  - destruct (usable_after_bootloader_exit d); [|done]. by rewrite Z.ltb_irrefl.
  - destruct (usable_after_bootloader_exit d); [|done]. by rewrite Z.ltb_irrefl.
Qed.

(** One iteration of the loop: the assertions hold exactly when the kernel
    fits, and then the pieces of the region are appended. *)
Lemma map_descriptor_spec self ks kl cap out buf d :
  region_ok d -> 0 <= ks -> 0 <= kl -> ks + kl < u64_size ->
  holds cap out buf ->
  (length (out ++ keep (pieces (next_frame self) ks (ks + kl) d)) <= cap)%nat ->
  (kernel_fits (next_frame self) ks (ks + kl) d ->
     exists buf', map_descriptor self ks kl buf d = Ret buf' /\
       holds cap (out ++ keep (pieces (next_frame self) ks (ks + kl) d)) buf') /\
  (~ kernel_fits (next_frame self) ks (ks + kl) d ->
     exists m, map_descriptor self ks kl buf d = Panic m).
Proof.
  intros Hd Hks Hkl Hov Hh Hcap.
  pose proof (ok_limit _ Hd). pose proof (ok_base _ Hd). pose proof (ok_size _ Hd).
  assert (Hrun : map_descriptor self ks kl buf d =
    (r ← region_kind_and_start self d (base d) (limit d) buf;
     let '(k, s, b) := r in
     if bool_decide (k = Usable) && (ks <? limit d) && (s <? ks + kl) then
       _ ← assert_that (s <=? ks) "region overlaps with kernel, but kernel begins before region";
       _ ← assert_that (ks + kl <=? limit d)
             "region overlaps with kernel, but region ends before kernel";
       foldM (fun buf r => add_region r buf)
         [mkMemoryRegion s ks k; mkMemoryRegion ks (ks + kl) Bootloader;
          mkMemoryRegion (ks + kl) (limit d) k] b
     else foldM (fun buf r => add_region r buf) [mkMemoryRegion s (limit d) k] b)).
  { unfold map_descriptor. rewrite (ok_start _ Hd), bind_Ret, (ok_len _ Hd), bind_Ret.
    rewrite phys_add_ok, bind_Ret by (unfold limit in *; lia).
    change (base d + size d) with (limit d).
    destruct (region_kind_and_start _ _ _ _ _) as [[[k s] b]|m|]; simpl; [|done|done].
    rewrite u64_add_ok by lia. simpl.
    destruct (_ && _); [|by destruct (add_region _ _)].
    do 2 (destruct (assert_that _ _); simpl; [|done|done]).
    do 3 (destruct (add_region _ _) as [?|?|]; simpl; try done). }
  rewrite Hrun, region_kind_and_start_spec by done. clear Hrun.
  unfold kernel_fits, pieces, kernel_split in *.
  destruct (usable_from (next_frame self) d) as [s|] eqn:Hs.
  2: { rewrite bind_Ret. rewrite bool_decide_false by (by destruct (region_kind d)).
    split; [intros _|intros Hn; exfalso; by apply Hn].
    by apply add_regions_spec. }
  rewrite keep_app, app_assoc in *.
  destruct (add_regions_spec cap out buf
    (if base d <? s then [mkMemoryRegion (base d) s Bootloader] else []) Hh) as (b1 & Hb1 & Hh1).
  { rewrite length_app in Hcap. lia. }
  rewrite Hb1, bind_Ret. simpl.
  destruct (Z.ltb_spec ks (limit d)), (Z.ltb_spec s (ks + kl)); simpl;
    (split; [intros Hfit|intros Hnfit]);
    try (by apply (add_regions_spec cap _ b1 [mkMemoryRegion s (limit d) Usable]));
    try (exfalso; apply Hnfit; intros s' [= <-]; lia).
  - destruct (Hfit s eq_refl) as [Hf1 Hf2]; [done|done|].
    destruct (Z.leb_spec s ks), (Z.leb_spec (ks + kl) (limit d)); try lia. simpl.
    apply (add_regions_spec cap _ b1 [_; _; _]); done.
  - destruct (Z.leb_spec s ks); [|simpl; eauto].
    destruct (Z.leb_spec (ks + kl) (limit d)); [|simpl; eauto].
    exfalso. apply Hnfit. intros s' [= <-]. lia.
Qed.

Lemma assume_init_spec (out : list MemoryRegion) : assume_init (Some <$> out) = Ret out.
Proof.
  unfold assume_init.
  induction out as [|r out IH]; [done|]. rewrite fmap_cons. simpl. by rewrite IH.
Qed.

Lemma construct_loop self ks kl cap l out buf :
  Forall region_ok l -> 0 <= ks -> 0 <= kl -> ks + kl < u64_size ->
  holds cap out buf -> (length (out ++ map_of (next_frame self) ks (ks + kl) l) <= cap)%nat ->
  (Forall (kernel_fits (next_frame self) ks (ks + kl)) l ->
   exists buf', foldM (map_descriptor self ks kl) l buf = Ret buf' /\
     holds cap (out ++ map_of (next_frame self) ks (ks + kl) l) buf') /\
  (Exists (fun d => ~ kernel_fits (next_frame self) ks (ks + kl) d) l ->
   (forall d, d ∈ l -> kernel_fits (next_frame self) ks (ks + kl) d \/
      ~ kernel_fits (next_frame self) ks (ks + kl) d) ->
   exists m, foldM (map_descriptor self ks kl) l buf = Panic m).
Proof.
  intros Hok Hks Hkl Hov. revert out buf.
  induction Hok as [|d l Hd _ IH]; intros out buf Hh Hcap.
  - split; [|by intros ?%Exists_nil]. intros _. exists buf. by rewrite app_nil_r.
  - rewrite map_of_cons, app_assoc in Hcap.
    destruct (map_descriptor_spec self ks kl cap out buf d Hd Hks Hkl Hov Hh) as [Hyes Hno].
    { rewrite length_app in Hcap. lia. }
    split.
    + intros [Hfit Hfits]%Forall_cons. destruct (Hyes Hfit) as (b1 & Hb1 & Hh1).
      rewrite map_of_cons, app_assoc. simpl. rewrite Hb1, bind_Ret. by apply IH.
    + intros Hex Hdec. simpl. destruct (Hdec d ltac:(set_solver)) as [Hfit|Hnfit].
      * destruct (Hyes Hfit) as (b1 & Hb1 & Hh1). rewrite Hb1, bind_Ret.
        apply (proj2 (IH _ b1 Hh1 Hcap)); [|intros; apply Hdec; set_solver].
        apply Exists_cons in Hex as [?|?]; done.
      * destruct (Hno Hnfit) as [m ->]. by exists m.
Qed.

Lemma construct_memory_map_spec self buffer ks kl :
  Forall region_ok (original self) -> 0 <= ks -> 0 <= kl -> ks + kl < u64_size ->
  Forall (kernel_fits (next_frame self) ks (ks + kl)) (original self) ->
  (length (map_of (next_frame self) ks (ks + kl) (original self)) <= length buffer)%nat ->
  construct_memory_map self buffer ks kl =
    Ret (map_of (next_frame self) ks (ks + kl) (original self)).
Proof.
  intros Hok Hks Hkl Hov Hfit Hcap. unfold construct_memory_map.
  destruct (proj1 (construct_loop self ks kl (length buffer) (original self) [] (buffer, 0)
    Hok Hks Hkl Hov ltac:(by split_and!) Hcap) Hfit) as (b & Hb & _ & Hn & Ht).
  rewrite Hb, bind_Ret, Hn, Nat2Z.id. simpl in *. rewrite Ht. apply assume_init_spec.
Qed.
End Construct.

(** * Freshness on any map *)

(** [start()] returns a physical address, whatever the region. *)
Class RegionAddresses (D : Type) `{LegacyMemoryRegion D} : Prop :=
  region_start_range (d : D) s : region_start d = Ret s -> 0 <= s < 2 ^ 52.

#[export] Instance uefi_region_addresses `{X86_64_Laws} {P : Profile} {U : UefiMemoryTypes} :
  RegionAddresses UefiMemoryDescriptor.
Proof. intros d s Hs. simpl in Hs. apply phys_new_range in Hs as [-> ?]. done. Qed.

Section Freshness.
Context {X : X86_64} {XL : X86_64_Laws X} {D : Type} {R : LegacyMemoryRegion D}
  {RA : RegionAddresses D}.
Implicit Types self : LegacyFrameAllocator D.

Definition next_ok self : Prop := (Size4KiB | next_frame self) /\ 0 <= next_frame self < 2 ^ 52.

(** What a call that returned says about [next_frame]: it only grows, and a
    frame handed out lies between its old and its new value. *)
Definition advances self (r : option Z) self' : Prop :=
  next_ok self' /\ original self' = original self /\
  match r with
  | Some f => (Size4KiB | f) /\ next_frame self <= f /\ next_frame self' = f + Size4KiB
  | None => next_frame self <= next_frame self'
  end.

Lemma descriptor_advances self d r self' :
  next_ok self -> allocate_frame_from_descriptor self d = Ret (r, self') -> advances self r self'.
Proof.
  intros [Hal Hn] H. unfold allocate_frame_from_descriptor in H.
  bind_inv H. bind_inv H. bind_inv H. bind_inv H. cbv zeta in H.
  apply region_start_range in Hv. rewrite frame_containing_4k in H by lia.
  set (s2 := if next_frame self <? round_down v Size4KiB
             then set_next_frame self (round_down v Size4KiB) else self) in H.
  pose proof (round_down_bounds v Size4KiB ltac:(done)).
  pose proof (round_down_le_multiple 0 v Size4KiB ltac:(done) (Z.divide_0_r _) ltac:(lia)).
  assert (Hs2 : next_ok s2 /\ next_frame self <= next_frame s2 /\ original s2 = original self).
  { unfold s2, next_ok. case_tests; simpl; [|auto with lia].
    split_and!; [by apply round_down_divide|lia|lia|lia|done]. }
  destruct Hs2 as ([Hal2 Hn2] & Hle & Horig).
  case_tests_in H.
  - bind_inv H. injection H as <- <-.
    apply frame_add_result in Hv3 as [-> ?]; [|by left|done|lia|lia].
    unfold advances, next_ok. simpl. rewrite Z.mul_1_l in *.
    split_and!; try done; unfold Size4KiB in *; try lia. by apply Z.divide_add_r.
  - injection H as <- <-. by split_and!.
Qed.

Lemma advances_trans self1 self2 self3 r :
  next_frame self1 <= next_frame self2 -> original self2 = original self1 ->
  advances self2 r self3 -> advances self1 r self3.
Proof.
  intros Hle Ho (Hok & Ho' & Hr). split_and!; [done|congruence|].
  destruct r; [destruct Hr as (? & ? & ?); split_and!; [done|lia|done]|lia].
Qed.

Lemma map_advances mm self r self' :
  next_ok self -> allocate_from_map mm self = Ret (r, self') -> advances self r self'.
Proof.
  revert self. induction mm as [|d mm IH]; intros self Hok H; simpl in H.
  - injection H as <- <-. by split_and!.
  - case_decide; [by apply IH|]. bind_inv H. destruct v as [[f|] s1].
    + apply descriptor_advances in Hv; [|done]. by injection H as <- <-.
    + apply descriptor_advances in Hv as (Hok1 & Ho1 & Hle1); [|done].
      eapply advances_trans; [exact Hle1|exact Ho1|]. by apply IH.
Qed.

Lemma allocate_advances self r self' :
  next_ok self -> allocate_frame self = Ret (r, self') -> advances self r self'.
Proof.
  intros Hok H. unfold allocate_frame, legacy_frame_allocator in H.
  destruct (current_descriptor self) as [d|]; [|by apply (map_advances (memory_map self))].
  bind_inv H. destruct v as [[f|] s1]; apply descriptor_advances in Hv; try done.
  - by injection H as <- <-.
  - destruct Hv as (Hok1 & Ho1 & Hle1).
    apply (advances_trans self (set_current s1 None)); [exact Hle1|exact Ho1|].
    by apply (map_advances (memory_map s1)).
Qed.

(** The frames of a run lie below [next_frame] and ascend. *)
Lemma allocate_frames_advance n self rs self' :
  next_ok self -> allocate_frames n self = Ret (rs, self') ->
  next_ok self' /\ original self' = original self /\ next_frame self <= next_frame self' /\
  StronglySorted Z.lt (omap id rs) /\
  Forall (fun f => (Size4KiB | f) /\ next_frame self <= f /\ f + Size4KiB <= next_frame self') (omap id rs).
Proof.
  revert self rs. induction n as [|n IH]; intros self rs Hok H; simpl in H.
  - injection H as <- <-. split_and!; try done; simpl; constructor.
  - bind_inv H. bind_inv H. injection H as <- <-.
    destruct v as [r s1], v0 as [rs s2]. simpl in *.
    apply allocate_advances in Hv as (Hok1 & Ho1 & Hr); [|done].
    destruct (IH s1 rs Hok1 Hv0) as (Hok2 & Ho2 & Hle & Hs & Hall).
    rewrite Forall_forall in Hall.
    destruct r as [f|]; simpl in *.
    + destruct Hr as (Hf & Hle' & Hnext). unfold Size4KiB in *.
      split_and!; [done|congruence|lia| |].
      * constructor; [done|]. apply Forall_forall. intros g Hg. specialize (Hall g Hg). lia.
      * constructor; [split_and!; [done|lia|lia]|].
        apply Forall_forall. intros g Hg. specialize (Hall g Hg). split_and!; [apply Hall|lia|lia].
    + split_and!; [done|congruence|lia|done|].
      apply Forall_forall. intros g Hg. specialize (Hall g Hg). split_and!; [apply Hall|lia|lia].
Qed.
End Freshness.

(** * UEFI descriptors *)

Section Uefi.
Context {X : X86_64} {XL : X86_64_Laws X} {P : Profile} {U : UefiMemoryTypes}.

Definition uefi_limit (d : UefiMemoryDescriptor) : Z := phys_start d + page_count d * PAGE_SIZE.

Lemma uefi_base d : 0 <= phys_start d < 2 ^ 52 -> base d = phys_start d.
Proof. intros H. unfold base. simpl. by rewrite phys_new_spec. Qed.

Lemma uefi_size d : 0 <= page_count d < 2 ^ 40 -> size d = page_count d * PAGE_SIZE.
Proof. intros H. unfold size. simpl. by rewrite u64_mul_ok by (unfold u64_size, PAGE_SIZE; lia). Qed.

Lemma uefi_limit_ok d :
  0 <= phys_start d -> 0 < page_count d -> uefi_limit d < 2 ^ 52 -> limit d = uefi_limit d.
Proof.
  unfold uefi_limit, PAGE_SIZE, limit. intros H1 H2 H3.
  by rewrite uefi_base, uefi_size by lia.
Qed.

(** A descriptor of whole pages inside the physical address space is well
    formed. *)
Lemma uefi_region_ok d :
  (4096 | phys_start d) -> 0 <= phys_start d -> 0 < page_count d -> uefi_limit d < 2 ^ 52 ->
  region_ok d.
Proof.
  intros Hal Hs Hp Hl. pose proof (uefi_limit_ok d Hs Hp Hl) as Hlim.
  unfold uefi_limit, PAGE_SIZE in Hl.
  assert (Hb : base d = phys_start d) by (apply uefi_base; lia).
  assert (Hsz : size d = page_count d * PAGE_SIZE) by (apply uefi_size; lia).
  split; rewrite ?Hb, ?Hsz; unfold PAGE_SIZE in *; try lia; try done.
  - simpl. apply phys_new_spec. lia.
  - simpl. apply u64_mul_ok. unfold u64_size, PAGE_SIZE. lia.
  - by exists (page_count d).
  - rewrite Hlim. unfold uefi_limit, PAGE_SIZE. lia.
Qed.
End Uefi.
