(* ===== verification/BootMemory.v ===== *)
(** The properties of the bootloader's frame allocator and memory map
    (initium/src/memory.rs, initium/src/descriptor.rs), with their witnesses
    on a small UEFI memory map. *)

From S2P Require Import Prelude X86 Synapse FrameAlloc LegacyMemory.

Section Allocator.
Context {X : X86_64} {XL : X86_64_Laws X} {D : Type} {R : LegacyMemoryRegion D}.

(** C8: on a sorted map of well-formed regions, [n] calls of
    [allocate_frame] on a new allocator return, in ascending order, the first
    [n] frames of the usable regions from frame 1 on, and [None] when there
    are no more: the allocator refines a list of free frames. *)
Theorem allocator_refines_free_list (mm : list D) n :
  Forall region_ok mm -> sorted mm ->
  exists self self', LegacyFrameAllocator_new mm = Ret self /\
    allocate_frames n self =
      Ret ((fun i => usable_frames_from 4096 mm !! i) <$> seq 0 n, self') /\
    legacy_free self' = drop n (usable_frames_from 4096 mm).
Proof.
  intros Hok Hs. destruct (legacy_new_spec mm Hok Hs) as (self & Hnew & Hinv & _ & Hfree).
  destruct (allocate_frames_spec (FL := legacy_free_list) n 0 self Hinv) as (self' & Ha & Hf & _).
  simpl in Ha, Hf. rewrite Hfree in Ha, Hf. by exists self, self'.
Qed.

(** C9: on every map, sorted or not, the frames that a run of the allocator
    hands out are aligned, strictly ascending (so no frame is handed out
    twice), never frame 0, and all below the [next_frame] that the memory
    map is built from. *)
Theorem allocated_frames_fresh {RA : RegionAddresses D} (mm : list D) n self rs self' :
  LegacyFrameAllocator_new mm = Ret self -> allocate_frames n self = Ret (rs, self') ->
  StronglySorted Z.lt (omap id rs) /\
  Forall (fun f => (4096 | f) /\ 4096 <= f /\ f + 4096 <= next_frame self') (omap id rs).
Proof.
  intros Hnew Ha. unfold LegacyFrameAllocator_new in Hnew.
  rewrite phys_new_spec, bind_Ret in Hnew by lia. cbv zeta in Hnew.
  rewrite frame_containing_4k in Hnew by lia. injection Hnew as <-.
  assert (Hok : next_ok (new_starting_at (round_down 4096 Size4KiB) mm))
    by (split; simpl; [by apply (round_down_divide 4096)|by vm_compute]).
  by destruct (allocate_frames_advance n _ rs self' Hok Ha) as (_ & _ & _ & Hs & Hall).
Qed.

(** [max_physical_address] is the greatest end of a region, attained and
    an upper bound, and there is a panic on an empty map. *)
Theorem max_physical_address_is_max (self : LegacyFrameAllocator D) :
  Forall region_ok (original self) ->
  (original self = [] /\ exists m, max_physical_address self = Panic m) \/
  (exists a, max_physical_address self = Ret a /\
    Exists (fun d => a = limit d) (original self) /\ Forall (fun d => limit d <= a) (original self)).
Proof.
  intros Hok. unfold max_physical_address.
  assert (Hends : mapM_out (fun r => s ← region_start r; l ← region_len r; PhysAddr_add s l)
            (original self) = Ret (limit <$> original self)).
  { induction Hok as [|d l Hd _ IH]; [done|]. rewrite fmap_cons. simpl.
    pose proof (ok_base _ Hd). pose proof (ok_size _ Hd). pose proof (ok_limit _ Hd).
    rewrite (ok_start _ Hd), bind_Ret, (ok_len _ Hd), bind_Ret.
    rewrite phys_add_ok, bind_Ret by done. by rewrite IH. }
  rewrite Hends, bind_Ret. destruct (original self) as [|d l]; [left; simpl; eauto|right].
  rewrite fmap_cons. eexists. split; [done|].
  assert (Hmax : forall (xs : list Z) x, Exists (eq (fold_left Z.max xs x)) (x :: xs) /\
    Forall (fun y => y <= fold_left Z.max xs x) (x :: xs)).
  { intros xs. induction xs as [|y xs IH]; intros x; simpl.
    - split; [by constructor|]. constructor; [lia|constructor].
    - destruct (IH (Z.max x y)) as [Hex Hall].
      apply Forall_cons in Hall as [H1 Hall]. split.
      + apply Exists_cons in Hex as [Hex|Hex].
        * destruct (Z.max_spec x y) as [[_ Hm]|[_ Hm]]; rewrite Hm in Hex at 2;
            [apply Exists_cons_tl|]; by constructor.
        * by do 2 apply Exists_cons_tl.
      + constructor; [lia|]. constructor; [lia|done]. }
  destruct (Hmax (limit <$> l) (limit d)) as [Hex Hall]. rewrite <- fmap_cons in Hex, Hall.
  by rewrite Exists_fmap in Hex; rewrite Forall_fmap in Hall.
Qed.
End Allocator.

Section Map.
Context {X : X86_64} {XL : X86_64_Laws X} {P : Profile} {D : Type} {R : LegacyMemoryRegion D}.

(** C7: with the buffer of [len() + 4] entries that initium reserves,
    [construct_memory_map] succeeds on a sorted map in which the kernel file
    fits, and its result is an exact account of memory: non-empty regions in
    ascending order without overlap, in which every address of the firmware's
    map, and no other, has the kind the specification [kind_at] gives it. *)
Theorem memory_map_exact (self : LegacyFrameAllocator D) ks kl buffer :
  Forall region_ok (original self) -> sorted (original self) ->
  0 <= ks -> 0 <= kl -> ks + kl < u64_size ->
  Forall (kernel_fits (next_frame self) ks (ks + kl)) (original self) ->
  Z.of_nat (length buffer) = allocator_len self + 4 ->
  exists out, construct_memory_map self buffer ks kl = Ret out /\
    StronglySorted (fun r1 r2 => end_ r1 <= start r2) out /\
    Forall (fun r => start r < end_ r) out /\
    (forall a k, (exists r, r ∈ out /\ in_region a r /\ kind r = k) <->
      (exists d, d ∈ original self /\ base d <= a < limit d /\
                 kind_at (next_frame self) ks (ks + kl) d a = k)).
Proof.
  intros Hok Hs Hks Hkl Hov Hfit Hbuf. unfold allocator_len in Hbuf.
  pose proof (length_map_of (next_frame self) ks (ks + kl) _ Hok Hs Hfit).
  eexists. split; [apply construct_memory_map_spec; auto; lia|]. split_and!.
  - apply map_of_sorted; [done|done|lia|done].
  - apply Forall_forall. intros r (d & Hd & Hr)%elem_of_map_of.
    rewrite Forall_forall in Hok, Hfit.
    destruct (keep_bounds (next_frame self) ks (ks + kl) d r) as (_ & ? & _); auto; lia.
  - intros a k. apply map_of_cover; [done|lia|done].
Qed.

(** C23: when a part of a region that is to be reported usable overlaps the
    kernel file without containing it, [construct_memory_map] panics. *)
Theorem memory_map_kernel_panic (self : LegacyFrameAllocator D) ks kl buffer d s :
  Forall region_ok (original self) -> 0 <= ks -> 0 <= kl -> ks + kl < u64_size ->
  (length (map_of (next_frame self) ks (ks + kl) (original self)) <= length buffer)%nat ->
  d ∈ original self -> usable_from (next_frame self) d = Some s ->
  ks < limit d -> s < ks + kl -> ks < s \/ limit d < ks + kl ->
  exists m, construct_memory_map self buffer ks kl = Panic m.
Proof.
  intros Hok Hks Hkl Hov Hcap Hd Hs H1 H2 H3. unfold construct_memory_map.
  destruct (proj2 (construct_loop self ks kl (length buffer) (original self) [] (buffer, 0)
    Hok Hks Hkl Hov ltac:(by split_and!) Hcap)) as [m Hm].
  - apply Exists_exists. exists d. split; [done|]. intros Hf.
    destruct (Hf s Hs H1 H2). lia.
  - intros d' _. destruct (decide (kernel_fits (next_frame self) ks (ks + kl) d')); auto.
  - exists m. by rewrite Hm.
Qed.

(** C6: a run of the bootloader: frames are allocated, then the memory map
    is built.  No region the map reports as usable contains a byte of an
    allocated frame that came from conventional memory, or a byte of the
    kernel file. *)
Theorem usable_memory_is_free {RA : RegionAddresses D} (mm : list D) n self rs self' ks kl buffer out :
  Forall region_ok mm -> sorted mm -> 0 <= ks -> 0 <= kl -> ks + kl < u64_size ->
  LegacyFrameAllocator_new mm = Ret self -> allocate_frames n self = Ret (rs, self') ->
  Forall (kernel_fits (next_frame self') ks (ks + kl)) mm ->
  Z.of_nat (length buffer) = allocator_len self' + 4 ->
  construct_memory_map self' buffer ks kl = Ret out ->
  forall r a, r ∈ out -> kind r = Usable -> in_region a r ->
    ~ (ks <= a < ks + kl) /\ forall f, Some f ∈ rs -> ~ (f <= a < f + 4096).
Proof.
  intros Hok Hs Hks Hkl Hov Hnew Ha Hfit Hbuf Hmap r a Hr Hkind Hin.
  destruct (legacy_new_spec mm Hok Hs) as (self0 & Hnew0 & Hinv & Horig & Hfree).
  rewrite Hnew in Hnew0. injection Hnew0 as <-.
  assert (Hnok : next_ok self) by (split; apply Hinv).
  destruct (allocate_frames_advance n self rs self' Hnok Ha) as (_ & Ho & _ & _ & Hbelow).
  destruct (allocate_frames_spec (FL := legacy_free_list) n 0 self Hinv) as (s2 & Ha2 & _ & _).
  rewrite Ha in Ha2. injection Ha2 as Hrs _. simpl in Hrs. rewrite Horig in Ho.
  rewrite construct_memory_map_spec in Hmap; rewrite ?Ho; try done.
  2: { pose proof (length_map_of (next_frame self') ks (ks + kl) _ Hok Hs Hfit).
       unfold allocator_len in Hbuf. rewrite Ho in Hbuf. lia. }
  injection Hmap as <-. rewrite Ho in Hr.
  destruct (proj1 (map_of_cover (next_frame self') ks (ks + kl) mm a Usable Hok ltac:(lia) Hfit))
    as (d & Hd & Had & Hk); [by exists r|].
  unfold kind_at in Hk.
  destruct (usable_from (next_frame self') d) as [s|] eqn:Hus; [|by destruct (region_kind d)].
  destruct (Z.leb_spec s a), (Z.leb_spec ks a), (Z.ltb_spec a (ks + kl)); try done.
  all: split; [lia|].
  all: intros f Hf Hfa.
  all: assert (Hff : f ∈ usable_frames_from 4096 mm) by
    (rewrite Hrs in Hf; apply list_elem_of_fmap in Hf as (i & Hi & _); rewrite Hfree in Hi;
     symmetry in Hi; by apply list_elem_of_lookup_2 in Hi).
  all: apply elem_of_usable_frames_from in Hff as (d' & Hd' & Hk' & _ & _ & Hb & Hl);
    [|done|by exists 1].
  all: assert (d' = d) as ->
    by (destruct (sorted_elem mm d' d Hs Hd' Hd) as [?|[Hb1|Hb1]]; [done| |];
        unfold before in Hb1; unfold Size4KiB in *; lia).
  all: rewrite Forall_forall in Hbelow; destruct (Hbelow f) as (_ & _ & Hfn);
    [apply list_elem_of_omap; by exists (Some f)|].
  all: unfold usable_from in Hus; rewrite Hk' in Hus; destruct (Z.leb_spec (limit d) (next_frame self'));
    [done|injection Hus as <-; unfold Size4KiB in *; lia].
Qed.
End Map.

(** * The UEFI memory map *)

Section Uefi.
Context {X : X86_64} {XL : X86_64_Laws X} {P : Profile}
  {U : UefiMemoryTypes} {UL : UefiMemoryTypesLaws U}.

(** C24: memory in which the firmware put what the bootloader loaded
    ([LOADER_DATA]) is reported usable, except for the kernel file itself:
    a ramdisk loaded beside the kernel lies in memory the map calls usable. *)
Theorem loader_data_is_usable (mm : list UefiMemoryDescriptor) self ks kl buffer d a :
  Forall region_ok mm -> sorted mm -> 0 <= ks -> 0 <= kl -> ks + kl < u64_size ->
  original self = mm -> Forall (kernel_fits (next_frame self) ks (ks + kl)) mm ->
  Z.of_nat (length buffer) = allocator_len self + 4 ->
  d ∈ mm -> ty d = LOADER_DATA -> base d <= a < limit d -> ~ (ks <= a < ks + kl) ->
  exists out r, construct_memory_map self buffer ks kl = Ret out /\
    r ∈ out /\ in_region a r /\ kind r = Usable.
Proof.
  intros Hok Hs Hks Hkl Hov <- Hfit Hbuf Hd Hty Ha Hnk. unfold allocator_len in Hbuf.
  pose proof (length_map_of (next_frame self) ks (ks + kl) _ Hok Hs Hfit).
  assert (Hkind : kind_at (next_frame self) ks (ks + kl) d a = Usable).
  { pose proof memory_types_distinct as Hnd.
    unfold kind_at, usable_from. simpl. unfold descriptor_kind, descriptor_usable_after_bootloader_exit.
    rewrite Hty.
    destruct (Z.eqb_spec LOADER_DATA CONVENTIONAL) as [He|_].
    { exfalso. rewrite <- He in Hnd. apply NoDup_cons in Hnd as [Hn _]. apply Hn. set_solver. }
    rewrite Z.eqb_refl, orb_true_r. simpl.
    destruct (Z.leb_spec (base d) a), (Z.leb_spec ks a), (Z.ltb_spec a (ks + kl)); lia || done. }
  destruct (proj2 (map_of_cover (next_frame self) ks (ks + kl) (original self) a Usable
    Hok ltac:(lia) Hfit)) as (r & Hr & Hin & Hk); [by exists d|].
  exists (map_of (next_frame self) ks (ks + kl) (original self)), r.
  split; [|done]. apply construct_memory_map_spec; auto; lia.
Qed.

(** C25: memory of the firmware's runtime services is never reported usable,
    nor is any type of memory the code does not name. *)
Theorem other_memory_is_not_usable (mm : list UefiMemoryDescriptor) self ks kl buffer out d a r :
  Forall region_ok mm -> sorted mm -> 0 <= ks -> 0 <= kl -> ks + kl < u64_size ->
  original self = mm -> Forall (kernel_fits (next_frame self) ks (ks + kl)) mm ->
  Z.of_nat (length buffer) = allocator_len self + 4 ->
  construct_memory_map self buffer ks kl = Ret out ->
  d ∈ mm -> ty d ∉ [CONVENTIONAL; LOADER_CODE; LOADER_DATA; BOOT_SERVICES_CODE; BOOT_SERVICES_DATA] ->
  base d <= a < limit d -> r ∈ out -> in_region a r -> kind r = UnknownUefi (ty d).
Proof.
  intros Hok Hs Hks Hkl Hov <- Hfit Hbuf Hmap Hd Hty Ha Hr Hin. unfold allocator_len in Hbuf.
  pose proof (length_map_of (next_frame self) ks (ks + kl) _ Hok Hs Hfit).
  rewrite construct_memory_map_spec in Hmap by (auto; lia). injection Hmap as <-.
  destruct (proj1 (map_of_cover (next_frame self) ks (ks + kl) (original self) a (kind r)
    Hok ltac:(lia) Hfit)) as (d' & Hd' & Ha' & Hk); [by exists r|].
  assert (d' = d) as ->
    by (destruct (sorted_elem _ d' d Hs Hd' Hd) as [?|[Hb|Hb]]; [done| |]; unfold before in Hb; lia).
  rewrite <- Hk. unfold kind_at, usable_from. simpl.
  unfold descriptor_kind, descriptor_usable_after_bootloader_exit.
  rewrite !elem_of_cons in Hty.
  repeat match goal with |- context [ty d =? ?c] =>
    destruct (Z.eqb_spec (ty d) c) as [He|_]; [exfalso; apply Hty; tauto|] end.
  simpl. by destruct (_ || _).
Qed.
End Uefi.

(** * Witnesses *)

(** Conventional memory from 0 to 16 KiB, loader data with the kernel file to
    32 KiB, conventional memory to 64 KiB, and a page of runtime services. *)
Definition sample_map : list UefiMemoryDescriptor :=
  [mkDescriptor 7 0 4; mkDescriptor 2 0x4000 4; mkDescriptor 7 0x8000 8; mkDescriptor 6 0x10000 1].

#[local] Instance release : Profile := false.

Lemma sample_ok : Forall region_ok sample_map.
Proof.
  unfold sample_map. rewrite !Forall_cons.
  split_and!; try apply Forall_nil; try done;
    apply uefi_region_ok; simpl; try done; try compute_divide.
Qed.

Lemma sample_sorted : sorted sample_map.
Proof. repeat constructor; unfold before; vm_compute; discriminate. Qed.

Definition sample_allocator : LegacyFrameAllocator UefiMemoryDescriptor :=
  mkAllocator sample_map sample_map None 0x1000.

(** The allocator after four frames. *)
Definition sample_frames : list (option Z) := [Some 0x1000; Some 0x2000; Some 0x3000; Some 0x8000].
Definition sample_after : LegacyFrameAllocator UefiMemoryDescriptor :=
  mkAllocator sample_map [mkDescriptor 6 0x10000 1] (Some (mkDescriptor 7 0x8000 8)) 0x9000.

Lemma sample_new : LegacyFrameAllocator_new sample_map = Ret sample_allocator.
Proof. vm_compute. reflexivity. Qed.

Lemma sample_run : allocate_frames 4 sample_allocator = Ret (sample_frames, sample_after).
Proof. vm_compute. reflexivity. Qed.

Definition sample_buffer : list (option MemoryRegion) := replicate 8 None.

(** The kernel file, not a whole number of pages. *)
Definition sample_ks : Z := 0x5000.
Definition sample_kl : Z := 0x1fff.

Lemma sample_fits :
  Forall (kernel_fits (next_frame sample_after) sample_ks (sample_ks + sample_kl)) (original sample_after).
Proof. apply (bool_decide_unpack _). vm_compute. exact I. Qed.

(** The map of the sample run. *)
Definition sample_out : list MemoryRegion :=
  [mkMemoryRegion 0 0x4000 Bootloader; mkMemoryRegion 0x4000 0x5000 Usable;
   mkMemoryRegion 0x5000 0x6fff Bootloader; mkMemoryRegion 0x6fff 0x8000 Usable;
   mkMemoryRegion 0x8000 0x9000 Bootloader; mkMemoryRegion 0x9000 0x10000 Usable;
   mkMemoryRegion 0x10000 0x11000 (UnknownUefi 6)].

Lemma sample_construct :
  construct_memory_map sample_after sample_buffer sample_ks sample_kl = Ret sample_out.
Proof. vm_compute. reflexivity. Qed.

Ltac sample_bounds := unfold sample_ks, sample_kl, u64_size; lia.

Lemma allocator_refines_free_list_witness :
  exists self self', LegacyFrameAllocator_new sample_map = Ret self /\
    allocate_frames 4 self = Ret (sample_frames, self').
Proof.
  destruct (allocator_refines_free_list sample_map 4 sample_ok sample_sorted) as (s & s' & Hn & Ha & _).
  exists s, s'. split; [exact Hn|]. rewrite Ha. vm_compute. reflexivity.
Defined.

Lemma allocated_frames_fresh_witness :
  StronglySorted Z.lt (omap id sample_frames) /\
  Forall (fun f => (4096 | f) /\ 4096 <= f /\ f + 4096 <= next_frame sample_after) (omap id sample_frames).
Proof. exact (allocated_frames_fresh sample_map 4 sample_allocator _ _ sample_new sample_run). Defined.

Lemma max_physical_address_is_max_witness :
  exists a, max_physical_address sample_allocator = Ret a.
Proof.
  destruct (max_physical_address_is_max sample_allocator sample_ok) as [[H _]|(a & Ha & _)].
  - discriminate H.
  - exists a. exact Ha.
Defined.

Lemma memory_map_exact_witness :
  exists out, construct_memory_map sample_after sample_buffer sample_ks sample_kl = Ret out /\
    StronglySorted (fun r1 r2 => end_ r1 <= start r2) out.
Proof.
  destruct (memory_map_exact sample_after sample_ks sample_kl sample_buffer sample_ok sample_sorted
    ltac:(sample_bounds) ltac:(sample_bounds) ltac:(sample_bounds) sample_fits eq_refl)
    as (out & H & Hs & _).
  exists out. exact (conj H Hs).
Defined.

Lemma memory_map_kernel_panic_witness :
  exists m, construct_memory_map sample_after sample_buffer 0x3000 0x2000 = Panic m.
Proof.
  apply (memory_map_kernel_panic sample_after 0x3000 0x2000 sample_buffer (mkDescriptor 2 0x4000 4) 0x4000
    sample_ok); [lia|lia|unfold u64_size; lia|vm_compute; lia| |vm_compute; reflexivity
                |vm_compute; reflexivity|lia|left; lia].
  apply list_elem_of_In. right. left. reflexivity.
Defined.

Lemma usable_memory_is_free_witness :
  construct_memory_map sample_after sample_buffer sample_ks sample_kl = Ret sample_out /\
  forall r a, r ∈ sample_out -> kind r = Usable -> in_region a r ->
    ~ (sample_ks <= a < sample_ks + sample_kl) /\
    forall f, Some f ∈ sample_frames -> ~ (f <= a < f + 4096).
Proof.
  split; [exact sample_construct|].
  exact (usable_memory_is_free sample_map 4 sample_allocator sample_frames sample_after
    sample_ks sample_kl sample_buffer sample_out sample_ok sample_sorted ltac:(sample_bounds)
    ltac:(sample_bounds) ltac:(sample_bounds) sample_new sample_run sample_fits eq_refl sample_construct).
Defined.

Lemma loader_data_is_usable_witness :
  exists out r, construct_memory_map sample_after sample_buffer sample_ks sample_kl = Ret out /\
    r ∈ out /\ in_region 0x7800 r /\ kind r = Usable.
Proof.
  apply (loader_data_is_usable sample_map sample_after sample_ks sample_kl sample_buffer
    (mkDescriptor 2 0x4000 4) 0x7800 sample_ok sample_sorted ltac:(sample_bounds)
    ltac:(sample_bounds) ltac:(sample_bounds) eq_refl sample_fits eq_refl).
  - apply list_elem_of_In. right. left. reflexivity.
  - reflexivity.
  - vm_compute. split; [discriminate|reflexivity].
  - sample_bounds.
Defined.

Lemma other_memory_is_not_usable_witness :
  length sample_out = 7%nat /\
  forall r, r ∈ sample_out -> in_region 0x10400 r -> kind r = UnknownUefi 6.
Proof.
  split; [reflexivity|]. intros r. apply (other_memory_is_not_usable sample_map sample_after sample_ks sample_kl sample_buffer
    sample_out (mkDescriptor 6 0x10000 1) 0x10400 r sample_ok sample_sorted ltac:(sample_bounds)
    ltac:(sample_bounds) ltac:(sample_bounds) eq_refl sample_fits eq_refl sample_construct).
  - apply list_elem_of_In. do 3 right. left. reflexivity.
  - apply (bool_decide_unpack _). vm_compute. exact I.
  - vm_compute. split; [discriminate|reflexivity].
Defined.
