(* ===== verification/NukleusMemory.v ===== *)
(** nukleus/src/memory.rs: the kernel's frame allocator.

    [NukleusFrameAllocator] walks the regions of the boot information afresh
    at each call: [usable_frames] is the iterator of all usable frames and
    [allocate_frame] takes its element number [next].  The memory map is the
    list that [MemoryRegions] dereferences to. *)

From S2P Require Import Prelude X86 Synapse FrameAlloc.

Record NukleusFrameAllocator : Type := mkNukleus {
  nk_memory_map : list MemoryRegion;
  nk_next : Z;
}.

Definition NukleusFrameAllocator_init (mm : list MemoryRegion) : NukleusFrameAllocator :=
  mkNukleus mm 0.

(** [(s..e).step_by(4096)] *)
Definition step_by_4096 (s e : Z) : list Z :=
  (fun i => s + 4096 * i) <$> range0 ((e - s + 4095) / 4096).

(** The addresses that [usable_frames] turns into frames. *)
Definition frame_addresses (mm : list MemoryRegion) : list Z :=
  mjoin ((fun r => step_by_4096 (start r) (end_ r)) <$> filter (fun r => kind r = Usable) mm).

(** [iter.map(f).nth(n)]: [f] runs on every element up to the one taken. *)
Fixpoint map_nth {A B} (f : A -> outcome B) (xs : list A) (n : nat) : outcome (option B) :=
  match xs with
  | [] => Ret None
  | x :: rest =>
      y ← f x;
      match n with
      | O => Ret (Some y)
      | S n => map_nth f rest n
      end
  end.

Section Nukleus.
Context {X : X86_64} {P : Profile}.

Definition frame_of_address (addr : Z) : outcome Z :=
  a ← PhysAddr_new addr; Ret (PhysFrame_containing_address Size4KiB a).

Definition usable_frames_nth (self : NukleusFrameAllocator) (n : Z) : outcome (option Z) :=
  map_nth frame_of_address (frame_addresses (nk_memory_map self)) (Z.to_nat n).

#[export] Instance nukleus_frame_allocator : FrameAllocator NukleusFrameAllocator := fun self =>
  frame ← usable_frames_nth self (nk_next self);
  next ← u64_add (nk_next self) 1;
  Ret (frame, mkNukleus (nk_memory_map self) next).
End Nukleus.

(** * Well-formed maps *)

(** A region of the map handed over: usable memory starts at a page boundary. *)
Record handed_ok (r : MemoryRegion) : Prop := {
  handed_bounds : 0 <= start r /\ start r < end_ r /\ end_ r < 2 ^ 52;
  handed_aligned : kind r = Usable -> (Size4KiB | start r);
}.

Definition handed_sorted : list MemoryRegion -> Prop :=
  StronglySorted (fun r1 r2 => end_ r1 <= start r2).

Lemma elem_of_step_by s e a :
  a ∈ step_by_4096 s e <-> exists i, 0 <= i /\ a = s + 4096 * i /\ a < e.
Proof.
  unfold step_by_4096. rewrite list_elem_of_fmap. setoid_rewrite elem_of_range0.
  split.
  - intros (i & -> & Hi). exists i. split_and!; [lia|done|].
    pose proof (Z.div_mod (e - s + 4095) 4096 ltac:(lia)).
    pose proof (Z.mod_pos_bound (e - s + 4095) 4096 ltac:(lia)). lia.
  - intros (i & Hi & -> & Ha). exists i. split; [done|]. split; [done|].
    pose proof (Z.div_mod (e - s + 4095) 4096 ltac:(lia)).
    pose proof (Z.mod_pos_bound (e - s + 4095) 4096 ltac:(lia)). lia.
Qed.

Lemma step_by_sorted s e : StronglySorted Z.lt (step_by_4096 s e).
Proof. unfold step_by_4096. apply (StronglySorted_fmap _ Z.lt); [lia|]. apply seqZ_sorted. Qed.

Lemma elem_of_frame_addresses mm a :
  a ∈ frame_addresses mm <->
  exists r i, r ∈ mm /\ kind r = Usable /\ 0 <= i /\ a = start r + 4096 * i /\ a < end_ r.
Proof.
  unfold frame_addresses. rewrite list_elem_of_join. setoid_rewrite list_elem_of_fmap. split.
  - intros (l & Ha & r & -> & [Hk Hr]%list_elem_of_filter).
    apply elem_of_step_by in Ha as (i & ? & ? & ?). eauto 10.
  - intros (r & i & Hr & Hk & Hi & Ha & He). eexists. split; [|exists r; split; [done|]].
    + apply elem_of_step_by. eauto.
    + by apply list_elem_of_filter.
Qed.

Lemma frame_addresses_sorted mm :
  Forall handed_ok mm -> handed_sorted mm -> StronglySorted Z.lt (frame_addresses mm).
Proof.
  intros Hok Hs. induction Hs as [|r mm Hs IH Hall]; [constructor|].
  apply Forall_cons in Hok as [Hr Hok]. unfold frame_addresses.
  destruct (decide (kind r = Usable)).
  - rewrite filter_cons_True, fmap_cons by done. simpl.
    apply StronglySorted_app_2; [|apply step_by_sorted|by apply IH].
    intros a b Ha Hb. apply elem_of_step_by in Ha as (i & ? & ? & ?).
    apply (elem_of_frame_addresses mm) in Hb as (r' & j & Hr' & ? & ? & ? & ?).
    rewrite Forall_forall in Hall. specialize (Hall r' Hr'). lia.
  - rewrite filter_cons_False by done. by apply IH.
Qed.

Section NukleusSpec.
Context {X : X86_64} {XL : X86_64_Laws X} {P : Profile}.

Lemma frame_of_address_ok a :
  0 <= a < 2 ^ 52 -> frame_of_address a = Ret (round_down a Size4KiB).
Proof.
  intros Ha. unfold frame_of_address. rewrite phys_new_spec, bind_Ret by done.
  by rewrite frame_containing_4k by lia.
Qed.

Lemma map_nth_spec (xs : list Z) n :
  Forall (fun a => 0 <= a < 2 ^ 52) xs ->
  map_nth frame_of_address xs n = Ret ((fun a => round_down a Size4KiB) <$> xs !! n).
Proof.
  intros Hxs. revert n. induction Hxs as [|x xs Hx _ IH]; intros n; simpl; [done|].
  rewrite frame_of_address_ok, bind_Ret by done. by destruct n.
Qed.

(** Well-formed and good for [k] more calls: [next] counts the calls. *)
Definition nukleus_inv (k : nat) (self : NukleusFrameAllocator) : Prop :=
  Forall handed_ok (nk_memory_map self) /\ handed_sorted (nk_memory_map self) /\
  0 <= nk_next self /\ nk_next self + Z.of_nat k < u64_size.

Definition nukleus_free (self : NukleusFrameAllocator) : list Z :=
  drop (Z.to_nat (nk_next self)) (frame_addresses (nk_memory_map self)).

Lemma frame_address_ok mm a :
  Forall handed_ok mm -> a ∈ frame_addresses mm ->
  (Size4KiB | a) /\ 0 <= a /\ a + Size4KiB <= 2 ^ 52.
Proof.
  intros Hok (r & i & Hr & Hk & Hi & -> & He)%elem_of_frame_addresses.
  rewrite Forall_forall in Hok. destruct (Hok r Hr) as [(H0 & _ & H2) Hal]. specialize (Hal Hk).
  assert (Hd : (Size4KiB | start r + 4096 * i))
    by (apply Z.divide_add_r; [done|by apply Z.divide_mul_l]).
  split_and!; [done|lia|].
  apply (divide_lt_step _ (2 ^ 52) Size4KiB); [done|done|by exists (2 ^ 40)|lia].
Qed.

Lemma nukleus_step k self :
  nukleus_inv (S k) self ->
  exists self', allocate_frame self = Ret (head (nukleus_free self), self') /\
    nukleus_free self' = tail (nukleus_free self) /\ nukleus_inv k self'.
Proof.
  intros (Hok & Hs & H0 & Hk). unfold allocate_frame, nukleus_frame_allocator, usable_frames_nth.
  rewrite map_nth_spec.
  2: { apply Forall_forall. intros a Ha. destruct (frame_address_ok _ a Hok Ha) as (? & ? & ?).
       unfold Size4KiB in *. lia. }
  rewrite bind_Ret, u64_add_ok, bind_Ret by lia. eexists. split; [f_equal; f_equal|].
  - unfold nukleus_free. rewrite head_lookup, lookup_drop, Nat.add_0_r.
    destruct (_ !! _) as [a|] eqn:Ha; [|done]. simpl. f_equal.
    apply list_elem_of_lookup_2 in Ha. apply round_down_id; [done|].
    by apply (frame_address_ok _ a Hok).
  - split.
    + unfold nukleus_free. simpl. rewrite Z2Nat.inj_add by lia.
      rewrite tail_drop. f_equal. lia.
    + split_and!; simpl; [done|done|lia|lia].
Qed.

#[export] Program Instance nukleus_free_list : FreeList NukleusFrameAllocator := {|
  fa_inv := nukleus_inv;
  fa_free := nukleus_free;
|}.
Next Obligation. apply nukleus_step. Qed.
Next Obligation. intros j k self Hjk (? & ? & ? & ?). split_and!; [done|done|done|lia]. Qed.
Next Obligation.
  intros k self f (Hok & _) Hf%elem_of_drop.
  by apply (frame_address_ok _ f Hok).
Qed.
Next Obligation.
  intros k self (Hok & Hs & _). unfold nukleus_free.
  apply sorted_lt_NoDup, (StronglySorted_app_1_r _ (take (Z.to_nat (nk_next self))
    (frame_addresses (nk_memory_map self)))).
  rewrite take_drop. by apply frame_addresses_sorted.
Qed.
End NukleusSpec.

(** * Runs of the allocator *)

Section Runs.
Context {X : X86_64} {XL : X86_64_Laws X} {P : Profile}.

(** [n] calls on any map whose addresses are physical addresses: the frames
    that contain the first [n] addresses. *)
Lemma nukleus_run mm n k :
  Forall (fun a => 0 <= a < 2 ^ 52) (frame_addresses mm) -> Z.of_nat (k + n) < u64_size ->
  allocate_frames n (mkNukleus mm (Z.of_nat k)) =
    Ret ((fun i => (fun a => round_down a Size4KiB) <$> frame_addresses mm !! i) <$> seq k n,
         mkNukleus mm (Z.of_nat (k + n))).
Proof.
  intros Hb. revert k. induction n as [|n IH]; intros k Hk; simpl.
  - by rewrite Nat.add_0_r.
  - unfold allocate_frame, nukleus_frame_allocator, usable_frames_nth. simpl.
    rewrite map_nth_spec, bind_Ret, Nat2Z.id by done.
    rewrite u64_add_ok, bind_Ret by lia. simpl.
    replace (Z.of_nat k + 1) with (Z.of_nat (S k)) by lia.
    rewrite IH by lia. simpl. by replace (S (k + n)) with (k + S n)%nat by lia.
Qed.

(** C26: on a map of ascending regions whose usable memory starts at page
    boundaries, [n] calls of the kernel's allocator return the first [n]
    usable frames in order, each entirely new, and [None] past the end. *)
Theorem nukleus_hands_out_usable_frames mm n :
  Forall handed_ok mm -> handed_sorted mm -> Z.of_nat n < u64_size ->
  allocate_frames n (NukleusFrameAllocator_init mm) =
    Ret ((fun i => frame_addresses mm !! i) <$> seq 0 n, mkNukleus mm (Z.of_nat n)) /\
  StronglySorted Z.lt (frame_addresses mm) /\
  (forall f, f ∈ frame_addresses mm <->
     (4096 | f) /\ exists r, r ∈ mm /\ kind r = Usable /\ in_region f r).
Proof.
  intros Hok Hs Hn. split_and!.
  - unfold NukleusFrameAllocator_init. change 0 with (Z.of_nat 0).
    rewrite nukleus_run; [|apply Forall_forall; intros a Ha|done].
    + f_equal. f_equal. apply list_fmap_ext. intros i x _.
      destruct (frame_addresses mm !! x) as [a|] eqn:Ha; [|done]. simpl. f_equal.
      apply list_elem_of_lookup_2 in Ha. apply round_down_id; [done|].
      by apply (frame_address_ok mm a Hok).
    + destruct (frame_address_ok mm a Hok Ha) as (? & ? & ?). unfold Size4KiB in *. lia.
  - by apply frame_addresses_sorted.
  - intros f. split.
    + intros Hf. split; [by apply (frame_address_ok mm f Hok)|].
      apply elem_of_frame_addresses in Hf as (r & i & Hr & Hk & Hi & -> & He).
      exists r. split; [done|]. split; [done|]. unfold in_region. lia.
    + intros (Hal & r & Hr & Hk & Hin). apply elem_of_frame_addresses.
      rewrite Forall_forall in Hok. destruct (Hok r Hr) as [_ Hra]. specialize (Hra Hk).
      unfold in_region in Hin. destruct Hal as [x ->], Hra as [y Hy]. unfold Size4KiB in Hy.
      exists r, (x - y). split_and!; [done|done|lia|lia|lia].
Qed.
End Runs.

Definition sample_handed : list MemoryRegion :=
  [mkMemoryRegion 0 0x1000 Bootloader; mkMemoryRegion 0x1000 0x3000 Usable;
   mkMemoryRegion 0x3000 0x4000 (UnknownUefi 6); mkMemoryRegion 0x5000 0x5800 Usable].

Lemma nukleus_hands_out_usable_frames_witness :
  allocate_frames (F := NukleusFrameAllocator) (FA := nukleus_frame_allocator (P := true)) 4
    (NukleusFrameAllocator_init sample_handed) =
  Ret ([Some 0x1000; Some 0x2000; Some 0x5000; None], mkNukleus sample_handed 4).
Proof.
  refine (eq_trans (proj1 (nukleus_hands_out_usable_frames (P := true) sample_handed 4 _ _ _)) _).
  - unfold sample_handed. rewrite !Forall_cons, Forall_nil.
    split_and!; split; simpl; try lia; intros; try discriminate; try compute_divide.
  - repeat constructor; simpl; lia.
  - unfold u64_size. lia.
  - vm_compute. reflexivity.
Defined.
