(* ===== verification/Handoff.v ===== *)
(** The hand-over of physical memory from initium to nukleus: initium
    allocates frames and builds the memory map (initium/src/memory.rs), and
    nukleus allocates from the usable regions of that map
    (nukleus/src/memory.rs).

    The two allocators meet the same interface; the theorems here are about
    their composition. *)

From S2P Require Import Prelude X86 Synapse FrameAlloc LegacyMemory BootMemory NukleusMemory.

Section Handoff.
Context {X : X86_64} {XL : X86_64_Laws X} {P : Profile} {D : Type} {R : LegacyMemoryRegion D}.

(** A run of initium up to the memory map: [n] frames allocated, the kernel
    file at [ks, ks + kl). *)
Record handed_over (mm : list D) (n : nat) (ks kl : Z) (rs : list (option Z))
    (self : LegacyFrameAllocator D) (out : list MemoryRegion) : Prop := {
  ho_ok : Forall region_ok mm;
  ho_sorted : sorted mm;
  ho_kernel : 0 <= ks /\ 0 < kl /\ ks + kl < u64_size;
  ho_run : exists self0, LegacyFrameAllocator_new mm = Ret self0 /\
    allocate_frames n self0 = Ret (rs, self);
  ho_fits : Forall (kernel_fits (next_frame self) ks (ks + kl)) mm;
  ho_map : exists buffer, Z.of_nat (length buffer) = allocator_len self + 4 /\
    construct_memory_map self buffer ks kl = Ret out;
}.

Context {RA : RegionAddresses D}.

Lemma handed_over_facts mm n ks kl rs self out :
  handed_over mm n ks kl rs self out ->
  original self = mm /\ next_ok self /\ out = map_of (next_frame self) ks (ks + kl) mm /\
  (forall f, Some f ∈ rs -> f ∈ usable_frames_from 4096 mm /\ f + 4096 <= next_frame self).
Proof.
  intros [Hok Hs (Hk0 & Hkl & Hk2) (s0 & Hnew & Ha) Hfit (buffer & Hbuf & Hmap)].
  destruct (legacy_new_spec mm Hok Hs) as (s1 & Hnew1 & Hinv & Horig & Hfree).
  rewrite Hnew in Hnew1. injection Hnew1 as <-.
  assert (Hnok : next_ok s0) by (split; apply Hinv).
  destruct (allocate_frames_advance n s0 rs self Hnok Ha) as (Hnok' & Ho & _ & _ & Hall).
  destruct (allocate_frames_spec (FL := legacy_free_list) n 0 s0 Hinv) as (s2 & Ha2 & _ & _).
  rewrite Ha in Ha2. injection Ha2 as Hrs _. simpl in Hrs. rewrite Horig in Ho.
  pose proof (length_map_of (next_frame self) ks (ks + kl) mm Hok Hs Hfit).
  unfold allocator_len in Hbuf. rewrite Ho in Hbuf.
  rewrite construct_memory_map_spec in Hmap; rewrite ?Ho; try done; try lia.
  injection Hmap as <-. rewrite Ho. split; [done|]. split; [done|]. split; [done|].
  intros f Hf. split.
  - rewrite Hrs in Hf. apply list_elem_of_fmap in Hf as (i & Hi & _). rewrite Hfree in Hi.
    symmetry in Hi. by apply list_elem_of_lookup_2 in Hi.
  - rewrite Forall_forall in Hall. apply Hall. apply list_elem_of_omap. by exists (Some f).
Qed.

(** The regions of the map are well formed for nukleus, their starts page
    aligned if the kernel file ends at a page boundary. *)
Lemma map_of_bounds nf ks ke mm r :
  Forall region_ok mm -> 0 <= ks <= ke -> Forall (kernel_fits nf ks ke) mm ->
  r ∈ map_of nf ks ke mm -> 0 <= start r /\ start r < end_ r /\ end_ r < 2 ^ 52.
Proof.
  intros Hok Hk Hfit (d & Hd & Hr)%elem_of_map_of. rewrite Forall_forall in Hok, Hfit.
  pose proof (keep_bounds nf ks ke d r (Hok d Hd) Hk (Hfit d Hd) Hr).
  pose proof (ok_base _ (Hok d Hd)). pose proof (ok_limit _ (Hok d Hd)). lia.
Qed.

Lemma piece_aligned nf ks ke d r :
  region_ok d -> (Size4KiB | nf) -> (Size4KiB | ks) -> (Size4KiB | ke) ->
  r ∈ pieces nf ks ke d -> (Size4KiB | start r) /\ (Size4KiB | end_ r).
Proof.
  intros Hd Hnf Hks Hke Hr. pose proof (ok_base_aligned _ Hd) as Hb.
  pose proof (limit_aligned _ Hd) as Hl.
  unfold pieces, kernel_split, usable_from in Hr.
  assert (Hmax : (Size4KiB | Z.max (base d) nf)) by (by apply Z.max_case).
  destruct (region_kind d); [destruct (limit d <=? nf)|
    destruct (usable_after_bootloader_exit d) ..]; simpl in Hr;
    rewrite ?elem_of_app in Hr; repeat case_match; simpl in Hr;
    rewrite ?elem_of_cons, ?elem_of_nil in Hr; naive_solver.
Qed.

Lemma map_of_handed nf ks ke mm :
  Forall region_ok mm -> sorted mm -> 0 <= ks <= ke -> Forall (kernel_fits nf ks ke) mm ->
  (Size4KiB | nf) -> (Size4KiB | ks) -> (Size4KiB | ke) ->
  Forall handed_ok (map_of nf ks ke mm) /\ handed_sorted (map_of nf ks ke mm).
Proof.
  intros Hok Hs Hk Hfit Hnf Hks Hke. split; [|by apply map_of_sorted].
  apply Forall_forall. intros r Hr. split; [by eapply map_of_bounds|]. intros _.
  apply elem_of_map_of in Hr as (d & Hd & [Hr _]%elem_of_keep).
  rewrite Forall_forall in Hok. by destruct (piece_aligned nf ks ke d r); auto.
Qed.

(** A byte of a usable region of the map is neither in the kernel file nor
    in a frame that initium took. *)
Lemma usable_byte mm n ks kl rs self out r a :
  handed_over mm n ks kl rs self out -> r ∈ out -> kind r = Usable -> in_region a r ->
  ~ (ks <= a < ks + kl) /\ forall f, Some f ∈ rs -> ~ (f <= a < f + 4096).
Proof.
  intros Hho Hr Hk Ha. destruct (handed_over_facts _ _ _ _ _ _ _ Hho) as (Ho & _ & -> & Hf).
  destruct Hho as [Hok Hs (Hk0 & Hkl & Hk2) _ Hfit _].
  destruct (proj1 (map_of_cover (next_frame self) ks (ks + kl) mm a Usable Hok ltac:(lia) Hfit))
    as (d & Hd & Had & Hkd); [by exists r|].
  unfold kind_at in Hkd.
  destruct (usable_from (next_frame self) d) as [s|] eqn:Hus; [|by destruct (region_kind d)].
  assert (s <= a /\ ~ (ks <= a < ks + kl)) as [Hsa Hnk]
    by (destruct (Z.leb_spec s a), (Z.leb_spec ks a), (Z.ltb_spec a (ks + kl)); try done; lia).
  split; [done|]. intros f Hfr Hfa. destruct (Hf f Hfr) as [Hfree Hnext].
  apply elem_of_usable_frames_from in Hfree as (d' & Hd' & Hk' & _ & _ & Hb & Hl);
    [|done|by exists 1].
  assert (d' = d) as ->.
  { destruct (sorted_elem mm d' d Hs Hd' Hd) as [?|[Hb1|Hb1]]; [done| |];
      unfold before in Hb1; unfold Size4KiB in *; lia. }
  unfold usable_from in Hus. rewrite Hk' in Hus.
  destruct (Z.leb_spec (limit d) (next_frame self)); [done|]. injection Hus as <-. lia.
Qed.

(** C10: when the kernel file begins and ends at page boundaries, the frames
    that nukleus allocates from the map it is handed overlap neither the
    kernel file nor any frame that initium allocated. *)
Theorem handoff_disjoint mm n ks kl rs self out m frames nk :
  handed_over mm n ks kl rs self out -> (4096 | ks) -> (4096 | kl) -> Z.of_nat m < u64_size ->
  allocate_frames m (NukleusFrameAllocator_init out) = Ret (frames, nk) ->
  forall g a, Some g ∈ frames -> g <= a < g + 4096 ->
    ~ (ks <= a < ks + kl) /\ forall f, Some f ∈ rs -> ~ (f <= a < f + 4096).
Proof.
  intros Hho Hks Hkl Hm Hrun g a Hg Ha.
  pose proof (handed_over_facts _ _ _ _ _ _ _ Hho) as (Ho & [Hnal _] & Hout & Hf).
  pose proof Hho as [Hok Hs (Hk0 & Hkl0 & Hk2) _ Hfit _].
  assert (Hke : (4096 | ks + kl)) by (by apply Z.divide_add_r).
  destruct (map_of_handed (next_frame self) ks (ks + kl) mm Hok Hs ltac:(lia) Hfit Hnal Hks Hke)
    as [Hhok Hhs]. rewrite <- Hout in Hhok, Hhs.
  unfold NukleusFrameAllocator_init in Hrun. change 0 with (Z.of_nat 0) in Hrun.
  rewrite nukleus_run in Hrun; [|apply Forall_forall; intros x Hx|done].
  2: { destruct (frame_address_ok out x Hhok Hx) as (? & ? & ?). unfold Size4KiB in *. lia. }
  injection Hrun as <- _. apply list_elem_of_fmap in Hg as (i & Hi & _).
  destruct (frame_addresses out !! i) as [x|] eqn:Hx; [|done]. injection Hi as ->.
  apply list_elem_of_lookup_2 in Hx.
  destruct (frame_address_ok out x Hhok Hx) as (Hxal & Hx0 & _).
  rewrite round_down_id in Ha by done.
  apply elem_of_frame_addresses in Hx as (r & j & Hr & Hk & Hj & -> & He).
  assert (Hend : (Size4KiB | end_ r)).
  { rewrite Hout in Hr. apply elem_of_map_of in Hr as (d & Hd & [Hr _]%elem_of_keep).
    rewrite Forall_forall in Hok.
    by destruct (piece_aligned (next_frame self) ks (ks + kl) d r); auto. }
  pose proof (divide_lt_step _ _ Size4KiB ltac:(done) Hxal Hend He).
  apply (usable_byte mm n ks kl rs self out r a Hho Hr Hk). unfold in_region, Size4KiB in *. lia.
Qed.

(** C11: the kernel file is not protected past its last full page.  When it
    ends inside a page of memory that is otherwise handed over, as the file
    of a size that is no multiple of 4096 does, nukleus's allocator returns,
    after finitely many calls, the frame that holds the file's last byte. *)
Theorem kernel_tail_frame_reallocated mm n ks kl rs self out d s :
  handed_over mm n ks kl rs self out ->
  d ∈ mm -> usable_from (next_frame self) d = Some s ->
  s <= ks -> ks + kl < limit d -> (ks + kl) mod 4096 <> 0 ->
  Z.of_nat (length (frame_addresses out)) < u64_size - 1 ->
  exists m frames nk f, allocate_frames m (NukleusFrameAllocator_init out) = Ret (frames, nk) /\
    Some f ∈ frames /\ f <= ks + kl - 1 < f + 4096.
Proof.
  intros Hho Hd Hus Hsk Hke Hmod Hlen.
  pose proof (handed_over_facts _ _ _ _ _ _ _ Hho) as (_ & _ & Hout & _).
  pose proof Hho as [Hok Hs (Hk0 & Hkl0 & Hk2) _ Hfit _].
  set (ke := ks + kl) in *.
  assert (Hr : mkMemoryRegion ke (limit d) Usable ∈ out).
  { rewrite Hout. apply elem_of_map_of. exists d. split; [done|].
    apply elem_of_keep. simpl. split; [|lia]. unfold pieces, kernel_split. rewrite Hus.
    destruct (Z.ltb_spec ks (limit d)), (Z.ltb_spec s ke); try lia. set_solver. }
  assert (Hin : ke ∈ frame_addresses out).
  { apply elem_of_frame_addresses. exists (mkMemoryRegion ke (limit d) Usable), 0. simpl.
    split_and!; [done|done|lia|lia|lia]. }
  apply list_elem_of_lookup in Hin as [i Hi].
  pose proof (lookup_lt_Some _ _ _ Hi).
  assert (Hb : Forall (fun a => 0 <= a < 2 ^ 52) (frame_addresses out)).
  { apply Forall_forall. intros a (r & j & Hr' & _ & Hj & -> & He)%elem_of_frame_addresses.
    rewrite Hout in Hr'. pose proof (map_of_bounds (next_frame self) ks ke mm r Hok ltac:(lia) Hfit Hr'). lia. }
  pose proof (nukleus_run out (S i) 0 Hb ltac:(lia)) as Hrun.
  eexists _, _, _, (round_down ke Size4KiB). split; [exact Hrun|]. split.
  - apply list_elem_of_fmap. exists i. rewrite Hi. split; [done|]. apply elem_of_seq. lia.
  - unfold round_down, Size4KiB. pose proof (Z.mod_pos_bound ke 4096 ltac:(lia)). lia.
Qed.
End Handoff.

(** * Witnesses: the sample map of BootMemory.v *)

#[local] Instance release : Profile := false.

(** The map handed over when the kernel file is two whole pages. *)
Definition sample_aligned_out : list MemoryRegion :=
  [mkMemoryRegion 0 0x4000 Bootloader; mkMemoryRegion 0x4000 0x5000 Usable;
   mkMemoryRegion 0x5000 0x7000 Bootloader; mkMemoryRegion 0x7000 0x8000 Usable;
   mkMemoryRegion 0x8000 0x9000 Bootloader; mkMemoryRegion 0x9000 0x10000 Usable;
   mkMemoryRegion 0x10000 0x11000 (UnknownUefi 6)].

Lemma sample_handed_over_aligned :
  handed_over sample_map 4 0x5000 0x2000 sample_frames sample_after sample_aligned_out.
Proof.
  split.
  - exact sample_ok.
  - exact sample_sorted.
  - unfold u64_size. lia.
  - exists sample_allocator. split; [exact sample_new|exact sample_run].
  - apply (bool_decide_unpack _). vm_compute. exact I.
  - exists sample_buffer. split; [reflexivity|]. vm_compute. reflexivity.
Qed.

Lemma sample_handed_over :
  handed_over sample_map 4 sample_ks sample_kl sample_frames sample_after sample_out.
Proof.
  split.
  - exact sample_ok.
  - exact sample_sorted.
  - unfold sample_ks, sample_kl, u64_size. lia.
  - exists sample_allocator. split; [exact sample_new|exact sample_run].
  - exact sample_fits.
  - exists sample_buffer. split; [reflexivity|exact sample_construct].
Qed.

Lemma handoff_disjoint_witness :
  allocate_frames 3 (NukleusFrameAllocator_init sample_aligned_out) =
    Ret ([Some 0x4000; Some 0x7000; Some 0x9000], mkNukleus sample_aligned_out 3) /\
  forall g a, Some g ∈ [Some 0x4000; Some 0x7000; Some 0x9000] -> g <= a < g + 4096 ->
    ~ (0x5000 <= a < 0x5000 + 0x2000) /\ forall f, Some f ∈ sample_frames -> ~ (f <= a < f + 4096).
Proof.
  split; [vm_compute; reflexivity|].
  apply (handoff_disjoint sample_map 4 0x5000 0x2000 sample_frames sample_after sample_aligned_out 3
    [Some 0x4000; Some 0x7000; Some 0x9000] (mkNukleus sample_aligned_out 3)
    sample_handed_over_aligned).
  - compute_divide.
  - compute_divide.
  - unfold u64_size. lia.
  - vm_compute. reflexivity.
Defined.

Lemma kernel_tail_frame_reallocated_witness :
  exists m frames nk f, allocate_frames m (NukleusFrameAllocator_init sample_out) = Ret (frames, nk) /\
    Some f ∈ frames /\ f <= sample_ks + sample_kl - 1 < f + 4096.
Proof.
  apply (kernel_tail_frame_reallocated sample_map 4 sample_ks sample_kl sample_frames sample_after
    sample_out (mkDescriptor 2 0x4000 4) 0x4000 sample_handed_over).
  - apply list_elem_of_In. right. left. reflexivity.
  - vm_compute. reflexivity.
  - vm_compute. discriminate.
  - vm_compute. reflexivity.
  - vm_compute. discriminate.
  - vm_compute. reflexivity.
Defined.
