(* ===== verification/Framebuffer.v ===== *)
(** nukleus/src/text_based_interface: drawing primitives on a linear
    framebuffer (framebuffer_writer.rs, primitive.rs, text_based_interface.rs).

    A buffer is the list of its bytes.  Each drawing routine is a function
    from buffer to buffer in the outcome monad: index arithmetic and slice
    writes may panic.  The two loops that are not counted, in [draw_line] and
    [draw_circle], run on fuel that FramebufferLine.v and FramebufferCircle.v
    show to be enough. *)

From S2P Require Import Prelude Synapse.

(** * primitive.rs *)

Record Point : Type := mkPoint { px : Z; py : Z }.

Inductive Primitive : Type :=
  | Line (a b : Point)
  | Quad (a b : Point)
  | Disk (a : Point) (r : Z)
  | Circle (a : Point) (r : Z)
  | Ellipse (a b : Point)
  | BezierQuad (a b c : Point)
  | BezierCubic (a b c d : Point).

(** * Single precision

    [z as f32] for an [isize], as the integer it is rounded to: 24 bits of
    significand, round to nearest, ties to even. *)
Definition round_half_even (n d : Z) : Z :=
  let q := n / d in
  let t := 2 * (n mod d) in
  if t <? d then q else if d <? t then q + 1 else if Z.even q then q else q + 1.

Definition f32_of_isize (z : Z) : Z :=
  if Z.abs z <? 2 ^ 24 then z
  else let e := Z.log2 (Z.abs z) - 23 in
       Z.sgn z * (round_half_even (Z.abs z) (2 ^ e) * 2 ^ e).

(** [f as isize], which saturates. *)
Definition isize_of_f32 (f : Z) : Z := Z.max isize_min (Z.min isize_max f).

(** * framebuffer_writer.rs *)

Record FramebufferWriter : Type := mkWriter { info : FramebufferInfo }.

Definition FramebufferWriter_new (i : FramebufferInfo) : FramebufferWriter := mkWriter i.

Section Drawing.
Context {P : Profile}.

(** [(x + ((height - 1) - y) * stride) * bytes_per_pixel + k] *)
Definition pixel_index (i : FramebufferInfo) (x y k : Z) : outcome Z :=
  h1 ← u64_sub (height i) 1;
  row ← u64_sub h1 y;
  off ← u64_mul row (stride i);
  cell ← u64_add x off;
  byte ← u64_mul cell (bytes_per_pixel i);
  u64_add byte k.

Definition put (i : FramebufferInfo) (x y k v : Z) (buffer : list Z) : outcome (list Z) :=
  j ← pixel_index i x y k; array_set buffer j v.

Definition draw_pixel (self : FramebufferWriter) (buffer : list Z) (x y : Z) (color : Color)
  : outcome (list Z) :=
  let i := info self in
  if (x <? width i) && (y <? height i) then
    if bool_decide (pixel_format i = Rgb) then
      buffer ← put i x y 0 (red color) buffer;
      buffer ← put i x y 1 (green color) buffer;
      put i x y 2 (blue color) buffer
    else
      buffer ← put i x y 0 (blue color) buffer;
      buffer ← put i x y 1 (green color) buffer;
      put i x y 2 (red color) buffer
  else Ret buffer.

(** [while x != x1 || y != y1 { .. }] *)
Fixpoint line_loop (fuel : nat) (self : FramebufferWriter) (color : Color)
    (x1 y1 sx sy dx dy : Z) (buffer : list Z) (x y err : Z) : outcome (list Z) :=
  if (x =? x1) && (y =? y1) then Ret buffer
  else match fuel with
  | O => OutOfFuel
  | S fuel =>
      buffer ← draw_pixel self buffer (as_usize x) (as_usize y) color;
      e2 ← isize_mul 2 err;
      s1 ← (if dy <=? e2 then
              err ← isize_add err dy; x ← isize_add x sx; Ret (err, x)
            else Ret (err, x));
      s2 ← (if e2 <=? dx then
              err ← isize_add (fst s1) dx; y ← isize_add y sy; Ret (err, y)
            else Ret (fst s1, y));
      line_loop fuel self color x1 y1 sx sy dx dy buffer (snd s1) (snd s2) (fst s2)
  end.

Definition draw_line (self : FramebufferWriter) (buffer : list Z) (a b : Point) (color : Color)
  : outcome (list Z) :=
  let x0 := as_isize (px a) in
  let y0 := as_isize (py a) in
  let x1 := as_isize (px b) in
  let y1 := as_isize (py b) in
  ddx ← isize_sub x1 x0;
  let dx := isize_of_f32 (Z.abs (f32_of_isize ddx)) in
  let sx := if x0 <? x1 then 1 else -1 in
  ddy ← isize_sub y1 y0;
  let dy := isize_of_f32 (- Z.abs (f32_of_isize ddy)) in
  let sy := if y0 <? y1 then 1 else -1 in
  err ← isize_add dx dy;
  line_loop (Z.to_nat (Z.max (Z.abs (x1 - x0)) (Z.abs (y1 - y0))))
    self color x1 y1 sx sy dx dy buffer x0 y0 err.

Definition draw_quad (self : FramebufferWriter) (buffer : list Z) (a b : Point) (color : Color)
  : outcome (list Z) :=
  width ← u64_sub (px b) (px a);
  height ← u64_sub (py b) (py a);
  foldM (fun buffer j =>
    foldM (fun buffer i =>
      x ← u64_add (px a) i;
      y ← u64_add (py a) j;
      draw_pixel self buffer x y color) (range0 width) buffer) (range0 height) buffer.

(** The body of the two loops of [draw_disk]. *)
Definition disk_cell (self : FramebufferWriter) (x y radius_squared : Z) (color : Color)
    (i j : Z) (buffer : list Z) : outcome (list Z) :=
  ii ← u64_mul i i;
  jj ← u64_mul j j;
  d ← u64_add ii jj;
  if d <=? radius_squared then
    xi ← u64_add x i; yj ← u64_add y j;
    buffer ← draw_pixel self buffer xi yj color;
    cx ← isize_sub (as_isize x) (as_isize i);
    buffer ← (if 0 <=? cx then
                xi ← u64_sub x i; yj ← u64_add y j; draw_pixel self buffer xi yj color
              else Ret buffer);
    cx ← isize_sub (as_isize x) (as_isize i);
    c2 ← (if 0 <=? cx then cy ← isize_sub (as_isize y) (as_isize j); Ret (0 <=? cy) else Ret false);
    buffer ← (if c2 : bool then
                xi ← u64_sub x i; yj ← u64_sub y j; draw_pixel self buffer xi yj color
              else Ret buffer);
    cy ← isize_sub (as_isize y) (as_isize j);
    if 0 <=? cy then
      xi ← u64_add x i; yj ← u64_sub y j; draw_pixel self buffer xi yj color
    else Ret buffer
  else Ret buffer.

Definition draw_disk (self : FramebufferWriter) (buffer : list Z) (a : Point) (r : Z) (color : Color)
  : outcome (list Z) :=
  radius_squared ← u64_mul r r;
  foldM (fun buffer i =>
    foldM (fun buffer j => disk_cell self (px a) (py a) radius_squared color i j buffer)
      (range0 r) buffer) (range0 r) buffer.

(** The four pixels that one iteration of [draw_circle] draws. *)
Definition circle_pixels (self : FramebufferWriter) (color : Color) (a : Point) (x y : Z)
    (buffer : list Z) : outcome (list Z) :=
  let ax := as_isize (px a) in
  let ay := as_isize (py a) in
  u ← isize_add ax y; v ← isize_add ay x;
  buffer ← draw_pixel self buffer (as_usize u) (as_usize v) color;
  u ← isize_sub ax x;
  buffer ← (if 0 <=? u then
              v ← isize_add ay y; draw_pixel self buffer (as_usize u) (as_usize v) color
            else Ret buffer);
  u ← isize_sub ax y;
  c ← (if 0 <=? u then v ← isize_sub ay x; Ret (0 <=? v) else Ret false);
  buffer ← (if c : bool then
              v ← isize_sub ay x; draw_pixel self buffer (as_usize u) (as_usize v) color
            else Ret buffer);
  v ← isize_sub ay y;
  if 0 <=? v then
    u ← isize_add ax x; draw_pixel self buffer (as_usize u) (as_usize v) color
  else Ret buffer.

(** [err += 2 * c + 1] *)
Definition bump (err c : Z) : outcome Z :=
  t ← isize_mul 2 c; t ← isize_add t 1; isize_add err t.

(** [loop { .. }] *)
Fixpoint circle_loop (fuel : nat) (self : FramebufferWriter) (color : Color) (a : Point)
    (buffer : list Z) (x y err : Z) : outcome (list Z) :=
  match fuel with
  | O => OutOfFuel
  | S fuel =>
      buffer ← circle_pixels self color a x y buffer;
      let rad := err in
      s1 ← (if rad <=? y then y ← isize_add y 1; err ← bump err y; Ret (y, err) else Ret (y, err));
      s2 ← (if (x <? rad) || (fst s1 <? snd s1) then
              x ← isize_add x 1; err ← bump (snd s1) x; Ret (x, err)
            else Ret (x, snd s1));
      if 0 <=? fst s2 then Ret buffer
      else circle_loop fuel self color a buffer (fst s2) (fst s1) (snd s2)
  end.

Definition draw_circle (self : FramebufferWriter) (buffer : list Z) (a : Point) (r : Z) (color : Color)
  : outcome (list Z) :=
  let rad := as_isize r in
  x ← isize_neg rad;
  t ← isize_mul 2 rad;
  err ← isize_sub 2 t;
  circle_loop (Z.to_nat (2 * r + 1)) self color a buffer x 0 err.

Definition draw_ellipse (self : FramebufferWriter) (buffer : list Z) (a b : Point) (color : Color)
  : outcome (list Z) := Ret buffer.

Definition draw_primitive (self : FramebufferWriter) (buffer : list Z) (primitive : Primitive)
    (color : Color) : outcome (list Z) :=
  match primitive with
  | Line a b => draw_line self buffer a b color
  | Quad a b => draw_quad self buffer a b color
  | Disk a r => draw_disk self buffer a r color
  | Circle a r => draw_circle self buffer a r color
  | Ellipse a b => draw_ellipse self buffer a b color
  | BezierQuad _ _ _ => Ret buffer
  | BezierCubic _ _ _ _ => Ret buffer
  end.

(** text_based_interface.rs *)
Definition draw_background (buffer : list Z) (writer : FramebufferWriter) : outcome (list Z) :=
  let i := info writer in
  let quad := Quad (mkPoint 0 0) (mkPoint (width i) (height i)) in
  draw_primitive writer buffer quad (mkColor 221 232 242).

(** nukleus/src/main.rs: what [main] draws once the heap is set up. *)
Definition main_draw (i : FramebufferInfo) (buffer : list Z) : outcome (list Z) :=
  let writer := FramebufferWriter_new i in
  buffer ← draw_background buffer writer;
  let cx := width i / 2 in
  let cy := height i / 2 in
  x0 ← u64_sub cx 100; y0 ← u64_sub cy 50; x1 ← u64_add cx 100; y1 ← u64_add cy 50;
  buffer ← draw_primitive writer buffer (Quad (mkPoint x0 y0) (mkPoint x1 y1)) (mkColor 255 255 0);
  buffer ← draw_primitive writer buffer (Circle (mkPoint cx cy) 100) (mkColor 0 0 255);
  x2 ← u64_sub cx 100; y2 ← u64_add cy 300;
  buffer ← draw_primitive writer buffer (Line (mkPoint cx cy) (mkPoint x2 y2)) (mkColor 0 0 255);
  draw_primitive writer buffer (Disk (mkPoint cx cy) 15) (mkColor 255 200 0).
End Drawing.

(** * The picture a buffer shows *)

Section Picture.
Context {P : Profile}.
Variable i : FramebufferInfo.

Definition on_screen (x y : Z) : Prop := 0 <= x < width i /\ 0 <= y < height i.

(** A mode whose rows fit the stride and whose pixels have three bytes or
    more, and a size that a slice can have. *)
Record mode_ok : Prop := {
  mode_width : 0 <= width i <= stride i;
  mode_height : 0 <= height i;
  mode_bytes : 3 <= bytes_per_pixel i;
  mode_size : height i * stride i * bytes_per_pixel i <= byte_len i;
  mode_len : byte_len i <= isize_max;
  mode_usize : width i < u64_size /\ height i < u64_size;
}.

(** The first byte of the pixel shown at [(x, y)]; row 0 is at the bottom. *)
Definition offset (x y : Z) : Z :=
  (x + (height i - 1 - y) * stride i) * bytes_per_pixel i.

Definition pixel (buffer : list Z) (x y : Z) : option Color :=
  b0 ← buffer !! Z.to_nat (offset x y);
  b1 ← buffer !! Z.to_nat (offset x y + 1);
  b2 ← buffer !! Z.to_nat (offset x y + 2);
  Some (match pixel_format i with Rgb => mkColor b0 b1 b2 | Bgr => mkColor b2 b1 b0 end).

(** The byte [k] belongs to the pixel at [(x, y)]. *)
Definition byte_of (k x y : Z) : Prop := offset x y <= k < offset x y + 3.

(** [buffer'] is [buffer] with the pixels of [A] that are on the screen in
    colour [c]: no other byte changes. *)
Definition paints (c : Color) (A : Z -> Z -> Prop) (buffer buffer' : list Z) : Prop :=
  length buffer' = length buffer /\
  (forall x y, on_screen x y -> A x y -> pixel buffer' x y = Some c) /\
  (forall k, 0 <= k -> (forall x y, on_screen x y -> A x y -> ~ byte_of k x y) ->
     buffer' !! Z.to_nat k = buffer !! Z.to_nat k).

(** A drawing routine paints a set of pixels, on every buffer of the mode. *)
Definition draws (c : Color) (D : list Z -> outcome (list Z)) (A : Z -> Z -> Prop) : Prop :=
  (forall x y, A x y \/ ~ A x y) /\
  forall buffer, Z.of_nat (length buffer) = byte_len i ->
    exists buffer', D buffer = Ret buffer' /\ paints c A buffer buffer'.

Context (Hmode : mode_ok).

Lemma offset_bounds x y : on_screen x y -> 0 <= offset x y /\ offset x y + 3 <= byte_len i.
Proof.
  intros [Hx Hy]. destruct Hmode as [Hw Hh Hb Hs _]. unfold offset.
  assert (0 <= (height i - 1 - y) * stride i) by nia.
  assert (x + (height i - 1 - y) * stride i <= height i * stride i - 1) by nia.
  split; [nia|]. nia.
Qed.

Lemma mode_small x y : on_screen x y -> width i <= isize_max /\ height i <= isize_max.
Proof.
  intros [Hx Hy]. destruct Hmode as [Hw Hh Hb Hs Hl].
  assert (1 <= stride i /\ 1 <= height i) as [H1 H2] by lia.
  assert (height i <= height i * stride i) by nia.
  assert (stride i <= height i * stride i) by nia.
  assert (height i * stride i <= height i * stride i * bytes_per_pixel i) by nia. lia.
Qed.

(** Different pixels have no byte in common. *)
Lemma byte_of_inj k x y x' y' :
  on_screen x y -> on_screen x' y' -> byte_of k x y -> byte_of k x' y' -> x = x' /\ y = y'.
Proof.
  intros [Hx Hy] [Hx' Hy'] H1 H2. destruct Hmode as [Hw Hh Hb _ _].
  unfold byte_of, offset in *.
  set (c := x + (height i - 1 - y) * stride i) in *.
  set (c' := x' + (height i - 1 - y') * stride i) in *.
  assert (c = c') by nia. unfold c, c' in *.
  assert (y = y') by nia. split; [nia|done].
Qed.

Lemma paints_frame c A buffer buffer' x y :
  paints c A buffer buffer' -> on_screen x y -> ~ A x y -> pixel buffer' x y = pixel buffer x y.
Proof.
  intros (_ & _ & Hfr) Hxy HnA. destruct (offset_bounds x y Hxy) as [H0 _].
  assert (Hk : forall k, byte_of k x y -> buffer' !! Z.to_nat k = buffer !! Z.to_nat k).
  { intros k Hk. apply Hfr; [unfold byte_of in Hk; lia|]. intros x' y' Hxy' HA Hk'.
    destruct (byte_of_inj k x y x' y' Hxy Hxy' Hk Hk') as [-> ->]. done. }
  unfold pixel. rewrite !Hk by (unfold byte_of; lia). done.
Qed.

Lemma paints_ext c A B buffer buffer' :
  (forall x y, on_screen x y -> A x y <-> B x y) ->
  paints c A buffer buffer' -> paints c B buffer buffer'.
Proof.
  intros HAB (Hl & Hp & Hf). split; [done|]. split.
  - intros x y Hxy HB. apply Hp; [done|]. by apply HAB.
  - intros k Hk HB. apply Hf; [done|]. intros x y Hxy HA. apply HB; [done|]. by apply HAB.
Qed.

Lemma paints_refl c buffer : paints c (fun _ _ => False) buffer buffer.
Proof. split; [done|]. split; done. Qed.

Lemma paints_trans c A B b1 b2 b3 :
  (forall x y, B x y \/ ~ B x y) ->
  paints c A b1 b2 -> paints c B b2 b3 -> paints c (fun x y => A x y \/ B x y) b1 b3.
Proof.
  intros HB (L1 & P1 & F1) H2. pose proof H2 as (L2 & P2 & F2).
  split; [congruence|]. split.
  - intros x y Hxy HAB. destruct (HB x y) as [Hb|Hb]; [by apply P2|].
    rewrite (paints_frame c B b2 b3) by done. apply P1; [done|]. by destruct HAB.
  - intros k Hk Hno. rewrite F2, F1; try done; intros x y Hxy HA; apply Hno; auto.
Qed.

Lemma draws_ext c D A B :
  (forall x y, A x y <-> B x y) -> draws c D A -> draws c D B.
Proof.
  intros HAB [Hd H]. split; [intros x y; rewrite <- HAB; apply Hd|].
  intros buffer Hb. destruct (H buffer Hb) as (b' & Hr & Hp). exists b'. split; [done|].
  eapply paints_ext; [|done]. auto.
Qed.

Lemma draws_eq c D D' A :
  (forall buffer, D buffer = D' buffer) -> draws c D' A -> draws c D A.
Proof. intros HD [Hd H]. split; [done|]. intros buffer Hb. rewrite HD. by apply H. Qed.

Lemma draws_ret c : draws c Ret (fun _ _ => False).
Proof. split; [tauto|]. intros buffer _. exists buffer. split; [done|apply paints_refl]. Qed.

Lemma draws_seq c D1 D2 A B :
  draws c D1 A -> draws c D2 B ->
  draws c (fun buffer => b ← D1 buffer; D2 b) (fun x y => A x y \/ B x y).
Proof.
  intros [HdA HA] [HdB HB]. split; [intros x y; destruct (HdA x y), (HdB x y); tauto|].
  intros buffer Hb. destruct (HA buffer Hb) as (b1 & -> & Hp1).
  destruct (HB b1) as (b2 & H2 & Hp2); [destruct Hp1 as [-> _]; done|].
  exists b2. split; [done|]. by eapply paints_trans.
Qed.

Lemma draws_foldM {T} c (body : list Z -> T -> outcome (list Z)) (A : T -> Z -> Z -> Prop) xs :
  (forall t, t ∈ xs -> draws c (fun buffer => body buffer t) (A t)) ->
  draws c (foldM body xs) (fun x y => exists t, t ∈ xs /\ A t x y).
Proof.
  induction xs as [|t xs IH]; intros Hxs.
  - eapply draws_ext; [|apply draws_ret]. intros x y. split; [done|].
    by intros (t & Ht%elem_of_nil & _).
  - eapply draws_ext; [|apply (draws_seq c (fun b => body b t) (foldM body xs) (A t)
      (fun x y => exists t, t ∈ xs /\ A t x y)); [apply Hxs; set_solver|]].
    + intros x y. setoid_rewrite elem_of_cons. naive_solver.
    + apply IH. intros; apply Hxs. set_solver.
Qed.
End Picture.

(** * One pixel *)

Section Pixel.
Context {P : Profile}.
Variables (i : FramebufferInfo) (Hmode : mode_ok i).

Lemma pixel_index_ok x y k :
  on_screen i x y -> 0 <= k < 3 -> pixel_index i x y k = Ret (offset i x y + k).
Proof.
  intros Hxy Hk. pose proof (offset_bounds i Hmode x y Hxy) as [H0 H1].
  pose proof (mode_small i Hmode x y Hxy) as [Hsw Hsh]. pose proof Hmode as [Hw Hh Hb Hs Hl]. destruct Hxy as [Hx Hy].
  unfold offset, isize_max, u64_size, pixel_index in *.
  set (row := height i - 1 - y) in *. set (off := row * stride i) in *.
  assert (Hoff : 0 <= off) by (unfold off, row; nia).
  assert (Hcell : x + off <= (x + off) * bytes_per_pixel i) by nia.
  rewrite u64_sub_ok, bind_Ret by (unfold u64_size; lia).
  rewrite u64_sub_ok, bind_Ret by (unfold u64_size, row in *; lia). fold row.
  rewrite u64_mul_ok, bind_Ret by (fold off; unfold u64_size; lia). fold off.
  rewrite u64_add_ok, bind_Ret by (unfold u64_size; lia).
  rewrite u64_mul_ok, bind_Ret by (unfold u64_size; lia).
  rewrite u64_add_ok by (unfold u64_size; lia). done.
Qed.

Lemma put_ok x y k v buffer :
  on_screen i x y -> 0 <= k < 3 -> Z.of_nat (length buffer) = byte_len i ->
  put i x y k v buffer = Ret (<[Z.to_nat (offset i x y + k) := v]> buffer).
Proof.
  intros Hxy Hk Hb. pose proof (offset_bounds i Hmode x y Hxy).
  unfold put. rewrite pixel_index_ok, bind_Ret by done. apply array_set_ok. lia.
Qed.

(** The three writes to the bytes of a pixel. *)
Definition write3 (o : Z) (v0 v1 v2 : Z) (buffer : list Z) : list Z :=
  <[Z.to_nat (o + 2) := v2]> (<[Z.to_nat (o + 1) := v1]> (<[Z.to_nat (o + 0) := v0]> buffer)).

Lemma put3_ok x y v0 v1 v2 buffer :
  on_screen i x y -> Z.of_nat (length buffer) = byte_len i ->
  (b ← put i x y 0 v0 buffer; b ← put i x y 1 v1 b; put i x y 2 v2 b)
    = Ret (write3 (offset i x y) v0 v1 v2 buffer).
Proof.
  intros Hxy Hb. rewrite put_ok, bind_Ret by (try lia; done).
  rewrite put_ok, bind_Ret by (rewrite ?length_insert; try lia; done).
  rewrite put_ok by (rewrite ?length_insert; try lia; done). done.
Qed.

Lemma write3_lookup o v0 v1 v2 buffer k :
  0 <= o -> 0 <= k -> o + 3 <= Z.of_nat (length buffer) ->
  write3 o v0 v1 v2 buffer !! Z.to_nat k =
    if decide (k = o) then Some v0 else if decide (k = o + 1) then Some v1
    else if decide (k = o + 2) then Some v2 else buffer !! Z.to_nat k.
Proof.
  intros Ho Hk Hl. unfold write3.
  repeat case_decide; subst;
    rewrite ?list_lookup_insert_ne by lia; rewrite ?Z.add_0_r;
    try (rewrite list_lookup_insert_eq by (rewrite ?length_insert; lia); done); done.
Qed.

(** [draw_pixel] paints its pixel if it is on the screen and nothing else;
    it does not panic whatever the coordinates. *)
Lemma draw_pixel_draws x y c :
  0 <= x -> 0 <= y ->
  draws i c (fun buffer => draw_pixel (mkWriter i) buffer x y c) (fun x' y' => x' = x /\ y' = y).
Proof.
  intros Hx Hy. split; [intros x' y'; destruct (decide (x' = x)), (decide (y' = y)); tauto|].
  intros buffer Hb. unfold draw_pixel. simpl.
  destruct (Z.ltb_spec x (width i)), (Z.ltb_spec y (height i)); simpl;
    try (exists buffer; split; [done|]; split; [done|]; split; [|done];
         intros x' y' [? ?] [-> ->]; lia).
  assert (Hxy : on_screen i x y) by (split; lia).
  pose proof (offset_bounds i Hmode x y Hxy) as [Ho Hl].
  assert (Hpaint : forall v0 v1 v2,
    (match pixel_format i with Rgb => mkColor v0 v1 v2 | Bgr => mkColor v2 v1 v0 end) = c ->
    paints i c (fun x' y' => x' = x /\ y' = y) buffer (write3 (offset i x y) v0 v1 v2 buffer)).
  { intros v0 v1 v2 Hc. split; [unfold write3; by rewrite !length_insert|]. split.
    - intros x' y' _ [-> ->]. unfold pixel.
      rewrite !write3_lookup by lia. repeat (case_decide; try lia). simpl. by rewrite Hc.
    - intros k Hk Hno. rewrite write3_lookup by lia.
      specialize (Hno x y Hxy (conj eq_refl eq_refl)). unfold byte_of in Hno.
      repeat (case_decide; try lia). done. }
  destruct (pixel_format i) eqn:Hf; simpl; (eexists; split; [by apply put3_ok|]);
    apply Hpaint; by destruct c.
Qed.

(** Coordinates that are [isize] values: a negative one becomes a [usize]
    beyond every screen. *)
Lemma draw_pixel_signed x y c :
  isize_min <= x <= isize_max -> isize_min <= y <= isize_max ->
  draws i c (fun buffer => draw_pixel (mkWriter i) buffer (as_usize x) (as_usize y) c)
    (fun x' y' => x' = x /\ y' = y).
Proof.
  intros Hx Hy. pose proof Hmode as [Hw Hh Hb Hs Hl].
  assert (Hpos : forall z, isize_min <= z <= isize_max -> 0 <= as_usize z /\ (0 <= z -> as_usize z = z)
      /\ (z < 0 -> isize_max < as_usize z)).
  { intros z Hz. unfold isize_min, isize_max in *.
    destruct (decide (0 <= z)).
    - rewrite as_usize_id by (unfold u64_size; lia). lia.
    - rewrite as_usize_neg by (unfold isize_min; lia). unfold u64_size. lia. }
  destruct (Hpos x Hx) as (Hx0 & Hx1 & Hx2), (Hpos y Hy) as (Hy0 & Hy1 & Hy2).
  destruct (draw_pixel_draws (as_usize x) (as_usize y) c Hx0 Hy0) as [Hd H].
  split; [intros x' y'; destruct (decide (x' = x)), (decide (y' = y)); tauto|].
  intros buffer Hlen. destruct (H buffer Hlen) as (b' & Hr & Hp). exists b'. split; [done|].
  eapply paints_ext; [|exact Hp]. intros x' y' Hxy'. simpl.
  pose proof (mode_small i Hmode x' y' Hxy') as [Hsw Hsh]. destruct Hxy' as [Hx' Hy'].
  destruct (decide (0 <= x)), (decide (0 <= y)); [rewrite Hx1, Hy1 by done; done|..].
  all: split; intros [-> ->]; lia.
Qed.
End Pixel.

(** * Rectangles and disks *)

Section Shapes.
Context {P : Profile}.
Variables (i : FramebufferInfo) (Hmode : mode_ok i).

Lemma draws_bind {A} c (m : outcome A) (v : A) D S :
  m = Ret v -> draws i c (fun b => D v b) S -> draws i c (fun b => a ← m; D a b) S.
Proof. by intros ->. Qed.

Lemma draw_quad_draws a b c :
  0 <= px a <= px b -> 0 <= py a <= py b -> px b < u64_size -> py b < u64_size ->
  draws i c (fun buffer => draw_quad (mkWriter i) buffer a b c)
    (fun x y => px a <= x < px b /\ py a <= y < py b).
Proof.
  intros Hx Hy Hbx Hby. unfold draw_quad.
  rewrite !u64_sub_ok by lia. simpl.
  eapply draws_ext; [|apply (draws_foldM i Hmode c _ (fun j x y => exists t, t ∈ range0 (px b - px a) /\
    x = px a + t /\ y = py a + j))].
  - intros x y. split.
    + intros (j & Hj%elem_of_range0 & t & Ht%elem_of_range0 & -> & ->). lia.
    + intros [Hx' Hy']. exists (y - py a). split; [apply elem_of_range0; lia|].
      exists (x - px a). split; [apply elem_of_range0; lia|]. lia.
  - intros j Hj%elem_of_range0.
    apply (draws_foldM i Hmode c _ (fun t x y => x = px a + t /\ y = py a + j)).
    intros t Ht%elem_of_range0.
    rewrite !u64_add_ok by lia. simpl. apply draw_pixel_draws; [done|lia|lia].
Qed.

(** The four symmetric pixels of a cell of the disk, those with a negative
    coordinate left out. *)
Definition cell_pixels (ax ay r2 t u x y : Z) : Prop :=
  t * t + u * u <= r2 /\ (x = ax + t \/ x = ax - t) /\ (y = ay + u \/ y = ay - u).

Lemma draws_if c (b : bool) D A :
  draws i c D A ->
  draws i c (fun buffer => if b then D buffer else Ret buffer) (fun x y => b = true /\ A x y).
Proof.
  intros HD. destruct b; eapply draws_ext; [|exact HD| |apply draws_ret];
    intros x y; simpl; naive_solver.
Qed.

(** Painting a set that differs only outside the screen is the same. *)
Lemma draws_clip c D A B :
  (forall x y, 0 <= x -> 0 <= y -> A x y <-> B x y) -> (forall x y, B x y \/ ~ B x y) ->
  draws i c D A -> draws i c D B.
Proof.
  intros HAB Hdec [_ H]. split; [done|].
  intros buffer Hb. destruct (H buffer Hb) as (b' & Hr & Hp). exists b'. split; [done|].
  eapply paints_ext; [|exact Hp]. intros x y [Hx Hy]. apply HAB; lia.
Qed.

Lemma draw_pixel_if x y c (b : bool) :
  (b = true -> 0 <= x /\ 0 <= y) ->
  draws i c (fun buffer => if b then draw_pixel (mkWriter i) buffer x y c else Ret buffer)
    (fun x' y' => b = true /\ x' = x /\ y' = y).
Proof.
  intros Hb. destruct b.
  - destruct (Hb eq_refl). by apply (draws_if c true), draw_pixel_draws.
  - eapply draws_ext; [|apply draws_ret]. naive_solver.
Qed.

Lemma disk_cell_draws ax ay r2 t u c :
  0 <= ax -> 0 <= ay -> 0 <= t < 2 ^ 31 -> 0 <= u < 2 ^ 31 ->
  ax < 2 ^ 62 -> ay < 2 ^ 62 ->
  draws i c (disk_cell (mkWriter i) ax ay r2 c t u) (cell_pixels ax ay r2 t u).
Proof.
  intros Hax Hay Ht Hu Hbx Hby. unfold isize_max, isize_min, u64_size in *.
  assert (t * t < 2 ^ 62 /\ u * u < 2 ^ 62) as [Htt Huu] by nia.
  set (D := fun buffer =>
    if t * t + u * u <=? r2 then
      buffer ← draw_pixel (mkWriter i) buffer (ax + t) (ay + u) c;
      buffer ← (if 0 <=? ax - t then draw_pixel (mkWriter i) buffer (ax - t) (ay + u) c else Ret buffer);
      buffer ← (if (0 <=? ax - t) && (0 <=? ay - u)
                then draw_pixel (mkWriter i) buffer (ax - t) (ay - u) c else Ret buffer);
      (if 0 <=? ay - u then draw_pixel (mkWriter i) buffer (ax + t) (ay - u) c else Ret buffer)
    else Ret buffer).
  assert (HD : forall buffer, disk_cell (mkWriter i) ax ay r2 c t u buffer = D buffer).
  { intros buffer. unfold disk_cell, D.
    rewrite !u64_mul_ok, !bind_Ret, (u64_add_ok (t * t)), bind_Ret by (unfold u64_size; nia).
    destruct (t * t + u * u <=? r2); [|done].
    rewrite !as_isize_id by (unfold isize_min, isize_max; lia).
    rewrite !u64_add_ok by (unfold u64_size; lia).
    rewrite !isize_sub_ok by (unfold isize_min, isize_max; lia). simpl.
    destruct (draw_pixel _ buffer _ _ c) as [b1|m|]; simpl; [|done|done].
    destruct (Z.leb_spec 0 (ax - t)) as [Hx|Hx]; [rewrite (u64_sub_ok ax t) by (unfold u64_size; lia)|];
      destruct (Z.leb_spec 0 (ay - u)) as [Hy|Hy];
      [rewrite (u64_sub_ok ay u) by (unfold u64_size; lia)|
      |rewrite (u64_sub_ok ay u) by (unfold u64_size; lia)|]; done. }
  assert (HDd : draws i c D (cell_pixels ax ay r2 t u)).
  { unfold D. eapply draws_clip; [| |apply (draws_if c (t * t + u * u <=? r2)),
      (draws_seq i Hmode), (draws_seq i Hmode), (draws_seq i Hmode);
      [apply draw_pixel_draws; [done|lia|lia]|apply draw_pixel_if|apply draw_pixel_if
      |apply draw_pixel_if]]; rewrite ?andb_true_iff, ?Z.leb_le; try lia.
    - intros x y Hx Hy. unfold cell_pixels. rewrite Z.leb_le, andb_true_iff, !Z.leb_le. lia.
    - intros x y. unfold cell_pixels.
      destruct (decide (t * t + u * u <= r2)), (decide (x = ax + t)), (decide (x = ax - t)),
        (decide (y = ay + u)), (decide (y = ay - u)); tauto. }
  by apply (draws_eq i c _ D).
Qed.

Lemma draw_disk_draws a r c :
  0 <= px a < 2 ^ 62 -> 0 <= py a < 2 ^ 62 -> 0 <= r < 2 ^ 31 ->
  draws i c (fun buffer => draw_disk (mkWriter i) buffer a r c)
    (fun x y => Z.abs (x - px a) < r /\ Z.abs (y - py a) < r /\
       (x - px a) * (x - px a) + (y - py a) * (y - py a) <= r * r).
Proof.
  intros Hx Hy Hr. unfold draw_disk.
  rewrite u64_mul_ok by (unfold u64_size; nia). simpl.
  eapply draws_ext; [|apply (draws_foldM i Hmode c _ (fun t x y => exists u, u ∈ range0 r /\
    cell_pixels (px a) (py a) (r * r) t u x y))].
  - intros x y. unfold cell_pixels. setoid_rewrite elem_of_range0. split.
    + intros (t & Ht & u & Hu & Hle & Hx' & Hy'). split; [lia|]. split; [lia|].
      destruct Hx' as [-> | ->], Hy' as [-> | ->]; nia.
    + intros (H1 & H2 & H3). exists (Z.abs (x - px a)). split; [lia|].
      exists (Z.abs (y - py a)). split; [lia|]. split; [|lia].
      rewrite <- !Z.abs_mul, !Z.abs_eq by nia. done.
  - intros t Ht%elem_of_range0.
    apply (draws_foldM i Hmode c _ (fun u => cell_pixels (px a) (py a) (r * r) t u)).
    intros u Hu%elem_of_range0. apply disk_cell_draws; lia.
Qed.
End Shapes.
