(* ===== verification/FramebufferLine.v ===== *)
(** [FramebufferWriter::draw_line]: Bresenham's algorithm, refined from a
    reference recursion on the numbers of steps taken along each axis.

    With [D] and [E] the horizontal and vertical distances, the error term of
    the code is [(1 + Y) * D - (1 + X) * E] after [X] horizontal and [Y]
    vertical steps.  The loop ends after exactly [max D E] iterations, so the
    fuel of [draw_line] is enough. *)

From S2P Require Import Prelude Synapse Framebuffer.

(** * The reference recursion *)

Definition bres_err (D E : Z) (s : Z * Z) : Z := (1 + s.2) * D - (1 + s.1) * E.

Definition bres_step (D E : Z) (s : Z * Z) : Z * Z :=
  (if - E <=? 2 * bres_err D E s then s.1 + 1 else s.1,
   if 2 * bres_err D E s <=? D then s.2 + 1 else s.2).

(** The state after [k] iterations. *)
Definition bres (D E : Z) (k : nat) : Z * Z := Nat.iter k (bres_step D E) (0, 0).

Lemma bres_S D E k : bres D E (S k) = bres_step D E (bres D E k).
Proof. done. Qed.

(** Exchanging the axes exchanges the coordinates. *)
Lemma bres_swap D E k : bres E D k = ((bres D E k).2, (bres D E k).1).
Proof.
  induction k as [|k IH]; [done|]. rewrite !bres_S, IH.
  destruct (bres D E k) as [X Y]. unfold bres_step, bres_err. simpl.
  f_equal; case_tests; lia.
Qed.

(** Along the long axis every iteration takes a step, and the error term
    stays in a window that keeps the short axis within one pixel. *)
Lemma bres_major D E k :
  0 <= E <= D ->
  (bres D E k).1 = Z.of_nat k /\ 0 <= (bres D E k).2 <= Z.of_nat k /\
  - E <= 2 * bres_err D E (bres D E k) <= 3 * D - 2 * E.
Proof.
  intros HE. induction k as [|k (HX & HY & Herr)].
  - unfold bres_err. simpl. lia.
  - rewrite bres_S. destruct (bres D E k) as [X Y]. unfold bres_step, bres_err in *. simpl in *.
    case_tests; simpl; split_and!; nia.
Qed.

Lemma bres_major_end D E : 0 <= E <= D -> bres D E (Z.to_nat D) = (D, E).
Proof.
  intros HE. destruct (bres_major D E (Z.to_nat D) HE) as (HX & HY & Herr).
  unfold bres_err in Herr. destruct (bres D E (Z.to_nat D)) as [X Y]. simpl in *.
  rewrite Z2Nat.id in * by lia. subst X. f_equal.
  destruct (decide (D = 0)); [nia|].
  assert (Y < E + 1) by nia. assert (E - 1 < Y \/ E = 0) by nia. lia.
Qed.

(** The facts that the loop needs, without a choice of the long axis. *)
Lemma bres_facts D E k :
  0 <= D -> 0 <= E -> Z.of_nat k <= Z.max D E ->
  let '(X, Y) := bres D E k in
  0 <= X <= Z.of_nat k /\ 0 <= Y <= Z.of_nat k /\ Z.max X Y = Z.of_nat k /\
  Z.abs (Y * D - X * E) <= Z.max D E /\
  Z.abs (2 * bres_err D E (X, Y)) <= 3 * Z.max D E.
Proof.
  intros HD HE Hk. destruct (Z.le_ge_cases E D) as [HED|HED].
  - destruct (bres_major D E k ltac:(lia)) as (HX & HY & Herr).
    destruct (bres D E k) as [X Y]. unfold bres_err in *. simpl in *. subst X. lia.
  - rewrite bres_swap. destruct (bres_major E D k ltac:(lia)) as (HX & HY & Herr).
    destruct (bres E D k) as [Y X]. unfold bres_err in *. simpl in *. subst Y. lia.
Qed.

Lemma bres_end D E : 0 <= D -> 0 <= E -> bres D E (Z.to_nat (Z.max D E)) = (D, E).
Proof.
  intros HD HE. destruct (Z.le_ge_cases E D) as [HED|HED].
  - rewrite Z.max_l by lia. by apply bres_major_end.
  - rewrite Z.max_r by lia. rewrite bres_swap, bres_major_end by lia. done.
Qed.

(** * Single precision is exact on distances below 2^24 *)

Lemma f32_exact z : Z.abs z <= 2 ^ 24 -> f32_of_isize z = z.
Proof.
  intros Hz. unfold f32_of_isize.
  destruct (Z.ltb_spec (Z.abs z) (2 ^ 24)); [done|].
  assert (Z.abs z = 2 ^ 24) as Heq by lia. rewrite Heq.
  change (Z.log2 (2 ^ 24) - 23) with 1. change (round_half_even (2 ^ 24) (2 ^ 1) * 2 ^ 1) with (2 ^ 24).
  rewrite <- Heq. rewrite Z.mul_comm. apply Z.abs_sgn.
Qed.

Lemma isize_of_f32_id f : isize_min <= f <= isize_max -> isize_of_f32 f = f.
Proof. unfold isize_of_f32. lia. Qed.

(** * The loop *)

Section Line.
Context {P : Profile}.
Variables (i : FramebufferInfo) (Hmode : mode_ok i).

(** The [k]-th point of the line from [(x0, y0)] with steps [sx], [sy]. *)
Definition line_point (x0 y0 sx sy D E : Z) (k : nat) : Z * Z :=
  (x0 + sx * (bres D E k).1, y0 + sy * (bres D E k).2).

Variables (x0 y0 sx sy D E : Z).
Hypothesis Hx0 : 0 <= x0 <= 2 ^ 24.
Hypothesis Hy0 : 0 <= y0 <= 2 ^ 24.
Hypothesis Hsx : sx = 1 \/ sx = -1.
Hypothesis Hsy : sy = 1 \/ sy = -1.
Hypothesis HD : 0 <= D <= 2 ^ 24.
Hypothesis HE : 0 <= E <= 2 ^ 24.

Let pt := line_point x0 y0 sx sy D E.

Lemma line_point_bounds k :
  Z.of_nat k <= Z.max D E -> - 2 ^ 25 <= (pt k).1 <= 2 ^ 25 /\ - 2 ^ 25 <= (pt k).2 <= 2 ^ 25.
Proof.
  intros Hk. pose proof (bres_facts D E k ltac:(lia) ltac:(lia) Hk) as Hf.
  unfold pt, line_point. destruct (bres D E k) as [X Y]. simpl. destruct Hsx, Hsy; subst; lia.
Qed.

(** Before the last iteration the current point is not the end point. *)
Lemma line_point_not_end k :
  Z.of_nat k < Z.max D E -> ((pt k).1 =? x0 + sx * D) && ((pt k).2 =? y0 + sy * E) = false.
Proof.
  intros Hk. pose proof (bres_facts D E k ltac:(lia) ltac:(lia) ltac:(lia)) as Hf.
  unfold pt, line_point. destruct (bres D E k) as [X Y]. simpl.
  destruct (Z.eqb_spec (x0 + sx * X) (x0 + sx * D)), (Z.eqb_spec (y0 + sy * Y) (y0 + sy * E));
    try done. exfalso. destruct Hsx, Hsy; subst; lia.
Qed.

(** One iteration of the code takes the reference state to the next. *)
Lemma line_step {A} k (f : Z -> Z -> Z -> outcome A) :
  Z.of_nat k < Z.max D E ->
  (e2 ← isize_mul 2 (bres_err D E (bres D E k));
   s1 ← (if - E <=? e2 then
           err ← isize_add (bres_err D E (bres D E k)) (- E); x ← isize_add (pt k).1 sx; Ret (err, x)
         else Ret (bres_err D E (bres D E k), (pt k).1));
   s2 ← (if e2 <=? D then
           err ← isize_add (fst s1) D; y ← isize_add (pt k).2 sy; Ret (err, y)
         else Ret (fst s1, (pt k).2));
   f (snd s1) (snd s2) (fst s2)) =
  f (pt (S k)).1 (pt (S k)).2 (bres_err D E (bres D E (S k))).
Proof.
  intros Hk. pose proof (line_point_bounds k ltac:(lia)) as [Hbx Hby].
  pose proof (bres_facts D E k ltac:(lia) ltac:(lia) ltac:(lia)) as Hf.
  unfold pt, line_point in *. rewrite bres_S. unfold bres_step.
  destruct (bres D E k) as [X Y]. destruct Hf as (HX & HY & _ & _ & Herr).
  set (err := bres_err D E (X, Y)) in *. simpl in *.
  rewrite isize_mul_ok, bind_Ret by (unfold isize_min, isize_max; lia).
  destruct (Z.leb_spec (- E) (2 * err)).
  - rewrite !isize_add_ok by (unfold isize_min, isize_max; lia). simpl.
    destruct (Z.leb_spec (2 * err) D);
      [rewrite !isize_add_ok by (unfold isize_min, isize_max; lia)|]; simpl;
      f_equal; unfold err, bres_err; simpl; lia.
  - simpl. destruct (Z.leb_spec (2 * err) D);
      [rewrite !isize_add_ok by (unfold isize_min, isize_max; lia)|]; simpl;
      f_equal; unfold err, bres_err; simpl; lia.
Qed.

Lemma line_loop_draws c m k fuel :
  (k + m)%nat = Z.to_nat (Z.max D E) -> (m <= fuel)%nat ->
  draws i c (fun buffer => line_loop fuel (mkWriter i) c (x0 + sx * D) (y0 + sy * E) sx sy D (- E)
      buffer (pt k).1 (pt k).2 (bres_err D E (bres D E k)))
    (fun x y => exists j, (k <= j < k + m)%nat /\ (x, y) = pt j).
Proof.
  revert k fuel. induction m as [|m IH]; intros k fuel Hkm Hfuel.
  - assert (k = Z.to_nat (Z.max D E)) as -> by lia.
    apply (draws_eq i c _ Ret).
    { intros buffer. unfold pt, line_point. rewrite bres_end by lia. simpl.
      destruct fuel; simpl; by rewrite !Z.eqb_refl. }
    eapply draws_ext; [|apply draws_ret]. intros x y. split; [done|]. intros (j & ? & _). lia.
  - destruct fuel as [|fuel]; [lia|].
    pose proof (line_point_bounds k ltac:(lia)) as [Hbx Hby].
    apply (draws_eq i c _ (fun buffer =>
      b ← draw_pixel (mkWriter i) buffer (as_usize (pt k).1) (as_usize (pt k).2) c;
      line_loop fuel (mkWriter i) c (x0 + sx * D) (y0 + sy * E) sx sy D (- E) b
        (pt (S k)).1 (pt (S k)).2 (bres_err D E (bres D E (S k))))).
    { intros buffer. cbn [line_loop]. rewrite line_point_not_end by lia.
      destruct (draw_pixel _ _ _ _ _) as [b|msg|]; [rewrite !bind_Ret|done|done].
      apply (line_step k (fun x y e => line_loop fuel (mkWriter i) c (x0 + sx * D) (y0 + sy * E)
        sx sy D (- E) b x y e)). lia. }
    eapply draws_ext; [|apply (draws_seq i Hmode); [apply draw_pixel_signed; [done|..];
      unfold isize_min, isize_max; lia|apply IH; lia]].
    intros x y. simpl. split.
    + intros [[-> ->]|(j & Hj & Hp)]; [exists k; split; [lia|reflexivity]|].
      exists j. split; [lia|done].
    + intros (j & Hj & Hp). destruct (decide (j = k)) as [->|].
      * left. unfold pt, line_point in Hp. injection Hp as -> ->. done.
      * right. exists j. split; [lia|done].
Qed.
End Line.

Section Properties.
Context {P : Profile}.
Variables (i : FramebufferInfo) (Hmode : mode_ok i).

Lemma draw_line_draws a b c :
  0 <= px a <= 2 ^ 24 -> 0 <= py a <= 2 ^ 24 -> 0 <= px b <= 2 ^ 24 -> 0 <= py b <= 2 ^ 24 ->
  let sx := if px a <? px b then 1 else -1 in
  let sy := if py a <? py b then 1 else -1 in
  let D := Z.abs (px b - px a) in
  let E := Z.abs (py b - py a) in
  draws i c (fun buffer => draw_line (mkWriter i) buffer a b c)
    (fun x y => exists j, Z.of_nat j < Z.max D E /\ (x, y) = line_point (px a) (py a) sx sy D E j).
Proof.
  intros Ha1 Ha2 Hb1 Hb2 sx sy D E.
  assert (Hsx : sx = 1 \/ sx = -1) by (unfold sx; case_match; auto).
  assert (Hsy : sy = 1 \/ sy = -1) by (unfold sy; case_match; auto).
  assert (HxD : px b = px a + sx * D) by (unfold sx, D; case_tests; lia).
  assert (HyE : py b = py a + sy * E) by (unfold sy, E; case_tests; lia).
  apply (draws_eq i c _ (fun buffer => line_loop (Z.to_nat (Z.max D E)) (mkWriter i) c
    (px a + sx * D) (py a + sy * E) sx sy D (- E) buffer
    (line_point (px a) (py a) sx sy D E 0).1 (line_point (px a) (py a) sx sy D E 0).2
    (bres_err D E (bres D E 0)))).
  { intros buffer. unfold draw_line.
    rewrite !as_isize_id by (unfold isize_min, isize_max; lia).
    rewrite !isize_sub_ok by (unfold isize_min, isize_max; lia). simpl.
    rewrite !f32_exact by lia.
    rewrite !isize_of_f32_id by (unfold isize_min, isize_max; lia).
    rewrite isize_add_ok by (unfold isize_min, isize_max; lia). simpl.
    fold sx sy D E. rewrite <- HxD, <- HyE.
    f_equal; unfold bres_err; simpl; lia. }
  eapply draws_ext; [|apply (line_loop_draws i Hmode (px a) (py a) sx sy D E) with
    (k := 0%nat) (m := Z.to_nat (Z.max D E)); unfold D, E; lia || done].
  intros x y. split; intros (j & Hj & Hp); exists j; (split; [lia|done]).
Qed.
End Properties.
