(* ===== verification/FramebufferCircle.v ===== *)
(** [FramebufferWriter::draw_circle]: the midpoint circle, refined from a
    reference recursion on the current point.

    The point [(x, y)] runs from [(-r, 0)] through the quadrant; the error term
    of the code is [(x + 1)^2 + (y + 1)^2 - r^2].  Each iteration increments
    [x] or [y], and [|x^2 + y^2 - r^2|] never exceeds the larger of [-x] and
    [y]; so [y] stays below [r], the loop ends after at most [2 r + 1]
    iterations, and every pixel is next to the circle. *)

From S2P Require Import Prelude Synapse Framebuffer.

(** * The reference recursion *)

Definition circ_err (r x y : Z) : Z := (x + 1) * (x + 1) + (y + 1) * (y + 1) - r * r.

Definition circ_y (r : Z) (s : Z * Z) : Z :=
  if circ_err r s.1 s.2 <=? s.2 then s.2 + 1 else s.2.

Definition circ_step (r : Z) (s : Z * Z) : Z * Z :=
  let y := circ_y r s in
  (if (s.1 <? circ_err r s.1 s.2) || (y <? circ_err r s.1 y) then s.1 + 1 else s.1, y).

(** Signed distance of the squares. *)
Definition circ_off (r : Z) (s : Z * Z) : Z := s.1 * s.1 + s.2 * s.2 - r * r.

Definition circ_inv (r : Z) (s : Z * Z) : Prop :=
  - r <= s.1 /\ 0 <= s.2 /\ Z.abs (circ_off r s) <= Z.max (- s.1) s.2.

Lemma circ_inv_init r : 0 <= r -> circ_inv r (- r, 0).
Proof. intros Hr. unfold circ_inv, circ_off. simpl. lia. Qed.

(** The invariant is kept while [x] is negative, and an iteration makes
    progress. *)
Lemma circ_inv_step r s : s.1 < 0 -> circ_inv r s -> circ_inv r (circ_step r s).
Proof.
  destruct s as [x y]. unfold circ_inv, circ_step, circ_y, circ_off, circ_err. simpl.
  set (F := x * x + y * y - r * r). intros Hx (Hr & Hy & HF).
  assert (He : (x + 1) * (x + 1) + (y + 1) * (y + 1) - r * r = F + 2 * x + 2 * y + 2) by (unfold F; lia).
  rewrite He. clear He.
  case_tests; simpl;
    repeat match goal with |- context [?a <? ?b] => destruct (Z.ltb_spec a b); simpl end;
    split_and!; try lia; unfold F in *; lia.
Qed.

Lemma circ_progress r s :
  s.1 < 0 -> 0 <= s.2 ->
  (circ_step r s).1 + (circ_step r s).2 >= s.1 + s.2 + 1 /\
  s.1 <= (circ_step r s).1 <= s.1 + 1 /\ s.2 <= (circ_step r s).2 <= s.2 + 1.
Proof.
  destruct s as [x y]. unfold circ_step, circ_y. simpl. intros Hx Hy.
  destruct (Z.leb_spec (circ_err r x y) y); simpl;
    repeat match goal with |- context [?a <? ?b] => destruct (Z.ltb_spec a b); simpl end; lia.
Qed.

(** Before the loop ends [y] has not passed the radius. *)
Lemma circ_y_le r s : 0 <= r -> s.1 < 0 -> circ_inv r s -> s.2 <= r.
Proof.
  destruct s as [x y]. unfold circ_inv, circ_off. simpl. intros Hr Hx (H1 & H2 & H3).
  destruct (decide (y <= r)); [done|]. exfalso.
  assert (Z.max (- x) y = y) as Hm by lia. rewrite Hm in H3. nia.
Qed.

(** The points of the loop: at most [fuel] of them. *)
Fixpoint circ_points (r : Z) (fuel : nat) (s : Z * Z) : list (Z * Z) :=
  match fuel with
  | O => []
  | S fuel => s :: (if 0 <=? (circ_step r s).1 then [] else circ_points r fuel (circ_step r s))
  end.

(** The four pixels of a point: its turns by 90 degrees. *)
Definition turns (a : Point) (s : Z * Z) (x y : Z) : Prop :=
  (x, y) = (px a + s.2, py a + s.1) \/ (x, y) = (px a - s.1, py a + s.2) \/
  (x, y) = (px a - s.2, py a - s.1) \/ (x, y) = (px a + s.1, py a - s.2).

#[export] Instance turns_decision a s x y : Decision (turns a s x y).
Proof. unfold turns. apply _. Defined.

#[local] Arguments bump : simpl never.

Section Circle.
Context {P : Profile}.
Variables (i : FramebufferInfo) (Hmode : mode_ok i).
Variables (a : Point) (r : Z) (c : Color).
Hypothesis Hax : 0 <= px a <= 2 ^ 30.
Hypothesis Hay : 0 <= py a <= 2 ^ 30.
Hypothesis Hr : 0 <= r <= 2 ^ 30.

Ltac small := unfold isize_min, isize_max; lia.

Lemma signed_if u v (b : bool) :
  isize_min <= u <= isize_max -> isize_min <= v <= isize_max ->
  draws i c (fun buffer => if b then draw_pixel (mkWriter i) buffer (as_usize u) (as_usize v) c
                           else Ret buffer)
    (fun x y => b = true /\ x = u /\ y = v).
Proof. intros Hu Hv. apply (draws_if i c b). by apply draw_pixel_signed. Qed.

Lemma circle_pixels_draws s :
  - r <= s.1 <= 0 -> 0 <= s.2 <= r ->
  draws i c (circle_pixels (mkWriter i) c a s.1 s.2) (turns a s).
Proof.
  destruct s as [x y]. simpl. intros Hx Hy.
  apply (draws_eq i c _ (fun buffer =>
    buffer ← draw_pixel (mkWriter i) buffer (as_usize (px a + y)) (as_usize (py a + x)) c;
    buffer ← (if 0 <=? px a - x then
      draw_pixel (mkWriter i) buffer (as_usize (px a - x)) (as_usize (py a + y)) c else Ret buffer);
    buffer ← (if (0 <=? px a - y) && (0 <=? py a - x) then
      draw_pixel (mkWriter i) buffer (as_usize (px a - y)) (as_usize (py a - x)) c else Ret buffer);
    (if 0 <=? py a - y then
      draw_pixel (mkWriter i) buffer (as_usize (px a + x)) (as_usize (py a - y)) c else Ret buffer))).
  { intros buffer. unfold circle_pixels. rewrite !as_isize_id by small.
    rewrite !isize_add_ok, !isize_sub_ok by small. simpl.
    destruct (draw_pixel _ buffer _ _ _) as [b1|m|]; simpl; [|done|done].
    destruct (Z.leb_spec 0 (px a - y)); simpl; destruct (Z.leb_spec 0 (px a - x)); done. }
  eapply draws_clip; [| |apply (draws_seq i Hmode);
    [apply draw_pixel_signed; [done|small|small]|apply (draws_seq i Hmode);
    [apply signed_if; small|apply (draws_seq i Hmode); [apply signed_if; small|apply signed_if; small]]]].
  - intros x' y' Hx' Hy'. unfold turns. simpl. rewrite andb_true_iff, !Z.leb_le, !pair_eq. lia.
  - intros x' y'. destruct (decide (turns a (x, y) x' y')); auto.
Qed.

(** One iteration of the loop, its overflow checks discharged. *)
Lemma circle_iteration fuel s buffer :
  - r <= s.1 <= 0 -> 0 <= s.2 <= r ->
  circle_loop (S fuel) (mkWriter i) c a buffer s.1 s.2 (circ_err r s.1 s.2) =
    (buffer ← circle_pixels (mkWriter i) c a s.1 s.2 buffer;
     let s' := circ_step r s in
     if 0 <=? s'.1 then Ret buffer
     else circle_loop fuel (mkWriter i) c a buffer s'.1 s'.2 (circ_err r s'.1 s'.2)).
Proof.
  destruct s as [x y]. cbn [fst snd]. intros Hx Hy. cbn [circle_loop].
  destruct (circle_pixels _ c a x y buffer) as [b1|m|]; simpl; [|done|done].
  unfold circ_step, circ_y. simpl.
  assert (Hb : forall u v, - r <= u <= 1 -> 0 <= v <= r + 1 ->
      - 2 ^ 62 <= circ_err r u v <= 2 ^ 62) by (intros u v Hu Hv; unfold circ_err; nia).
  assert (Hbump : forall e z, - 2 ^ 62 <= e <= 2 ^ 62 -> - r <= z <= r + 1 -> bump e z = Ret (e + (2 * z + 1))).
  { intros e z He Hz. unfold bump. rewrite isize_mul_ok, bind_Ret by small.
    rewrite isize_add_ok, bind_Ret by small. rewrite isize_add_ok by small. done. }
  destruct (Z.leb_spec (circ_err r x y) y) as [Hle|Hgt]; simpl.
  - rewrite (isize_add_ok y 1), bind_Ret by small. rewrite Hbump, bind_Ret by (try apply Hb; lia). simpl.
    replace (circ_err r x y + (2 * (y + 1) + 1)) with (circ_err r x (y + 1)) by (unfold circ_err; lia).
    destruct ((x <? circ_err r x y) || (y + 1 <? circ_err r x (y + 1))); simpl; [|done].
    rewrite (isize_add_ok x 1), bind_Ret by small. rewrite Hbump, bind_Ret by (try apply Hb; lia). simpl.
    replace (circ_err r x (y + 1) + (2 * (x + 1) + 1)) with (circ_err r (x + 1) (y + 1))
      by (unfold circ_err; lia). done.
  - destruct ((x <? circ_err r x y) || (y <? circ_err r x y)); simpl; [|done].
    rewrite (isize_add_ok x 1), bind_Ret by small. rewrite Hbump, bind_Ret by (try apply Hb; lia). simpl.
    replace (circ_err r x y + (2 * (x + 1) + 1)) with (circ_err r (x + 1) y)
      by (unfold circ_err; lia). done.
Qed.

Lemma circle_loop_draws fuel : forall s,
  - r <= s.1 <= 0 -> 0 <= s.2 <= r -> (s.1 < 0 -> circ_inv r s) ->
  - s.1 + (r - s.2) < Z.of_nat fuel ->
  draws i c (fun buffer => circle_loop fuel (mkWriter i) c a buffer s.1 s.2 (circ_err r s.1 s.2))
    (fun x y => exists t, t ∈ circ_points r fuel s /\ turns a t x y).
Proof.
  induction fuel as [|fuel IH]; intros s Hx Hy Hinv Hf; [lia|].
  eapply (draws_eq i c); [intros buffer; by apply circle_iteration|]. cbn [circ_points].
  set (s' := circ_step r s).
  eapply (draws_ext i c); [|apply (draws_seq i Hmode c _ _ (turns a s)
    (fun x y => exists t, t ∈ (if 0 <=? s'.1 then [] else circ_points r fuel s') /\ turns a t x y));
    [by apply circle_pixels_draws|]].
  2: { destruct (Z.leb_spec 0 s'.1) as [Hend|Hgo];
      [eapply draws_ext; [|apply draws_ret]; intros x y; split; [done|by intros (t & ?%elem_of_nil & _)]|].
    assert (Hneg : s.1 < 0).
    { destruct (decide (s.1 = 0)) as [Hz|]; [|lia].
      subst s'. revert Hgo. unfold circ_step. rewrite Hz. simpl. case_match; simpl; lia. }
    pose proof (circ_inv_step r s Hneg (Hinv Hneg)) as Hinv'. fold s' in Hinv'.
    pose proof (circ_progress r s Hneg (proj1 Hy)) as (Hp1 & Hp2 & Hp3). fold s' in Hp1, Hp2, Hp3.
    pose proof (circ_y_le r s' ltac:(lia) Hgo Hinv') as Hle.
    apply (IH s'); [lia|lia|done|lia]. }
  intros x y. setoid_rewrite elem_of_cons. naive_solver.
Qed.

Lemma draw_circle_draws :
  draws i c (fun buffer => draw_circle (mkWriter i) buffer a r c)
    (fun x y => exists t, t ∈ circ_points r (Z.to_nat (2 * r + 1)) (- r, 0) /\ turns a t x y).
Proof.
  eapply (draws_eq i c); [|apply (circle_loop_draws _ (- r, 0)); simpl;
    [lia|lia|intros _; apply circ_inv_init; lia|lia]].
  intros buffer. unfold draw_circle. rewrite as_isize_id by small.
  rewrite isize_neg_ok, bind_Ret by small. rewrite isize_mul_ok, bind_Ret by small.
  rewrite isize_sub_ok, bind_Ret by small. cbn [fst snd]. f_equal. unfold circ_err. lia.
Qed.
End Circle.

(** * What the list of points is *)

(** An eighth-connected chain of points of the quadrant [x <= 0 <= y], from
    [(-r, 0)] to the last column, each within [r] of the circle in squared
    distance. *)
Record quarter_circle (r : Z) (pts : list (Z * Z)) : Prop := {
  qc_head : head pts = Some (- r, 0);
  qc_last : exists s, last pts = Some s /\ - 1 <= s.1;
  qc_quadrant : forall s, s ∈ pts -> - r <= s.1 <= 0 /\ 0 <= s.2 <= r;
  qc_band : forall s, s ∈ pts -> Z.abs (s.1 * s.1 + s.2 * s.2 - r * r) <= r;
  qc_chain : forall k s t, pts !! k = Some s -> pts !! S k = Some t ->
    s <> t /\ s.1 <= t.1 <= s.1 + 1 /\ s.2 <= t.2 <= s.2 + 1;
}.

Lemma circ_points_next r fuel s : head (circ_points r (S fuel) s) = Some s.
Proof. done. Qed.

Lemma circ_points_quarter r fuel : 0 <= r -> forall s,
  - r <= s.1 <= 0 -> 0 <= s.2 <= r -> circ_inv r s -> (s.1 = 0 -> r = 0) ->
  - s.1 + (r - s.2) < Z.of_nat fuel ->
  let pts := circ_points r fuel s in
  (exists t, last pts = Some t /\ - 1 <= t.1) /\
  (forall t, t ∈ pts -> (- r <= t.1 <= 0 /\ 0 <= t.2 <= r) /\ Z.abs (circ_off r t) <= r) /\
  (forall k t u, pts !! k = Some t -> pts !! S k = Some u ->
    t <> u /\ t.1 <= u.1 <= t.1 + 1 /\ t.2 <= u.2 <= t.2 + 1).
Proof.
  intros Hr. induction fuel as [|fuel IH]; intros s Hx Hy Hinv Hz Hf; [lia|].
  cbn [circ_points]. set (s' := circ_step r s).
  assert (Hs : (- r <= s.1 <= 0 /\ 0 <= s.2 <= r) /\ Z.abs (circ_off r s) <= r).
  { destruct Hinv as (_ & _ & Hoff). lia. }
  destruct (Z.leb_spec 0 s'.1) as [Hend|Hgo].
  - split; [|split].
    + exists s. split; [done|]. subst s'. revert Hend. unfold circ_step. case_match; simpl; lia.
    + intros t ->%list_elem_of_singleton. done.
    + intros k t u _ Hu. by destruct k.
  - assert (Hneg : s.1 < 0).
    { destruct (decide (s.1 = 0)) as [Hs0|]; [|lia].
      subst s'. revert Hgo. unfold circ_step. rewrite Hs0. simpl. case_match; simpl; lia. }
    pose proof (circ_inv_step r s Hneg Hinv) as Hinv'. fold s' in Hinv'.
    pose proof (circ_progress r s Hneg (proj1 Hy)) as (Hp1 & Hp2 & Hp3). fold s' in Hp1, Hp2, Hp3.
    pose proof (circ_y_le r s' Hr Hgo Hinv') as Hle.
    destruct (IH s') as (IH1 & IH2 & IH3); [lia|lia|done|lia|lia|].
    split; [|split].
    + destruct IH1 as (t & Ht & Ht1). exists t. split; [|done].
      rewrite last_cons, Ht. done.
    + intros t [->|Ht]%elem_of_cons; [done|by apply IH2].
    + intros [|k] t u Ht Hu; simpl in Ht, Hu; [|by apply (IH3 k)].
      destruct fuel as [|fuel]; [done|]. simpl in Hu. injection Ht as <-. injection Hu as <-.
      fold s'. split; [|lia]. intros Heq. rewrite <- Heq in *. lia.
Qed.

Lemma quarter_circle_points r :
  0 <= r -> quarter_circle r (circ_points r (Z.to_nat (2 * r + 1)) (- r, 0)).
Proof.
  intros Hr. destruct (circ_points_quarter r (Z.to_nat (2 * r + 1)) Hr (- r, 0)) as (H1 & H2 & H3);
    simpl; [lia|lia|by apply circ_inv_init|lia|lia|].
  split; [|done|intros s Hs; by apply H2|intros s Hs; by apply H2|done].
  destruct (Z.to_nat (2 * r + 1)) eqn:E; [lia|done].
Qed.
