(* ===== verification/TextInterface.v ===== *)
(** What the drawing primitives of nukleus do to the screen: the claims about
    [draw_pixel], [draw_background], [draw_disk], [draw_line], [draw_circle]
    and the picture that [main] draws. *)

From S2P Require Import Prelude Synapse Framebuffer FramebufferLine FramebufferCircle.

(** The points that [draw_line] visits between [a] and [b]. *)
Definition line_pixels (a b : Point) (x y : Z) : Prop :=
  let sx := if px a <? px b then 1 else -1 in
  let sy := if py a <? py b then 1 else -1 in
  let D := Z.abs (px b - px a) in
  let E := Z.abs (py b - py a) in
  exists j, Z.of_nat j < Z.max D E /\ (x, y) = line_point (px a) (py a) sx sy D E j.

Definition quad_pixels (a b : Point) (x y : Z) : Prop :=
  px a <= x < px b /\ py a <= y < py b.

Definition disk_pixels (a : Point) (r x y : Z) : Prop :=
  Z.abs (x - px a) < r /\ Z.abs (y - py a) < r /\
  (x - px a) * (x - px a) + (y - py a) * (y - py a) <= r * r.

Definition circle_pixels_of (a : Point) (r x y : Z) : Prop :=
  exists s, s ∈ circ_points r (Z.to_nat (2 * r + 1)) (- r, 0) /\ turns a s x y.

(** A 4 by 3 screen with one pixel of padding in each row. *)
Definition sample_screen : FramebufferInfo := {|
  byte_len := 60; width := 4; height := 3; pixel_format := Bgr; bytes_per_pixel := 4; stride := 5 |}.

Definition sample_buffer : list Z := replicate 60 0.

Definition sample_color : Color := mkColor 7 8 9.

Lemma sample_mode_ok : mode_ok sample_screen.
Proof. split; simpl; unfold isize_max, u64_size; lia. Qed.

(** A screen large enough for the picture of [main]. *)
Definition main_screen : FramebufferInfo := {|
  byte_len := 480000; width := 400; height := 400; pixel_format := Rgb; bytes_per_pixel := 3; stride := 400 |}.

Lemma main_mode_ok : mode_ok main_screen.
Proof. split; simpl; unfold isize_max, u64_size; lia. Qed.

Section Layers.
Context {P : Profile}.
Variables (i : FramebufferInfo) (Hmode : mode_ok i).

Lemma background_draws :
  draws i (mkColor 221 232 242) (fun buffer => draw_background buffer (mkWriter i))
    (fun x y => 0 <= x < width i /\ 0 <= y < height i).
Proof.
  pose proof Hmode as [Hw Hh _ _ _ [Hw' Hh']].
  apply (draw_quad_draws i Hmode (mkPoint 0 0) (mkPoint (width i) (height i))); simpl; lia.
Qed.

(** What one routine does to the pixels, and to the length. *)
Lemma draws_layer c D A buffer :
  draws i c D A -> Z.of_nat (length buffer) = byte_len i ->
  exists buffer', D buffer = Ret buffer' /\ Z.of_nat (length buffer') = byte_len i /\
    forall x y, on_screen i x y ->
      (A x y -> pixel i buffer' x y = Some c) /\
      (~ A x y -> pixel i buffer' x y = pixel i buffer x y).
Proof.
  intros [_ HD] Hlen. destruct (HD buffer Hlen) as (b' & Hr & Hp).
  exists b'. split; [done|]. pose proof Hp as (Hl & Hpix & _). split; [congruence|].
  intros x y Hon. split; [by apply Hpix|]. intros HnA. by apply (paints_frame i Hmode c A).
Qed.
End Layers.

Section Claims.
Context {P : Profile}.
Variable i : FramebufferInfo.

(** [draw_pixel] never panics in a well-formed mode, whatever the
    coordinates: on the screen it sets the pixel to the colour and leaves
    every byte outside the pixel's three alone; off the screen it leaves the
    buffer as it is. *)
Theorem draw_pixel_paints x y c buffer :
  mode_ok i -> Z.of_nat (length buffer) = byte_len i -> 0 <= x -> 0 <= y ->
  exists buffer', draw_pixel (mkWriter i) buffer x y c = Ret buffer' /\
    (on_screen i x y -> pixel i buffer' x y = Some c /\
       forall k, 0 <= k -> ~ byte_of i k x y -> buffer' !! Z.to_nat k = buffer !! Z.to_nat k) /\
    (~ on_screen i x y -> buffer' = buffer).
Proof.
  intros Hmode Hlen Hx Hy. destruct (draw_pixel_draws i Hmode x y c Hx Hy) as [_ H].
  destruct (H buffer Hlen) as (b' & Hr & Hl & Hp & Hf). exists b'. split; [done|]. split.
  - intros Hon. split; [by apply Hp|]. intros k Hk Hno. apply Hf; [done|].
    by intros x' y' _ [-> ->].
  - intros Hoff. apply list_eq. intros n. rewrite <- (Nat2Z.id n).
    apply Hf; [lia|]. intros x' y' Hon [-> ->]. done.
Qed.

(** [draw_background] terminates without panic and gives every pixel of
    the screen the background colour, and the padding bytes, which belong to
    no pixel, are left alone. *)
Theorem draw_background_covers buffer :
  mode_ok i -> Z.of_nat (length buffer) = byte_len i ->
  exists buffer', draw_background buffer (mkWriter i) = Ret buffer' /\
    (forall x y, on_screen i x y -> pixel i buffer' x y = Some (mkColor 221 232 242)) /\
    (forall k, 0 <= k -> (forall x y, on_screen i x y -> ~ byte_of i k x y) ->
       buffer' !! Z.to_nat k = buffer !! Z.to_nat k).
Proof.
  intros Hmode Hlen.
  destruct (background_draws i Hmode) as [_ H].
  destruct (H buffer Hlen) as (b' & Hr & _ & Hp & Hf). exists b'. split; [done|]. split.
  - intros x y Hon. by apply Hp.
  - intros k Hk Hno. apply Hf; [done|]. intros x y Hon _. by apply Hno.
Qed.

(** C27: for a centre with coordinates below 2^62 and a radius below 2^31,
    where no sum overflows, [draw_disk] terminates without panic, and paints
    exactly the pixels of the screen whose distance from the centre is at most [r] and
    whose coordinates differ from the centre's by less than [r]: the disk
    less its four extreme points. *)
Theorem draw_disk_paints a r c buffer :
  mode_ok i -> Z.of_nat (length buffer) = byte_len i ->
  0 <= px a < 2 ^ 62 -> 0 <= py a < 2 ^ 62 -> 0 <= r < 2 ^ 31 ->
  exists buffer', draw_disk (mkWriter i) buffer a r c = Ret buffer' /\
    forall x y, on_screen i x y ->
      (disk_pixels a r x y -> pixel i buffer' x y = Some c) /\
      (~ disk_pixels a r x y -> pixel i buffer' x y = pixel i buffer x y).
Proof.
  intros Hmode Hlen Hx Hy Hr.
  destruct (draws_layer i Hmode _ _ _ buffer (draw_disk_draws i Hmode a r c Hx Hy Hr) Hlen)
    as (b' & Hb & _ & Hpix).
  exists b'. by split.
Qed.

(** C28: between points with coordinates up to 2^24, where the detour
    through [f32] is exact, [draw_line] terminates without panic after
    max(|dx|, |dy|) iterations and paints exactly a path of that many
    points: it starts at [a], each point is a king's move from the one
    before, the move after the last leads to [b], which itself is not
    painted, and every point is within one pixel of the straight line along
    the short axis.  Points beyond the screen are clipped. *)
Theorem draw_line_path a b c buffer :
  mode_ok i -> Z.of_nat (length buffer) = byte_len i ->
  0 <= px a <= 2 ^ 24 -> 0 <= py a <= 2 ^ 24 -> 0 <= px b <= 2 ^ 24 -> 0 <= py b <= 2 ^ 24 ->
  let n := Z.max (Z.abs (px b - px a)) (Z.abs (py b - py a)) in
  exists buffer' p, draw_line (mkWriter i) buffer a b c = Ret buffer' /\
    p 0%nat = (px a, py a) /\ p (Z.to_nat n) = (px b, py b) /\
    (forall k, Z.of_nat k < n ->
       Z.abs ((p (S k)).1 - (p k).1) <= 1 /\ Z.abs ((p (S k)).2 - (p k).2) <= 1 /\ p k <> p (S k) /\
       Z.abs (((p k).2 - py a) * (px b - px a) - ((p k).1 - px a) * (py b - py a)) <= n) /\
    paints i c (fun x y => exists k, Z.of_nat k < n /\ (x, y) = p k) buffer buffer'.
Proof.
  intros Hmode Hlen Ha1 Ha2 Hb1 Hb2 n.
  destruct (draw_line_draws i Hmode a b c Ha1 Ha2 Hb1 Hb2) as [_ H].
  destruct (H buffer Hlen) as (buffer' & Hr & Hp). clear H.
  set (sx := if px a <? px b then 1 else -1) in *.
  set (sy := if py a <? py b then 1 else -1) in *.
  assert (Hsx : sx = 1 /\ px a <= px b \/ sx = -1 /\ px b <= px a) by (unfold sx; case_tests; lia).
  assert (Hsy : sy = 1 /\ py a <= py b \/ sy = -1 /\ py b <= py a) by (unfold sy; case_tests; lia).
  clearbody sx sy.
  exists buffer', (line_point (px a) (py a) sx sy (Z.abs (px b - px a)) (Z.abs (py b - py a))).
  split; [done|]. unfold line_point. split; [simpl; f_equal; lia|]. split; [|split; [|done]].
  - unfold n. rewrite bres_end by lia. simpl. f_equal; lia.
  - intros k Hk. set (D := Z.abs (px b - px a)) in *. set (E := Z.abs (py b - py a)) in *.
    pose proof (bres_facts D E k ltac:(lia) ltac:(lia) ltac:(lia)) as Hf.
    pose proof (bres_facts D E (S k) ltac:(lia) ltac:(lia) ltac:(lia)) as Hf'.
    rewrite bres_S in *. destruct (bres D E k) as [X Y]. unfold bres_step in *. simpl in *.
    destruct Hf as (HX & HY & Hmax & Hdev & _), Hf' as (HX' & HY' & Hmax' & _).
    split_and!.
    + case_tests; lia.
    + case_tests; lia.
    + intros Heq. injection Heq as Heq1 Heq2.
      assert (HXX : X = (if - E <=? 2 * bres_err D E (X, Y) then X + 1 else X)) by (destruct Hsx; nia).
      assert (HYY : Y = (if 2 * bres_err D E (X, Y) <=? D then Y + 1 else Y)) by (destruct Hsy; nia).
      lia.
    + fold n in Hdev. unfold D, E in Hdev.
      destruct Hsx as [[-> ?]|[-> ?]], Hsy as [[-> ?]|[-> ?]];
        rewrite ?(Z.abs_eq (px b - px a)), ?(Z.abs_eq (py b - py a)),
          ?(Z.abs_neq (px b - px a)), ?(Z.abs_neq (py b - py a)) in Hdev by lia; lia.
Qed.

(** C29: for a centre and a radius up to 2^30, where no sum overflows,
    [draw_circle] terminates without panic within 2r + 1 iterations.
    It paints the four quarter turns about the centre of a chain of points
    that runs, one king's move at a time, from [(-r, 0)] to the last column
    of the quadrant, with [|x^2 + y^2 - r^2| <= r] at every point: a closed
    ring at most one pixel away from the true circle.  Nothing else is
    painted, and what lies beyond the screen is clipped. *)
Theorem draw_circle_ring a r c buffer :
  mode_ok i -> Z.of_nat (length buffer) = byte_len i ->
  0 <= px a <= 2 ^ 30 -> 0 <= py a <= 2 ^ 30 -> 0 <= r <= 2 ^ 30 ->
  exists buffer' pts, draw_circle (mkWriter i) buffer a r c = Ret buffer' /\
    quarter_circle r pts /\
    forall x y, on_screen i x y ->
      ((exists s, s ∈ pts /\ turns a s x y) -> pixel i buffer' x y = Some c) /\
      (~ (exists s, s ∈ pts /\ turns a s x y) -> pixel i buffer' x y = pixel i buffer x y).
Proof.
  intros Hmode Hlen Hx Hy Hr.
  destruct (draws_layer i Hmode _ _ _ buffer (draw_circle_draws i Hmode a r c Hx Hy Hr) Hlen)
    as (b' & Hb & _ & Hpix).
  exists b', (circ_points r (Z.to_nat (2 * r + 1)) (- r, 0)).
  split; [done|]. split; [apply quarter_circle_points; lia|done].
Qed.

(** The picture of [main]: the layers in the order of the code. *)
Definition main_painted (i : FramebufferInfo) (buffer' : list Z) : Prop :=
  let cx := width i / 2 in
  let cy := height i / 2 in
  let disk := disk_pixels (mkPoint cx cy) 15 in
  let line := line_pixels (mkPoint cx cy) (mkPoint (cx - 100) (cy + 300)) in
  let circle := circle_pixels_of (mkPoint cx cy) 100 in
  let quad := quad_pixels (mkPoint (cx - 100) (cy - 50)) (mkPoint (cx + 100) (cy + 50)) in
  forall x y, on_screen i x y ->
    (disk x y -> pixel i buffer' x y = Some (mkColor 255 200 0)) /\
    (~ disk x y -> line x y \/ circle x y -> pixel i buffer' x y = Some (mkColor 0 0 255)) /\
    (~ disk x y -> ~ line x y -> ~ circle x y -> quad x y ->
       pixel i buffer' x y = Some (mkColor 255 255 0)) /\
    (~ disk x y -> ~ line x y -> ~ circle x y -> ~ quad x y ->
       pixel i buffer' x y = Some (mkColor 221 232 242)).

Lemma main_draw_spec buffer :
  mode_ok i -> Z.of_nat (length buffer) = byte_len i ->
  200 <= width i <= 2 ^ 24 -> 100 <= height i <= 2 ^ 24 ->
  exists buffer', main_draw i buffer = Ret buffer' /\ main_painted i buffer'.
Proof.
  intros Hmode Hlen Hw Hh. set (cx := width i / 2). set (cy := height i / 2).
  set (disk := disk_pixels (mkPoint cx cy) 15).
  set (line := line_pixels (mkPoint cx cy) (mkPoint (cx - 100) (cy + 300))).
  set (circle := circle_pixels_of (mkPoint cx cy) 100).
  set (quad := quad_pixels (mkPoint (cx - 100) (cy - 50)) (mkPoint (cx + 100) (cy + 50))).
  assert (100 <= cx < 2 ^ 24) as Hcx.
  { unfold cx. split; [apply Z.div_le_lower_bound; lia|apply Z.div_lt_upper_bound; lia]. }
  assert (50 <= cy <= 2 ^ 23) as Hcy.
  { unfold cy. split; [apply Z.div_le_lower_bound; lia|apply Z.div_le_upper_bound; lia]. }
  pose proof (background_draws i Hmode) as L1.
  pose proof (draw_quad_draws i Hmode (mkPoint (cx - 100) (cy - 50)) (mkPoint (cx + 100) (cy + 50))
    (mkColor 255 255 0) ltac:(simpl; lia) ltac:(simpl; lia) ltac:(simpl; unfold u64_size; lia)
    ltac:(simpl; unfold u64_size; lia)) as L2.
  pose proof (draw_circle_draws i Hmode (mkPoint cx cy) 100 (mkColor 0 0 255)
    ltac:(simpl; lia) ltac:(simpl; lia) ltac:(lia)) as L3.
  pose proof (draw_line_draws i Hmode (mkPoint cx cy) (mkPoint (cx - 100) (cy + 300)) (mkColor 0 0 255)
    ltac:(simpl; lia) ltac:(simpl; lia) ltac:(simpl; lia) ltac:(simpl; lia)) as L4.
  pose proof (draw_disk_draws i Hmode (mkPoint cx cy) 15 (mkColor 255 200 0)
    ltac:(simpl; lia) ltac:(simpl; lia) ltac:(lia)) as L5.
  destruct (draws_layer i Hmode _ _ _ buffer L1 Hlen) as (b1 & R1 & N1 & P1).
  destruct (draws_layer i Hmode _ _ _ b1 L2 N1) as (b2 & R2 & N2 & P2).
  destruct (draws_layer i Hmode _ _ _ b2 L3 N2) as (b3 & R3 & N3 & P3).
  destruct (draws_layer i Hmode _ _ _ b3 L4 N3) as (b4 & R4 & N4 & P4).
  destruct (draws_layer i Hmode _ _ _ b4 L5 N4) as (b5 & R5 & N5 & P5).
  exists b5. split.
  - unfold main_draw, FramebufferWriter_new. rewrite R1, bind_Ret. fold cx cy.
    rewrite !u64_sub_ok, !bind_Ret by (unfold u64_size; lia).
    rewrite !u64_add_ok, !bind_Ret by (unfold u64_size; lia).
    cbn [draw_primitive]. by rewrite R2, bind_Ret, R3, !bind_Ret, R4, bind_Ret.
  - unfold main_painted. cbv zeta. fold cx cy. fold disk line circle quad.
    intros x y Hon. specialize (P1 x y Hon). specialize (P2 x y Hon). specialize (P3 x y Hon).
    specialize (P4 x y Hon). specialize (P5 x y Hon).
    pose proof (P5 : (disk x y -> _) /\ (~ disk x y -> _)) as [D5 F5].
    pose proof (P4 : (line x y -> _) /\ (~ line x y -> _)) as [D4 F4].
    pose proof (P3 : (circle x y -> _) /\ (~ circle x y -> _)) as [D3 F3].
    pose proof (P2 : (quad x y -> _) /\ (~ quad x y -> _)) as [D2 F2].
    pose proof (proj1 L4 x y : line x y \/ ~ line x y) as Hline.
    specialize (proj1 P1 Hon) as D1. clear - D1 D2 D3 D4 D5 F2 F3 F4 F5 Hline.
    clearbody disk line circle quad. cbn [red] in *.
    split_and!; intros; rewrite ?F5 by done; [by apply D5| |..].
    + destruct Hline as [Hl|Hl]; [by apply D4|]. rewrite F4 by done. by apply D3; tauto.
    + rewrite F4, F3 by done. by apply D2.
    + by rewrite F4, F3, F2 by done.
Qed.

(** C30: on a screen at least 200 pixels wide and 100 high, the drawing part
    of [main] terminates without panic, and its picture is the layers in the
    order of the code: a yellow-orange disk over a blue line over a blue
    circle over a yellow rectangle over the background. *)
Theorem main_picture buffer :
  mode_ok i -> Z.of_nat (length buffer) = byte_len i ->
  200 <= width i <= 2 ^ 24 -> 100 <= height i <= 2 ^ 24 ->
  let cx := width i / 2 in
  let cy := height i / 2 in
  let disk := disk_pixels (mkPoint cx cy) 15 in
  let line := line_pixels (mkPoint cx cy) (mkPoint (cx - 100) (cy + 300)) in
  let circle := circle_pixels_of (mkPoint cx cy) 100 in
  let quad := quad_pixels (mkPoint (cx - 100) (cy - 50)) (mkPoint (cx + 100) (cy + 50)) in
  exists buffer', main_draw i buffer = Ret buffer' /\
    forall x y, on_screen i x y ->
      (disk x y -> pixel i buffer' x y = Some (mkColor 255 200 0)) /\
      (~ disk x y -> line x y \/ circle x y -> pixel i buffer' x y = Some (mkColor 0 0 255)) /\
      (~ disk x y -> ~ line x y -> ~ circle x y -> quad x y ->
         pixel i buffer' x y = Some (mkColor 255 255 0)) /\
      (~ disk x y -> ~ line x y -> ~ circle x y -> ~ quad x y ->
         pixel i buffer' x y = Some (mkColor 221 232 242)).
Proof. exact (main_draw_spec buffer). Qed.
End Claims.

(** * Witnesses *)

#[local] Instance sample_profile : Profile := true.

Ltac screen := first [exact sample_mode_ok | exact main_mode_ok | vm_compute; reflexivity | lia].

Lemma draw_pixel_paints_witness :
  exists b, draw_pixel (mkWriter sample_screen) sample_buffer 2 1 sample_color = Ret b /\
    pixel sample_screen b 2 1 = Some sample_color.
Proof.
  destruct (draw_pixel_paints sample_screen 2 1 sample_color sample_buffer) as (b & Hb & H & _);
    [screen..|].
  exists b. split; [exact Hb|]. apply H. unfold on_screen. simpl. lia.
Defined.

Lemma draw_background_covers_witness :
  exists b, draw_background sample_buffer (mkWriter sample_screen) = Ret b /\
    pixel sample_screen b 3 2 = Some (mkColor 221 232 242).
Proof.
  destruct (draw_background_covers sample_screen sample_buffer) as (b & Hb & H & _); [screen..|].
  exists b. split; [exact Hb|]. apply H. unfold on_screen. simpl. lia.
Defined.

Lemma draw_disk_paints_witness :
  exists b, draw_disk (mkWriter sample_screen) sample_buffer (mkPoint 1 1) 2 sample_color = Ret b /\
    pixel sample_screen b 0 2 = Some sample_color /\
    pixel sample_screen b 3 1 = pixel sample_screen sample_buffer 3 1.
Proof.
  destruct (draw_disk_paints sample_screen (mkPoint 1 1) 2 sample_color sample_buffer) as (b & Hb & H);
    [screen || (simpl; lia)..|].
  exists b. split; [exact Hb|]. split; apply H; unfold on_screen, disk_pixels; simpl; lia.
Defined.

Lemma draw_line_path_witness :
  exists b, draw_line (mkWriter sample_screen) sample_buffer (mkPoint 0 0) (mkPoint 3 2) sample_color = Ret b /\
    pixel sample_screen b 0 0 = Some sample_color.
Proof.
  destruct (draw_line_path sample_screen (mkPoint 0 0) (mkPoint 3 2) sample_color sample_buffer)
    as (b & p & Hb & Hp & _ & _ & _ & Hpix & _); [screen || (simpl; lia)..|].
  exists b. split; [exact Hb|]. apply Hpix; [unfold on_screen; simpl; lia|].
  exists 0%nat. split; [simpl; lia|]. rewrite Hp. reflexivity.
Defined.

Lemma draw_circle_ring_witness :
  exists b, draw_circle (mkWriter sample_screen) sample_buffer (mkPoint 1 1) 1 sample_color = Ret b /\
    length b = 60%nat.
Proof.
  destruct (draw_circle_ring sample_screen (mkPoint 1 1) 1 sample_color sample_buffer)
    as (b & pts & Hb & _ & _); [screen || (simpl; lia)..|].
  exists b. split; [exact Hb|]. revert Hb. vm_compute. intros [= <-]. reflexivity.
Defined.

Lemma main_picture_witness :
  exists b, main_draw main_screen (replicate (Z.to_nat 480000) 0) = Ret b /\
    pixel main_screen b 200 200 = Some (mkColor 255 200 0).
Proof.
  destruct (main_picture main_screen (replicate (Z.to_nat 480000) 0)) as (b & Hb & H);
    [exact main_mode_ok|rewrite length_replicate, Z2Nat.id by lia; reflexivity|simpl; lia..|].
  exists b. split; [exact Hb|]. apply H; [unfold on_screen; simpl; lia|].
  change (disk_pixels (mkPoint 200 200) 15 200 200). unfold disk_pixels. simpl. lia.
Defined.
