(* ===== verification/Paging.v ===== *)
(** The page tables, as the Mapper and Translate traits of the x86_64 crate.

    initium and nukleus never touch page table entries themselves: they call
    [map_to], [unmap], [update_flags], [translate] and [translate_page] of an
    [OffsetPageTable].  [PageTable] is that interface and [PageTableLaws] is
    what the clients rely on: a table stands for a set of leaves, each a page
    of 4 KiB or 2 MiB with a frame and flags, no two of which overlap, and
    [map_to] takes at most three frames for intermediate tables.
    [MapTable] is a reference implementation. *)

From S2P Require Import Prelude X86 FrameAlloc.

(** * Flags *)

(** [PageTableFlags]: the bits that the code uses. *)
Definition PRESENT : Z := 1.
Definition WRITABLE : Z := 2.
Definition HUGE_PAGE : Z := 128.
Definition BIT_9 : Z := 512.
Definition NO_EXECUTE : Z := 2 ^ 63.

(** [flags.contains(f)] *)
Definition contains (flags f : Z) : bool := Z.land flags f =? f.

Definition usable_flags : Z := Z.lor (Z.lor PRESENT WRITABLE) (Z.lor BIT_9 NO_EXECUTE).

(** A set of flags of a mapped page: [PRESENT] and others of the code. *)
Definition flags_ok (fl : Z) : Prop := Z.ldiff fl usable_flags = 0 /\ Z.testbit fl 0 = true.

#[export] Instance flags_ok_dec fl : Decision (flags_ok fl).
Proof. unfold flags_ok. apply _. Defined.

(** [contains] of a single bit. *)
Lemma contains_bit fl n : 0 <= n -> contains fl (2 ^ n) = Z.testbit fl n.
Proof.
  intros Hn. unfold contains.
  assert (Hl : Z.land fl (2 ^ n) = if Z.testbit fl n then 2 ^ n else 0).
  { apply Z.bits_inj'. intros m Hm. rewrite Z.land_spec, Z.pow2_bits_eqb by done.
    destruct (Z.eqb_spec n m) as [<-|Hne].
    - rewrite andb_true_r. destruct (Z.testbit fl n); [by rewrite Z.pow2_bits_true|by rewrite Z.bits_0].
    - rewrite andb_false_r.
      destruct (Z.testbit fl n); [by rewrite Z.pow2_bits_false|by rewrite Z.bits_0]. }
  rewrite Hl. destruct (Z.testbit fl n); [apply Z.eqb_refl|].
  apply Z.eqb_neq. pose proof (Z.pow_pos_nonneg 2 n). lia.
Qed.

Lemma ldiff_subset a b : Z.ldiff a b = 0 -> forall n, 0 <= n -> Z.testbit a n = true -> Z.testbit b n = true.
Proof.
  intros H n Hn Ha. pose proof (Z.ldiff_spec a b n) as Hs. rewrite H, Z.bits_0, Ha in Hs.
  by destruct (Z.testbit b n).
Qed.

Lemma subset_ldiff a b :
  (forall n, 0 <= n -> Z.testbit a n = true -> Z.testbit b n = true) -> Z.ldiff a b = 0.
Proof.
  intros H. apply Z.bits_inj'. intros n Hn. rewrite Z.ldiff_spec, Z.bits_0.
  specialize (H n Hn). destruct (Z.testbit a n); [by rewrite H|done].
Qed.

Lemma flags_ok_lor fl f : flags_ok fl -> Z.ldiff f usable_flags = 0 -> flags_ok (Z.lor fl f).
Proof.
  intros [H1 H2] Hf. split; [|by rewrite Z.lor_spec, H2].
  apply subset_ldiff. intros n Hn. rewrite Z.lor_spec, orb_true_iff.
  intros [Hb|Hb]; [by apply (ldiff_subset fl)|by apply (ldiff_subset f)].
Qed.

Lemma flags_ok_ldiff fl f : flags_ok fl -> Z.testbit f 0 = false -> flags_ok (Z.ldiff fl f).
Proof.
  intros [H1 H2] Hf. split; [|by rewrite Z.ldiff_spec, H2, Hf].
  apply subset_ldiff. intros n Hn. rewrite Z.ldiff_spec, andb_true_iff.
  intros [Hb _]. by apply (ldiff_subset fl).
Qed.

(** * The interface *)

(** [mapper::MapToError] *)
Inductive MapToError : Type :=
  | FrameAllocationFailed
  | ParentEntryHugePage
  | PageAlreadyMapped (frame : Z).

(** [mapper::MappedFrame] *)
Inductive MappedFrame : Type :=
  | Mapped4KiB (frame : Z)
  | Mapped2MiB (frame : Z)
  | Mapped1GiB (frame : Z).

(** [mapper::TranslateResult] *)
Inductive TranslateResult : Type :=
  | Mapped (frame : MappedFrame) (offset flags : Z)
  | NotMapped
  | InvalidFrameAddress (addr : Z).

(** The calls; [sz] is the [SIZE] of the page size at which a generic method
    is used.  [map_to] calls the frame allocator for intermediate tables. *)
Class PageTable (M F : Type) {FA : FrameAllocator F} := {
  map_to : Z -> M -> Z -> Z -> Z -> F -> outcome (result unit MapToError * M * F);
  identity_map : Z -> M -> Z -> Z -> F -> outcome (result unit MapToError * M * F);
  unmap : M -> Z -> result Z unit * M;
  update_flags : M -> Z -> Z -> result unit unit * M;
  translate : M -> Z -> TranslateResult;
  translate_page : M -> Z -> result Z unit;
}.

(** [n] more frames can be had. *)
Definition has_frames {F} {FA : FrameAllocator F} {FL : FreeList F} (n : nat) (s : F) : Prop :=
  fa_inv n s /\ (n <= length (fa_free s))%nat.

(** A leaf: its frame and flags. *)
Abbreviation leaf := (Z * Z)%type (only parsing).

Definition page_size (sz : Z) : Prop := sz = Size4KiB \/ sz = Size2MiB.

(** The leaf at a page, after [map_to] there. *)
Definition new_leaf (sz frame flags : Z) : leaf :=
  (frame, if decide (sz = Size2MiB) then Z.lor flags HUGE_PAGE else flags).

Class PageTableLaws (M F : Type) {FA : FrameAllocator F} {FL : FreeList F} {PT : PageTable M F} := {
  pt_inv : M -> Prop;
  (* the leaf of a page of the given size *)
  pt_view : M -> Z -> Z -> option leaf;
  pt_view_aligned pt sz p l : pt_inv pt -> pt_view pt sz p = Some l -> page_size sz /\ (sz | p);
  (* an address has at most one leaf *)
  pt_view_disjoint pt sz p l sz' p' l' : pt_inv pt ->
    pt_view pt sz p = Some l -> pt_view pt sz' p' = Some l' ->
    (sz, p) = (sz', p') \/ p + sz <= p' \/ p' + sz' <= p;
  translate_4k pt a f fl : pt_inv pt -> pt_view pt Size4KiB (round_down a Size4KiB) = Some (f, fl) ->
    translate pt a = Mapped (Mapped4KiB f) (a - round_down a Size4KiB) fl;
  translate_2m pt a f fl : pt_inv pt -> pt_view pt Size2MiB (round_down a Size2MiB) = Some (f, fl) ->
    translate pt a = Mapped (Mapped2MiB f) (a - round_down a Size2MiB) fl;
  translate_none pt a : pt_inv pt -> pt_view pt Size4KiB (round_down a Size4KiB) = None ->
    pt_view pt Size2MiB (round_down a Size2MiB) = None -> translate pt a = NotMapped;
  translate_page_mapped pt p f fl : pt_inv pt -> pt_view pt Size4KiB p = Some (f, fl) ->
    translate_page pt p = Ok f;
  translate_page_none pt p : pt_inv pt -> pt_view pt Size4KiB p = None -> translate_page pt p = Err tt;
  (* a page that no leaf overlaps is mapped, for at most three frames *)
  map_to_vacant pt sz p f fl s : pt_inv pt -> has_frames 3 s ->
    page_size sz -> (sz | p) -> 0 <= p -> p + sz <= 2 ^ 47 ->
    (sz | f) -> 0 <= f -> f + sz <= 2 ^ 52 -> flags_ok fl ->
    (forall sz' p' l, pt_view pt sz' p' = Some l -> p' + sz' <= p \/ p + sz <= p') ->
    exists pt' s', map_to sz pt p f fl s = Ret (Ok tt, pt', s') /\ pt_inv pt' /\ takes 3 s s' /\
      forall sz' p', pt_view pt' sz' p' =
        if decide (sz' = sz /\ p' = p) then Some (new_leaf sz f fl) else pt_view pt sz' p';
  (* a page that is mapped is left alone; nothing is said of the frame that the
     error carries *)
  map_to_mapped pt sz p f fl s l : pt_inv pt -> pt_view pt sz p = Some l ->
    exists g pt', map_to sz pt p f fl s = Ret (Err (PageAlreadyMapped g), pt', s) /\ pt_inv pt' /\
      (forall sz' p', pt_view pt' sz' p' = pt_view pt sz' p');
  identity_map_spec sz pt f fl s : page_size sz ->
    identity_map sz pt f fl s = map_to sz pt f f fl s;
  unmap_spec pt p f fl : pt_inv pt -> pt_view pt Size4KiB p = Some (f, fl) ->
    exists pt', unmap pt p = (Ok f, pt') /\ pt_inv pt' /\
      forall sz' p', pt_view pt' sz' p' =
        if decide (sz' = Size4KiB /\ p' = p) then None else pt_view pt sz' p';
  update_flags_spec pt p f fl fl' : pt_inv pt -> pt_view pt Size4KiB p = Some (f, fl) -> flags_ok fl' ->
    exists pt', update_flags pt p fl' = (Ok tt, pt') /\ pt_inv pt' /\
      forall sz' p', pt_view pt' sz' p' =
        if decide (sz' = Size4KiB /\ p' = p) then Some (f, fl') else pt_view pt sz' p';
}.

(** * Frames in hand *)

Section Frames.
Context {F : Type} {FA : FrameAllocator F} {FL : FreeList F}.

Lemma has_frames_le j k s : (j <= k)%nat -> has_frames k s -> has_frames j s.
Proof. intros Hjk [H1 H2]. split; [by apply (fa_inv_le j k)|lia]. Qed.

Lemma allocate_has n s :
  has_frames (S n) s ->
  exists f s', allocate_frame s = Ret (Some f, s') /\ fa_free s = f :: fa_free s' /\ has_frames n s'.
Proof.
  intros [Hi Hl]. destruct (fa_free s) as [|f rest] eqn:Hf; [simpl in Hl; lia|].
  destruct (allocate_some n s f rest Hi Hf) as (s' & Ha & Hr & Hi').
  exists f, s'. rewrite Hr. split; [done|]. split; [done|]. split; [done|]. simpl in Hl. rewrite Hr. lia.
Qed.

Lemma takes_has n k s s' : has_frames (n + k) s -> takes n s s' ->
  has_frames k s' /\ exists j, (j <= n)%nat /\ fa_free s' = drop j (fa_free s).
Proof.
  intros [Hi Hl] Ht. destruct (takes_free n k s s' Hi Ht) as (Hi' & j & Hj & Hf).
  split; [|by exists j]. split; [done|]. rewrite Hf, length_drop. lia.
Qed.

(** The frame that is handed out is not free any more, and is a frame. *)
Lemma allocate_fresh n s f s' :
  has_frames n s -> fa_free s = f :: fa_free s' ->
  (f ∉ fa_free s') /\ (Size4KiB | f) /\ 0 <= f /\ f + Size4KiB <= 2 ^ 52.
Proof.
  intros [Hi _] Hf. split.
  - pose proof (fa_nodup n s Hi) as Hnd. rewrite Hf in Hnd. by apply NoDup_cons in Hnd as [? _].
  - apply (fa_aligned n s); [done|]. rewrite Hf. set_solver.
Qed.
End Frames.

(** * A reference implementation *)

(** The leaves as a finite map, and the set of the intermediate tables that
    exist, each named by the span of an entry in it and its index. *)
Module MapTable.
Record t : Type := mk { leaves : gmap (Z * Z) leaf; tables : gset (Z * Z) }.

Definition empty : t := mk ∅ ∅.

(** The tables on the way to a page. *)
Definition path (sz p : Z) : list (Z * Z) :=
  (2 ^ 39, p / 2 ^ 39) :: (2 ^ 30, p / 2 ^ 30) ::
  (if decide (sz = Size4KiB) then [(2 ^ 21, p / 2 ^ 21)] else []).

Definition clear (sz p : Z) (pt : t) : bool :=
  forallb (fun e => (e.1.2 + e.1.1 <=? p) || (p + sz <=? e.1.2)) (map_to_list (leaves pt)).

Definition lookup_addr (pt : t) (a : Z) : TranslateResult :=
  let p4 := round_down a Size4KiB in
  let p2 := round_down a Size2MiB in
  match leaves pt !! (Size4KiB, p4), leaves pt !! (Size2MiB, p2) with
  | Some l, _ => Mapped (Mapped4KiB l.1) (a - p4) l.2
  | None, Some l => Mapped (Mapped2MiB l.1) (a - p2) l.2
  | None, None => NotMapped
  end.

Section Operations.
Context {F : Type} {FA : FrameAllocator F}.

(** Make the missing tables; false when the frames run out. *)
Fixpoint create (keys : list (Z * Z)) (ts : gset (Z * Z)) (s : F) : outcome (bool * gset (Z * Z) * F) :=
  match keys with
  | [] => Ret (true, ts, s)
  | key :: keys =>
      if decide (key ∈ ts) then create keys ts s
      else r ← allocate_frame s;
           match r.1 with
           | Some _ => create keys ({[key]} ∪ ts) r.2
           | None => Ret (false, ts, r.2)
           end
  end.

Definition insert_leaf (sz : Z) (pt : t) (p f fl : Z) (s : F) : outcome (result unit MapToError * t * F) :=
  match leaves pt !! (sz, p) with
  | Some _ => Ret (Err (PageAlreadyMapped f), pt, s)
  | None =>
      r ← create (path sz p) (tables pt) s;
      let pt' := mk (leaves pt) r.1.2 in
      if negb r.1.1 then Ret (Err FrameAllocationFailed, pt', r.2)
      else if clear sz p pt then
        Ret (Ok tt, mk (<[(sz, p) := new_leaf sz f fl]> (leaves pt)) r.1.2, r.2)
      else Ret (Err ParentEntryHugePage, pt', r.2)
  end.

#[export] Instance map_table : PageTable t F := {|
  map_to := insert_leaf;
  identity_map sz pt f fl s := insert_leaf sz pt f f fl s;
  unmap pt p :=
    match leaves pt !! (Size4KiB, p) with
    | Some l => (Ok l.1, mk (delete (Size4KiB, p) (leaves pt)) (tables pt))
    | None => (Err tt, pt)
    end;
  update_flags pt p fl :=
    match leaves pt !! (Size4KiB, p) with
    | Some l => (Ok tt, mk (<[(Size4KiB, p) := (l.1, fl)]> (leaves pt)) (tables pt))
    | None => (Err tt, pt)
    end;
  translate := lookup_addr;
  translate_page pt p :=
    match leaves pt !! (Size4KiB, p) with Some l => Ok l.1 | None => Err tt end;
|}.
End Operations.

(** Well-formed leaves: pages of the two sizes, aligned, without overlap. *)
Record inv (pt : t) : Prop := {
  inv_aligned sz p l : leaves pt !! (sz, p) = Some l -> page_size sz /\ (sz | p);
  inv_disjoint sz p l sz' p' l' : leaves pt !! (sz, p) = Some l -> leaves pt !! (sz', p') = Some l' ->
    (sz, p) = (sz', p') \/ p + sz <= p' \/ p' + sz' <= p;
}.

Lemma inv_empty : inv empty.
Proof. split; intros *; simpl; by rewrite lookup_empty. Qed.

(** A leaf at a page that is already there, or at one that nothing overlaps. *)
Lemma inv_insert pt ts sz p l :
  inv pt -> page_size sz -> (sz | p) ->
  (forall sz' p' l', leaves pt !! (sz', p') = Some l' ->
     (sz', p') = (sz, p) \/ p' + sz' <= p \/ p + sz <= p') ->
  inv (mk (<[(sz, p) := l]> (leaves pt)) ts).
Proof.
  intros [Ha Hd] Hsz Hp Hc. split; simpl.
  - intros sz1 p1 l1 [[[= <- <-] _]|[_ H1]]%lookup_insert_Some; eauto.
  - intros sz1 p1 l1 sz2 p2 l2 [[[= <- <-] _]|[Hn1 H1]]%lookup_insert_Some
      [[[= <- <-] _]|[Hn2 H2]]%lookup_insert_Some; [by left| | |eauto].
    + destruct (Hc _ _ _ H2) as [[= <- <-]|[?|?]]; auto.
    + destruct (Hc _ _ _ H1) as [[= <- <-]|[?|?]]; auto.
Qed.

Lemma inv_delete pt ts k : inv pt -> inv (mk (delete k (leaves pt)) ts).
Proof.
  intros [Ha Hd]. split; simpl.
  - intros sz p l [_ H]%lookup_delete_Some. eauto.
  - intros sz p l sz' p' l' [_ H]%lookup_delete_Some [_ H']%lookup_delete_Some. eauto.
Qed.

(** An address lies in the page it is rounded down to, so two sizes cannot
    both have a leaf there. *)
Lemma one_leaf pt a l l' :
  inv pt -> leaves pt !! (Size4KiB, round_down a Size4KiB) = Some l ->
  leaves pt !! (Size2MiB, round_down a Size2MiB) = Some l' -> False.
Proof.
  intros [_ Hd] H1 H2. pose proof (round_down_bounds a Size4KiB ltac:(done)).
  pose proof (round_down_bounds a Size2MiB ltac:(done)).
  destruct (Hd _ _ _ _ _ _ H1 H2) as [[=]|[?|?]]; lia.
Qed.

Section Laws.
Context {F : Type} {FA : FrameAllocator F} {FL : FreeList F}.

Lemma create_spec keys : forall ts (s : F), has_frames (length keys) s ->
  exists ts' s', create keys ts s = Ret (true, ts', s') /\ takes (length keys) s s'.
Proof.
  induction keys as [|key keys IH]; intros ts s Hs; simpl in *.
  - exists ts, s. split; [done|apply takes_refl].
  - case_decide as Hk.
    + destruct (IH ts s) as (ts' & s' & Hc & Ht).
      { apply (has_frames_le _ (S (length keys))); [lia|done]. }
      exists ts', s'. split; [done|]. apply (takes_le (length keys)); [lia|done].
    + destruct (allocate_has (length keys) s Hs) as (f & s1 & Ha & Hf1 & Hs1).
      rewrite Ha. simpl. destruct (IH ({[key]} ∪ ts) s1 Hs1) as (ts' & s' & Hc & Ht).
      exists ts', s'. split; [done|]. exact (takes_trans 1 _ _ _ _ (takes_one _ _ _ Ha) Ht).
Qed.

Lemma clear_true sz p pt :
  (forall sz' p' l, leaves pt !! (sz', p') = Some l -> p' + sz' <= p \/ p + sz <= p') ->
  clear sz p pt = true.
Proof.
  intros H. apply forallb_forall. intros [[sz' p'] l] Hin%list_elem_of_In%elem_of_map_to_list.
  apply orb_true_iff. simpl. rewrite !Z.leb_le. by apply (H sz' p' l).
Qed.

Lemma length_path sz p : (length (path sz p) <= 3)%nat.
Proof. unfold path. case_decide; simpl; lia. Qed.

#[export] Program Instance map_table_laws : PageTableLaws t F := {|
  pt_inv := inv;
  pt_view pt sz p := leaves pt !! (sz, p);
|}.
Next Obligation. intros. by eapply inv_aligned. Qed.
Next Obligation. intros. by eapply inv_disjoint. Qed.
Next Obligation. intros pt a f fl _ H. simpl. unfold lookup_addr. by rewrite H. Qed.
Next Obligation.
  intros pt a f fl Hi H. simpl. unfold lookup_addr. rewrite H.
  destruct (leaves pt !! (Size4KiB, _)) eqn:E; [|done]. by destruct (one_leaf pt a _ _ Hi E H).
Qed.
Next Obligation. intros pt a _ H1 H2. simpl. unfold lookup_addr. by rewrite H1, H2. Qed.
Next Obligation. intros pt p f fl _ H. simpl. by rewrite H. Qed.
Next Obligation. intros pt p _ H. simpl. by rewrite H. Qed.
Next Obligation.
  intros pt sz p f fl s Hi Hs Hsz Hp _ _ _ _ _ _ Hv.
  destruct (create_spec (path sz p) (tables pt) s) as (ts & s' & Hc & Ht).
  { apply (has_frames_le _ 3); [|done]. apply length_path. }
  exists (mk (<[(sz, p) := new_leaf sz f fl]> (leaves pt)) ts), s'.
  assert (Hn : leaves pt !! (sz, p) = None).
  { destruct (leaves pt !! (sz, p)) as [l|] eqn:E; [|done].
    destruct (Hv _ _ _ E); destruct Hsz as [-> | ->]; unfold Size4KiB, Size2MiB in *; lia. }
  split; [|split; [|split]].
  - simpl. unfold insert_leaf. rewrite Hn, Hc. simpl. by rewrite clear_true.
  - apply inv_insert; try done. intros sz' p' l' Hl. right. by eapply Hv.
  - apply (takes_le (length (path sz p))); [apply length_path|done].
  - intros sz' p'. simpl. case_decide as Heq.
    + destruct Heq as [-> ->]. by rewrite lookup_insert_eq.
    + rewrite lookup_insert_ne; [done|]. intros [= <- <-]. by apply Heq.
Qed.
Next Obligation.
  intros pt sz p f fl s l Hi Hl. exists f, pt. split; [|done]. simpl. unfold insert_leaf. by rewrite Hl.
Qed.
Next Obligation. done. Qed.
Next Obligation.
  intros pt p f fl Hi Hl. simpl. rewrite Hl. eexists. split; [done|].
  split; [by apply inv_delete|]. intros sz' p'. simpl. case_decide as Heq.
  - destruct Heq as [-> ->]. apply lookup_delete_eq.
  - apply lookup_delete_ne. intros [= <- <-]. by apply Heq.
Qed.
Next Obligation.
  intros pt p f fl fl' Hi Hl _. simpl. rewrite Hl. eexists. split; [done|]. split.
  - destruct (inv_aligned _ Hi _ _ _ Hl) as [Hsz Hp]. apply inv_insert; [done..|].
    intros sz' p' l' Hl'. destruct (inv_disjoint _ Hi _ _ _ _ _ _ Hl' Hl) as [?|[?|?]]; auto.
  - intros sz' p'. simpl. case_decide as Heq.
    + destruct Heq as [-> ->]. by rewrite lookup_insert_eq.
    + rewrite lookup_insert_ne; [done|]. intros [= <- <-]. by apply Heq.
Qed.
End Laws.
End MapTable.
