(* ===== verification/Mapping.v ===== *)
(** Mapping ranges of pages: the leaves that a loop of [map_to] calls adds to
    a page table.  The heap set-up of nukleus and the mappings of initium
    (stack, framebuffer, ramdisk, physical memory, boot information) are such
    loops; the views of page tables that their theorems use are here. *)

From S2P Require Import Prelude X86 FrameAlloc Paging.

(** The leaves of a table, by page size and page. *)
Abbreviation view := (Z -> Z -> option leaf).

(** [v] with the pages of size [sz] from [p] on mapped to the frames [fs]. *)
Definition put_pages (sz p : Z) (fs : list Z) (fl : Z) (v : view) : view := fun sz' q =>
  if decide (sz' = sz /\ p <= q /\ (sz | q - p)) then
    match fs !! Z.to_nat ((q - p) / sz) with
    | Some f => Some (new_leaf sz f fl)
    | None => v sz' q
    end
  else v sz' q.

(** No leaf meets the addresses from [lo] to [hi]. *)
Definition vacant (v : view) (lo hi : Z) : Prop :=
  forall sz q l, v sz q = Some l -> q + sz <= lo \/ hi <= q.

(** A frame of size [sz]. *)
Definition frame_at (sz f : Z) : Prop := (sz | f) /\ 0 <= f /\ f + sz <= 2 ^ 52.

#[export] Instance frame_at_dec sz f : Decision (frame_at sz f).
Proof. unfold frame_at. apply _. Defined.

Lemma page_size_pos sz : page_size sz -> 0 < sz.
Proof. intros [-> | ->]; done. Qed.

Section Views.
Implicit Types v : view.

Lemma put_pages_nil sz p fl v sz' q : put_pages sz p [] fl v sz' q = v sz' q.
Proof. unfold put_pages. by case_decide. Qed.

Lemma put_pages_at sz p fs fl v i f :
  0 < sz -> fs !! i = Some f -> put_pages sz p fs fl v sz (p + sz * Z.of_nat i) = Some (new_leaf sz f fl).
Proof.
  intros Hsz Hf. unfold put_pages.
  replace (p + sz * Z.of_nat i - p) with (Z.of_nat i * sz) by lia.
  rewrite decide_True by (split; [done|split; [nia|by exists (Z.of_nat i)]]).
  by rewrite Z.div_mul, Nat2Z.id, Hf by lia.
Qed.

(** A leaf of the new view is one of the new pages or an old leaf. *)
Lemma put_pages_inv sz p fs fl v sz' q l :
  0 < sz -> put_pages sz p fs fl v sz' q = Some l ->
  (exists i f, fs !! i = Some f /\ sz' = sz /\ q = p + sz * Z.of_nat i /\ l = new_leaf sz f fl) \/
  v sz' q = Some l.
Proof.
  intros Hsz. unfold put_pages. case_decide as Hd; [|by right].
  destruct Hd as (-> & Hq & [k Hk]). rewrite Hk, Z.div_mul by lia.
  destruct (fs !! Z.to_nat k) as [f|] eqn:Hf; [|by right].
  intros [= <-]. left. exists (Z.to_nat k), f. split; [done|]. split; [done|]. split; [nia|done].
Qed.

Lemma put_pages_other sz p fs fl v sz' q :
  0 < sz -> sz' <> sz \/ q < p \/ p + sz * Z.of_nat (length fs) <= q ->
  put_pages sz p fs fl v sz' q = v sz' q.
Proof.
  intros Hsz Hq. unfold put_pages. case_decide as Hd; [|done].
  destruct Hd as (-> & Hp & [k Hk]). rewrite Hk, Z.div_mul by lia.
  rewrite lookup_ge_None_2; [done|]. destruct Hq as [?|[?|?]]; nia.
Qed.

(** One more page. *)
Lemma put_pages_snoc sz p fs f fl v sz' q :
  0 < sz -> put_pages sz p (fs ++ [f]) fl v sz' q =
    if decide (sz' = sz /\ q = p + sz * Z.of_nat (length fs)) then Some (new_leaf sz f fl)
    else put_pages sz p fs fl v sz' q.
Proof.
  intros Hsz. case_decide as Hd.
  - destruct Hd as [-> ->]. apply put_pages_at; [done|]. by rewrite lookup_app_r, Nat.sub_diag by lia.
  - unfold put_pages. case_decide as Hd2; [|done]. destruct Hd2 as (-> & Hp & [k Hk]).
    rewrite Hk, Z.div_mul by lia.
    destruct (decide (Z.to_nat k < length fs)%nat); [by rewrite lookup_app_l|].
    rewrite (lookup_ge_None_2 fs) by lia. rewrite lookup_app_r by lia.
    destruct (Z.to_nat k - length fs)%nat as [|j] eqn:E; [|done].
    destruct Hd. split; [done|]. nia.
Qed.

(** Vacant addresses after a range was mapped elsewhere. *)
Lemma vacant_put sz p fs fl v lo hi :
  0 < sz -> vacant v lo hi -> p + sz * Z.of_nat (length fs) <= lo \/ hi <= p ->
  vacant (put_pages sz p fs fl v) lo hi.
Proof.
  intros Hsz Hv Hd sz' q l [(i & f & Hi & -> & -> & _)|H]%put_pages_inv; [|by eauto|done].
  apply lookup_lt_Some in Hi. destruct Hd; [left|right]; nia.
Qed.

(** The leaves of [v] are leaves of [v']. *)
Definition extends v v' : Prop := forall sz q l, v sz q = Some l -> v' sz q = Some l.

Lemma extends_refl v : extends v v.
Proof. by intros ?. Qed.

Lemma extends_trans v1 v2 v3 : extends v1 v2 -> extends v2 v3 -> extends v1 v3.
Proof. intros H1 H2 sz q l Hl. auto. Qed.

Lemma put_pages_extends sz p fs fl v :
  0 < sz -> vacant v p (p + sz * Z.of_nat (length fs)) -> extends v (put_pages sz p fs fl v).
Proof.
  intros Hsz Hv sz' q l Hl. unfold put_pages. case_decide as Hd; [|done].
  destruct Hd as (-> & Hp & [k Hk]). rewrite Hk, Z.div_mul by lia.
  destruct (fs !! Z.to_nat k) as [f|] eqn:Hf; [|done]. apply lookup_lt_Some in Hf.
  destruct (Hv _ _ _ Hl); nia.
Qed.

Lemma vacant_sub v lo hi lo' hi' : vacant v lo hi -> lo <= lo' -> hi' <= hi -> vacant v lo' hi'.
Proof. intros Hv H1 H2 sz q l Hl. destruct (Hv sz q l Hl); lia. Qed.
End Views.

Section Tables.
Context {M F : Type} {FA : FrameAllocator F} {FL : FreeList F} {PT : PageTable M F}.
Context {PL : PageTableLaws M F}.

(** The table [pt] is well formed and has the leaves of [v]. *)
Definition shows (pt : M) (v : view) : Prop := pt_inv pt /\ forall sz q, pt_view pt sz q = v sz q.

Lemma shows_self pt : pt_inv pt -> shows pt (pt_view pt).
Proof. by split. Qed.

Lemma shows_ext pt v v' : shows pt v -> (forall sz q, v sz q = v' sz q) -> shows pt v'.
Proof. intros [Hi Hv] H. split; [done|]. intros. by rewrite Hv. Qed.

(** The [map_to] call of iteration [length fs] of a loop over [n] pages. *)
Lemma map_next sz pt p n fs fl v f (fa : F) :
  shows pt (put_pages sz p fs fl v) -> vacant v p (p + sz * Z.of_nat n) -> (length fs < n)%nat ->
  page_size sz -> (sz | p) -> 0 <= p -> p + sz * Z.of_nat n <= 2 ^ 47 ->
  frame_at sz f -> flags_ok fl -> has_frames 3 fa ->
  exists pt' fa', map_to sz pt (p + sz * Z.of_nat (length fs)) f fl fa = Ret (Ok tt, pt', fa') /\
    shows pt' (put_pages sz p (fs ++ [f]) fl v) /\ takes 3 fa fa'.
Proof.
  intros [Hi Hv] Hvac Hn Hsz Hp Hp0 Htop (Hf & Hf0 & Hf1) Hfl Hk.
  pose proof (page_size_pos sz Hsz) as Hpos.
  destruct (map_to_vacant pt sz (p + sz * Z.of_nat (length fs)) f fl fa) as
    (pt' & fa' & Hm & Hi' & Ht & Hv'); try done.
  - apply Z.divide_add_r; [done|]. apply Z.divide_factor_l.
  - nia.
  - nia.
  - intros sz' q l. rewrite Hv. intros [(i & g & Hg & -> & -> & _)|H]%put_pages_inv; [| |done].
    + apply lookup_lt_Some in Hg. left. nia.
    + destruct (Hvac _ _ _ H); [left; nia|right; nia].
  - exists pt', fa'. split; [done|]. split; [|done]. split; [done|]. intros sz' q.
    by rewrite Hv', put_pages_snoc, Hv.
Qed.

(** A leaf as [translate] reports it. *)
Lemma shows_translate_4k pt v a f fl :
  shows pt v -> v Size4KiB (round_down a Size4KiB) = Some (f, fl) ->
  translate pt a = Mapped (Mapped4KiB f) (a - round_down a Size4KiB) fl.
Proof. intros [Hi Hv] H. apply translate_4k; [done|]. by rewrite Hv. Qed.

Lemma shows_translate_2m pt v a f fl :
  shows pt v -> v Size2MiB (round_down a Size2MiB) = Some (f, fl) ->
  translate pt a = Mapped (Mapped2MiB f) (a - round_down a Size2MiB) fl.
Proof. intros [Hi Hv] H. apply translate_2m; [done|]. by rewrite Hv. Qed.
End Tables.

(** A range of [n] pages or frames, by index. *)
Lemma addr_range_seq sz p n :
  0 < sz -> (0 < n)%nat -> addr_range sz p (p + sz * (Z.of_nat n - 1)) = (fun i => p + sz * Z.of_nat i) <$> seq 0 n.
Proof.
  intros Hsz Hn. unfold addr_range, range0, seqZ.
  replace (p + sz * (Z.of_nat n - 1) - p) with ((Z.of_nat n - 1) * sz) by lia.
  rewrite Z.div_mul by lia. rewrite <- list_fmap_compose.
  replace (Z.to_nat (Z.of_nat n - 1 + 1)) with n by lia.
  apply list_fmap_ext. intros i x _. simpl. lia.
Qed.

(** [addr_range] by index. *)
Lemma addr_range_index sz s e done x rest :
  0 < sz -> addr_range sz s e = done ++ x :: rest -> x = s + sz * Z.of_nat (length done).
Proof.
  intros Hsz H. assert (Hx : addr_range sz s e !! length done = Some x)
    by (rewrite H; by apply list_lookup_middle).
  by apply addr_range_lookup in Hx as [-> _].
Qed.

Lemma length_addr_range sz s e :
  0 < sz -> (sz | s) -> (sz | e) -> s - sz <= e -> Z.of_nat (length (addr_range sz s e)) * sz = e - s + sz.
Proof.
  intros Hsz [i ->] [j ->] Hle. unfold addr_range. rewrite length_fmap. unfold range0.
  rewrite length_seqZ, <- Z.mul_sub_distr_r, Z.div_mul by lia. nia.
Qed.
