(* ===== verification/Heap.v ===== *)
(** nukleus/src/memory/allocator.rs: mapping the kernel's heap.

    [init_heap] maps the pages of the heap to frames of the frame allocator
    and then hands the heap's range to the global allocator.  The global
    allocator, [LockedHeap] of the linked_list_allocator crate, is the class
    [LockedHeap], of which only [init] is called. *)

From S2P Require Import Prelude X86 FrameAlloc Paging Mapping.

(** [ALLOCATOR.lock().init(bottom, size)] *)
Class LockedHeap (H : Type) := heap_init : H -> Z -> Z -> H.

Definition HEAP_START : Z := 0x444444440000.
Definition HEAP_SIZE : Z := 100 * 1024.

Section Heap.
Context {X : X86_64} {P : Profile} {H : Type} {LH : LockedHeap H}.
Context {M F : Type} {FA : FrameAllocator F} {PT : PageTable M F}.

Definition page_range : outcome (list Z) :=
  heap_start ← VirtAddr_new HEAP_START;
  e ← VirtAddr_add heap_start HEAP_SIZE;
  heap_end ← VirtAddr_sub e 1;
  let heap_start_page := Page_containing_address Size4KiB heap_start in
  let heap_end_page := Page_containing_address Size4KiB heap_end in
  Ret (Page_range_inclusive Size4KiB heap_start_page heap_end_page).

(** [for page in page_range]; the first error is returned. *)
Fixpoint map_heap (pages : list Z) (mapper : M) (frame_allocator : F)
  : outcome (result unit MapToError * M * F) :=
  match pages with
  | [] => Ret (Ok tt, mapper, frame_allocator)
  | page :: rest =>
      r ← allocate_frame frame_allocator;
      match r with
      | (None, frame_allocator) => Ret (Err FrameAllocationFailed, mapper, frame_allocator)
      | (Some frame, frame_allocator) =>
          let flags := Z.lor PRESENT WRITABLE in
          r ← map_to Size4KiB mapper page frame flags frame_allocator;
          match r with
          | (Err e, mapper, frame_allocator) => Ret (Err e, mapper, frame_allocator)
          | (Ok _, mapper, frame_allocator) => map_heap rest mapper frame_allocator
          end
      end
  end.

Definition init_heap (mapper : M) (frame_allocator : F) (ALLOCATOR : H)
  : outcome (result unit MapToError * M * F * H) :=
  pages ← page_range;
  r ← map_heap pages mapper frame_allocator;
  match r with
  | (Err e, mapper, frame_allocator) => Ret (Err e, mapper, frame_allocator, ALLOCATOR)
  | (Ok _, mapper, frame_allocator) =>
      bottom ← VirtAddr_new HEAP_START;
      Ret (Ok tt, mapper, frame_allocator, heap_init ALLOCATOR bottom HEAP_SIZE)
  end.
End Heap.

Section Correct.
Context {X : X86_64} {XL : X86_64_Laws X} {P : Profile} {H : Type} {LH : LockedHeap H}.
Context {M F : Type} {FA : FrameAllocator F} {FL : FreeList F} {PT : PageTable M F}.
Context {PL : PageTableLaws M F}.

(** The heap is twenty-five pages. *)
Definition heap_page (i : nat) : Z := HEAP_START + Size4KiB * Z.of_nat i.

Lemma heap_range_spec : page_range = Ret (heap_page <$> seq 0 25).
Proof.
  unfold page_range. rewrite virt_new_low, bind_Ret by (unfold HEAP_START; lia).
  rewrite virt_add_low, bind_Ret by (unfold HEAP_START, HEAP_SIZE; lia).
  rewrite virt_sub_low, bind_Ret by (unfold HEAP_START, HEAP_SIZE; lia). cbv zeta.
  rewrite !page_containing_4k by (unfold HEAP_START, HEAP_SIZE; lia).
  rewrite page_range_spec; [|by left|by apply round_down_divide..|vm_compute; discriminate|vm_compute; discriminate].
  reflexivity.
Qed.

Definition heap_flags : Z := Z.lor PRESENT WRITABLE.

Lemma heap_flags_ok : flags_ok heap_flags.
Proof. split; vm_compute; reflexivity. Qed.

(** The loop from page [i] on, the pages before it being mapped to [fs]. *)
Lemma map_heap_spec v n : forall i fs pt (fa : F) k,
  (i + n <= 25)%nat -> length fs = i -> shows pt (put_pages Size4KiB HEAP_START fs heap_flags v) ->
  vacant v HEAP_START (heap_page (i + n)) -> has_frames (4 * n + k) fa ->
  exists gs pt' fa', map_heap (heap_page <$> seq i n) pt fa = Ret (Ok tt, pt', fa') /\
    length gs = n /\ shows pt' (put_pages Size4KiB HEAP_START (fs ++ gs) heap_flags v) /\
    NoDup gs /\ (forall g, g ∈ gs -> g ∈ fa_free fa /\ g ∉ fa_free fa') /\
    (exists j, (j <= 4 * n)%nat /\ fa_free fa' = drop j (fa_free fa)) /\ has_frames k fa'.
Proof.
  induction n as [|n IH]; intros i fs pt fa k Hin Hlen Hsh Hvac Hk.
  - exists [], pt, fa. simpl. rewrite app_nil_r. split; [done|]. split; [done|]. split; [done|].
    split; [constructor|]. split; [by intros g ?%elem_of_nil|]. split; [by exists O|done].
  - destruct (allocate_has (3 + (4 * n + k)) fa) as (f & fa1 & Ha & Hf & Hk1);
      [by replace (S (3 + (4 * n + k))) with (4 * S n + k)%nat by lia|].
    destruct (allocate_fresh _ fa f fa1 Hk Hf) as (Hnf & Hfa & Hf0 & Hf1).
    destruct (map_next Size4KiB pt HEAP_START (i + S n) fs heap_flags v f fa1) as (pt1 & fa2 & Hm & Hsh1 & Ht);
      [done|done|lia|by left|compute_divide|unfold HEAP_START; lia|unfold HEAP_START; page_lia|done
      |exact heap_flags_ok|by apply (has_frames_le _ (3 + (4 * n + k))); [lia|]|].
    destruct (takes_has 3 (4 * n + k) _ _ Hk1 Ht) as [Hk2 (j & Hj & Hd)].
    destruct (IH (S i) (fs ++ [f]) pt1 fa2 k) as (gs & pt' & fa' & Hr & Hl & Hsh' & Hnd & Hg & (j' & Hj' & Hd') & Hk');
      [lia|rewrite length_app; simpl; lia|done|by rewrite Nat.add_succ_comm|done|].
    assert (Hsub : forall g, g ∈ fa_free fa2 -> g ∈ fa_free fa1) by (rewrite Hd; intros g; apply elem_of_drop).
    exists (f :: gs), pt', fa'. split; [|split; [|split; [|split; [|split; [|split]]]]].
    + rewrite <- cons_seq, fmap_cons. cbn [map_heap]. rewrite Ha, bind_Ret.
      change (heap_page i) with (HEAP_START + Size4KiB * Z.of_nat i). rewrite <- Hlen at 1. cbv zeta.
      fold heap_flags. by rewrite Hm, bind_Ret.
    + simpl. by rewrite Hl.
    + by rewrite <- app_assoc in Hsh'.
    + constructor; [|done]. intros Hin'. destruct (Hg f Hin') as [? _]. by apply Hnf, Hsub.
    + intros g [->|Hin']%elem_of_cons.
      * rewrite Hf. split; [by left|]. rewrite Hd', Hd. intros Hx. by do 2 apply elem_of_drop in Hx.
      * destruct (Hg g Hin'). rewrite Hf. split; [by right; apply Hsub|done].
    + exists (1 + j + j')%nat. split; [lia|]. rewrite Hd', Hd, Hf, drop_drop. done.
    + done.
Qed.

Lemma map_heap_app xs ys pt (fa : F) pt1 fa1 :
  map_heap xs pt fa = Ret (Ok tt, pt1, fa1) -> map_heap (xs ++ ys) pt fa = map_heap ys pt1 fa1.
Proof.
  revert pt fa. induction xs as [|x xs IH]; intros pt fa H'; simpl in *; [by injection H' as -> ->|].
  bind_inv H'. rewrite Hv, bind_Ret. destruct v as [[f|] fa2]; [|done].
  bind_inv H'. rewrite Hv0, bind_Ret. destruct v as [[[u|e] pt2] fa3]; [by apply IH|done].
Qed.

Lemma heap_pages_split i :
  (i < 25)%nat -> heap_page <$> seq 0 25 = (heap_page <$> seq 0 i) ++ heap_page i :: (heap_page <$> seq (S i) (24 - i)).
Proof.
  intros Hi. replace 25%nat with (i + S (24 - i))%nat at 1 by lia.
  by rewrite seq_app, fmap_app, <- cons_seq, fmap_cons.
Qed.

(** C31: when the heap's addresses are not mapped and a hundred frames are
    free, [init_heap] returns [Ok]: each of the twenty-five pages of the heap
    is mapped, writable, to a frame of its own that was free and is no longer
    free, no other mapping changes, and the global allocator is initialised
    with the mapped range. *)
Theorem init_heap_maps_heap (pt : M) (fa : F) (h : H) :
  pt_inv pt -> vacant (pt_view pt) HEAP_START (HEAP_START + HEAP_SIZE) -> has_frames 100 fa ->
  exists fs pt' fa', init_heap pt fa h = Ret (Ok tt, pt', fa', heap_init h HEAP_START HEAP_SIZE) /\
    length fs = 25%nat /\ NoDup fs /\ (forall f, f ∈ fs -> f ∈ fa_free fa /\ f ∉ fa_free fa') /\
    (forall i f, fs !! i = Some f ->
       pt_view pt' Size4KiB (HEAP_START + 4096 * Z.of_nat i) = Some (f, Z.lor PRESENT WRITABLE)) /\
    (forall sz p, sz <> Size4KiB \/ p < HEAP_START \/ HEAP_START + HEAP_SIZE <= p ->
       pt_view pt' sz p = pt_view pt sz p).
Proof.
  intros Hi Hvac Hk.
  destruct (map_heap_spec (pt_view pt) 25 0 [] pt fa 0) as
    (fs & pt' & fa' & Hr & Hl & [Hi' Hv'] & Hnd & Hg & _); [done|done| |exact Hvac|done|].
  { apply (shows_ext pt (pt_view pt)); [by apply shows_self|]. intros. by rewrite put_pages_nil. }
  simpl in Hv'. exists fs, pt', fa'. split; [|split; [|split; [|split; [|split]]]]; try done.
  - unfold init_heap. rewrite heap_range_spec, bind_Ret, Hr, bind_Ret.
    by rewrite virt_new_low by (unfold HEAP_START; lia).
  - intros i f Hf. rewrite Hv'. change 4096 with Size4KiB. by apply put_pages_at.
  - intros sz p Hp. rewrite Hv'. apply put_pages_other; [done|].
    rewrite Hl. unfold HEAP_SIZE in Hp. destruct Hp as [?|[?|?]]; [by left|by right; left|right; right; page_lia].
Qed.

(** C32: two errors of [init_heap].  Without a free frame it returns
    [FrameAllocationFailed] and maps nothing.  With a hundred free frames, when
    a page of the heap is mapped already and the addresses of the heap before it
    are not, it returns [PageAlreadyMapped], with some frame: the pages before
    that one stay mapped, writable, to frames of their own, and every other
    mapping, that of the page itself included, is as it was.  In both cases the
    global allocator is not initialised. *)
Theorem init_heap_errors (pt : M) (fa : F) (h : H) :
  pt_inv pt ->
  (fa_inv 1 fa -> fa_free fa = [] ->
   exists fa', init_heap pt fa h = Ret (Err FrameAllocationFailed, pt, fa', h)) /\
  (forall i f fl, (i < 25)%nat -> has_frames 100 fa ->
     pt_view pt Size4KiB (heap_page i) = Some (f, fl) ->
     vacant (pt_view pt) HEAP_START (heap_page i) ->
     exists g fs pt' fa', init_heap pt fa h = Ret (Err (PageAlreadyMapped g), pt', fa', h) /\
       length fs = i /\ NoDup fs /\ (forall f', f' ∈ fs -> f' ∈ fa_free fa) /\
       (forall j f', fs !! j = Some f' -> pt_view pt' Size4KiB (heap_page j) = Some (f', heap_flags)) /\
       (forall sz p, sz <> Size4KiB \/ p < HEAP_START \/ heap_page i <= p ->
          pt_view pt' sz p = pt_view pt sz p)).
Proof.
  intros Hi. unfold init_heap. rewrite heap_range_spec, !bind_Ret. split.
  - intros Hinv Hf. destruct (allocate_none 0 fa Hinv Hf) as (fa' & Ha & _).
    exists fa'. change (seq 0 25) with (0%nat :: seq 1 24). rewrite fmap_cons. cbn [map_heap].
    by rewrite Ha, bind_Ret.
  - intros i f fl Hlt Hk Hp Hvac.
    destruct (map_heap_spec (pt_view pt) i 0 [] pt fa 4) as
      (fs & pt1 & fa1 & Hr & Hl & [Hi1 Hv1] & Hnd & Hg & _ & Hk1); [lia|done| |exact Hvac|by apply (has_frames_le _ 100); [lia|]|].
    { apply (shows_ext pt (pt_view pt)); [by apply shows_self|]. intros. by rewrite put_pages_nil. }
    simpl in Hv1. destruct (allocate_has 3 fa1 Hk1) as (g & fa2 & Ha & _ & _).
    assert (Hp1 : pt_view pt1 Size4KiB (heap_page i) = Some (f, fl)).
    { rewrite Hv1, put_pages_other; [done|done|]. right. right. rewrite Hl. unfold heap_page. lia. }
    destruct (map_to_mapped pt1 Size4KiB (heap_page i) g heap_flags fa2 (f, fl) Hi1 Hp1)
      as (g' & pt2 & Hm & _ & Hv2).
    exists g', fs, pt2, fa2. split; [|split; [|split; [|split; [|split]]]]; try done.
    + rewrite (heap_pages_split i) by lia. rewrite (map_heap_app _ _ _ _ _ _ Hr). cbn [map_heap].
      rewrite Ha, bind_Ret. cbv zeta. fold heap_flags. by rewrite Hm.
    + intros f' Hin. by apply Hg.
    + intros j f' Hj. rewrite Hv2, Hv1. by apply put_pages_at.
    + intros sz p Hp'. rewrite Hv2, Hv1. apply put_pages_other; [done|].
      rewrite Hl. unfold heap_page in Hp'. naive_solver.
Qed.
End Correct.

(** * Witnesses: an empty table over a list of frames *)

Import ListAllocator MapTable.

#[local] Instance release : Profile := false.

(** The range that the global allocator was initialised with. *)
#[local] Instance recorded_heap : LockedHeap (option (Z * Z)) := fun _ bottom size => Some (bottom, size).

Definition sample_frames : list Z := (fun i => 0x100000 + i * 0x1000) <$> seqZ 0 100.

Lemma sample_has_frames : has_frames 100 sample_frames.
Proof. split; [split; apply (bool_decide_unpack _); vm_compute; exact I|vm_compute; lia]. Qed.

Lemma init_heap_maps_heap_witness :
  exists (fs : list Z) pt' fa',
    init_heap MapTable.empty sample_frames (None : option (Z * Z)) =
      Ret (Ok tt, pt', fa', Some (HEAP_START, HEAP_SIZE)) /\ length fs = 25%nat /\ NoDup fs.
Proof.
  destruct (init_heap_maps_heap MapTable.empty sample_frames (None : option (Z * Z)))
    as (fs & pt' & fa' & Hr & Hl & Hnd & _).
  - apply MapTable.inv_empty.
  - intros sz p l. simpl. rewrite lookup_empty. discriminate.
  - exact sample_has_frames.
  - exists fs, pt', fa'. split; [exact Hr|]. split; [exact Hl|exact Hnd].
Defined.

(** A table with the second page of the heap, and no other, mapped. *)
Definition second_page_mapped : MapTable.t := mk {[(Size4KiB, heap_page 1) := (0x5000, heap_flags)]} ∅.

Lemma second_page_leaf sz p l :
  leaves second_page_mapped !! (sz, p) = Some l -> sz = Size4KiB /\ p = heap_page 1.
Proof. unfold second_page_mapped. simpl. by intros [[= <- <-] _]%lookup_singleton_Some. Qed.

Lemma second_page_inv : MapTable.inv second_page_mapped.
Proof.
  split.
  - intros sz p l [-> ->]%second_page_leaf. split; [by left|]. compute_divide.
  - intros sz p l sz' p' l' [-> ->]%second_page_leaf [-> ->]%second_page_leaf. by left.
Qed.

Lemma init_heap_errors_witness :
  (exists fa', init_heap MapTable.empty [] (None : option (Z * Z)) =
     Ret (Err FrameAllocationFailed, MapTable.empty, fa', None)) /\
  exists g (fs : list Z) pt' fa', init_heap second_page_mapped sample_frames (None : option (Z * Z)) =
      Ret (Err (PageAlreadyMapped g), pt', fa', None) /\ length fs = 1%nat.
Proof.
  split.
  - apply (init_heap_errors MapTable.empty []); [apply MapTable.inv_empty| |reflexivity].
    split; constructor.
  - destruct (init_heap_errors second_page_mapped sample_frames (None : option (Z * Z))) as [_ Hmapped];
      [exact second_page_inv|].
    destruct (Hmapped 1%nat 0x5000 heap_flags) as (g & fs & pt' & fa' & Hr & Hl & _).
    + lia.
    + exact sample_has_frames.
    + apply lookup_singleton_eq.
    + intros sz p l [-> ->]%second_page_leaf. right. vm_compute. discriminate.
    + exists g, fs, pt', fa'. split; [exact Hr|exact Hl].
Defined.
