(* ===== verification/Firmware.v ===== *)
(** initium/src/main.rs: what the bootloader reads from the firmware.

    [load_framebuffer] chooses a display mode and describes the framebuffer of
    the current mode; [rsdp_addr] finds the ACPI root pointer in the
    configuration table.  The firmware's graphics output protocol is the
    class [GraphicsOutput], with a handle that may be missing; the GUIDs of
    the uefi crate are the class [Guids]. *)

From S2P Require Import Prelude X86 Synapse.

(** * The configuration table *)

Class Guids := { ACPI_GUID : Z; ACPI2_GUID : Z }.

(** [uefi::table::cfg::ConfigTableEntry] *)
Record ConfigTableEntry : Type := mkEntry { guid : Z; address : Z }.

(** [iter.find(p)]: the element, and the iterator after it. *)
Fixpoint iter_find {A} (p : A -> bool) (iter : list A) : option A * list A :=
  match iter with
  | [] => (None, [])
  | x :: rest => if p x then (Some x, rest) else iter_find p rest
  end.

Section Rsdp.
Context {X : X86_64} {G : Guids}.

(** The field [rsdp_addr] of [SystemInfo] in [main_inner]. *)
Definition rsdp_addr (config_table : list ConfigTableEntry) : outcome (option Z) :=
  let '(acpi2_rsdp, config_entries) := iter_find (fun entry => guid entry =? ACPI2_GUID) config_table in
  let rsdp := match acpi2_rsdp with
              | Some entry => Some entry
              | None => fst (iter_find (fun entry => guid entry =? ACPI_GUID) config_entries)
              end in
  match rsdp with
  | Some entry => a ← PhysAddr_new (address entry); Ret (Some a)
  | None => Ret None
  end.
End Rsdp.

(** * The graphics output *)

(** [gop::PixelFormat] *)
Inductive GopPixelFormat : Type := GopRgb | GopBgr | Bitmask | BltOnly.

(** [gop::ModeInfo] *)
Record ModeInfo : Type := mkMode {
  resolution : Z * Z;
  mode_pixel_format : GopPixelFormat;
  mode_stride : Z;
}.

(** The protocol, whose state is [G]: the modes it lists, [set_mode],
    [current_mode_info], and the address and size of the frame buffer. *)
Class GraphicsOutput (G : Type) := {
  modes : G -> list ModeInfo;
  set_mode : G -> ModeInfo -> result unit unit * G;
  current_mode_info : G -> ModeInfo;
  frame_buffer : G -> Z * Z;
}.

(** initium.rs *)
Record RawFramebufferInfo : Type := mkRaw { addr : Z; info : FramebufferInfo }.

Section Gop.
Context {X : X86_64} {G : Type} {GO : GraphicsOutput G}.

(** The loop over the modes: [last_width] and [last_height]. *)
Definition next_resolution (config : BootConfig) (last : Z * Z) (mode : ModeInfo) : Z * Z :=
  let '(last_width, last_height) := last in
  let '(width, height) := resolution mode in
  if (width <=? framebuffer_width config) && (height <=? framebuffer_height config) then
    if (last_width <=? width) || (last_height <=? height) then (width, height) else last
  else last.

Definition last_resolution (config : BootConfig) (ms : list ModeInfo) : Z * Z :=
  fold_left (next_resolution config) ms (0, 0).

(** [modes.filter(|m| res == (width, height)).last()] *)
Definition choose_mode (config : BootConfig) (ms : list ModeInfo) : option ModeInfo :=
  let '(width, height) := last_resolution config ms in
  last (List.filter (fun m => (fst (resolution m) =? width) && (snd (resolution m) =? height)) ms).

(** [load_framebuffer], from the protocol's handle on; [gop] is what
    [open_protocol] returns. *)
Definition load_framebuffer (gop_handle : result unit unit) (gop : result G unit) (config : BootConfig)
  : outcome (option RawFramebufferInfo * option G) :=
  match gop_handle, gop with
  | Err _, _ | _, Err _ => Ret (None, None)
  | Ok _, Ok gop =>
      gop ← (match choose_mode config (modes gop) with
             | Some mode =>
                 let '(res, gop) := set_mode gop mode in
                 _ ← expect_ok "Failed to apply the desired display mode" res;
                 Ret gop
             | None => Ret gop
             end);
      let mode_info := current_mode_info gop in
      let framebuffer := frame_buffer gop in
      pixel_format ← (match mode_pixel_format mode_info with
                      | GopRgb => Ret Rgb
                      | GopBgr => Ret Bgr
                      | Bitmask | BltOnly => Panic "Bitmask and BltOnly framebuffers are not supported"
                      end);
      let info := {|
        byte_len := snd framebuffer;
        width := fst (resolution mode_info);
        height := snd (resolution mode_info);
        pixel_format := pixel_format;
        bytes_per_pixel := 4;
        stride := mode_stride mode_info |} in
      a ← PhysAddr_new (fst framebuffer);
      Ret (Some (mkRaw a info), Some gop)
  end.
End Gop.

(** * Properties *)

Lemma iter_find_find {A} (p : A -> bool) l :
  fst (iter_find p l) = List.find p l /\ (List.find p l = None -> snd (iter_find p l) = []).
Proof.
  induction l as [|x l [IH1 IH2]]; simpl; [done|]. by destruct (p x).
Qed.

(** A mode that the configuration allows. *)
Definition fits (config : BootConfig) (m : ModeInfo) : Prop :=
  fst (resolution m) <= framebuffer_width config /\ snd (resolution m) <= framebuffer_height config.

(** A mode that is smaller in both directions. *)
Definition smaller (m1 m2 : ModeInfo) : Prop :=
  fst (resolution m1) < fst (resolution m2) /\ snd (resolution m1) < snd (resolution m2).

Definition mode_ok (m : ModeInfo) : Prop := 0 <= fst (resolution m) /\ 0 <= snd (resolution m).

(** The modes as [choose_mode] sees them: the last update of the resolution. *)
Lemma next_resolution_spec config lst m :
  (fits config m /\ (fst lst <= fst (resolution m) \/ snd lst <= snd (resolution m)) /\
    next_resolution config lst m = resolution m) \/
  ((fits config m -> fst (resolution m) < fst lst /\ snd (resolution m) < snd lst) /\
    next_resolution config lst m = lst).
Proof.
  unfold next_resolution, fits. destruct lst as [lw lh], (resolution m) as [w h]. simpl.
  destruct (Z.leb_spec w (framebuffer_width config)), (Z.leb_spec h (framebuffer_height config)),
    (Z.leb_spec lw w), (Z.leb_spec lh h); simpl; (left; split; [lia|split; [lia|done]]) || (right; split; [lia|done]).
Qed.

Lemma last_resolution_spec config ms :
  Forall mode_ok ms ->
  (Forall (fun m => ~ fits config m) ms /\ last_resolution config ms = (0, 0)) \/
  (exists l1 m l2, ms = l1 ++ m :: l2 /\ fits config m /\ last_resolution config ms = resolution m /\
     Forall (fun m' => fits config m' -> smaller m' m) l2).
Proof.
  intros Hok. induction ms as [|x ms IH] using rev_ind; [by left; split|].
  apply Forall_app in Hok as [Hok [Hx _]%Forall_cons].
  unfold last_resolution. rewrite fold_left_app. simpl. fold (last_resolution config ms).
  destruct (next_resolution_spec config (last_resolution config ms) x) as [(Hf & _ & Hn)|[Hf Hn]].
  - right. exists ms, x, []. split; [done|]. split; [done|]. split; [done|constructor].
  - destruct (IH Hok) as [[Hall Hl]|(l1 & m & l2 & -> & Hm & Hl & Hall)].
    + left. rewrite Hn. split; [|done]. apply Forall_app. split; [done|]. constructor; [|done].
      intros Hfx. destruct (Hf Hfx) as [Hw _]. rewrite Hl in Hw. simpl in Hw. unfold mode_ok in Hx. lia.
    + right. exists l1, m, (l2 ++ [x]). rewrite <- app_assoc. split; [done|]. split; [done|].
      split; [by rewrite Hn|]. apply Forall_app. split; [done|]. constructor; [|done].
      intros Hfx. specialize (Hf Hfx). rewrite Hl in Hf. done.
Qed.

Lemma last_filter_app {A} (p : A -> bool) l1 x l2 :
  p x = true -> Forall (fun y => p y = false) l2 -> last (List.filter p (l1 ++ x :: l2)) = Some x.
Proof.
  intros Hx Hall. rewrite List.filter_app. simpl. rewrite Hx.
  assert (Hn : List.filter p l2 = []) by (induction Hall as [|y l Hy _ IH]; simpl; [done|by rewrite Hy]).
  rewrite Hn. by rewrite last_snoc.
Qed.

(** [choose_mode] is a mode that fits and dominates every later one that
    fits, if any mode fits. *)
Definition chosen (config : BootConfig) (ms : list ModeInfo) (o : option ModeInfo) : Prop :=
  match o with
  | Some m => exists l1 l2, ms = l1 ++ m :: l2 /\ fits config m /\
      Forall (fun m' => fits config m' -> smaller m' m) l2
  | None => Forall (fun m => ~ fits config m) ms
  end.

Lemma choose_mode_spec config ms :
  0 <= framebuffer_width config -> 0 <= framebuffer_height config -> Forall mode_ok ms ->
  chosen config ms (choose_mode config ms).
Proof.
  intros Hcw Hch Hok. unfold choose_mode.
  destruct (last_resolution_spec config ms Hok) as [[Hall Hl]|(l1 & m & l2 & -> & Hm & Hl & Hall)].
  - rewrite Hl. assert (Hn : List.filter (fun m => (fst (resolution m) =? 0) && (snd (resolution m) =? 0)) ms = []).
    { clear Hl Hok. induction Hall as [|m ms Hm _ IH]; simpl; [done|]. rewrite IH. unfold fits in Hm.
      destruct (Z.eqb_spec (fst (resolution m)) 0), (Z.eqb_spec (snd (resolution m)) 0); simpl; try done. lia. }
    by rewrite Hn.
  - rewrite Hl. destruct (resolution m) as [w h] eqn:E.
    rewrite last_filter_app; [by exists l1, l2|by rewrite E, !Z.eqb_refl|].
    eapply Forall_impl; [exact Hall|]. intros m' Hm'. simpl.
    destruct (Z.eqb_spec (fst (resolution m')) w), (Z.eqb_spec (snd (resolution m')) h); simpl; try done.
    unfold fits in *. rewrite E in Hm. unfold smaller in Hm'. rewrite E in Hm'. simpl in *. lia.
Qed.

(** The choice is not the largest mode that fits: a later mode that is lower
    and not narrower, or narrower and not lower, replaces a larger one. *)
Lemma larger_mode_replaced config m1 m2 :
  fits config m1 -> fits config m2 -> mode_ok m1 -> mode_ok m2 ->
  fst (resolution m2) = fst (resolution m1) -> snd (resolution m2) < snd (resolution m1) ->
  choose_mode config [m1; m2] = Some m2.
Proof.
  unfold fits, mode_ok. intros [H1 H2] [H3 H4] [H5 H6] [H7 H8] Hw Hh.
  assert (Hl : last_resolution config [m1; m2] = resolution m2).
  { unfold last_resolution, next_resolution. simpl.
    destruct (resolution m1) as [w1 h1], (resolution m2) as [w2 h2]. simpl in *. subst w2.
    rewrite (proj2 (Z.leb_le w1 _)), (proj2 (Z.leb_le h1 _)), (proj2 (Z.leb_le 0 w1)) by lia. simpl.
    rewrite (proj2 (Z.leb_le h2 (framebuffer_height config))), Z.leb_refl by lia. done. }
  unfold choose_mode. rewrite Hl. destruct (resolution m2) as [w h] eqn:E.
  apply (last_filter_app _ [m1] m2 []); [|constructor]. by rewrite E, !Z.eqb_refl.
Qed.

Section Properties.
Context {X : X86_64} {XL : X86_64_Laws X} {Gd : Guids} {G : Type} {GO : GraphicsOutput G}.

(** C33: [load_framebuffer] applies the chosen mode, if any mode fits the
    configuration, and describes the framebuffer as the firmware reports it
    for the mode that is current then, with four bytes per pixel; the chosen
    mode fits the configuration and is larger, in both directions, than every
    later mode that fits. *)
Theorem load_framebuffer_correct (gop gop' : G) (config : BootConfig) fmt :
  0 <= framebuffer_width config -> 0 <= framebuffer_height config -> Forall mode_ok (modes gop) ->
  (match choose_mode config (modes gop) with
   | Some mode => set_mode gop mode = (Ok tt, gop')
   | None => gop' = gop
   end) ->
  mode_pixel_format (current_mode_info gop') = (match fmt with Rgb => GopRgb | Bgr => GopBgr end) ->
  0 <= fst (frame_buffer gop') < 2 ^ 52 ->
  chosen config (modes gop) (choose_mode config (modes gop)) /\
  load_framebuffer (Ok tt) (Ok gop) config =
    Ret (Some {| addr := fst (frame_buffer gop');
                 info := {| byte_len := snd (frame_buffer gop');
                            width := fst (resolution (current_mode_info gop'));
                            height := snd (resolution (current_mode_info gop'));
                            pixel_format := fmt; bytes_per_pixel := 4;
                            stride := mode_stride (current_mode_info gop') |} |}, Some gop').
Proof.
  intros Hw Hh Hok Hset Hfmt Ha. split; [by apply choose_mode_spec|].
  unfold load_framebuffer.
  assert (Hg : (match choose_mode config (modes gop) with
    | Some mode => let '(res, gop) := set_mode gop mode in
        _ ← expect_ok "Failed to apply the desired display mode" res; Ret gop
    | None => Ret gop end) = Ret gop').
  { destruct (choose_mode config (modes gop)); [by rewrite Hset|by subst]. }
  rewrite Hg, bind_Ret, Hfmt. destruct fmt; rewrite bind_Ret, phys_new_spec by done; done.
Qed.

(** C34: the RSDP address is that of the first ACPI 2.0 entry of the
    configuration table.  Without such an entry there is no address, also
    when the table has an ACPI 1.0 entry: the search for it starts behind the
    end of the table. *)
Theorem rsdp_lookup_exact (config_table : list ConfigTableEntry) :
  Forall (fun e => 0 <= address e < 2 ^ 52) config_table ->
  rsdp_addr config_table = Ret (address <$> List.find (fun e => guid e =? ACPI2_GUID) config_table).
Proof.
  intros Hok. unfold rsdp_addr.
  destruct (iter_find_find (fun e => guid e =? ACPI2_GUID) config_table) as [H1 H2].
  destruct (iter_find _ config_table) as [o rest]. simpl in H1, H2. subst o.
  destruct (List.find _ config_table) as [e|] eqn:E.
  - apply List.find_some in E as [Hin _]. rewrite Forall_forall in Hok.
    by rewrite phys_new_spec by (apply Hok, list_elem_of_In, Hin).
  - by rewrite H2 by done.
Qed.
End Properties.

(** * Witnesses *)

(** A firmware with three modes; its state is the current mode. *)
Definition sample_modes : list ModeInfo :=
  [mkMode (1280, 720) GopBgr 1280; mkMode (1920, 1080) GopBgr 1920; mkMode (640, 480) GopBgr 640].

#[export] Instance sample_gop : GraphicsOutput ModeInfo := {|
  modes _ := sample_modes;
  set_mode _ m := (Ok tt, m);
  current_mode_info m := m;
  frame_buffer m := (0x80000000, 4 * mode_stride m * snd (resolution m));
|}.

Lemma load_framebuffer_correct_witness :
  load_framebuffer (Ok tt) (Ok (mkMode (800, 600) GopBgr 800)) (mkBootConfig 1280 720) =
    Ret (Some (mkRaw 0x80000000 (mkFramebufferInfo 1280 720 Bgr 3686400 4 1280)),
         Some (mkMode (1280, 720) GopBgr 1280)).
Proof.
  destruct (load_framebuffer_correct (mkMode (800, 600) GopBgr 800) (mkMode (1280, 720) GopBgr 1280)
    (mkBootConfig 1280 720) Bgr) as [_ H]; [simpl; lia|simpl; lia|repeat constructor; simpl; lia|reflexivity|reflexivity
    |simpl; lia|].
  exact H.
Defined.

#[export] Instance sample_guids : Guids := {| ACPI_GUID := 1; ACPI2_GUID := 2 |}.

(** A table with an ACPI 1.0 entry only: no address. *)
Lemma rsdp_lookup_exact_witness : rsdp_addr [mkEntry 7 0x1000; mkEntry 1 0x2000] = Ret None.
Proof.
  rewrite (rsdp_lookup_exact [mkEntry 7 0x1000; mkEntry 1 0x2000]); [reflexivity|].
  repeat constructor; simpl; lia.
Defined.
