(* ===== verification/Kernel.v ===== *)
(** initium/src/kernel.rs: loading the kernel's ELF image.

    [Inner] is the loader's state: the page tables, the frame allocator and,
    because the loader writes frames through raw pointers into the identity
    mapped physical memory, the bytes of that memory.  The methods are
    computations of the monad [load], which carries that state, the [Err] of
    the methods that return a [Result], and panics.

    The ELF file is parsed by the xmas_elf crate.  A [ProgramHeader] is the
    record of the values its accessors return; the relocation entry is a class
    of accessors on its 24 bytes. *)

From S2P Require Import Prelude X86 Synapse Entries FrameAlloc Paging.

(** * The ELF file, as xmas_elf presents it *)

(** [program::Type] *)
Inductive Type_ : Type :=
  | Null | Load_ | Dynamic_ | Interp | Note | ShLib | Phdr | Tls | GnuRelro
  | OsSpecific (n : Z)
  | ProcessorSpecific (n : Z).

#[export] Instance Type_eq_dec : EqDecision Type_.
Proof. solve_decision. Defined.

(** [header::Type] *)
Module HeaderType.
Inductive t : Type :=
  | None_ | Relocatable | Executable | SharedObject | Core_
  | ProcessorSpecific (n : Z).
End HeaderType.

(** [dynamic::Tag], of which the loader reads three. *)
Inductive Tag : Type := Rela | RelaSize | RelaEnt | OtherTag (n : Z).

Record Dynamic : Type := mkDynamic {
  get_tag : result Tag string;
  get_ptr : result Z string;
  get_val : result Z string;
}.

(** [program::SegmentData]: the variant the loader asks for, or another. *)
Inductive SegmentData : Type :=
  | Dynamic64 (data : list Dynamic)
  | OtherData.

Record ProgramHeader : Type := mkHeader {
  get_type : result Type_ string;
  virtual_addr : Z;
  mem_size : Z;
  file_size : Z;
  ph_offset : Z;
  ph_align : Z;
  is_execute : bool;
  is_write : bool;
  get_data : result SegmentData string;
  (* program::sanity_check *)
  ph_sanity_check : result unit string;
}.

Record ElfFile : Type := mkElf {
  input : list Z;
  program_iter : list ProgramHeader;
  header_type : HeaderType.t;
  elf_entry_point : Z;
  (* header::sanity_check *)
  header_sanity_check : result unit string;
}.

(** [sections::Rela<u64>], from its bytes. *)
Class RelaFormat := {
  get_symbol_table_index : list Z -> Z;
  get_rela_type : list Z -> Z;
  get_offset : list Z -> Z;
  get_addend : list Z -> Z;
}.

(** [size_of::<Rela<u64>>()] *)
Definition size_of_Rela : Z := 24.

(** [Kernel]: the file and where it lies in memory. *)
Record Kernel : Type := mkKernel {
  elf : ElfFile;
  start_address : Z;
  kernel_len : Z;
}.

(** [Kernel::parse], [parse_elf] being [ElfFile::new]. *)
Definition Kernel_parse (parse_elf : list Z -> result ElfFile string) (address : Z) (slice : list Z)
  : outcome Kernel :=
  e ← expect_ok "called `Result::unwrap()` on an `Err` value" (parse_elf slice);
  Ret (mkKernel e address (Z.of_nat (length slice))).

Definition PAGE_SIZE : Z := 4096.

Definition COPIED : Z := BIT_9.

(** * Physical memory *)

Definition mem : Type := Z -> Z.

(** [count] bytes from [a]. *)
Definition read_bytes (m : mem) (a : Z) (count : nat) : list Z :=
  (fun i => m (a + Z.of_nat i)) <$> seq 0 count.

(** The bytes [bs] at [a]. *)
Definition write_bytes (m : mem) (a : Z) (bs : list Z) : mem :=
  fun x => if (a <=? x) && (x <? a + Z.of_nat (length bs))
           then nth (Z.to_nat (x - a)) bs 0 else m x.

(** The bytes of a [u64], least significant first: [to_ne_bytes]. *)
Definition to_ne_bytes (v : Z) : list Z :=
  (fun i => (v / 2 ^ (8 * Z.of_nat i)) mod 256) <$> seq 0 8.

(** * The loader's state and monad *)

Record Inner (M F : Type) : Type := mkInner {
  kernel_offset : Z;
  virtual_address_offset : VirtualAddressOffset.t;
  page_table : M;
  frame_allocator : F;
  memory : mem;
}.
Arguments mkInner {M F} _ _ _ _ _.
Arguments kernel_offset {M F} _.
Arguments virtual_address_offset {M F} _.
Arguments page_table {M F} _.
Arguments frame_allocator {M F} _.
Arguments memory {M F} _.

Definition set_page_table {M F} (s : Inner M F) (pt : M) : Inner M F :=
  mkInner (kernel_offset s) (virtual_address_offset s) pt (frame_allocator s) (memory s).
Definition set_frame_allocator {M F} (s : Inner M F) (fa : F) : Inner M F :=
  mkInner (kernel_offset s) (virtual_address_offset s) (page_table s) fa (memory s).
Definition set_memory {M F} (s : Inner M F) (m : mem) : Inner M F :=
  mkInner (kernel_offset s) (virtual_address_offset s) (page_table s) (frame_allocator s) m.

(** A method: it may panic, or return [Err] with the state so far. *)
Definition load (M F A : Type) : Type := Inner M F -> outcome (result A string * Inner M F).

#[global] Instance load_ret {M F} : MRet (load M F) := fun A a s => Ret (Ok a, s).

#[global] Instance load_bind {M F} : MBind (load M F) := fun A B f m s =>
  r ← m s;
  match fst r with
  | Ok a => f a (snd r)
  | Err e => Ret (Err e, snd r)
  end.

Section Monad.
Context {M F : Type}.

Definition get : load M F (Inner M F) := fun s => Ret (Ok s, s).

Definition put_state (s : Inner M F) : load M F unit := fun _ => Ret (Ok tt, s).

Definition lift {A} (m : outcome A) : load M F A := fun s => a ← m; Ret (Ok a, s).

(** [?] on a [Result]. *)
Definition try_ {A} (r : result A string) : load M F A := fun s => Ret (r, s).

(** [return Err(msg)] *)
Definition fail {A} (msg : string) : load M F A := fun s => Ret (Err msg, s).

(** [.unwrap()] on the result of a method. *)
Definition unwrap {A} (m : load M F A) : load M F A := fun s =>
  r ← m s;
  match fst r with
  | Ok a => Ret (Ok a, snd r)
  | Err _ => Panic "called `Result::unwrap()` on an `Err` value"
  end.

(** [for x in xs { body }] *)
Fixpoint for_each {A} (xs : list A) (body : A -> load M F unit) : load M F unit :=
  match xs with
  | [] => mret tt
  | x :: xs => body x ≫= fun _ => for_each xs body
  end.
End Monad.
Arguments get {M F}.

(** * check_is_in_load *)

Fixpoint check_headers (headers : list ProgramHeader) (virt_offset : Z) : result unit string :=
  match headers with
  | [] => Err "offset is not in load segment"
  | program_header :: rest =>
      match get_type program_header with
      | Err e => Err e
      | Ok Load_ =>
          if (virtual_addr program_header <=? virt_offset) &&
             (virt_offset - virtual_addr program_header <? mem_size program_header)
          then Ok tt else check_headers rest virt_offset
      | Ok _ => check_headers rest virt_offset
      end
  end.

Definition check_is_in_load (elf_file : ElfFile) (virt_offset : Z) : result unit string :=
  check_headers (program_iter elf_file) virt_offset.

(** * impl Inner *)

Section Methods.
Context {X : X86_64} {P : Profile} {RF : RelaFormat}.
Context {M F : Type} {FA : FrameAllocator F} {PT : PageTable M F}.

Abbreviation method := (load M F).

(** [self.frame_allocator.allocate_frame().unwrap()] *)
Definition allocate_unwrap : method Z := fun s =>
  r ← allocate_frame (frame_allocator s);
  f ← expect "called `Option::unwrap()` on a `None` value" (fst r);
  Ret (Ok f, set_frame_allocator s (snd r)).

(** [self.page_table.map_to(page, frame, flags, self.frame_allocator)] on
    4 KiB pages, without the flush *)
Definition map_to_4k (page frame flags : Z) : method (result unit MapToError) := fun s =>
  r ← map_to Size4KiB (page_table s) page frame flags (frame_allocator s);
  let '(res, pt, fa) := r in
  Ret (Ok res, set_frame_allocator (set_page_table s pt) fa).

(** [.map_err(|_err| msg)?] *)
Definition map_err {A E} (msg : string) (r : result A E) : method A :=
  match r with Ok a => mret a | Err _ => fail msg end.

Definition write_mem (a : Z) (bs : list Z) : method unit := fun s =>
  Ret (Ok tt, set_memory s (write_bytes (memory s) a bs)).

(** [self.virtual_address_offset + x] *)
Definition add_offset (x : Z) : method Z :=
  s ← get; lift (VirtualAddressOffset.add (virtual_address_offset s) x).

(** [make_mut]: the frame of a page that may be written; the first write to a
    page copies its frame. *)
Definition make_mut (page : Z) : method Z :=
  s ← get;
  r ← lift (match translate (page_table s) page with
            | Mapped frame _ flags => Ret (frame, flags)
            | NotMapped => Panic "page is not mapped"
            | InvalidFrameAddress _ => Panic "internal error: entered unreachable code"
            end);
  let flags := snd r in
  frame ← lift (match fst r with
                | Mapped4KiB frame => Ret frame
                | _ => Panic "internal error: entered unreachable code"
                end);
  if contains flags COPIED then mret frame
  else
    new_frame ← allocate_unwrap;
    s ← get;
    _ ← write_mem new_frame (read_bytes (memory s) frame (Z.to_nat Size4KiB));
    s ← get;
    let '(res, pt) := unmap (page_table s) page in
    _ ← lift (expect_ok "called `Result::unwrap()` on an `Err` value" res);
    _ ← put_state (set_page_table s pt);
    let new_flags := Z.lor flags COPIED in
    res ← map_to_4k page new_frame new_flags;
    _ ← lift (expect_ok "called `Result::unwrap()` on an `Err` value" res);
    mret new_frame.

(** [handle_bss_section] *)
Definition handle_bss_section (segment : ProgramHeader) (segment_flags : Z) : method unit :=
  v ← add_offset (virtual_addr segment);
  virt_start_addr ← lift (VirtAddr_new v);
  let mem_size := mem_size segment in
  let file_size := file_size segment in
  zero_start ← lift (VirtAddr_add virt_start_addr file_size);
  zero_end ← lift (VirtAddr_add virt_start_addr mem_size);
  let data_bytes_before_zero := Z.land zero_start 0xfff in
  _ ← (if negb (data_bytes_before_zero =? 0) then
         t ← lift (VirtAddr_add virt_start_addr file_size);
         t ← lift (VirtAddr_sub t 1);
         let last_page := Page_containing_address Size4KiB t in
         new_frame ← make_mut last_page;
         write_mem (new_frame + data_bytes_before_zero)
           (replicate (Z.to_nat (Size4KiB - data_bytes_before_zero)) 0)
       else mret tt);
  a ← lift (align_up zero_start Size4KiB);
  a ← lift (VirtAddr_new a);
  let start_page := Page_containing_address Size4KiB a in
  e ← lift (VirtAddr_sub zero_end 1);
  let end_page := Page_containing_address Size4KiB e in
  for_each (Page_range_inclusive Size4KiB start_page end_page) (fun page =>
    frame ← allocate_unwrap;
    _ ← write_mem frame (replicate (Z.to_nat Size4KiB) 0);
    res ← map_to_4k page frame segment_flags;
    map_err "Failed to map new frame for bss memory" res).

Definition segment_flags (segment : ProgramHeader) : Z :=
  let fl := PRESENT in
  let fl := if negb (is_execute segment) then Z.lor fl NO_EXECUTE else fl in
  if is_write segment then Z.lor fl WRITABLE else fl.

(** [handle_load_segment] *)
Definition handle_load_segment (segment : ProgramHeader) : method unit :=
  s ← get;
  phys_start_addr ← lift (PhysAddr_add (kernel_offset s) (ph_offset segment));
  let start_frame := PhysFrame_containing_address Size4KiB phys_start_addr in
  e ← lift (PhysAddr_add phys_start_addr (file_size segment));
  e ← lift (PhysAddr_sub e 1);
  let end_frame := PhysFrame_containing_address Size4KiB e in
  v ← add_offset (virtual_addr segment);
  virt_start_addr ← lift (VirtAddr_new v);
  let start_page := Page_containing_address Size4KiB virt_start_addr in
  let segment_flags := segment_flags segment in
  _ ← for_each (PhysFrame_range_inclusive Size4KiB start_frame end_frame) (fun frame =>
        offset ← lift (PhysFrame_sub Size4KiB frame start_frame);
        page ← lift (Page_add Size4KiB start_page offset);
        res ← map_to_4k page frame segment_flags;
        map_err "map_to failed" res);
  if file_size segment <? mem_size segment
  then handle_bss_section segment segment_flags
  else mret tt.

(** The part of a byte range that lies in one page, as [copy_from] and
    [copy_to] compute it: offset in the frame, offset in the buffer, length. *)
Definition page_part (addr end_inclusive_addr page : Z) : outcome (Z * Z * Z) :=
  page_end_inclusive ← VirtAddr_add page 4095;
  let start_copy_address := Z.max addr page in
  let end_inclusive_copy_address := Z.min end_inclusive_addr page_end_inclusive in
  start_offset_in_frame ← VirtAddr_diff start_copy_address page;
  end_inclusive_offset_in_frame ← VirtAddr_diff end_inclusive_copy_address page;
  l ← u64_sub end_inclusive_offset_in_frame start_offset_in_frame;
  copy_len ← u64_add l 1;
  start_offset_in_buf ← expect "called `Option::unwrap()` on a `None` value"
    (VirtAddr_steps_between addr start_copy_address);
  Ret (start_offset_in_frame, start_offset_in_buf, copy_len).

(** [buf[start..][..len]] *)
Definition subslice (buf : list Z) (start len : Z) : outcome (list Z) :=
  if (start <=? Z.of_nat (length buf)) && (len <=? Z.of_nat (length buf) - start)
  then Ret (take (Z.to_nat len) (drop (Z.to_nat start) buf))
  else Panic "slice index out of range".

(** The pages from the one that holds [addr] to the one that holds the last
    byte of the range. *)
Definition pages_of (addr buf_len : Z) : outcome (Z * list Z) :=
  l ← u64_sub buf_len 1;
  end_inclusive_addr ← expect "end address outside of the virtual address space"
    (VirtAddr_forward_checked addr l);
  let start_page := Page_containing_address Size4KiB addr in
  let end_inclusive_page := Page_containing_address Size4KiB end_inclusive_addr in
  Ret (end_inclusive_addr, Page_range_inclusive Size4KiB start_page end_inclusive_page).

(** [copy_from]: the buffer after the copy. *)
Definition copy_from (addr : Z) (buf : list Z) : method (list Z) :=
  s ← get;
  r ← lift (pages_of addr (Z.of_nat (length buf)));
  lift (foldM (fun buf page =>
    frame ← expect_ok "address is not mapped to the kernel's memory space"
              (translate_page (page_table s) page);
    part ← page_part addr (fst r) page;
    let '(in_frame, in_buf, copy_len) := part in
    start_phys_addr ← PhysAddr_add frame in_frame;
    _ ← subslice buf in_buf copy_len;
    Ret (take (Z.to_nat in_buf) buf ++
         read_bytes (memory s) start_phys_addr (Z.to_nat copy_len) ++
         drop (Z.to_nat (in_buf + copy_len)) buf)) (snd r) buf).

(** [copy_to] *)
Definition copy_to (addr : Z) (buf : list Z) : method unit :=
  r ← lift (pages_of addr (Z.of_nat (length buf)));
  for_each (snd r) (fun page =>
    frame ← make_mut page;
    part ← lift (page_part addr (fst r) page);
    let '(in_frame, in_buf, copy_len) := part in
    start_phys_addr ← lift (PhysAddr_add frame in_frame);
    src ← lift (subslice buf in_buf copy_len);
    write_mem start_phys_addr src).

(** The pages of a segment in memory, and an update of the flags of those
    that have [f]: the loops of [remove_copied_flags] and
    [handle_relro_segment]. *)
Definition clear_flag_in (program_header : ProgramHeader) (f : Z) : method unit :=
  start ← add_offset (virtual_addr program_header);
  end_ ← lift (u64_add start (mem_size program_header));
  start ← lift (VirtAddr_new start);
  end_ ← lift (VirtAddr_new end_);
  let start_page := Page_containing_address Size4KiB start in
  e ← lift (VirtAddr_sub end_ 1);
  let end_page := Page_containing_address Size4KiB e in
  for_each (Page_range_inclusive Size4KiB start_page end_page) (fun page =>
    s ← get;
    flags ← lift (match translate (page_table s) page with
                  | Mapped _ _ flags => Ret flags
                  | NotMapped | InvalidFrameAddress _ =>
                      Panic "has the elf file not been mapped correctly?"
                  end);
    if contains flags f then
      let '(res, pt) := update_flags (page_table s) page (Z.ldiff flags f) in
      _ ← lift (expect_ok "called `Result::unwrap()` on an `Err` value" res);
      put_state (set_page_table s pt)
    else mret tt).

Definition remove_copied_flags (elf_file : ElfFile) : method unit :=
  for_each (program_iter elf_file) (fun program_header =>
    t ← try_ (get_type program_header);
    if decide (t = Load_) then clear_flag_in program_header COPIED else mret tt).

Definition handle_relro_segment (program_header : ProgramHeader) : method unit :=
  clear_flag_in program_header WRITABLE.

Definition handle_tls_segment (segment : ProgramHeader) : method TlsTemplate :=
  a ← add_offset (virtual_addr segment);
  mret (mkTlsTemplate a (file_size segment) (mem_size segment)).

(** [read_relocation]: the 24 bytes of entry [idx]. *)
Definition read_relocation (relocation_table idx : Z) : method (list Z) :=
  o ← lift (u64_mul size_of_Rela idx);
  offset ← lift (u64_add relocation_table o);
  value ← add_offset offset;
  addr ← lift (expect_ok "relocation table is outside the address space" (VirtAddr_try_new value));
  copy_from addr (replicate 24 0).

(** [apply_relocation] *)
Definition apply_relocation (rela : list Z) (elf_file : ElfFile) : method unit :=
  let symbol_idx := get_symbol_table_index rela in
  _ ← lift (assert_that (symbol_idx =? 0) "relocations using the symbol table are not supported");
  if get_rela_type rela =? 8 then
    _ ← try_ (check_is_in_load elf_file (get_offset rela));
    addr ← add_offset (get_offset rela);
    addr ← lift (VirtAddr_new addr);
    value ← add_offset (get_addend rela);
    copy_to addr (to_ne_bytes value)
  else lift (Panic "relocation type not supported").

(** The three entries of the dynamic section that the loop of
    [handle_dynamic_segment] collects. *)
Record RelaEntries : Type := mkRelaEntries {
  rela : option Z;
  rela_size : option Z;
  rela_ent : option Z;
}.

Definition result_bind {A B} (r : result A string) (f : A -> result B string) : result B string :=
  match r with Ok a => f a | Err e => Err e end.

(** [prev = slot.replace(v); if prev.is_some() { return Err(msg); }] *)
Definition replace (slot : option Z) (v : Z) (msg : string) : result (option Z) string :=
  match slot with Some _ => Err msg | None => Ok (Some v) end.

Fixpoint scan_dynamic (data : list Dynamic) (e : RelaEntries) : result RelaEntries string :=
  match data with
  | [] => Ok e
  | rel :: data =>
      result_bind (get_tag rel) (fun tag =>
      match tag with
      | Rela =>
          result_bind (get_ptr rel) (fun ptr =>
          result_bind (replace (rela e) ptr "Dynamic section contains more than one Rela entry")
            (fun r => scan_dynamic data (mkRelaEntries r (rela_size e) (rela_ent e))))
      | RelaSize =>
          result_bind (get_val rel) (fun val =>
          result_bind (replace (rela_size e) val "Dynamic section contains more than one RelaSize entry")
            (fun r => scan_dynamic data (mkRelaEntries (rela e) r (rela_ent e))))
      | RelaEnt =>
          result_bind (get_val rel) (fun val =>
          result_bind (replace (rela_ent e) val "Dynamic section contains more than one RelaEnt entry")
            (fun r => scan_dynamic data (mkRelaEntries (rela e) (rela_size e) r)))
      | OtherTag _ => scan_dynamic data e
      end)
  end.

Definition ok_or {A} (o : option A) (msg : string) : result A string :=
  match o with Some a => Ok a | None => Err msg end.

Definition is_some (o : option Z) : bool := match o with Some _ => true | None => false end.

(** [handle_dynamic_segment] *)
Definition handle_dynamic_segment (segment : ProgramHeader) (elf_file : ElfFile) : method unit :=
  data ← try_ (get_data segment);
  data ← lift (match data with
               | Dynamic64 data => Ret data
               | OtherData => Panic "expected Dynamic64 segment"
               end);
  e ← try_ (scan_dynamic data (mkRelaEntries None None None));
  match rela e with
  | None =>
      if is_some (rela_size e) || is_some (rela_ent e)
      then fail "Rela entry is missing but RelaSize or RelaEnt have been provided"
      else mret tt
  | Some offset =>
      total_size ← try_ (ok_or (rela_size e) "RelaSize entry is missing");
      entry_size ← try_ (ok_or (rela_ent e) "RelaEnt entry is missing");
      _ ← lift (assert_that (entry_size =? size_of_Rela) "unsupported entry size");
      let num_entries := total_size / entry_size in
      for_each (range0 num_entries) (fun idx =>
        rela ← read_relocation offset idx;
        apply_relocation rela elf_file)
  end.

(** * impl Loader *)

(** [load_segments]: the first pass over the program headers. *)
Fixpoint load_headers (headers : list ProgramHeader) (tls_template : option TlsTemplate)
  : method (option TlsTemplate) :=
  match headers with
  | [] => mret tls_template
  | program_header :: rest =>
      t ← try_ (get_type program_header);
      match t with
      | Load_ => _ ← handle_load_segment program_header; load_headers rest tls_template
      | Tls =>
          match tls_template with
          | None => t ← handle_tls_segment program_header; load_headers rest (Some t)
          | Some _ => fail "multiple TLS segments not supported"
          end
      | _ => load_headers rest tls_template
      end
  end.

Definition load_segments (elf_file : ElfFile) : method (option TlsTemplate) :=
  tls_template ← load_headers (program_iter elf_file) None;
  _ ← for_each (program_iter elf_file) (fun program_header =>
        t ← try_ (get_type program_header);
        if decide (t = Dynamic_) then handle_dynamic_segment program_header elf_file else mret tt);
  _ ← for_each (program_iter elf_file) (fun program_header =>
        t ← try_ (get_type program_header);
        if decide (t = GnuRelro) then handle_relro_segment program_header else mret tt);
  _ ← unwrap (remove_copied_flags elf_file);
  mret tls_template.

Definition entry_point (elf_file : ElfFile) : method Z :=
  v ← add_offset (elf_entry_point elf_file);
  lift (VirtAddr_new v).

(** [matches!(h.get_type(), Ok(Type::Load))] *)
Definition is_load (h : ProgramHeader) : bool :=
  match get_type h with Ok Load_ => true | _ => false end.

(** [iter.max()], [iter.min()] *)
Definition list_max (xs : list Z) : option Z :=
  match xs with [] => None | x :: xs => Some (fold_left Z.max xs x) end.
Definition list_min (xs : list Z) : option Z :=
  match xs with [] => None | x :: xs => Some (fold_left Z.min xs x) end.

Definition unwrap_or (o : option Z) (d : Z) : Z := match o with Some v => v | None => d end.

(** The offset at which [Loader::new] loads the file. *)
Definition choose_offset (elf_file : ElfFile) (used_entries : Entries)
  : outcome (VirtualAddressOffset.t * Entries) :=
  match header_type elf_file with
  | HeaderType.Executable => Ret (VirtualAddressOffset.zero, used_entries)
  | HeaderType.SharedObject =>
      let loads := List.filter is_load (program_iter elf_file) in
      ends ← mapM_out (fun h => u64_add (virtual_addr h) (mem_size h)) loads;
      let max_addr := unwrap_or (list_max ends) 0 in
      let min_addr := unwrap_or (list_min (virtual_addr <$> loads)) 0 in
      size ← u64_sub max_addr min_addr;
      let align := unwrap_or (list_max (ph_align <$> loads)) 1 in
      r ← get_free_address used_entries size align;
      let offset := fst r in
      Ret (VirtualAddressOffset.mk (offset - min_addr), snd r)
  | _ => Panic "not implemented"
  end.

Fixpoint sanity_checks (headers : list ProgramHeader) : result unit string :=
  match headers with
  | [] => Ok tt
  | h :: headers => result_bind (ph_sanity_check h) (fun _ => sanity_checks headers)
  end.

(** [Loader::new]: the loader's state and the reservations. *)
Definition Loader_new (kernel : Kernel) (pt : M) (fa : F) (m : mem) (used_entries : Entries)
  : outcome (result (Inner M F) string * Entries) :=
  _ ← assert_that (0 <? Z.of_nat (length (input (elf kernel)))) "index out of bounds";
  kernel_offset ← PhysAddr_new (start_address kernel);
  if negb (PhysAddr_is_aligned kernel_offset PAGE_SIZE) then
    Ret (Err "Loaded kernel ELF file is not sufficiently aligned", used_entries)
  else
    let elf_file := elf kernel in
    match sanity_checks (program_iter elf_file) with
    | Err e => Ret (Err e, used_entries)
    | Ok _ =>
        r ← choose_offset elf_file used_entries;
        let virtual_address_offset := fst r in
        used_entries ← mark_segments (snd r)
          ((fun h => (virtual_addr h, mem_size h)) <$> program_iter elf_file) virtual_address_offset;
        match header_sanity_check elf_file with
        | Err e => Ret (Err e, used_entries)
        | Ok _ => Ret (Ok (mkInner kernel_offset virtual_address_offset pt fa m), used_entries)
        end
    end.

(** [load_kernel]: entry point and TLS template, the state of the page tables
    and the memory, and the reservations. *)
Definition load_kernel (kernel : Kernel) (pt : M) (fa : F) (m : mem) (used_entries : Entries)
  : outcome (result (Z * option TlsTemplate * Inner M F) string * Entries) :=
  r ← Loader_new kernel pt fa m used_entries;
  match fst r with
  | Err e => Ret (Err e, snd r)
  | Ok loader =>
      l ← (t ← load_segments (elf kernel); e ← entry_point (elf kernel); mret (e, t)) loader;
      match fst l with
      | Err e => Ret (Err e, snd r)
      | Ok et => Ret (Ok (et, snd l), snd r)
      end
  end.
End Methods.
