(* ===== verification/KernelSpace.v ===== *)
(** The address space that the loader builds: what a byte of the kernel's
    virtual memory is, the invariant that keeps written pages private, and
    [make_mut] and the page writes that preserve it. *)

From S2P Require Import Prelude X86 Entries FrameAlloc Paging Kernel.

(** * Loops of the loader *)

Section Loops.
Context {M F : Type}.

Lemma load_bind_Ret {A B} (m : load M F A) (f : A -> load M F B) s a s' :
  m s = Ret (Ok a, s') -> (m ≫= f) s = f a s'.
Proof. unfold mbind, load_bind. by intros ->. Qed.

Lemma load_bind_get {B} (f : Inner M F -> load M F B) s : (get ≫= f) s = f s s.
Proof. done. Qed.

Lemma load_bind_lift {A B} (m : outcome A) (f : A -> load M F B) s a :
  m = Ret a -> (lift m ≫= f) s = f a s.
Proof. by intros ->. Qed.

Lemma load_bind_assoc {A B C} (m : load M F A) (f : A -> load M F B) (g : B -> load M F C) s :
  ((m ≫= f) ≫= g) s = (m ≫= fun a => f a ≫= g) s.
Proof.
  unfold mbind, load_bind. destruct (m s) as [[[a|e] s']|msg|]; simpl; done.
Qed.

(** The loop rule of [for_each]: an invariant of the elements done. *)
Lemma for_each_invariant {A} (I : list A -> Inner M F -> Prop) xs (body : A -> load M F unit) s :
  I [] s ->
  (forall don x rest s, xs = don ++ x :: rest -> I don s ->
     exists s', body x s = Ret (Ok tt, s') /\ I (don ++ [x]) s') ->
  exists s', for_each xs body s = Ret (Ok tt, s') /\ I xs s'.
Proof.
  intros H0 Hstep.
  assert (Hgen : forall rest don s, xs = don ++ rest -> I don s ->
    exists s', for_each rest body s = Ret (Ok tt, s') /\ I xs s').
  { intros rest. induction rest as [|x rest IH]; intros don s1 Hxs HI; simpl.
    - exists s1. split; [done|]. by rewrite Hxs, app_nil_r.
    - destruct (Hstep don x rest s1 Hxs HI) as (s2 & Hs2 & HI2).
      erewrite load_bind_Ret by done. apply (IH (don ++ [x])); [|done].
      by rewrite <- app_assoc. }
  by apply (Hgen xs []).
Qed.
End Loops.

(** * Bytes of physical memory *)

Lemma write_bytes_in m a bs x :
  a <= x < a + Z.of_nat (length bs) -> write_bytes m a bs x = nth (Z.to_nat (x - a)) bs 0.
Proof.
  intros Hx. unfold write_bytes.
  destruct (Z.leb_spec a x), (Z.ltb_spec x (a + Z.of_nat (length bs))); simpl; try lia; done.
Qed.

Lemma write_bytes_out m a bs x :
  x < a \/ a + Z.of_nat (length bs) <= x -> write_bytes m a bs x = m x.
Proof.
  intros Hx. unfold write_bytes.
  destruct (Z.leb_spec a x), (Z.ltb_spec x (a + Z.of_nat (length bs))); simpl; try lia; done.
Qed.

Lemma length_read_bytes m a n : length (read_bytes m a n) = n.
Proof. unfold read_bytes. by rewrite length_fmap, length_seq. Qed.

Lemma nth_read_bytes m a n i : (i < n)%nat -> nth i (read_bytes m a n) 0 = m (a + Z.of_nat i).
Proof.
  intros Hi. apply nth_lookup_Some. unfold read_bytes.
  rewrite list_lookup_fmap, lookup_seq_lt by done. done.
Qed.

Lemma nth_replicate_0 i n : nth i (replicate n 0) 0 = 0.
Proof.
  destruct (replicate n 0 !! i) as [v|] eqn:E.
  - rewrite (nth_lookup_Some _ _ _ _ E). by apply lookup_replicate in E as [-> _].
  - rewrite nth_lookup. by rewrite E.
Qed.

(** * Virtual memory *)

Section Space.
Context {M F : Type} {FA : FrameAllocator F} {FL : FreeList F} {PT : PageTable M F}.
Context {PL : PageTableLaws M F}.

(** The byte at a virtual address, and the flags of its page. *)
Definition vread (s : Inner M F) (a : Z) : option Z :=
  match translate (page_table s) a with
  | Mapped (Mapped4KiB f) off _ => Some (memory s (f + off))
  | _ => None
  end.

Definition vflags (s : Inner M F) (a : Z) : option Z :=
  match translate (page_table s) a with Mapped _ _ fl => Some fl | _ => None end.

(** The leaf of a 4 KiB page. *)
Definition page_at (s : Inner M F) (p : Z) : option leaf := pt_view (page_table s) Size4KiB p.

Definition free (s : Inner M F) : list Z := fa_free (frame_allocator s).

Definition frames (n : nat) (s : Inner M F) : Prop := has_frames n (frame_allocator s).

(** A frame does not meet the physical addresses from [lo] to [hi]. *)
Definition apart (lo hi f : Z) : Prop := f + Size4KiB <= lo \/ hi <= f.

(** The invariant of the loader, for the memory of the kernel file from [lo]
    to [hi]: only 4 KiB pages are mapped; no mapped frame is free; a page with
    the [COPIED] flag has a frame of its own, outside of the file. *)
Record space_ok (lo hi : Z) (s : Inner M F) : Prop := {
  so_inv : pt_inv (page_table s);
  so_small sz p l : pt_view (page_table s) sz p = Some l -> sz = Size4KiB;
  so_page p f fl : page_at s p = Some (f, fl) -> 0 <= p /\ p + Size4KiB <= 2 ^ 47 /\ flags_ok fl;
  so_frame p f fl : page_at s p = Some (f, fl) ->
    (Size4KiB | f) /\ 0 <= f /\ f + Size4KiB <= 2 ^ 52 /\ f ∉ free s;
  so_private p q f fl fl' : page_at s p = Some (f, fl) -> contains fl COPIED = true ->
    page_at s q = Some (f, fl') -> q = p;
  so_outside p f fl : page_at s p = Some (f, fl) -> contains fl COPIED = true -> apart lo hi f;
  so_free f : f ∈ free s -> apart lo hi f;
}.

(** What every method keeps: the constants of the loader, the file in memory,
    and that frames are only ever taken from the allocator. *)
Record evolves (lo hi : Z) (s s' : Inner M F) : Prop := {
  ev_offset : kernel_offset s' = kernel_offset s;
  ev_vao : virtual_address_offset s' = virtual_address_offset s;
  ev_file a : lo <= a < hi -> memory s' a = memory s a;
  ev_free : exists j, free s' = drop j (free s);
  ev_run : exists n, takes n (frame_allocator s) (frame_allocator s');
}.

Lemma evolves_refl lo hi s : evolves lo hi s s.
Proof. split; [done..|by exists O|exists O; apply takes_refl]. Qed.

Lemma evolves_trans lo hi s1 s2 s3 : evolves lo hi s1 s2 -> evolves lo hi s2 s3 -> evolves lo hi s1 s3.
Proof.
  intros [A1 A2 A3 [j A4] [n A5]] [B1 B2 B3 [k B4] [m B5]]. split; [congruence|congruence| | |].
  - intros a Ha. rewrite B3, A3; done.
  - exists (j + k)%nat. by rewrite B4, A4, drop_drop.
  - exists (n + m)%nat. by eapply takes_trans.
Qed.

(** [translate] on a small page. *)
Lemma translate_page_at lo hi s a :
  space_ok lo hi s ->
  translate (page_table s) a =
    match page_at s (round_down a Size4KiB) with
    | Some (f, fl) => Mapped (Mapped4KiB f) (a - round_down a Size4KiB) fl
    | None => NotMapped
    end.
Proof.
  intros Hs. destruct (page_at s (round_down a Size4KiB)) as [[f fl]|] eqn:E.
  - apply translate_4k; [apply Hs|done].
  - apply translate_none; [apply Hs|done|].
    destruct (pt_view (page_table s) Size2MiB _) eqn:E2; [|done].
    by apply (so_small _ _ _ Hs) in E2.
Qed.

Lemma vread_page_at lo hi s a :
  space_ok lo hi s ->
  vread s a = match page_at s (round_down a Size4KiB) with
              | Some (f, _) => Some (memory s (f + (a - round_down a Size4KiB)))
              | None => None
              end.
Proof.
  intros Hs. unfold vread. rewrite (translate_page_at lo hi) by done. by destruct (page_at s _) as [[]|].
Qed.

Lemma vflags_page_at lo hi s a :
  space_ok lo hi s -> vflags s a = snd <$> page_at s (round_down a Size4KiB).
Proof.
  intros Hs. unfold vflags. rewrite (translate_page_at lo hi) by done. by destruct (page_at s _) as [[]|].
Qed.

Lemma page_at_aligned lo hi s p l : space_ok lo hi s -> page_at s p = Some l -> (Size4KiB | p).
Proof. intros Hs Hp. eapply pt_view_aligned; [apply Hs|done]. Qed.

(** A page without a leaf is vacant. *)
Lemma vacant_page lo hi s p sz' p' l :
  space_ok lo hi s -> (Size4KiB | p) -> page_at s p = None ->
  pt_view (page_table s) sz' p' = Some l -> p' + sz' <= p \/ p + Size4KiB <= p'.
Proof.
  intros Hs Hp Hn Hl. pose proof (so_small _ _ _ Hs _ _ _ Hl) as ->.
  pose proof (page_at_aligned _ _ _ _ _ Hs Hl) as Hp'.
  destruct (decide (p' + Size4KiB <= p)), (decide (p + Size4KiB <= p')); [lia..|].
  assert (p' = p) as ->; [|unfold page_at in Hn; congruence].
  destruct (decide (p' <= p)); [|symmetry]; apply (divide_close _ _ Size4KiB Size4KiB_pos); done || lia.
Qed.

(** * Mapping a page *)

(** [map_to] of a vacant page, as the loader calls it. *)
Lemma map_to_4k_spec lo hi s p f fl k :
  space_ok lo hi s -> frames (3 + k) s ->
  (Size4KiB | p) -> 0 <= p -> p + Size4KiB <= 2 ^ 47 -> page_at s p = None ->
  (Size4KiB | f) -> 0 <= f -> f + Size4KiB <= 2 ^ 52 -> flags_ok fl -> f ∉ free s ->
  (forall q fl', page_at s q = Some (f, fl') -> contains fl COPIED = false /\ contains fl' COPIED = false) ->
  (contains fl COPIED = true -> apart lo hi f) ->
  exists s', map_to_4k p f fl s = Ret (Ok (Ok tt), s') /\ space_ok lo hi s' /\ frames k s' /\
    evolves lo hi s s' /\ memory s' = memory s /\
    forall q, page_at s' q = if decide (q = p) then Some (f, fl) else page_at s q.
Proof.
  intros Hs Hk Hp Hp0 Hp1 Hn Hf Hf0 Hf1 Hfl Hfree Hshare Hout.
  destruct (map_to_vacant (page_table s) Size4KiB p f fl (frame_allocator s)) as
    (pt' & fa' & Hm & Hi' & Ht & Hv); try done;
    [apply Hs|by apply (has_frames_le _ (3 + k)); [lia|]|by left| |].
  { intros sz' p' l Hl. by eapply vacant_page. }
  destruct (takes_has 3 k _ _ Hk Ht) as [Hk' (j & _ & Hj)].
  set (s' := set_frame_allocator (set_page_table s pt') fa').
  assert (Hpa : forall q, page_at s' q = if decide (q = p) then Some (f, fl) else page_at s q).
  { intros q. unfold page_at, s'. simpl. rewrite Hv. unfold new_leaf.
    destruct (decide (q = p)); [|by rewrite decide_False by tauto].
    rewrite decide_True by done. by rewrite decide_False by done. }
  assert (Hsub : forall g, g ∈ free s' -> g ∈ free s).
  { intros g. unfold free, s'. simpl. rewrite Hj. apply elem_of_drop. }
  exists s'. split; [|split; [|split; [|split; [|split]]]]; try done.
  - unfold map_to_4k. by rewrite Hm.
  - split; try done.
    + intros sz q l. unfold s'. simpl. rewrite Hv. destruct (decide (sz = Size4KiB)); [done|].
      rewrite decide_False by tauto. apply (so_small _ _ _ Hs).
    + intros q g gl. rewrite Hpa. case_decide; [intros [= <- <-]; subst; done|apply (so_page _ _ _ Hs)].
    + intros q g gl. rewrite Hpa. case_decide.
      * intros [= <- <-]. split_and!; try done. auto.
      * intros Hq. destruct (so_frame _ _ _ Hs _ _ _ Hq) as (? & ? & ? & ?). split_and!; auto.
    + intros q q' g gl gl'. rewrite !Hpa. case_decide as Hq; case_decide as Hq'; subst; try done.
      * intros [= <- <-] Hc Hg. destruct (Hshare _ _ Hg). congruence.
      * intros Hg Hc [= -> ->]. destruct (Hshare _ _ Hg). congruence.
      * apply (so_private _ _ _ Hs).
    + intros q g gl. rewrite Hpa. case_decide; [intros [= <- <-]; done|apply (so_outside _ _ _ Hs)].
    + intros g Hg. apply (so_free _ _ _ Hs). auto.
  - split; try done; [by exists j|by exists 3%nat].
Qed.

(** * Single steps *)

Lemma allocate_unwrap_spec lo hi s k :
  space_ok lo hi s -> frames (S k) s ->
  exists f s', allocate_unwrap s = Ret (Ok f, s') /\ space_ok lo hi s' /\ frames k s' /\
    evolves lo hi s s' /\ memory s' = memory s /\ page_table s' = page_table s /\
    f ∈ free s /\ (f ∉ free s') /\ (Size4KiB | f) /\ 0 <= f /\ f + Size4KiB <= 2 ^ 52.
Proof.
  intros Hs Hk. destruct (allocate_has k (frame_allocator s) Hk) as (f & fa' & Ha & Hf & Hk').
  destruct (allocate_fresh _ _ _ _ Hk Hf) as (Hnf & Hd & H0 & H1).
  assert (Hsub : forall g, g ∈ fa_free fa' -> g ∈ free s).
  { intros g Hg. unfold free. rewrite Hf. by right. }
  exists f, (set_frame_allocator s fa'). split; [|split; [|split; [|split; [|split_and!]]]]; try done.
  - unfold allocate_unwrap. by rewrite Ha.
  - destruct Hs. split; try done.
    + intros p g fl Hp. destruct (so_frame0 _ _ _ Hp) as (? & ? & ? & ?). split_and!; auto.
    + intros g Hg. apply so_free0. auto.
  - split; try done; exists 1%nat; [unfold free; simpl; by rewrite Hf|by eapply takes_one].
  - unfold free. rewrite Hf. by left.
Qed.

(** A change of memory that leaves the file alone. *)
Lemma set_memory_ok lo hi s m :
  space_ok lo hi s -> (forall a, lo <= a < hi -> m a = memory s a) ->
  space_ok lo hi (set_memory s m) /\ evolves lo hi s (set_memory s m).
Proof. intros [] Hm. split; split; try done; [by exists O|exists O; apply takes_refl]. Qed.

Lemma set_page_table_evolves lo hi s pt : evolves lo hi s (set_page_table s pt).
Proof. split; [done..|by exists O|exists O; apply takes_refl]. Qed.

Lemma unmap_ok lo hi s p f fl :
  space_ok lo hi s -> page_at s p = Some (f, fl) ->
  exists pt, unmap (page_table s) p = (Ok f, pt) /\ space_ok lo hi (set_page_table s pt) /\
    forall q, page_at (set_page_table s pt) q = if decide (q = p) then None else page_at s q.
Proof.
  intros Hs Hp. destruct (unmap_spec _ _ _ _ (so_inv _ _ _ Hs) Hp) as (pt & Hu & Hi & Hv).
  exists pt. split; [done|].
  assert (Hpa : forall q, page_at (set_page_table s pt) q = if decide (q = p) then None else page_at s q).
  { intros q. unfold page_at. simpl. rewrite Hv. destruct (decide (q = p)).
    - by rewrite decide_True by done.
    - by rewrite decide_False by tauto. }
  split; [|done].
  destruct Hs. split; try done.
  - intros sz q l. simpl. rewrite Hv. case_decide; [done|apply so_small0].
  - intros q g gl. rewrite Hpa. case_decide; [done|apply so_page0].
  - intros q g gl. rewrite Hpa. case_decide; [done|apply so_frame0].
  - intros q q' g gl gl'. rewrite !Hpa. case_decide; [done|]. case_decide; [done|]. apply so_private0.
  - intros q g gl. rewrite Hpa. case_decide; [done|apply so_outside0].
Qed.

(** Two frames that share an address are the same. *)
Lemma frames_disjoint f g i j :
  (Size4KiB | f) -> (Size4KiB | g) -> 0 <= i < Size4KiB -> 0 <= j < Size4KiB -> f + i = g + j -> f = g.
Proof.
  intros Hf Hg Hi Hj Heq. destruct (decide (f <= g)).
  - apply (divide_close _ _ Size4KiB Size4KiB_pos); done || lia.
  - symmetry. apply (divide_close _ _ Size4KiB Size4KiB_pos); done || lia.
Qed.

(** * make_mut *)

(** What [make_mut] and the writes after it do to one page [p]: it becomes
    private; the other pages keep their leaves, and all other bytes of mapped
    pages their values. *)
Record privatised (lo hi : Z) (p f fl : Z) (s : Inner M F) (g : Z) (s' : Inner M F) : Prop := {
  pv_ok : space_ok lo hi s';
  pv_evolves : evolves lo hi s s';
  pv_pages q : page_at s' q = if decide (q = p) then Some (g, Z.lor fl COPIED) else page_at s q;
  pv_bytes q h hl i : page_at s q = Some (h, hl) -> 0 <= i < Size4KiB ->
    memory s' (h + i) = memory s (h + i);
  pv_page i : 0 <= i < Size4KiB -> memory s' (g + i) = memory s (f + i);
}.

Lemma contains_lor_copied fl : contains (Z.lor fl COPIED) COPIED = true.
Proof.
  unfold COPIED, BIT_9. change 512 with (2 ^ 9). rewrite contains_bit by lia.
  by rewrite Z.lor_spec, Z.pow2_bits_true, orb_true_r by lia.
Qed.

Lemma lor_copied_id fl : contains fl COPIED = true -> Z.lor fl COPIED = fl.
Proof.
  unfold COPIED, BIT_9. change 512 with (2 ^ 9). rewrite contains_bit by lia. intros H.
  apply Z.bits_inj'. intros n Hn. rewrite Z.lor_spec, Z.pow2_bits_eqb by lia.
  destruct (Z.eqb_spec 9 n) as [<-|]; [by rewrite H|by rewrite orb_false_r].
Qed.

Lemma page_id lo hi s p l : space_ok lo hi s -> page_at s p = Some l -> round_down p Size4KiB = p.
Proof. intros Hs Hp. apply round_down_id; [done|]. by eapply page_at_aligned. Qed.

(** [make_mut] is copy on write: the page keeps its bytes, in a frame that no
    other page has. *)
Lemma make_mut_spec lo hi s p f fl k :
  space_ok lo hi s -> frames (4 + k) s -> page_at s p = Some (f, fl) ->
  exists g s', make_mut p s = Ret (Ok g, s') /\ privatised lo hi p f fl s g s' /\ frames k s'.
Proof.
  intros Hs Hk Hp.
  assert (Htr : translate (page_table s) p = Mapped (Mapped4KiB f) (p - p) fl).
  { rewrite (translate_page_at lo hi) by done. by rewrite (page_id lo hi s p (f, fl)), Hp by done. }
  unfold make_mut. rewrite load_bind_get, Htr.
  erewrite load_bind_lift by done. cbn [fst snd]. erewrite load_bind_lift by done.
  destruct (contains fl COPIED) eqn:Hc.
  - exists f, s. split; [done|]. split; [|by apply (has_frames_le _ (4 + k)); [lia|]].
    split; try done; [apply evolves_refl|]. intros q. case_decide; [|done].
    subst. by rewrite lor_copied_id.
  - destruct (allocate_unwrap_spec lo hi s (3 + k) Hs Hk) as
      (g & s1 & Ha & Hs1 & Hk1 & He1 & Hm1 & Hpt1 & Hg & Hg1 & Hgd & Hg0 & Hg2).
    erewrite load_bind_Ret by exact Ha. rewrite load_bind_get.
    erewrite load_bind_Ret by done. rewrite load_bind_get.
    set (m2 := write_bytes (memory s1) g (read_bytes (memory s1) f (Z.to_nat Size4KiB))).
    assert (Hlen : Z.of_nat (length (read_bytes (memory s1) f (Z.to_nat Size4KiB))) = Size4KiB).
    { rewrite length_read_bytes. done. }
    pose proof (so_free _ _ _ Hs g Hg) as Hga.
    destruct (set_memory_ok lo hi s1 m2) as [Hs2 He2]; [done| |].
    { intros a Hlh. unfold m2. apply write_bytes_out. rewrite Hlen. unfold apart in Hga. lia. }
    set (s2 := set_memory s1 m2) in *.
    assert (Hpa2 : forall q, page_at s2 q = page_at s q) by (intros q; unfold page_at, s2; simpl; by rewrite Hpt1).
    destruct (unmap_ok lo hi s2 p f fl) as (pt & Hu & Hs3 & Hpa3); [done|by rewrite Hpa2|].
    change (page_table s2) with (page_table s1) in Hu. simpl. rewrite Hu. simpl.
    erewrite load_bind_lift by done. erewrite load_bind_Ret by done.
    change (set_page_table _ pt) with (set_page_table s2 pt).
    set (s3 := set_page_table s2 pt) in *.
    destruct (so_page _ _ _ Hs _ _ _ Hp) as (Hp0 & Hp1 & Hfl).
    assert (Hother : forall q gl, page_at s q <> Some (g, gl)).
    { intros q gl Hq. by destruct (so_frame _ _ _ Hs _ _ _ Hq) as (_ & _ & _ & []). }
    destruct (map_to_4k_spec lo hi s3 p g (Z.lor fl COPIED) k) as
      (s4 & Hm4 & Hs4 & Hk4 & He4 & Hmem4 & Hpa4);
      [exact Hs3|exact Hk1|exact (page_at_aligned _ _ _ _ _ Hs Hp)|exact Hp0|exact Hp1|..|exact Hgd
      |exact Hg0|exact Hg2|by apply flags_ok_lor|exact Hg1| |intros _; exact Hga|].
    { rewrite Hpa3. by rewrite decide_True. }
    { intros q gl. rewrite Hpa3, Hpa2. case_decide; [done|]. intros Hq. by destruct (Hother q gl). }
    erewrite load_bind_Ret by exact Hm4. erewrite load_bind_lift by done.
    exists g, s4. split; [done|]. split; [|done]. split.
    + done.
    + eapply evolves_trans; [exact He1|]. eapply evolves_trans; [exact He2|].
      eapply evolves_trans; [|exact He4]. apply (set_page_table_evolves lo hi s2 pt).
    + intros q. rewrite Hpa4, Hpa3, Hpa2. by case_decide.
    + intros q h hl i Hq Hi. rewrite Hmem4. unfold s3, s2. simpl. unfold m2. rewrite Hm1.
      apply write_bytes_out. rewrite <- Hm1, Hlen.
      destruct (so_frame _ _ _ Hs _ _ _ Hq) as (Hhd & _ & _ & _).
      destruct (decide (h + i < g)), (decide (g + Size4KiB <= h + i)); [lia..|].
      destruct (Hother q hl). rewrite Hq. repeat f_equal.
      apply (frames_disjoint _ _ i (h + i - g) Hhd Hgd); lia.
    + intros i Hi. rewrite Hmem4. unfold s3, s2. simpl. unfold m2.
      rewrite write_bytes_in by lia. rewrite nth_read_bytes by (unfold Size4KiB in *; lia).
      rewrite Hm1. f_equal. lia.
Qed.
End Space.
