(* ===== verification/KernelCopy.v ===== *)
(** [copy_to] and [copy_from] of initium/src/kernel.rs: the address space as
    one array of bytes.

    The loader splits a virtual range into pages, finds the frame of each and
    copies bytes through physical memory, [copy_to] copying shared frames
    first.  Seen from the virtual address space this is a plain write, and a
    plain read. *)

From S2P Require Import Prelude X86 Entries FrameAlloc Paging Kernel KernelSpace.

(** The bytes [bs] written at [addr]. *)
Definition vwrite (v : Z -> option Z) (addr : Z) (bs : list Z) : Z -> option Z :=
  fun a => if decide (addr <= a < addr + Z.of_nat (length bs))
           then Some (nth (Z.to_nat (a - addr)) bs 0) else v a.

(** The number of pages that the bytes from [addr] to [last] lie in. *)
Definition page_span (addr last : Z) : Z :=
  (round_down last Size4KiB - round_down addr Size4KiB) / Size4KiB + 1.

Section Parts.
Context {X : X86_64} {XL : X86_64_Laws X} {P : Profile}.

(** The last page of a range stays in the lower half. *)
Lemma round_down_top a : a < 2 ^ 47 -> round_down a Size4KiB + Size4KiB <= 2 ^ 47.
Proof.
  intros Ha. pose proof (round_down_bounds a Size4KiB Size4KiB_pos).
  apply (divide_lt_step _ _ _ Size4KiB_pos); [by apply round_down_divide|compute_divide|lia].
Qed.

Lemma round_down_nonneg a : 0 <= a -> 0 <= round_down a Size4KiB.
Proof. intros Ha. apply round_down_le_multiple; [done|by exists 0|done]. Qed.

Lemma pages_of_spec addr len :
  0 <= addr -> 0 < len -> addr + len <= 2 ^ 47 ->
  pages_of addr len = Ret (addr + len - 1,
    addr_range Size4KiB (round_down addr Size4KiB) (round_down (addr + len - 1) Size4KiB)).
Proof.
  intros Ha Hl Hb. unfold pages_of. rewrite u64_sub_ok, bind_Ret by (unfold u64_size; lia).
  rewrite virt_forward_spec by lia. simpl. rewrite !page_containing_4k by lia.
  replace (addr + (len - 1)) with (addr + len - 1) by lia.
  rewrite page_range_spec; [done|by left|by apply round_down_divide|by apply round_down_divide| |].
  - by apply round_down_nonneg.
  - apply round_down_top. lia.
Qed.

Lemma page_part_spec addr last page :
  0 <= addr -> 0 <= page -> page + Size4KiB <= 2 ^ 47 -> addr <= last < 2 ^ 47 ->
  page <= last -> addr < page + Size4KiB ->
  page_part addr last page =
    Ret (Z.max addr page - page, Z.max addr page - addr,
         Z.min last (page + 4095) - Z.max addr page + 1).
Proof.
  unfold Size4KiB. intros Ha Hp Hp2 Hl H1 H2. unfold page_part.
  rewrite virt_add_low, bind_Ret by lia. rewrite !virt_diff_spec, !bind_Ret by lia.
  rewrite u64_sub_ok, bind_Ret by (unfold u64_size; lia).
  rewrite u64_add_ok, bind_Ret by (unfold u64_size; lia).
  rewrite virt_steps_spec by lia. simpl. do 2 f_equal. lia.
Qed.

Lemma subslice_spec buf start len :
  0 <= start -> 0 <= len -> start + len <= Z.of_nat (length buf) ->
  subslice buf start len = Ret (take (Z.to_nat len) (drop (Z.to_nat start) buf)).
Proof.
  intros H0 H1 H2. unfold subslice.
  destruct (Z.leb_spec start (Z.of_nat (length buf))), (Z.leb_spec len (Z.of_nat (length buf) - start));
    simpl; lia || done.
Qed.
End Parts.

Section Copy.
Context {X : X86_64} {XL : X86_64_Laws X} {P : Profile}.
Context {M F : Type} {FA : FrameAllocator F} {FL : FreeList F} {PT : PageTable M F}.
Context {PL : PageTableLaws M F}.

(** The flags of a page, less the bookkeeping bit. *)
Definition base_flags (s : Inner M F) (q : Z) : option Z :=
  (fun l => Z.ldiff (snd l) COPIED) <$> page_at s q.

(** [s'] is reached from [s], with the same pages mapped, and its virtual
    memory is [v]. *)
Record effect (lo hi : Z) (s s' : Inner M F) (v : Z -> option Z) : Prop := {
  ef_ok : space_ok lo hi s';
  ef_evolves : evolves lo hi s s';
  ef_flags q : base_flags s' q = base_flags s q;
  ef_read a : vread s' a = v a;
}.

Lemma ldiff_lor_copied fl : Z.ldiff (Z.lor fl COPIED) COPIED = Z.ldiff fl COPIED.
Proof.
  apply Z.bits_inj'. intros n Hn. rewrite !Z.ldiff_spec, Z.lor_spec.
  destruct (Z.testbit fl n), (Z.testbit COPIED n); done.
Qed.

Lemma privatised_flags lo hi p f fl s g s' q :
  page_at s p = Some (f, fl) -> privatised lo hi p f fl s g s' -> base_flags s' q = base_flags s q.
Proof.
  intros Hp Hv. unfold base_flags. rewrite (pv_pages _ _ _ _ _ _ _ _ Hv). case_decide; [|done].
  subst. rewrite Hp. simpl. by rewrite ldiff_lor_copied.
Qed.

Lemma privatised_vread lo hi p f fl s g s' a :
  space_ok lo hi s -> page_at s p = Some (f, fl) -> privatised lo hi p f fl s g s' ->
  vread s' a = vread s a.
Proof.
  intros Hs Hp Hv. rewrite (vread_page_at lo hi s'), (vread_page_at lo hi s) by (done || apply Hv).
  rewrite (pv_pages _ _ _ _ _ _ _ _ Hv).
  pose proof (round_down_bounds a Size4KiB Size4KiB_pos) as Hb.
  case_decide as Hq.
  - rewrite Hq, Hp. rewrite Hq in Hb. f_equal. apply (pv_page _ _ _ _ _ _ _ _ Hv). lia.
  - destruct (page_at s (round_down a Size4KiB)) as [[h hl]|] eqn:E; [|done].
    f_equal. apply (pv_bytes _ _ _ _ _ _ _ _ Hv _ _ _ _ E). lia.
Qed.

(** A write to a private page is a write of the virtual memory. *)
Lemma write_private_page lo hi s p g fl off bs :
  space_ok lo hi s -> page_at s p = Some (g, fl) -> contains fl COPIED = true ->
  0 <= off -> off + Z.of_nat (length bs) <= Size4KiB ->
  effect lo hi s (set_memory s (write_bytes (memory s) (g + off) bs)) (vwrite (vread s) (p + off) bs).
Proof.
  intros Hs Hp Hc H0 H1.
  pose proof (so_outside _ _ _ Hs _ _ _ Hp Hc) as Hap.
  destruct (set_memory_ok lo hi s (write_bytes (memory s) (g + off) bs)) as [Hs' He]; [done| |].
  { intros a Ha. apply write_bytes_out. unfold apart in Hap. lia. }
  split; [done|done|done|]. intros a. unfold vwrite.
  rewrite (vread_page_at lo hi _ a Hs'), (vread_page_at lo hi s a Hs).
  change (page_at (set_memory s _) (round_down a Size4KiB)) with (page_at s (round_down a Size4KiB)).
  pose proof (round_down_bounds a Size4KiB Size4KiB_pos) as Hb.
  pose proof (page_at_aligned _ _ _ _ _ Hs Hp) as Hpd.
  destruct (decide (round_down a Size4KiB = p)) as [Hq|Hq].
  - rewrite Hq, Hp. simpl. case_decide as Hin.
    + rewrite write_bytes_in by lia. do 3 f_equal. lia.
    + by rewrite write_bytes_out by lia.
  - rewrite decide_False.
    2: { intros Hin. apply Hq. symmetry.
         apply (divide_close _ _ Size4KiB Size4KiB_pos Hpd); [by apply round_down_divide|].
         split; [by apply round_down_le_multiple; [done|..|lia]|lia]. }
    destruct (page_at s (round_down a Size4KiB)) as [[h hl]|] eqn:E; [|done].
    f_equal. simpl. apply write_bytes_out.
    destruct (so_frame _ _ _ Hs _ _ _ E) as (Hhd & _), (so_frame _ _ _ Hs _ _ _ Hp) as (Hgd & _).
    destruct (decide (h + (a - round_down a Size4KiB) < g + off)),
      (decide (g + off + Z.of_nat (length bs) <= h + (a - round_down a Size4KiB))); [lia..|].
    destruct Hq. apply (so_private _ _ _ Hs p _ g fl hl); [done|done|].
    rewrite E. do 2 f_equal.
    apply (frames_disjoint h g (a - round_down a Size4KiB)
      (h + (a - round_down a Size4KiB) - g) Hhd Hgd); lia.
Qed.

(** [make_mut] followed by a write. *)
Lemma make_mut_write lo hi s p l off bs k :
  space_ok lo hi s -> frames (4 + k) s -> page_at s p = Some l ->
  0 <= off -> off + Z.of_nat (length bs) <= Size4KiB ->
  exists g s1, make_mut p s = Ret (Ok g, s1) /\ 0 <= g /\ g + Size4KiB <= 2 ^ 52 /\
    effect lo hi s (set_memory s1 (write_bytes (memory s1) (g + off) bs)) (vwrite (vread s) (p + off) bs) /\
    frames k (set_memory s1 (write_bytes (memory s1) (g + off) bs)).
Proof.
  destruct l as [f fl]. intros Hs Hk Hp H0 H1.
  destruct (make_mut_spec lo hi s p f fl k Hs Hk Hp) as (g & s1 & Hm & Hv & Hk1).
  assert (Hp1 : page_at s1 p = Some (g, Z.lor fl COPIED)).
  { rewrite (pv_pages _ _ _ _ _ _ _ _ Hv). by rewrite decide_True. }
  destruct (so_frame _ _ _ (pv_ok _ _ _ _ _ _ _ _ Hv) _ _ _ Hp1) as (_ & Hg0 & Hg1 & _).
  destruct (write_private_page lo hi s1 p g (Z.lor fl COPIED) off bs) as [E1 E2 E3 E4]; try done.
  { apply Hv. } { apply contains_lor_copied. }
  exists g, s1. split; [done|]. split; [done|]. split; [done|]. split; [|done].
  split; [done| | |].
  - eapply evolves_trans; [apply Hv|done].
  - intros q. rewrite E3. by eapply privatised_flags.
  - intros a. rewrite E4. unfold vwrite. case_decide; [done|]. by eapply privatised_vread.
Qed.

(** Writing the next part of a buffer after a prefix of it. *)
Lemma vwrite_extend v addr buf (n m : nat) a :
  (n <= m)%nat -> (m <= length buf)%nat ->
  vwrite (vwrite v addr (take n buf)) (addr + Z.of_nat n) (take (m - n) (drop n buf)) a =
  vwrite v addr (take m buf) a.
Proof.
  intros Hnm Hm. unfold vwrite. rewrite !length_take, length_drop.
  repeat case_decide; try lia; try done; f_equal; rewrite !nth_lookup; f_equal.
  - rewrite !lookup_take_lt, lookup_drop by lia. f_equal. lia.
  - rewrite !lookup_take_lt by lia. done.
Qed.

Lemma base_flags_mapped (s s' : Inner M F) q l :
  base_flags s' q = base_flags s q -> page_at s q = Some l -> exists l', page_at s' q = Some l'.
Proof. unfold base_flags. intros H E. rewrite E in H. destruct (page_at s' q); [eauto|done]. Qed.

Lemma vread_mapped lo hi s a :
  space_ok lo hi s -> is_Some (vread s a) -> exists l, page_at s (round_down a Size4KiB) = Some l.
Proof.
  intros Hs. rewrite (vread_page_at lo hi) by done.
  destruct (page_at s _) as [l|]; [by eexists|by intros []].
Qed.

(** The pages of a range, one by one. *)
Lemma page_of_range addr last don page rest :
  0 <= addr <= last ->
  addr_range Size4KiB (round_down addr Size4KiB) (round_down last Size4KiB) = don ++ page :: rest ->
  page = round_down addr Size4KiB + Size4KiB * Z.of_nat (length don) /\
  Z.of_nat (length don) < page_span addr last /\ (Size4KiB | page) /\
  0 <= page <= last /\ addr < page + Size4KiB.
Proof.
  intros Ha Hr.
  assert (Hl : addr_range Size4KiB (round_down addr Size4KiB) (round_down last Size4KiB) !! length don
    = Some page) by (rewrite Hr, lookup_app_r, Nat.sub_diag by lia; done).
  assert (Hin : page ∈ addr_range Size4KiB (round_down addr Size4KiB) (round_down last Size4KiB)).
  { by eapply list_elem_of_lookup_2. }
  apply addr_range_lookup in Hl as [-> Hlt]; [|done].
  apply elem_of_addr_range in Hin as [Hd Hb]; [|done|by apply round_down_divide..].
  pose proof (round_down_bounds addr Size4KiB Size4KiB_pos).
  pose proof (round_down_bounds last Size4KiB Size4KiB_pos).
  pose proof (round_down_nonneg addr ltac:(lia)).
  split_and!; try done; unfold page_span; lia.
Qed.

Lemma length_pages addr last :
  0 <= addr <= last ->
  Z.of_nat (length (addr_range Size4KiB (round_down addr Size4KiB) (round_down last Size4KiB))) =
    page_span addr last /\
  round_down addr Size4KiB + Size4KiB * page_span addr last = round_down last Size4KiB + Size4KiB.
Proof.
  intros Ha. pose proof (round_down_divide addr Size4KiB ltac:(done)) as [i Hi].
  pose proof (round_down_divide last Size4KiB ltac:(done)) as [j Hj].
  assert (i <= j) as Hij.
  { pose proof (round_down_bounds addr Size4KiB Size4KiB_pos).
    pose proof (round_down_bounds last Size4KiB Size4KiB_pos). unfold Size4KiB in *. lia. }
  unfold page_span, addr_range, range0. rewrite length_fmap, length_seqZ, Hi, Hj.
  rewrite <- Z.mul_sub_distr_r, Z.div_mul by done. lia.
Qed.

(** One page of [copy_to]. *)
Lemma copy_to_page lo hi s addr buf page l k :
  let last := addr + Z.of_nat (length buf) - 1 in
  space_ok lo hi s -> frames (4 + k) s -> page_at s page = Some l ->
  0 <= addr <= last -> addr + Z.of_nat (length buf) <= 2 ^ 47 ->
  0 <= page <= last -> addr < page + Size4KiB ->
  let n := Z.to_nat (Z.max addr page - addr) in
  let m := Z.to_nat (Z.min (last + 1) (page + Size4KiB) - addr) in
  exists s', (frame ← make_mut page;
    part ← lift (page_part addr last page);
    let '(in_frame, in_buf, copy_len) := part in
    start_phys_addr ← lift (PhysAddr_add frame in_frame);
    src ← lift (subslice buf in_buf copy_len);
    write_mem start_phys_addr src) s = Ret (Ok tt, s') /\
  effect lo hi s s' (vwrite (vread s) (addr + Z.of_nat n) (take (m - n) (drop n buf))) /\ frames k s'.
Proof.
  intros last Hs Hk Hp Ha Hb Hpage Hend n m.
  destruct l as [lf lfl]. destruct (so_page _ _ _ Hs page lf lfl Hp) as (Hp0 & Hp1 & _).
  assert (Hnm : (n <= m)%nat /\ (m <= length buf)%nat) by (unfold n, m, last, Size4KiB in *; lia).
  destruct (make_mut_write lo hi s page (lf, lfl) (Z.max addr page - page) (take (m - n) (drop n buf)) k)
    as (g & s1 & Hm & Hg0 & Hg1 & Hef & Hk1); [done|done|done|lia| |].
  { rewrite length_take, length_drop. unfold n, m, last, Size4KiB in *. lia. }
  erewrite load_bind_Ret by exact Hm.
  erewrite load_bind_lift by (apply page_part_spec; unfold last, Size4KiB in *; lia).
  cbn beta iota. erewrite load_bind_lift by (apply phys_add_ok; unfold last, Size4KiB in *; lia).
  erewrite load_bind_lift by (apply subslice_spec; unfold last, Size4KiB in *; lia).
  replace (Z.to_nat (Z.min last (page + 4095) - Z.max addr page + 1)) with (m - n)%nat
    by (unfold n, m, last, Size4KiB in *; lia).
  eexists. split; [reflexivity|]. split; [|done].
  replace (addr + Z.of_nat n) with (page + (Z.max addr page - page)) by (unfold n; lia). done.
Qed.

Lemma effect_refl lo hi s : space_ok lo hi s -> effect lo hi s s (vread s).
Proof. intros Hs. split; [done|apply evolves_refl|done|done]. Qed.

Lemma effect_trans lo hi s1 s2 s3 v2 v3 :
  effect lo hi s1 s2 v2 -> effect lo hi s2 s3 v3 -> effect lo hi s1 s3 v3.
Proof.
  intros [A1 A2 A3 A4] [B1 B2 B3 B4]. split; [done|by eapply evolves_trans| |done].
  intros q. by rewrite B3, A3.
Qed.

Lemma effect_ext lo hi s s' v v' : effect lo hi s s' v -> (forall a, v a = v' a) -> effect lo hi s s' v'.
Proof. intros [E1 E2 E3 E4] H. split; try done. intros a. by rewrite E4. Qed.

Lemma vwrite_ext v v' addr bs a : (forall a, v a = v' a) -> vwrite v addr bs a = vwrite v' addr bs a.
Proof. intros H. unfold vwrite. by rewrite H. Qed.

(** [copy_to] writes exactly the bytes of its buffer. *)
Lemma copy_to_spec lo hi s addr buf k :
  space_ok lo hi s -> 0 < Z.of_nat (length buf) -> 0 <= addr -> addr + Z.of_nat (length buf) <= 2 ^ 47 ->
  (forall a, addr <= a < addr + Z.of_nat (length buf) -> is_Some (vread s a)) ->
  frames (4 * Z.to_nat (page_span addr (addr + Z.of_nat (length buf) - 1)) + k) s ->
  exists s', copy_to addr buf s = Ret (Ok tt, s') /\
    effect lo hi s s' (vwrite (vread s) addr buf) /\ frames k s'.
Proof.
  intros Hs Hl Ha Hb Hmap Hk. set (last := addr + Z.of_nat (length buf) - 1) in *.
  set (N := Z.to_nat (page_span addr last)) in *.
  unfold copy_to. erewrite load_bind_lift by (apply pages_of_spec; lia). cbn [fst snd].
  set (pages := addr_range Size4KiB (round_down addr Size4KiB) (round_down last Size4KiB)).
  set (B := fun i : nat => round_down addr Size4KiB + Size4KiB * Z.of_nat i).
  assert (Hlast : 0 <= addr <= last) by (unfold last; lia).
  pose proof (length_pages addr last Hlast) as [HlenN Htop]. fold pages in HlenN.
  pose proof (round_down_bounds addr Size4KiB Size4KiB_pos).
  pose proof (round_down_bounds last Size4KiB Size4KiB_pos).
  destruct (for_each_invariant (fun don st =>
    effect lo hi s st (vwrite (vread s) addr (take (Z.to_nat (B (length don) - addr)) buf)) /\
    frames (4 * (N - length don) + k) st) pages (fun page =>
      frame ← make_mut page;
      part ← lift (page_part addr last page);
      let '(in_frame, in_buf, copy_len) := part in
      start_phys_addr ← lift (PhysAddr_add frame in_frame);
      src ← lift (subslice buf in_buf copy_len);
      write_mem start_phys_addr src) s) as (s' & Hr & Hef & Hk').
  - split; [|simpl; by rewrite Nat.sub_0_r].
    eapply effect_ext; [by apply effect_refl|]. intros a. unfold B. simpl.
    replace (Z.to_nat _) with 0%nat by lia. unfold vwrite. simpl. by rewrite decide_False by lia.
  - intros don page rest st Hpg [Hef Hkst].
    destruct (page_of_range _ _ _ _ _ Hlast Hpg) as (Hpeq & Hlt & Hpd & Hpb & Hpe).
    fold (B (length don)) in Hpeq.
    destruct (vread_mapped lo hi s (Z.max addr page) Hs) as [l0 Hl0]; [apply Hmap; unfold last in *; lia|].
    assert (Hrd : round_down (Z.max addr page) Size4KiB = page).
    { symmetry. apply (divide_close _ _ Size4KiB Size4KiB_pos Hpd); [by apply round_down_divide|].
      pose proof (round_down_bounds (Z.max addr page) Size4KiB Size4KiB_pos).
      split; [by apply round_down_le_multiple; [done|..|lia]|lia]. }
    rewrite Hrd in Hl0.
    destruct (base_flags_mapped s st page l0) as [l1 Hl1]; [apply Hef|done|].
    destruct (copy_to_page lo hi st addr buf page l1 (4 * (N - S (length don)) + k)) as (s' & Hr & Hef' & Hk');
      try done; [apply Hef|by replace (4 + _)%nat with (4 * (N - length don) + k)%nat by lia|].
    fold last in Hr, Hef'. exists s'. split; [exact Hr|].
    split; [|by rewrite length_app, Nat.add_1_r].
    eapply effect_ext; [eapply effect_trans; [exact Hef|exact Hef']|].
    set (n := Z.to_nat (Z.max addr page - addr)). set (m := Z.to_nat (Z.min (last + 1) (page + Size4KiB) - addr)).
    intros a. erewrite vwrite_ext by apply Hef.
    replace (take (Z.to_nat (B (length don) - addr)) buf) with (take n buf)
      by (f_equal; unfold n; lia).
    rewrite vwrite_extend by (unfold n, m, last, Size4KiB in *; lia).
    f_equal. rewrite length_app. simpl. unfold m, B in *.
    destruct (decide (page + Size4KiB <= last + 1)).
    + f_equal. lia.
    + rewrite !take_ge; [done|..]; unfold last in *; lia.
  - exists s'. split; [exact Hr|].
    split; [|by replace (4 * (N - length pages) + k)%nat with k in Hk' by lia].
    eapply effect_ext; [exact Hef|]. intros a. rewrite take_ge; [done|]. unfold B, last in *. lia.
Qed.

(** Replacing a part of a buffer. *)
Lemma splice_nth (b c : list Z) (n : nat) i :
  (n + length c <= length b)%nat ->
  nth i (take n b ++ c ++ drop (n + length c) b) 0 =
    if decide (n <= i < n + length c)%nat then nth (i - n) c 0 else nth i b 0.
Proof.
  intros Hn. rewrite !nth_lookup.
  assert (Ht : length (take n b) = n) by (rewrite length_take; lia).
  case_decide; f_equal.
  - rewrite lookup_app_r, Ht by lia. by rewrite lookup_app_l by lia.
  - destruct (decide (i < n)%nat).
    + rewrite lookup_app_l by lia. by rewrite lookup_take_lt by lia.
    + rewrite !lookup_app_r, lookup_drop, Ht by lia. f_equal. lia.
Qed.

Lemma splice_length (b c : list Z) (n : nat) :
  (n + length c <= length b)%nat -> length (take n b ++ c ++ drop (n + length c) b) = length b.
Proof. intros Hn. rewrite !length_app, length_take, length_drop. lia. Qed.

(** [copy_from] reads the virtual memory. *)
Lemma copy_from_spec lo hi s addr buf :
  space_ok lo hi s -> 0 < Z.of_nat (length buf) -> 0 <= addr -> addr + Z.of_nat (length buf) <= 2 ^ 47 ->
  (forall a, addr <= a < addr + Z.of_nat (length buf) -> is_Some (vread s a)) ->
  exists bs, copy_from addr buf s = Ret (Ok bs, s) /\ length bs = length buf /\
    forall a, addr <= a < addr + Z.of_nat (length buf) ->
      vread s a = Some (nth (Z.to_nat (a - addr)) bs 0).
Proof.
  intros Hs Hl Ha Hb Hmap. set (last := addr + Z.of_nat (length buf) - 1).
  unfold copy_from. rewrite load_bind_get. erewrite load_bind_lift by (apply pages_of_spec; lia). cbn [fst snd].
  fold last. set (pages := addr_range Size4KiB (round_down addr Size4KiB) (round_down last Size4KiB)).
  set (B := fun i : nat => round_down addr Size4KiB + Size4KiB * Z.of_nat i).
  assert (Hlast : 0 <= addr <= last) by (unfold last; lia).
  pose proof (length_pages addr last Hlast) as [HlenN Htop]. fold pages in HlenN.
  pose proof (round_down_bounds addr Size4KiB Size4KiB_pos).
  pose proof (round_down_bounds last Size4KiB Size4KiB_pos).
  match goal with |- context [foldM ?body pages buf] => set (step := body) end.
  destruct (foldM_invariant (fun don b => length b = length buf /\
    forall a, addr <= a < Z.min (last + 1) (B (length don)) ->
      vread s a = Some (nth (Z.to_nat (a - addr)) b 0)) step pages buf) as (bs & Hr & Hlb & Hbs).
  - split; [done|]. intros a. unfold B. simpl. lia.
  - intros don page rest b Hpg [Hlb Hbs].
    destruct (page_of_range _ _ _ _ _ Hlast Hpg) as (Hpeq & Hlt & Hpd & Hpb & Hpe).
    fold (B (length don)) in Hpeq.
    assert (Hin : forall a, page <= a < page + Size4KiB -> round_down a Size4KiB = page).
    { intros a Hain. symmetry.
      apply (divide_close _ _ Size4KiB Size4KiB_pos Hpd); [by apply round_down_divide|].
      pose proof (round_down_bounds a Size4KiB Size4KiB_pos).
      split; [by apply round_down_le_multiple; [done|..|lia]|lia]. }
    destruct (vread_mapped lo hi s (Z.max addr page) Hs) as [[f fl] Hp];
      [apply Hmap; unfold last in *; lia|].
    rewrite Hin in Hp by lia.
    destruct (so_page _ _ _ Hs _ _ _ Hp) as (Hp0 & Hp1 & _).
    destruct (so_frame _ _ _ Hs _ _ _ Hp) as (_ & Hf0 & Hf1 & _).
    set (n := Z.to_nat (Z.max addr page - addr)).
    set (len := Z.min last (page + 4095) - Z.max addr page + 1).
    set (c := read_bytes (memory s) (f + (Z.max addr page - page)) (Z.to_nat len)).
    assert (Hlc : length c = Z.to_nat len) by apply length_read_bytes.
    assert (Hnc : (n + length c <= length b)%nat) by (unfold n, len, last, Size4KiB in *; lia).
    exists (take n b ++ c ++ drop (n + length c) b). split; [|split].
    + unfold step. rewrite (translate_page_mapped _ _ f fl) by (apply Hs || exact Hp).
      cbn [expect_ok]. rewrite bind_Ret.
      rewrite page_part_spec, bind_Ret by (unfold last, Size4KiB in *; lia).
      rewrite phys_add_ok, bind_Ret by (unfold Size4KiB in *; lia).
      rewrite subslice_spec, bind_Ret by (rewrite ?Hlb; unfold last, Size4KiB in *; lia).
      fold len. fold c. fold n. do 4 f_equal. rewrite Hlc. unfold n, len, last, Size4KiB in *. lia.
    + rewrite splice_length by done. done.
    + intros a Hab. rewrite length_app in Hab. simpl in Hab. rewrite splice_nth by done.
      destruct (decide (page <= a)) as [Hge|Hlow].
      * rewrite decide_True by (unfold n, len, B, last, Size4KiB in *; lia).
        unfold c. rewrite nth_read_bytes by (unfold n, len, B, last, Size4KiB in *; lia).
        rewrite (vread_page_at lo hi), Hin, Hp by (done || unfold B, Size4KiB in *; lia).
        do 2 f_equal. unfold n. lia.
      * rewrite decide_False by (unfold n; lia). apply Hbs. lia.
  - exists bs. unfold lift. rewrite Hr. split; [done|]. split; [done|].
    intros a Hab. apply Hbs. unfold B, last in *. lia.
Qed.
End Copy.
