(* ===== verification/KernelSegments.v ===== *)
(** [handle_load_segment] and [handle_bss_section] of initium/src/kernel.rs.

    A segment's pages are mapped to the frames of the file in memory; what the
    segment has beyond its file contents is zeroed, in a private copy of the
    last file page and in fresh frames.  The result is the image that the
    program header describes. *)

From S2P Require Import Prelude X86 Entries FrameAlloc Paging Kernel KernelSpace KernelCopy.

(** Arithmetic under [decide (_ /\ (Size4KiB | q))] for an aligned [q]. *)
Ltac page_cases :=
  repeat match goal with
    | H : ~ (?A /\ (Size4KiB | _)) |- _ => assert (~ A) by (intros ?; apply H; split; assumption); clear H
    | H : _ /\ (Size4KiB | _) |- _ => destruct H
    end; page_lia.

Section Segments.
Context {X : X86_64} {XL : X86_64_Laws X} {P : Profile}.
Context {M F : Type} {FA : FrameAllocator F} {FL : FreeList F} {PT : PageTable M F}.
Context {PL : PageTableLaws M F}.

(** [s'] is reached from [s]; its virtual memory is [v] and the flags of its
    pages are [b]. *)
Record reaches (lo hi : Z) (s s' : Inner M F) (v : Z -> option Z) (b : Z -> option Z) : Prop := {
  re_ok : space_ok lo hi s';
  re_evolves : evolves lo hi s s';
  re_read a : vread s' a = v a;
  re_flags q : base_flags s' q = b q;
}.

(** A new page at [p]. *)
Definition with_page (v : Z -> option Z) (p : Z) (byte : Z -> Z) : Z -> option Z :=
  fun a => if decide (p <= a < p + Size4KiB) then Some (byte (a - p)) else v a.

Definition with_flags (b : Z -> option Z) (p fl : Z) : Z -> option Z :=
  fun q => if decide (q = p) then Some fl else b q.

Lemma effect_reaches lo hi s s' v : effect lo hi s s' v -> reaches lo hi s s' v (base_flags s).
Proof. intros [E1 E2 E3 E4]. by split. Qed.

Lemma reaches_trans lo hi s1 s2 s3 v2 b2 v3 b3 :
  reaches lo hi s1 s2 v2 b2 -> reaches lo hi s2 s3 v3 b3 -> reaches lo hi s1 s3 v3 b3.
Proof. intros [A1 A2 A3 A4] [B1 B2 B3 B4]. split; [done|by eapply evolves_trans|done|done]. Qed.

Lemma reaches_ext lo hi s s' v b v' b' :
  reaches lo hi s s' v b -> (forall a, v a = v' a) -> (forall q, b q = b' q) -> reaches lo hi s s' v' b'.
Proof. intros [A1 A2 A3 A4] Hv Hb. split; [done|done|intros; by rewrite A3|intros; by rewrite A4]. Qed.

Lemma in_page p a : (Size4KiB | p) -> p <= a < p + Size4KiB <-> round_down a Size4KiB = p.
Proof.
  intros Hp. pose proof (round_down_bounds a Size4KiB Size4KiB_pos) as Hb. split; [|lia].
  by apply round_down_unique.
Qed.

(** [map_to_4k] of a frame that no private page has, seen as virtual memory. *)
Lemma map_page lo hi s p f fl k :
  space_ok lo hi s -> frames (3 + k) s ->
  (Size4KiB | p) -> 0 <= p -> p + Size4KiB <= 2 ^ 47 -> page_at s p = None ->
  (Size4KiB | f) -> 0 <= f -> f + Size4KiB <= 2 ^ 52 -> flags_ok fl -> contains fl COPIED = false ->
  f ∉ free s -> (forall q fl', page_at s q = Some (f, fl') -> contains fl' COPIED = false) ->
  exists s', map_to_4k p f fl s = Ret (Ok (Ok tt), s') /\ frames k s' /\ memory s' = memory s /\
    reaches lo hi s s' (with_page (vread s) p (fun i => memory s (f + i)))
      (with_flags (base_flags s) p (Z.ldiff fl COPIED)).
Proof.
  intros Hs Hk Hp Hp0 Hp1 Hn Hf Hf0 Hf1 Hfl Hc Hfree Hsh.
  destruct (map_to_4k_spec lo hi s p f fl k) as (s' & Hm & Hs' & Hk' & He & Hmem & Hpa);
    [done..|intros q fl' Hq; split; [done|by eapply Hsh]|congruence|].
  exists s'. split; [exact Hm|]. split; [exact Hk'|]. split; [exact Hmem|]. split.
  - exact Hs'.
  - exact He.
  - intros a. unfold with_page. rewrite (vread_page_at lo hi s'), Hpa, Hmem by done.
    destruct (decide (round_down a Size4KiB = p)) as [Hr|Hr].
    + rewrite decide_True by (by apply in_page). by rewrite Hr.
    + rewrite decide_False by (by rewrite in_page). by rewrite (vread_page_at lo hi s).
  - intros q. unfold with_flags, base_flags. rewrite Hpa. by case_decide.
Qed.

(** * Segments *)

(** The flags that [handle_load_segment] computes. *)
Lemma segment_flags_ok seg : flags_ok (segment_flags seg) /\ contains (segment_flags seg) COPIED = false /\
  Z.ldiff (segment_flags seg) COPIED = segment_flags seg.
Proof.
  unfold segment_flags. destruct (is_execute seg), (is_write seg); simpl;
    (split; [split; vm_compute; reflexivity|split; vm_compute; reflexivity]).
Qed.

(** Where a segment lies in virtual and in physical memory. *)
Definition seg_va (s : Inner M F) (seg : ProgramHeader) : Z :=
  VirtualAddressOffset.virtual_address_offset (virtual_address_offset s) + virtual_addr seg.
Definition seg_pa (s : Inner M F) (seg : ProgramHeader) : Z := kernel_offset s + ph_offset seg.

(** The last page of a segment. *)
Definition seg_last (s : Inner M F) (seg : ProgramHeader) : Z :=
  round_down (seg_va s seg + mem_size seg - 1) Size4KiB.

(** A header of a well-formed executable whose file lies in memory from [lo]
    to [hi]. *)
Record seg_ok (lo hi : Z) (s : Inner M F) (seg : ProgramHeader) : Prop := {
  sg_vaddr : 0 <= virtual_addr seg < 2 ^ 64;
  sg_file : 0 <= file_size seg <= mem_size seg;
  sg_mem : 0 < mem_size seg;
  sg_va : 0 <= seg_va s seg /\ seg_va s seg + mem_size seg <= 2 ^ 47 - Size4KiB;
  sg_offset : 0 <= ph_offset seg;
  sg_pa : lo <= seg_pa s seg /\ seg_pa s seg + file_size seg <= hi;
  sg_congruent : (Size4KiB | seg_va s seg - seg_pa s seg);
}.

(** The memory of the file: whole frames, in physical memory. *)
Record file_ok (lo hi : Z) (s : Inner M F) : Prop := {
  fo_lo : (Size4KiB | lo);
  fo_hi : (Size4KiB | hi);
  fo_pos : 0 < lo;
  fo_top : hi < 2 ^ 52;
  fo_offset : 0 <= kernel_offset s;
}.

(** No page of the segment is mapped. *)
Definition seg_vacant (s : Inner M F) (seg : ProgramHeader) : Prop :=
  forall q, round_down (seg_va s seg) Size4KiB <= q < seg_last s seg + Size4KiB -> page_at s q = None.

(** The byte of a segment's image at virtual address [a]. *)
Definition seg_byte (s : Inner M F) (seg : ProgramHeader) (a : Z) : Z :=
  if decide (a < seg_va s seg + file_size seg) then memory s (seg_pa s seg + (a - seg_va s seg)) else 0.

(** Frames that loading a segment may take. *)
Definition seg_cost (s : Inner M F) (seg : ProgramHeader) : nat :=
  4 * Z.to_nat (page_span (seg_va s seg) (seg_va s seg + mem_size seg - 1)) + 4.

(** * The pages of the file *)

(** [n] new pages from [p0] on, [frame i] being the frame of page [i]. *)
Definition with_pages (v : Z -> option Z) (p0 : Z) (n : nat) (byte : Z -> Z) : Z -> option Z :=
  fun a => if decide (p0 <= a < p0 + Size4KiB * Z.of_nat n) then Some (byte (a - p0)) else v a.

Definition with_flags_n (b : Z -> option Z) (p0 : Z) (n : nat) (fl : Z) : Z -> option Z :=
  fun q => if decide ((p0 <= q < p0 + Size4KiB * Z.of_nat n) /\ (Size4KiB | q)) then Some fl else b q.

Lemma with_pages_0 v p0 byte a : with_pages v p0 0 byte a = v a.
Proof. unfold with_pages. by rewrite decide_False by lia. Qed.

Lemma with_flags_0 b p0 fl q : with_flags_n b p0 0 fl q = b q.
Proof. unfold with_flags_n. by rewrite decide_False by lia. Qed.

Lemma with_pages_S v p0 n byte byte1 a :
  (forall i, 0 <= i < Size4KiB -> byte1 i = byte (Size4KiB * Z.of_nat n + i)) ->
  with_page (with_pages v p0 n byte) (p0 + Size4KiB * Z.of_nat n) byte1 a = with_pages v p0 (S n) byte a.
Proof.
  intros Hb. unfold with_page, with_pages, Size4KiB in *.
  repeat case_decide; try lia; try done. f_equal. rewrite Hb by lia. f_equal. lia.
Qed.

Lemma with_flags_S b p0 n fl q :
  (Size4KiB | p0) ->
  with_flags (with_flags_n b p0 n fl) (p0 + Size4KiB * Z.of_nat n) fl q = with_flags_n b p0 (S n) fl q.
Proof.
  intros Hp. unfold with_flags, with_flags_n.
  destruct (decide (q = p0 + Size4KiB * Z.of_nat n)) as [->|Hq].
  - rewrite decide_True; [done|]. split; [unfold Size4KiB; lia|].
    apply Z.divide_add_r; [done|apply Z.divide_factor_l].
  - case_decide as H1; case_decide as H2; try done.
    + destruct H2. split; [unfold Size4KiB in *; lia|tauto].
    + destruct H1. split; [|tauto]. destruct H2 as [H2 H3]. split; [lia|].
      destruct (decide (q < p0 + Size4KiB * Z.of_nat n)); [done|].
      destruct Hq. symmetry. apply (divide_close _ _ Size4KiB Size4KiB_pos); [|done|unfold Size4KiB in *; lia].
      apply Z.divide_add_r; [done|apply Z.divide_factor_l].
Qed.

Lemma flags_none_page (s : Inner M F) q : base_flags s q = None <-> page_at s q = None.
Proof. unfold base_flags. by destruct (page_at s q). Qed.

(** A frame of the file: not free, and in no private page. *)
Lemma file_frame lo hi s f :
  space_ok lo hi s -> lo <= f -> f + Size4KiB <= hi ->
  (f ∉ free s) /\ forall q fl, page_at s q = Some (f, fl) -> contains fl COPIED = false.
Proof.
  unfold Size4KiB. intros Hs H0 H1. split.
  - intros Hf%(so_free _ _ _ Hs). unfold apart, Size4KiB in Hf. lia.
  - intros q fl Hq. destruct (contains fl COPIED) eqn:E; [|done].
    apply (so_outside _ _ _ Hs _ _ _ Hq) in E. unfold apart, Size4KiB in E. lia.
Qed.

(** The loop over the frames of the file. *)
Lemma map_file_pages lo hi s f0 p0 n fl k :
  let delta := p0 - f0 in
  space_ok lo hi s -> frames (3 * n + k) s -> file_ok lo hi s ->
  (Size4KiB | f0) -> (Size4KiB | p0) -> lo <= f0 -> f0 + Size4KiB * Z.of_nat n <= hi ->
  0 <= p0 -> p0 + Size4KiB * Z.of_nat n <= 2 ^ 47 - Size4KiB ->
  (forall q, p0 <= q < p0 + Size4KiB * Z.of_nat n -> page_at s q = None) ->
  flags_ok fl -> contains fl COPIED = false -> Z.ldiff fl COPIED = fl ->
  exists s', for_each (addr_range Size4KiB f0 (f0 + Size4KiB * Z.of_nat n - Size4KiB)) (fun frame =>
      offset ← lift (PhysFrame_sub Size4KiB frame f0);
      page ← lift (Page_add Size4KiB p0 offset);
      res ← map_to_4k page frame fl;
      map_err "map_to failed" res) s = Ret (Ok tt, s') /\ frames k s' /\ memory s' = memory s /\
    reaches lo hi s s' (with_pages (vread s) p0 n (fun i => memory s (f0 + i)))
      (with_flags_n (base_flags s) p0 n fl).
Proof.
  intros delta Hs Hk [Hlo Hhi Hpos Htop _] Hf Hp H0 H1 H2 H3 Hvac Hfl Hc Hd.
  set (xs := addr_range Size4KiB f0 _).
  assert (Hlen : length xs = n).
  { unfold xs, addr_range, range0. rewrite length_fmap, length_seqZ.
    replace (f0 + Size4KiB * Z.of_nat n - Size4KiB - f0) with ((Z.of_nat n - 1) * Size4KiB) by lia.
    rewrite Z.div_mul by done. lia. }
  destruct (for_each_invariant (fun don st =>
    frames (3 * (n - length don) + k) st /\ memory st = memory s /\
    reaches lo hi s st (with_pages (vread s) p0 (length don) (fun i => memory s (f0 + i)))
      (with_flags_n (base_flags s) p0 (length don) fl)) xs (fun frame =>
      offset ← lift (PhysFrame_sub Size4KiB frame f0);
      page ← lift (Page_add Size4KiB p0 offset);
      res ← map_to_4k page frame fl;
      map_err "map_to failed" res) s) as (s' & Hr & Hk' & Hm' & Hre).
  - split; [simpl; by rewrite Nat.sub_0_r|]. split; [done|]. split; [done|apply evolves_refl| |].
    + intros a. by rewrite with_pages_0.
    + intros q. by rewrite with_flags_0.
  - intros don f rest st Hxs (Hkst & Hmst & Hrst).
    assert (Hx : xs !! length don = Some f) by (rewrite Hxs, lookup_app_r, Nat.sub_diag by lia; done).
    assert (Hi : (length don < n)%nat) by (rewrite <- Hlen; by eapply lookup_lt_Some).
    apply addr_range_lookup in Hx as [-> _]; [|done].
    set (i := length don) in *. set (d := Size4KiB * Z.of_nat i).
    assert (Hdd : (Size4KiB | d)) by apply Z.divide_factor_l.
    assert (Hdb : 0 <= d /\ d + Size4KiB <= Size4KiB * Z.of_nat n) by (unfold d, Size4KiB; lia).
    destruct (file_frame lo hi st (f0 + d)) as [Hnf Hnp]; [apply Hrst|page_lia..|].
    destruct (map_page lo hi st (p0 + d) (f0 + d) fl (3 * (n - S i) + k)) as (s' & Hm & Hk' & Hmem & Hre');
      [apply Hrst|by replace (3 + _)%nat with (3 * (n - i) + k)%nat by lia|by apply Z.divide_add_r|lia|page_lia| |
       by apply Z.divide_add_r|lia|lia|done|done|done|done|].
    { apply flags_none_page. rewrite (re_flags _ _ _ _ _ _ Hrst). unfold with_flags_n.
      rewrite decide_False by (unfold d; lia). apply flags_none_page, Hvac. page_lia. }
    exists s'. split.
    + erewrite load_bind_lift by (apply frame_sub_spec; [by left|by apply Z.divide_add_r|done|page_lia]).
      replace ((f0 + d - f0) / Size4KiB) with (Z.of_nat i)
        by (unfold d; rewrite Z.add_simpl_l, Z.mul_comm, Z.div_mul; done).
      erewrite load_bind_lift by (apply page_add_spec; [by left|done|done|page_lia|unfold d; page_lia]).
      rewrite (Z.mul_comm (Z.of_nat i)). fold d. erewrite load_bind_Ret by exact Hm. done.
    + rewrite length_app, Nat.add_1_r. fold i. split; [done|]. split; [congruence|].
      eapply reaches_ext; [eapply reaches_trans; [exact Hrst|exact Hre']|..].
      * intros a. rewrite <- (with_pages_S _ _ _ _ (fun j => memory st (f0 + d + j))).
        2: { intros j _. rewrite Hmst. f_equal. unfold d. lia. }
        fold d. unfold with_page. by rewrite (re_read _ _ _ _ _ _ Hrst).
      * intros q. rewrite <- with_flags_S by done. fold d. unfold with_flags.
        by rewrite Hd, (re_flags _ _ _ _ _ _ Hrst).
  - exists s'. split; [exact Hr|]. rewrite Hlen, Nat.sub_diag in *. done.
Qed.

(** * Zeroed pages *)

(** One page of the bss section: a fresh frame, zeroed, then mapped. *)
Lemma zero_page lo hi s p fl k :
  space_ok lo hi s -> frames (4 + k) s ->
  (Size4KiB | p) -> 0 <= p -> p + Size4KiB <= 2 ^ 47 -> page_at s p = None ->
  flags_ok fl -> contains fl COPIED = false ->
  exists s', (frame ← allocate_unwrap;
    _ ← write_mem frame (replicate (Z.to_nat Size4KiB) 0);
    res ← map_to_4k p frame fl;
    map_err "Failed to map new frame for bss memory" res) s = Ret (Ok tt, s') /\ frames k s' /\
    reaches lo hi s s' (with_page (vread s) p (fun _ => 0)) (with_flags (base_flags s) p (Z.ldiff fl COPIED)).
Proof.
  intros Hs Hk Hp Hp0 Hp1 Hn Hfl Hc.
  destruct (allocate_unwrap_spec lo hi s (3 + k) Hs Hk) as
    (g & s1 & Ha & Hs1 & Hk1 & He1 & Hm1 & Hpt1 & Hg & Hg1 & Hgd & Hg0 & Hg2).
  pose proof (so_free _ _ _ Hs g Hg) as Hga.
  assert (Hlen : Z.of_nat (length (replicate (Z.to_nat Size4KiB) 0)) = Size4KiB)
    by (rewrite length_replicate; done).
  set (m2 := write_bytes (memory s1) g (replicate (Z.to_nat Size4KiB) 0)).
  destruct (set_memory_ok lo hi s1 m2) as [Hs2 He2]; [exact Hs1| |].
  { intros a Hlh. unfold m2. apply write_bytes_out. rewrite Hlen. unfold apart in Hga. lia. }
  set (s2 := set_memory s1 m2) in *.
  assert (Hpa2 : forall q, page_at s2 q = page_at s q) by (intros q; unfold page_at, s2; simpl; by rewrite Hpt1).
  assert (Hother : forall q gl, page_at s q <> Some (g, gl)).
  { intros q gl Hq. by destruct (so_frame _ _ _ Hs _ _ _ Hq) as (_ & _ & _ & []). }
  destruct (map_page lo hi s2 p g fl k) as (s3 & Hm3 & Hk3 & Hmem3 & Hre3);
    [exact Hs2|exact Hk1|exact Hp|exact Hp0|exact Hp1|by rewrite Hpa2|exact Hgd|exact Hg0|exact Hg2|exact Hfl
    |exact Hc|exact Hg1| |].
  { intros q gl. rewrite Hpa2. intros Hq. by destruct (Hother q gl). }
  exists s3. split; [|split; [exact Hk3|]].
  - erewrite load_bind_Ret by exact Ha. erewrite load_bind_Ret by done.
    fold m2. fold s2. erewrite load_bind_Ret by exact Hm3. done.
  - destruct Hre3 as [R1 R2 R3 R4]. split; [exact R1| | |].
    + eapply evolves_trans; [exact He1|]. by eapply evolves_trans.
    + intros a. rewrite R3. unfold with_page. case_decide as Hin.
      * f_equal. unfold s2. simpl. unfold m2. rewrite write_bytes_in by lia. apply nth_replicate_0.
      * rewrite (vread_page_at lo hi s2), (vread_page_at lo hi s), Hpa2 by done.
        destruct (page_at s (round_down a Size4KiB)) as [[h hl]|] eqn:E; [|done].
        f_equal. unfold s2. simpl. unfold m2. rewrite Hm1. apply write_bytes_out. rewrite Hlen.
        destruct (so_frame _ _ _ Hs _ _ _ E) as (Hhd & _).
        pose proof (round_down_bounds a Size4KiB Size4KiB_pos).
        destruct (decide (h + (a - round_down a Size4KiB) < g)),
          (decide (g + Size4KiB <= h + (a - round_down a Size4KiB))); [lia..|].
        destruct (Hother (round_down a Size4KiB) hl). rewrite E. do 2 f_equal.
        apply (frames_disjoint h g (a - round_down a Size4KiB) (h + (a - round_down a Size4KiB) - g) Hhd Hgd);
          lia.
    + intros q. rewrite R4. unfold with_flags, base_flags. by rewrite Hpa2.
Qed.

(** The loop over the pages of the bss section. *)
Lemma zero_pages lo hi s p0 n fl k :
  space_ok lo hi s -> frames (4 * n + k) s ->
  (Size4KiB | p0) -> 0 <= p0 -> p0 + Size4KiB * Z.of_nat n <= 2 ^ 47 ->
  (forall q, p0 <= q < p0 + Size4KiB * Z.of_nat n -> page_at s q = None) ->
  flags_ok fl -> contains fl COPIED = false -> Z.ldiff fl COPIED = fl ->
  exists s', for_each (addr_range Size4KiB p0 (p0 + Size4KiB * Z.of_nat n - Size4KiB)) (fun page =>
      frame ← allocate_unwrap;
      _ ← write_mem frame (replicate (Z.to_nat Size4KiB) 0);
      res ← map_to_4k page frame fl;
      map_err "Failed to map new frame for bss memory" res) s = Ret (Ok tt, s') /\ frames k s' /\
    reaches lo hi s s' (with_pages (vread s) p0 n (fun _ => 0)) (with_flags_n (base_flags s) p0 n fl).
Proof.
  intros Hs Hk Hp H0 H1 Hvac Hfl Hc Hd.
  set (xs := addr_range Size4KiB p0 _).
  assert (Hlen : length xs = n).
  { unfold xs, addr_range, range0. rewrite length_fmap, length_seqZ.
    replace (p0 + Size4KiB * Z.of_nat n - Size4KiB - p0) with ((Z.of_nat n - 1) * Size4KiB) by lia.
    rewrite Z.div_mul by done. lia. }
  destruct (for_each_invariant (fun don st =>
    frames (4 * (n - length don) + k) st /\
    reaches lo hi s st (with_pages (vread s) p0 (length don) (fun _ => 0))
      (with_flags_n (base_flags s) p0 (length don) fl)) xs (fun page =>
      frame ← allocate_unwrap;
      _ ← write_mem frame (replicate (Z.to_nat Size4KiB) 0);
      res ← map_to_4k page frame fl;
      map_err "Failed to map new frame for bss memory" res) s) as (s' & Hr & Hk' & Hre).
  - split; [simpl; by rewrite Nat.sub_0_r|]. split; [done|apply evolves_refl| |].
    + intros a. by rewrite with_pages_0.
    + intros q. by rewrite with_flags_0.
  - intros don f rest st Hxs (Hkst & Hrst).
    assert (Hx : xs !! length don = Some f) by (rewrite Hxs, lookup_app_r, Nat.sub_diag by lia; done).
    assert (Hi : (length don < n)%nat) by (rewrite <- Hlen; by eapply lookup_lt_Some).
    apply addr_range_lookup in Hx as [-> _]; [|done].
    set (i := length don) in *. set (d := Size4KiB * Z.of_nat i).
    assert (Hdd : (Size4KiB | d)) by apply Z.divide_factor_l.
    assert (Hdb : 0 <= d /\ d + Size4KiB <= Size4KiB * Z.of_nat n) by (unfold d; page_lia).
    destruct (zero_page lo hi st (p0 + d) fl (4 * (n - S i) + k)) as (s' & Hm & Hk' & Hre');
      [apply Hrst|by replace (4 + _)%nat with (4 * (n - i) + k)%nat by lia|by apply Z.divide_add_r|lia|lia| |
       done|done|].
    { apply flags_none_page. rewrite (re_flags _ _ _ _ _ _ Hrst). unfold with_flags_n.
      rewrite decide_False by (unfold d; lia). apply flags_none_page, Hvac. page_lia. }
    exists s'. split; [exact Hm|]. rewrite length_app, Nat.add_1_r. fold i. split; [done|].
    eapply reaches_ext; [eapply reaches_trans; [exact Hrst|exact Hre']|..].
    + intros a. rewrite <- (with_pages_S _ _ _ _ (fun _ => 0)) by done.
      fold d. unfold with_page. by rewrite (re_read _ _ _ _ _ _ Hrst).
    + intros q. rewrite <- with_flags_S by done. fold d. unfold with_flags.
      by rewrite Hd, (re_flags _ _ _ _ _ _ Hrst).
  - exists s'. split; [exact Hr|]. rewrite Hlen, Nat.sub_diag in *. done.
Qed.

(** The offset of an address in its page, as the code masks it. *)
Lemma land_page a : Z.land a 0xfff = a - round_down a Size4KiB.
Proof.
  change 0xfff with (Z.ones 12). rewrite Z.land_ones by done. unfold round_down, Size4KiB.
  change (2 ^ 12) with 4096. lia.
Qed.

(** Rounding up: the first page boundary from [a] on. *)
Lemma round_up_page a :
  let z := round_down (a + Size4KiB - 1) Size4KiB in
  (Size4KiB | z) /\ a <= z < a + Size4KiB /\
  (a = round_down a Size4KiB -> z = a) /\ (a <> round_down a Size4KiB -> z = round_down a Size4KiB + Size4KiB).
Proof.
  intros z. assert (Hz : (Size4KiB | z)) by (by apply round_down_divide).
  pose proof (round_down_bounds (a + Size4KiB - 1) Size4KiB Size4KiB_pos) as Hb. fold z in Hb.
  pose proof (round_down_bounds a Size4KiB Size4KiB_pos).
  pose proof (round_down_divide a Size4KiB ltac:(done)) as Hd.
  split; [done|]. split; [lia|]. split; intros Ha.
  - symmetry. apply (divide_close _ _ Size4KiB Size4KiB_pos); [by rewrite Ha|done|lia].
  - pose proof (divide_lt_step _ _ _ Size4KiB_pos Hd Hz ltac:(lia)).
    symmetry. apply (divide_close _ _ Size4KiB Size4KiB_pos); [by apply Z.divide_add_r|done|lia].
Qed.

(** The constants of the loader, and with them the place of a segment, do not
    change. *)
Lemma seg_va_evolves lo hi s s' seg : evolves lo hi s s' -> seg_va s' seg = seg_va s seg.
Proof. intros He. unfold seg_va. by rewrite (ev_vao _ _ _ _ He). Qed.

(** [handle_bss_section], for a segment whose file pages are mapped: memory
    from the end of the file contents to the end of the segment's last page
    becomes zero. *)
Lemma handle_bss_spec lo hi s seg fl k :
  let ze := seg_va s seg + file_size seg in
  let z1 := round_down (ze + Size4KiB - 1) Size4KiB in
  let n := Z.to_nat ((seg_last s seg + Size4KiB - z1) / Size4KiB) in
  space_ok lo hi s -> seg_ok lo hi s seg -> file_size seg < mem_size seg ->
  (ze <> round_down ze Size4KiB -> exists l, page_at s (round_down ze Size4KiB) = Some l) ->
  (forall q, z1 <= q <= seg_last s seg -> page_at s q = None) ->
  flags_ok fl -> contains fl COPIED = false -> Z.ldiff fl COPIED = fl ->
  frames (4 + (4 * n + k)) s ->
  exists s', handle_bss_section seg fl s = Ret (Ok tt, s') /\ frames k s' /\
    reaches lo hi s s'
      (fun a => if decide (ze <= a < seg_last s seg + Size4KiB) then Some 0 else vread s a)
      (with_flags_n (base_flags s) z1 n fl).
Proof.
  intros ze z1 n Hs [Hv [Hf0 Hfm] Hm [Hva0 Hva1] Ho _ _] Hlt Hlp Hvac Hfl Hc Hd Hk.
  destruct (round_up_page ze) as (Hz1d & Hz1b & Hz1a & Hz1n). fold z1 in Hz1d, Hz1b, Hz1a, Hz1n.
  pose proof (round_down_bounds ze Size4KiB Size4KiB_pos) as Hzb.
  assert (Hze : 0 <= ze) by (unfold ze; lia).
  pose proof (round_down_nonneg ze Hze) as Hrz.
  set (last := seg_va s seg + mem_size seg - 1) in *.
  pose proof (round_down_bounds last Size4KiB Size4KiB_pos) as Hlb.
  assert (Hld : (Size4KiB | round_down last Size4KiB)) by (by apply round_down_divide).
  assert (Hsl : seg_last s seg = round_down last Size4KiB) by done. rewrite Hsl in *.
  assert (Hn : Z.of_nat n * Size4KiB = round_down last Size4KiB + Size4KiB - z1).
  { unfold n. rewrite ?Hsl. destruct Hld as [u Hu], Hz1d as [v Hv1]. rewrite Hu, Hv1.
    replace (u * Size4KiB + Size4KiB - v * Size4KiB) with ((u + 1 - v) * Size4KiB) by lia.
    rewrite Z.div_mul by done. assert (v <= u + 1); [|page_lia].
    unfold ze, last in *. page_lia. }
  set (s1m := fun s1 : Inner M F => reaches lo hi s s1
    (vwrite (vread s) ze (replicate (Z.to_nat (z1 - ze)) 0)) (base_flags s)).
  assert (Hstep : exists s1, (if negb (Z.land ze 0xfff =? 0) then
         t ← lift (VirtAddr_add (seg_va s seg) (file_size seg));
         t ← lift (VirtAddr_sub t 1);
         let last_page := Page_containing_address Size4KiB t in
         new_frame ← make_mut last_page;
         write_mem (new_frame + Z.land ze 0xfff) (replicate (Z.to_nat (Size4KiB - Z.land ze 0xfff)) 0)
       else mret tt) s = Ret (Ok tt, s1) /\ s1m s1 /\ frames (4 * n + k) s1).
  { rewrite land_page. destruct (Z.eqb_spec (ze - round_down ze Size4KiB) 0) as [Hz|Hz]; cbn [negb].
    - exists s. split; [done|]. split; [|by apply (has_frames_le _ (4 + (4 * n + k))); [lia|]].
      split; [done|apply evolves_refl| |done].
      intros a. rewrite Hz1a by lia. unfold vwrite. rewrite Z.sub_diag. simpl.
      by rewrite decide_False by lia.
    - destruct (Hlp ltac:(lia)) as [l Hl]. specialize (Hz1n ltac:(lia)).
      assert (Hzp : round_down (ze - 1) Size4KiB = round_down ze Size4KiB).
      { apply in_page; [by apply round_down_divide|]. lia. }
      destruct (make_mut_write lo hi s (round_down ze Size4KiB) l (ze - round_down ze Size4KiB)
        (replicate (Z.to_nat (Size4KiB - (ze - round_down ze Size4KiB))) 0) (4 * n + k))
        as (g & s1 & Hmm & _ & _ & Hef & Hk1); [done|done|done|lia| |].
      { rewrite length_replicate. lia. }
      eexists. split; [|split; [|exact Hk1]].
      + erewrite load_bind_lift by (apply virt_add_low; unfold ze in *; page_lia). fold ze.
        erewrite load_bind_lift by (apply virt_sub_low; [|unfold ze in *; page_lia]; lia).
        rewrite page_containing_4k by (unfold ze in *; page_lia).
        cbn zeta. rewrite Hzp. erewrite load_bind_Ret by exact Hmm. done.
      + apply effect_reaches. eapply effect_ext; [exact Hef|]. intros a.
        replace (round_down ze Size4KiB + (ze - round_down ze Size4KiB)) with ze by lia.
        by replace (Size4KiB - (ze - round_down ze Size4KiB)) with (z1 - ze) by lia. }
  destruct Hstep as (s1 & Hr1 & Hre1 & Hk1).
  destruct (zero_pages lo hi s1 z1 n fl k) as (s2 & Hr2 & Hk2 & Hre2);
    [apply Hre1|exact Hk1|exact Hz1d|unfold ze in *; lia|unfold last in *; page_lia| |done|done|done|].
  { intros q Hq. apply flags_none_page. rewrite (re_flags _ _ _ _ _ _ Hre1). apply flags_none_page.
    destruct (page_at s q) as [l|] eqn:E; [|done].
    assert (q <= round_down last Size4KiB).
    { pose proof (page_at_aligned _ _ _ _ _ Hs E) as Hqd.
      destruct (decide (q <= round_down last Size4KiB)); [done|].
      pose proof (divide_lt_step _ _ _ Size4KiB_pos Hld Hqd ltac:(lia)). lia. }
    rewrite Hvac in E; [done|lia]. }
  exists s2. split; [|split; [exact Hk2|]].
  - unfold handle_bss_section, add_offset. erewrite load_bind_Ret.
    2: { rewrite load_bind_get. unfold lift. rewrite VirtualAddressOffset.add_ok; [done|].
         unfold seg_va in *. unfold u64_size. page_lia. }
    fold (seg_va s seg). erewrite load_bind_lift by (apply virt_new_low; page_lia).
    erewrite load_bind_lift by (apply virt_add_low; page_lia).
    erewrite load_bind_lift by (apply virt_add_low; page_lia). cbn zeta. fold ze.
    erewrite load_bind_Ret by exact Hr1.
    erewrite load_bind_lift by (apply (align_up_spec _ _ 12); unfold ze in *; page_lia).
    fold z1. erewrite load_bind_lift by (apply virt_new_low; unfold ze in *; page_lia).
    erewrite load_bind_lift by (apply virt_sub_low; page_lia). fold last.
    rewrite !page_containing_4k by (unfold ze, last in *; page_lia).
    rewrite (round_down_id z1) by done.
    rewrite page_range_spec; [|by left|done|done|unfold ze in *; lia|unfold last in *; page_lia].
    replace (round_down last Size4KiB) with (z1 + Size4KiB * Z.of_nat n - Size4KiB) by lia. exact Hr2.
  - eapply reaches_ext; [eapply reaches_trans; [exact Hre1|exact Hre2]|..].
    + intros a. unfold with_pages. rewrite (re_read _ _ _ _ _ _ Hre1). unfold vwrite.
      rewrite length_replicate, nth_replicate_0. repeat case_decide; try page_lia; done.
    + intros q. unfold with_flags_n. by rewrite (re_flags _ _ _ _ _ _ Hre1).
Qed.

Lemma round_down_add a d : (Size4KiB | d) -> round_down (a + d) Size4KiB = round_down a Size4KiB + d.
Proof.
  intros Hd. pose proof (round_down_bounds a Size4KiB Size4KiB_pos).
  apply in_page; [|lia]. apply Z.divide_add_r; [by apply round_down_divide|done].
Qed.

(** The frames that [PhysFrame::range_inclusive] of a byte range yields, and
    how many they are. *)
Lemma span_aligned a b :
  round_down a Size4KiB <= round_down b Size4KiB + Size4KiB ->
  let n := Z.to_nat ((round_down b Size4KiB + Size4KiB - round_down a Size4KiB) / Size4KiB) in
  round_down b Size4KiB = round_down a Size4KiB + Size4KiB * Z.of_nat n - Size4KiB.
Proof.
  intros Hab n.
  pose proof (round_down_divide a Size4KiB ltac:(done)) as [u Hu].
  pose proof (round_down_divide b Size4KiB ltac:(done)) as [v Hv].
  unfold n. rewrite Hu, Hv in *.
  replace (v * Size4KiB + Size4KiB - u * Size4KiB) with ((v + 1 - u) * Size4KiB) by lia.
  rewrite Z.div_mul by done. assert (u <= v + 1); page_lia.
Qed.

Lemma span_multiple a b :
  a - 1 <= b ->
  let n := Z.to_nat ((round_down b Size4KiB + Size4KiB - round_down a Size4KiB) / Size4KiB) in
  round_down b Size4KiB = round_down a Size4KiB + Size4KiB * Z.of_nat n - Size4KiB.
Proof.
  intros Hab. apply span_aligned. pose proof (round_down_bounds a Size4KiB Size4KiB_pos).
  pose proof (round_down_bounds b Size4KiB Size4KiB_pos).
  destruct (decide (round_down a Size4KiB <= round_down b Size4KiB + Size4KiB)); [done|lia].
Qed.

Lemma frames_weaken n m (s : Inner M F) : (m <= n)%nat -> frames n s -> frames m s.
Proof. apply has_frames_le. Qed.

Lemma seg_ok_evolves lo hi s s' seg : evolves lo hi s s' -> seg_ok lo hi s seg -> seg_ok lo hi s' seg.
Proof.
  intros He [H1 H2 H3 H4 H5 H6 H7].
  assert (Hp : seg_pa s' seg = seg_pa s seg) by (unfold seg_pa; by rewrite (ev_offset _ _ _ _ He)).
  split; rewrite ?(seg_va_evolves lo hi s s' seg He), ?Hp; done.
Qed.

Lemma round_down_mono a b : a <= b -> round_down a Size4KiB <= round_down b Size4KiB.
Proof.
  intros Hab. apply round_down_le_multiple; [done|by apply round_down_divide|].
  pose proof (round_down_bounds a Size4KiB Size4KiB_pos). lia.
Qed.

(** The pages of a segment that come from the file. *)
Definition file_pages (s : Inner M F) (seg : ProgramHeader) : nat :=
  Z.to_nat ((round_down (seg_va s seg + file_size seg - 1) Size4KiB + Size4KiB -
             round_down (seg_va s seg) Size4KiB) / Size4KiB).

(** The first part of [handle_load_segment], before the bss section. *)
Lemma load_file_pages lo hi s seg k :
  let p0 := round_down (seg_va s seg) Size4KiB in
  space_ok lo hi s -> file_ok lo hi s -> seg_ok lo hi s seg -> seg_vacant s seg ->
  frames (3 * file_pages s seg + k) s ->
  exists s1, frames k s1 /\
    reaches lo hi s s1
      (with_pages (vread s) p0 (file_pages s seg) (fun i => memory s (round_down (seg_pa s seg) Size4KiB + i)))
      (with_flags_n (base_flags s) p0 (file_pages s seg) (segment_flags seg)) /\
    handle_load_segment seg s =
      (if file_size seg <? mem_size seg then handle_bss_section seg (segment_flags seg) else mret tt) s1.
Proof.
  intros p0 Hs Hfile Hseg Hvac Hk. pose proof Hfile as [Hlo Hhi Hpos Htop Hko].
  pose proof Hseg as [Hv [Hf0 Hfm] Hm [Hva0 Hva1] Ho [Hpa0 Hpa1] Hcong].
  set (va := seg_va s seg) in *. set (pa := seg_pa s seg) in *. set (n := file_pages s seg) in *.
  destruct (segment_flags_ok seg) as (Hfl & Hc & Hd).
  set (f0 := round_down pa Size4KiB).
  pose proof (round_down_bounds pa Size4KiB Size4KiB_pos).
  pose proof (round_down_bounds va Size4KiB Size4KiB_pos).
  assert (Hdelta : p0 = f0 + (va - pa)).
  { unfold p0, f0. rewrite <- round_down_add by done. f_equal. lia. }
  assert (Hend : round_down (pa + file_size seg - 1) Size4KiB = f0 + Size4KiB * Z.of_nat n - Size4KiB).
  { assert (Hsp : round_down (va + file_size seg - 1) Size4KiB = p0 + Size4KiB * Z.of_nat n - Size4KiB)
      by (apply (span_multiple va); lia).
    replace (va + file_size seg - 1) with (pa + file_size seg - 1 + (va - pa)) in Hsp by lia.
    rewrite round_down_add in Hsp by done. lia. }
  pose proof (round_down_bounds (pa + file_size seg - 1) Size4KiB Size4KiB_pos).
  assert (Hf0lo : lo <= f0) by (unfold f0; apply round_down_le_multiple; done).
  assert (Hf1hi : f0 + Size4KiB * Z.of_nat n <= hi).
  { destruct (decide (f0 + Size4KiB * Z.of_nat n <= hi)); [done|].
    assert (Hfd : (Size4KiB | f0 + Size4KiB * Z.of_nat n)).
    { apply Z.divide_add_r; [by apply round_down_divide|apply Z.divide_factor_l]. }
    pose proof (divide_lt_step hi _ _ Size4KiB_pos Hhi Hfd ltac:(lia)). lia. }
  assert (Hn : Size4KiB * Z.of_nat n <= file_size seg + 2 * Size4KiB) by lia.
  destruct (map_file_pages lo hi s f0 p0 n (segment_flags seg) k) as (s1 & Hr1 & Hk1 & Hm1 & Hre1);
    [done|done|done|by apply round_down_divide|by apply round_down_divide|done|done
    |by apply round_down_nonneg| | |done|done|done|].
  { assert (Hsp : round_down (va + file_size seg - 1) Size4KiB = p0 + Size4KiB * Z.of_nat n - Size4KiB)
      by (apply (span_multiple va); lia).
    pose proof (round_down_bounds (va + file_size seg - 1) Size4KiB Size4KiB_pos).
    pose proof (divide_lt_step (round_down (va + file_size seg - 1) Size4KiB) (2 ^ 47 - Size4KiB) _
      Size4KiB_pos ltac:(by apply round_down_divide) ltac:(compute_divide) ltac:(lia)). lia. }
  { intros q Hq. apply Hvac. fold va. fold p0. split; [lia|]. unfold seg_last. fold va.
    assert (Hsp : round_down (va + file_size seg - 1) Size4KiB = p0 + Size4KiB * Z.of_nat n - Size4KiB)
      by (apply (span_multiple va); lia).
    pose proof (round_down_mono (va + file_size seg - 1) (va + mem_size seg - 1) ltac:(lia)). lia. }
  exists s1. split; [done|]. split; [done|].
  unfold handle_load_segment, add_offset. rewrite load_bind_get.
  erewrite load_bind_lift by (apply phys_add_ok; fold (seg_pa s seg); fold pa; lia).
  fold (seg_pa s seg). fold pa.
  erewrite load_bind_lift by (apply phys_add_ok; lia).
  erewrite load_bind_lift by (apply phys_sub_ok; lia).
  rewrite load_bind_assoc, load_bind_get.
  erewrite load_bind_lift by (apply VirtualAddressOffset.add_ok; unfold va, seg_va in *; unfold u64_size; page_lia).
  fold (seg_va s seg). fold va. erewrite load_bind_lift by (apply virt_new_low; page_lia).
  rewrite !frame_containing_4k by lia. rewrite page_containing_4k by page_lia. fold p0 f0. cbn zeta.
  rewrite frame_range_spec; [|by left|by apply round_down_divide|by apply round_down_divide|lia|].
  2: { rewrite Hend. lia. }
  rewrite Hend. erewrite load_bind_Ret by exact Hr1. done.
Qed.

(** The number of pages of a segment's file contents, and of its pages. *)
Lemma file_pages_facts lo hi s seg :
  seg_ok lo hi s seg ->
  let p0 := round_down (seg_va s seg) Size4KiB in
  let ze := seg_va s seg + file_size seg in
  let z1 := round_down (ze + Size4KiB - 1) Size4KiB in
  let nb := Z.to_nat ((seg_last s seg + Size4KiB - z1) / Size4KiB) in
  z1 = p0 + Size4KiB * Z.of_nat (file_pages s seg) /\
  seg_last s seg + Size4KiB = z1 + Size4KiB * Z.of_nat nb /\
  (4 * file_pages s seg + 4 * nb + 4 = seg_cost s seg)%nat.
Proof.
  intros [Hv [Hf0 Hfm] Hm [Hva0 Hva1] Ho _ _] p0 ze z1 nb.
  assert (Hz : z1 = round_down (ze - 1) Size4KiB + Size4KiB).
  { rewrite <- round_down_add by apply Z.divide_refl. unfold z1. f_equal. lia. }
  assert (H1 : z1 = p0 + Size4KiB * Z.of_nat (file_pages s seg)).
  { assert (Hsp : round_down (ze - 1) Size4KiB = p0 + Size4KiB * Z.of_nat (file_pages s seg) - Size4KiB)
      by (unfold ze; apply (span_multiple (seg_va s seg)); lia). lia. }
  assert (H2 : seg_last s seg + Size4KiB = z1 + Size4KiB * Z.of_nat nb).
  { assert (Hz1 : round_down z1 Size4KiB = z1) by (apply round_down_id; [done|by apply round_down_divide]).
    pose proof (round_down_mono (ze - 1) (seg_va s seg + mem_size seg - 1) ltac:(unfold ze; lia)) as Hmono.
    pose proof (span_aligned z1 (seg_va s seg + mem_size seg - 1) ltac:(lia)) as Hsp. cbn zeta in Hsp.
    rewrite Hz1 in Hsp. unfold nb, seg_last. lia. }
  split; [done|]. split; [done|].
  unfold seg_cost, page_span. fold (seg_last s seg). fold p0.
  replace (seg_last s seg - p0) with ((Z.of_nat (file_pages s seg) + Z.of_nat nb - 1) * Size4KiB) by lia.
  rewrite Z.div_mul by done. lia.
Qed.

(** [handle_load_segment] builds the image that the program header describes:
    the file contents, then zeroes, with the flags of the header; everything
    outside of the segment's pages stays as it was. *)
Lemma handle_load_segment_spec lo hi s seg k :
  let p0 := round_down (seg_va s seg) Size4KiB in
  space_ok lo hi s -> file_ok lo hi s -> seg_ok lo hi s seg -> seg_vacant s seg ->
  frames (seg_cost s seg + k) s ->
  exists s', handle_load_segment seg s = Ret (Ok tt, s') /\ frames k s' /\
    space_ok lo hi s' /\ evolves lo hi s s' /\
    (forall a, seg_va s seg <= a < seg_va s seg + mem_size seg -> vread s' a = Some (seg_byte s seg a)) /\
    (forall a, ~ (p0 <= a < seg_last s seg + Size4KiB) -> vread s' a = vread s a) /\
    (forall q, base_flags s' q =
       if decide ((p0 <= q < seg_last s seg + Size4KiB) /\ (Size4KiB | q))
       then Some (segment_flags seg) else base_flags s q).
Proof.
  intros p0 Hs Hfile Hseg Hvac Hk.
  destruct (file_pages_facts lo hi s seg Hseg) as (Hz1 & Hlast & Hcost).
  destruct (segment_flags_ok seg) as (Hfl & Hc & Hd).
  pose proof Hseg as [Hv [Hf0 Hfm] Hm [Hva0 Hva1] Ho [Hpa0 Hpa1] Hcong].
  set (n := file_pages s seg) in *. set (ze := seg_va s seg + file_size seg) in *.
  set (z1 := round_down (ze + Size4KiB - 1) Size4KiB) in *.
  set (nb := Z.to_nat ((seg_last s seg + Size4KiB - z1) / Size4KiB)) in *.
  destruct (load_file_pages lo hi s seg (4 + (4 * nb + k))) as (s1 & Hk1 & Hre1 & Hrun); try done.
  { eapply frames_weaken; [|exact Hk]. fold n. lia. }
  fold p0 n in Hre1.
  pose proof (round_up_page ze) as (Hz1d & Hz1b & _). fold z1 in Hz1d, Hz1b.
  pose proof (round_down_bounds (seg_va s seg) Size4KiB Size4KiB_pos) as Hp0b. fold p0 in Hp0b.
  assert (Hbyte : forall a, seg_va s seg <= a < ze ->
    with_pages (vread s) p0 n (fun i => memory s (round_down (seg_pa s seg) Size4KiB + i)) a =
    Some (seg_byte s seg a)).
  { intros a Ha. unfold with_pages. rewrite decide_True by lia. unfold seg_byte.
    fold ze. rewrite decide_True by lia. do 2 f_equal. unfold p0.
    pose proof (round_down_add (seg_pa s seg) (seg_va s seg - seg_pa s seg) Hcong) as Hr.
    replace (seg_pa s seg + (seg_va s seg - seg_pa s seg)) with (seg_va s seg) in Hr by lia. lia. }
  destruct (Z.ltb_spec (file_size seg) (mem_size seg)) as [Hlt|Hge].
  - assert (Hse : seg_va s1 seg = seg_va s seg) by (apply (seg_va_evolves lo hi), Hre1).
    assert (Hsl : seg_last s1 seg = seg_last s seg) by (unfold seg_last; by rewrite Hse).
    destruct (handle_bss_spec lo hi s1 seg (segment_flags seg) k) as (s2 & Hr2 & Hk2 & Hre2); rewrite ?Hse, ?Hsl;
      fold ze; fold z1; fold nb; try done; [apply Hre1|eapply seg_ok_evolves; [apply Hre1|done]| | |].
    { intros Hne. pose proof (round_down_bounds ze Size4KiB Size4KiB_pos).
      destruct (page_at s1 (round_down ze Size4KiB)) as [l|] eqn:E; [by exists l|].
      apply flags_none_page in E. rewrite (re_flags _ _ _ _ _ _ Hre1) in E. unfold with_flags_n in E.
      rewrite decide_True in E; [done|]. split; [|by apply round_down_divide].
      pose proof (round_down_mono (seg_va s seg) ze ltac:(unfold ze; lia)) as Hmono. fold p0 in Hmono. lia. }
    { intros q Hq. apply flags_none_page. rewrite (re_flags _ _ _ _ _ _ Hre1). unfold with_flags_n.
      rewrite decide_False by lia. apply flags_none_page, Hvac. fold p0. page_lia. }
    rewrite ?Hse, ?Hsl in Hre2. fold ze in Hre2. fold z1 in Hre2. fold nb in Hre2.
    exists s2. split; [by rewrite Hrun|]. split; [done|]. split; [apply Hre2|].
    split; [eapply evolves_trans; [apply Hre1|apply Hre2]|]. split; [|split].
    + intros a Ha. rewrite (re_read _ _ _ _ _ _ Hre2). case_decide as Hin.
      * unfold seg_byte. by rewrite decide_False by (fold ze; lia).
      * rewrite (re_read _ _ _ _ _ _ Hre1). apply Hbyte.
        pose proof (round_down_bounds (seg_va s seg + mem_size seg - 1) Size4KiB Size4KiB_pos).
        unfold seg_last in Hin. lia.
    + intros a Ha. rewrite (re_read _ _ _ _ _ _ Hre2), decide_False by (unfold ze in *; lia).
      rewrite (re_read _ _ _ _ _ _ Hre1). unfold with_pages. by rewrite decide_False by page_lia.
    + intros q. rewrite (re_flags _ _ _ _ _ _ Hre2). unfold with_flags_n.
      rewrite (re_flags _ _ _ _ _ _ Hre1). unfold with_flags_n.
      destruct (decide (Size4KiB | q)) as [Hqd|Hqd]; [|by rewrite !decide_False by tauto].
      repeat case_decide; try done; page_cases.
  - assert (Hz : z1 = seg_last s seg + Size4KiB).
    { unfold z1, seg_last. rewrite <- round_down_add by apply Z.divide_refl. f_equal. unfold ze. lia. }
    exists s1. split; [by rewrite Hrun|]. split; [by eapply frames_weaken; [|exact Hk1]; lia|].
    split; [apply Hre1|]. split; [apply Hre1|]. split; [|split].
    + intros a Ha. rewrite (re_read _ _ _ _ _ _ Hre1). apply Hbyte. unfold ze. lia.
    + intros a Ha. rewrite (re_read _ _ _ _ _ _ Hre1). unfold with_pages. by rewrite decide_False by lia.
    + intros q. rewrite (re_flags _ _ _ _ _ _ Hre1). unfold with_flags_n.
      by replace (seg_last s seg + Size4KiB) with (p0 + Size4KiB * Z.of_nat n) by (unfold p0; lia).
Qed.
End Segments.
