(* ===== verification/KernelFlags.v ===== *)
(** [remove_copied_flags] and [handle_relro_segment] of initium/src/kernel.rs:
    the flags of mapped pages. *)

From S2P Require Import Prelude X86 Entries FrameAlloc Paging Kernel KernelSpace KernelCopy KernelSegments.

Section Flags.
Context {X : X86_64} {XL : X86_64_Laws X} {P : Profile}.
Context {M F : Type} {FA : FrameAllocator F} {FL : FreeList F} {PT : PageTable M F}.
Context {PL : PageTableLaws M F}.

Definition clear_leaf (f : Z) (l : leaf) : leaf := (fst l, Z.ldiff (snd l) f).

(** [s'] is [s] with other flags: the pages of [Q] have lost [f]. *)
Record clears (lo hi f : Z) (Q : Z -> bool) (s s' : Inner M F) : Prop := {
  cl_ok : space_ok lo hi s';
  cl_evolves : evolves lo hi s s';
  cl_allocator : frame_allocator s' = frame_allocator s;
  cl_memory : memory s' = memory s;
  cl_pages q : page_at s' q = if Q q then clear_leaf f <$> page_at s q else page_at s q;
}.

Lemma clears_refl lo hi f s : space_ok lo hi s -> clears lo hi f (fun _ => false) s s.
Proof. intros Hs. split; try done. apply evolves_refl. Qed.

Lemma ldiff_ldiff fl f : Z.ldiff (Z.ldiff fl f) f = Z.ldiff fl f.
Proof.
  apply Z.bits_inj'. intros n Hn. rewrite !Z.ldiff_spec.
  destruct (Z.testbit fl n), (Z.testbit f n); done.
Qed.

(** A single flag that is not set is not cleared. *)
Lemma ldiff_absent fl n : 0 <= n -> Z.testbit fl n = false -> Z.ldiff fl (2 ^ n) = fl.
Proof.
  intros Hn Hb. apply Z.bits_inj'. intros m Hm. rewrite Z.ldiff_spec, Z.pow2_bits_eqb by done.
  destruct (Z.eqb_spec n m) as [<-|]; [by rewrite Hb|by rewrite andb_true_r].
Qed.

Lemma clears_trans lo hi f Q R s1 s2 s3 :
  clears lo hi f Q s1 s2 -> clears lo hi f R s2 s3 -> clears lo hi f (fun q => Q q || R q) s1 s3.
Proof.
  intros [A1 A2 A3 A4 A5] [B1 B2 B3 B4 B5].
  split; [done|by eapply evolves_trans|congruence|congruence|].
  intros q. rewrite B5, A5. destruct (Q q), (R q); simpl; try done.
  destruct (page_at s1 q) as [[g gl]|]; [|done]. unfold clear_leaf. simpl. by rewrite ldiff_ldiff.
Qed.

Lemma clears_ext lo hi f Q R s s' :
  (forall q, is_Some (page_at s q) -> Q q = R q) -> clears lo hi f Q s s' -> clears lo hi f R s s'.
Proof.
  intros HQR [A1 A2 A3 A4 A5]. split; try done. intros q. rewrite A5.
  destruct (page_at s q) eqn:E; [|by destruct (Q q), (R q)]. by rewrite HQR.
Qed.

Lemma clears_vread lo hi f Q s s' a : space_ok lo hi s -> clears lo hi f Q s s' -> vread s' a = vread s a.
Proof.
  intros Hs [A1 A2 A3 A4 A5]. rewrite (vread_page_at lo hi s'), (vread_page_at lo hi s), A5, A4 by done.
  by destruct (Q _), (page_at s _) as [[]|].
Qed.

(** A page loses a flag. *)
Lemma update_page lo hi s p g gl f :
  space_ok lo hi s -> page_at s p = Some (g, gl) -> Z.testbit f 0 = false ->
  exists pt, update_flags (page_table s) p (Z.ldiff gl f) = (Ok tt, pt) /\
    clears lo hi f (fun q => q =? p) s (set_page_table s pt).
Proof.
  intros Hs Hp Hf. destruct (so_page _ _ _ Hs _ _ _ Hp) as (Hp0 & Hp1 & Hfl).
  destruct (update_flags_spec _ _ _ _ (Z.ldiff gl f) (so_inv _ _ _ Hs) Hp) as (pt & Hu & Hi & Hv);
    [by apply flags_ok_ldiff|].
  exists pt. split; [done|].
  assert (Hpa : forall q, page_at (set_page_table s pt) q =
    if q =? p then clear_leaf f <$> page_at s q else page_at s q).
  { intros q. unfold page_at. simpl. rewrite Hv. destruct (Z.eqb_spec q p) as [->|Hq].
    - rewrite decide_True by done. fold (page_at s p). by rewrite Hp.
    - by rewrite decide_False by tauto. }
  assert (Hback : forall q h hl, page_at (set_page_table s pt) q = Some (h, hl) ->
    exists hl', page_at s q = Some (h, hl') /\ (flags_ok hl' -> flags_ok hl) /\
      (contains hl COPIED = true -> contains hl' COPIED = true)).
  { intros q h hl. rewrite Hpa. destruct (Z.eqb_spec q p) as [->|Hq]; [|by eauto].
    rewrite Hp. intros [= <- <-]. exists gl. split; [done|]. split; [intros; by apply flags_ok_ldiff|].
    unfold COPIED, BIT_9. change 512 with (2 ^ 9). rewrite !contains_bit by done.
    rewrite Z.ldiff_spec. by intros [? _]%andb_true_iff. }
  split; [|apply (set_page_table_evolves lo hi s pt)|done|done|done].
  pose proof Hs as [_ so_small0 so_page0 so_frame0 so_private0 so_outside0 _]. split; try done; [|..|apply Hs].
  - intros sz q l. simpl. rewrite Hv. case_decide as Hq; [by destruct Hq|apply so_small0].
  - intros q h hl (hl' & Hq & Hok & _)%Hback. destruct (so_page0 _ _ _ Hq) as (? & ? & ?). auto.
  - intros q h hl (hl' & Hq & _)%Hback. by apply (so_frame0 q h hl').
  - intros q r h hl hl2 (hl' & Hq & _ & Hc)%Hback Hcop (hl2' & Hr & _)%Hback.
    apply (so_private0 q r h hl' hl2'); auto.
  - intros q h hl (hl' & Hq & _ & Hc)%Hback Hcop. apply (so_outside0 q h hl'); auto.
Qed.

(** The pages of a segment. *)
Definition in_seg_pages (s : Inner M F) (h : ProgramHeader) (q : Z) : bool :=
  (round_down (seg_va s h) Size4KiB <=? q) && (q <=? seg_last s h).

(** A header whose memory lies in the lower half and is mapped. *)
Record range_mapped (s : Inner M F) (h : ProgramHeader) : Prop := {
  rm_mem : 0 < mem_size h;
  rm_va : 0 <= seg_va s h /\ seg_va s h + mem_size h < 2 ^ 47;
  rm_mapped q : (Size4KiB | q) -> in_seg_pages s h q = true -> is_Some (page_at s q);
}.

Lemma page_at_contains_ldiff lo hi s q g gl n f :
  space_ok lo hi s -> page_at s q = Some (g, gl) -> 0 <= n -> f = 2 ^ n -> contains gl f = false ->
  Z.ldiff gl f = gl.
Proof. intros _ _ Hn -> Hc. rewrite contains_bit in Hc by done. by apply ldiff_absent. Qed.

(** The loop over the pages of a segment: each loses the flag, and nothing
    else changes. *)
Lemma clear_flag_in_spec lo hi s h f n :
  space_ok lo hi s -> range_mapped s h -> f = 2 ^ n -> 0 < n ->
  exists s', clear_flag_in h f s = Ret (Ok tt, s') /\ clears lo hi f (in_seg_pages s h) s s'.
Proof.
  intros Hs [Hm [Hva0 Hva1] Hmap] Hf Hn.
  set (last := seg_va s h + mem_size h - 1).
  assert (Hf0 : Z.testbit f 0 = false) by (rewrite Hf; apply Z.pow2_bits_false; lia).
  assert (Hlast : 0 <= seg_va s h <= last) by (unfold last; lia).
  unfold clear_flag_in, add_offset. rewrite load_bind_assoc, load_bind_get.
  erewrite load_bind_lift by (apply VirtualAddressOffset.add_ok; unfold seg_va in *; unfold u64_size; lia).
  fold (seg_va s h). erewrite load_bind_lift by (apply u64_add_ok; unfold u64_size; lia).
  erewrite load_bind_lift by (apply virt_new_low; lia).
  erewrite load_bind_lift by (apply virt_new_low; lia).
  erewrite load_bind_lift by (apply virt_sub_low; lia). fold last. cbn zeta.
  rewrite !page_containing_4k by (unfold last; lia).
  rewrite page_range_spec; [|by left|by apply round_down_divide|by apply round_down_divide|
    by apply round_down_nonneg|apply round_down_top; unfold last; lia].
  match goal with |- context [for_each ?xs ?body s] => set (pages := xs); set (step := body) end.
  destruct (for_each_invariant (fun don st => clears lo hi f (fun q =>
    (round_down (seg_va s h) Size4KiB <=? q) &&
    (q <? round_down (seg_va s h) Size4KiB + Size4KiB * Z.of_nat (length don))) s st) pages step s)
    as (s' & Hr & Hc).
  - eapply clears_ext; [|by apply clears_refl]. intros q _. simpl.
    destruct (Z.leb_spec (round_down (seg_va s h) Size4KiB) q),
      (Z.ltb_spec q (round_down (seg_va s h) Size4KiB + Size4KiB * Z.of_nat 0)); simpl; lia || done.
  - intros don page rest st Hxs Hst.
    destruct (page_of_range _ _ _ _ _ Hlast Hxs) as (Hpeq & Hlt & Hpd & Hpb & Hpe).
    destruct (Hmap page Hpd) as [[g gl0] Hg0].
    { unfold in_seg_pages. apply andb_true_iff. rewrite !Z.leb_le.
      split; [page_lia|]. unfold seg_last. fold last. apply round_down_le_multiple; done || lia. }
    assert (Hg : exists gl, page_at st page = Some (g, gl)).
    { rewrite (cl_pages _ _ _ _ _ _ Hst). destruct (_ && _); rewrite Hg0; by eexists. }
    destruct Hg as [gl Hg].
    assert (Hstep : exists s', step page st = Ret (Ok tt, s') /\ clears lo hi f (fun q => q =? page) st s').
    { unfold step. rewrite load_bind_get. rewrite (translate_page_at lo hi) by apply Hst.
      rewrite (page_id lo hi st page (g, gl)), Hg by (apply Hst || exact Hg).
      erewrite load_bind_lift by done. destruct (contains gl f) eqn:Hcf.
      - destruct (update_page lo hi st page g gl f) as (pt & Hu & Hcl); [apply Hst|done|done|].
        rewrite Hu. erewrite load_bind_lift by done. eexists. split; [reflexivity|done].
      - exists st. split; [done|]. split; try done; [apply Hst|apply evolves_refl|].
        intros q. destruct (Z.eqb_spec q page) as [->|]; [|done]. rewrite Hg. simpl. unfold clear_leaf. simpl.
        rewrite (page_at_contains_ldiff lo hi st page g gl n f); done || (apply Hst) || lia. }
    destruct Hstep as (s' & Hr & Hcl). exists s'. split; [done|].
    eapply clears_ext; [|eapply clears_trans; [exact Hst|exact Hcl]].
    intros q [l Hq]. pose proof (page_at_aligned _ _ _ _ _ Hs Hq) as Hqd. simpl.
    rewrite length_app. simpl. rewrite Hpeq.
    set (p0 := round_down (seg_va s h) Size4KiB) in *.
    assert (Hpd' : (Size4KiB | p0 + Size4KiB * Z.of_nat (length don))) by (by rewrite <- Hpeq).
    destruct (Z.leb_spec p0 q), (Z.ltb_spec q (p0 + Size4KiB * Z.of_nat (length don))),
      (Z.ltb_spec q (p0 + Size4KiB * Z.of_nat (length don + 1))),
      (Z.eqb_spec q (p0 + Size4KiB * Z.of_nat (length don))); simpl; try done; try page_lia.
    pose proof (divide_lt_step _ _ _ Size4KiB_pos Hpd' Hqd ltac:(lia)). page_lia.
  - exists s'. split; [exact Hr|].
    pose proof (length_pages _ _ Hlast) as [Hlen Htop].
    eapply clears_ext; [|exact Hc]. intros q [l Hq]. pose proof (page_at_aligned _ _ _ _ _ Hs Hq) as Hqd. simpl.
    unfold in_seg_pages, seg_last, pages. fold last. rewrite Hlen, Htop.
    destruct (Z.leb_spec (round_down (seg_va s h) Size4KiB) q); [|done]. simpl.
    destruct (Z.ltb_spec q (round_down last Size4KiB + Size4KiB)), (Z.leb_spec q (round_down last Size4KiB));
      try done; [|page_lia].
    pose proof (divide_lt_step (round_down last Size4KiB) q _ Size4KiB_pos
      ltac:(by apply round_down_divide) Hqd ltac:(lia)). lia.
Qed.

(** * Loops over the program headers *)

Definition is_type (t : Type_) (h : ProgramHeader) : bool :=
  match get_type h with Ok t' => bool_decide (t' = t) | Err _ => false end.

Definition types_ok (hs : list ProgramHeader) : Prop := Forall (fun h => exists t, get_type h = Ok t) hs.

Lemma clears_seg_va lo hi f Q s s' h : clears lo hi f Q s s' -> seg_va s' h = seg_va s h.
Proof. intros Hc. apply (seg_va_evolves lo hi), Hc. Qed.

Lemma in_seg_pages_evolves lo hi s s' h q :
  evolves lo hi s s' -> in_seg_pages s' h q = in_seg_pages s h q.
Proof. intros He. unfold in_seg_pages, seg_last. by rewrite (seg_va_evolves lo hi s s' h He). Qed.

Lemma range_mapped_clears lo hi f Q s s' h :
  clears lo hi f Q s s' -> range_mapped s h -> range_mapped s' h.
Proof.
  intros Hc [H1 H2 H3]. split; [done|by rewrite (clears_seg_va lo hi f Q s)|].
  intros q Hq Hin. rewrite (in_seg_pages_evolves lo hi s s') in Hin by apply Hc.
  rewrite (cl_pages _ _ _ _ _ _ Hc). destruct (H3 q Hq Hin) as [l ->]. destruct (Q q); by eexists.
Qed.

(** The loop of [remove_copied_flags], and the one of [load_segments] that
    handles the relro segments. *)
Lemma clear_headers_spec lo hi f n t hs s :
  space_ok lo hi s -> f = 2 ^ n -> 0 < n -> types_ok hs ->
  (forall h, h ∈ hs -> is_type t h = true -> range_mapped s h) ->
  exists s', for_each hs (fun program_header =>
      ty ← try_ (get_type program_header);
      if decide (ty = t) then clear_flag_in program_header f else mret tt) s = Ret (Ok tt, s') /\
    clears lo hi f (fun q => existsb (fun h => is_type t h && in_seg_pages s h q) hs) s s'.
Proof.
  intros Hs Hf Hn Hty Hmap.
  destruct (for_each_invariant (fun don st =>
    clears lo hi f (fun q => existsb (fun h => is_type t h && in_seg_pages s h q) don) s st) hs
    (fun program_header =>
      ty ← try_ (get_type program_header);
      if decide (ty = t) then clear_flag_in program_header f else mret tt) s) as (s' & Hr & Hc).
  - by apply clears_refl.
  - intros don h rest st Hhs Hst.
    assert (Hin : h ∈ hs) by (rewrite Hhs; set_solver).
    destruct (proj1 (Forall_forall _ _) Hty h Hin) as [ty Hth].
    assert (Hbind : forall A (k : Type_ -> load M F A), (try_ (get_type h) ≫= k) st = k ty st)
      by (intros; by rewrite Hth).
    assert (Hex : forall q, existsb (fun h => is_type t h && in_seg_pages s h q) (don ++ [h]) =
      existsb (fun h => is_type t h && in_seg_pages s h q) don || (is_type t h && in_seg_pages s h q)).
    { intros q. rewrite existsb_app. simpl. by rewrite orb_false_r. }
    rewrite Hbind. destruct (decide (ty = t)) as [->|Hne].
    + assert (Hit : is_type t h = true) by (unfold is_type; rewrite Hth; by apply bool_decide_eq_true).
      destruct (clear_flag_in_spec lo hi st h f n) as (s' & Hr & Hc); [apply Hst| |done|done|].
      { eapply range_mapped_clears; [exact Hst|by apply Hmap]. }
      exists s'. split; [done|]. eapply clears_ext; [|eapply clears_trans; [exact Hst|exact Hc]].
      intros q _. simpl. rewrite Hex, Hit. by rewrite (in_seg_pages_evolves lo hi s st) by apply Hst.
    + exists st. split; [done|]. eapply clears_ext; [|exact Hst]. intros q _. simpl. rewrite Hex.
      assert (is_type t h = false) as ->.
      { unfold is_type. rewrite Hth. by apply bool_decide_eq_false. }
      by rewrite orb_false_r.
  - by exists s'.
Qed.

Lemma remove_copied_flags_spec lo hi elf s :
  space_ok lo hi s -> types_ok (program_iter elf) ->
  (forall h, h ∈ program_iter elf -> is_type Load_ h = true -> range_mapped s h) ->
  exists s', remove_copied_flags elf s = Ret (Ok tt, s') /\
    clears lo hi COPIED (fun q => existsb (fun h => is_type Load_ h && in_seg_pages s h q) (program_iter elf)) s s'.
Proof. intros Hs. by apply (clear_headers_spec lo hi COPIED 9 Load_). Qed.
End Flags.
