(* ===== verification/KernelRelocs.v ===== *)
(** The dynamic section and the relocations of initium/src/kernel.rs.

    Each entry of the relocation table is read from the kernel's virtual
    memory and applied to it, one after the other; when no target lies in the
    table, the result is the list of writes that the entries of the file
    describe. *)

From S2P Require Import Prelude X86 Entries FrameAlloc Paging Kernel KernelSpace KernelCopy.

(** [n] bytes of a virtual memory. *)
Definition vbytes (v : Z -> option Z) (addr : Z) (n : nat) : option (list Z) :=
  mapM v (seqZ addr (Z.of_nat n)).

Lemma vbytes_Some v addr n bs :
  vbytes v addr n = Some bs <->
  length bs = n /\ forall a, addr <= a < addr + Z.of_nat n -> v a = Some (nth (Z.to_nat (a - addr)) bs 0).
Proof.
  unfold vbytes. rewrite mapM_Some, Forall2_same_length_lookup, length_seqZ. split.
  - intros [Hl H]. split; [lia|]. intros a Ha.
    destruct (lookup_lt_is_Some_2 bs (Z.to_nat (a - addr))) as [b Hb]; [lia|].
    rewrite (nth_lookup_Some _ _ _ _ Hb). apply (H (Z.to_nat (a - addr))); [|done].
    apply lookup_seqZ. lia.
  - intros [Hl H]. split; [lia|]. intros i a b Ha Hb. apply lookup_seqZ in Ha as [-> Hi].
    rewrite H by lia. f_equal. replace (Z.to_nat _) with i by lia. by apply nth_lookup_Some.
Qed.

Lemma vbytes_mapped v addr n bs a :
  vbytes v addr n = Some bs -> addr <= a < addr + Z.of_nat n -> is_Some (v a).
Proof. intros [_ H]%vbytes_Some Ha. rewrite H by done. by eexists. Qed.

Lemma vbytes_ext v v' addr n :
  (forall a, addr <= a < addr + Z.of_nat n -> v a = v' a) -> vbytes v addr n = vbytes v' addr n.
Proof.
  intros H. destruct (vbytes v' addr n) as [bs|] eqn:E.
  - apply vbytes_Some in E as [Hl HE]. apply vbytes_Some. split; [done|].
    intros a Ha. rewrite H by done. by apply HE.
  - destruct (vbytes v addr n) as [bs|] eqn:E'; [|done]. apply vbytes_Some in E' as [Hl HE].
    assert (vbytes v' addr n = Some bs); [|congruence].
    apply vbytes_Some. split; [done|]. intros a Ha. rewrite <- H by done. by apply HE.
Qed.

Lemma vwrite_some v addr bs a : is_Some (v a) -> is_Some (vwrite v addr bs a).
Proof. unfold vwrite. case_decide; [by eexists|done]. Qed.

Lemma vwrite_other v addr bs a :
  a < addr \/ addr + Z.of_nat (length bs) <= a -> vwrite v addr bs a = v a.
Proof. intros Ha. unfold vwrite. by rewrite decide_False by lia. Qed.

(** * The layout of a relocation entry

    [Elf64_Rela]: offset, type, symbol and addend, little endian. *)
Definition le (bs : list Z) : Z := foldr (fun b acc => b + 256 * acc) 0 bs.

#[export] Instance elf64_rela : RelaFormat := {|
  get_offset bs := le (take 8 bs);
  get_rela_type bs := le (take 4 (drop 8 bs));
  get_symbol_table_index bs := le (take 4 (drop 12 bs));
  get_addend bs := le (take 8 (drop 16 bs));
|}.

Section Relocs.
Context {X : X86_64} {XL : X86_64_Laws X} {P : Profile} {RF : RelaFormat}.
Context {M F : Type} {FA : FrameAllocator F} {FL : FreeList F} {PT : PageTable M F}.
Context {PL : PageTableLaws M F}.

Abbreviation off s := (VirtualAddressOffset.virtual_address_offset (virtual_address_offset s)).

(** Where an entry writes, and what. *)
Definition target (s : Inner M F) (bs : list Z) : Z := off s + get_offset bs.
Definition value (s : Inner M F) (bs : list Z) : Z := off s + get_addend bs.

(** An entry that the loader supports: a relative relocation of a word in a
    mapped load segment. *)
Record reloc_ok (elf : ElfFile) (s : Inner M F) (v : Z -> option Z) (bs : list Z) : Prop := {
  rl_symbol : get_symbol_table_index bs = 0;
  rl_type : get_rela_type bs = 8;
  rl_in_load : check_is_in_load elf (get_offset bs) = Ok tt;
  rl_offset : 0 <= get_offset bs < 2 ^ 64;
  rl_target : 0 <= target s bs /\ target s bs + 8 <= 2 ^ 47;
  rl_mapped a : target s bs <= a < target s bs + 8 -> is_Some (v a);
  rl_value : 0 <= value s bs < 2 ^ 64;
}.

(** The write of one entry. *)
Definition relocate1 (s : Inner M F) (v : Z -> option Z) (bs : list Z) : Z -> option Z :=
  vwrite v (target s bs) (to_ne_bytes (value s bs)).

Definition relocate (s : Inner M F) (v : Z -> option Z) (entries : list (list Z)) : Z -> option Z :=
  foldl (relocate1 s) v entries.

(** Eight bytes lie in at most two pages. *)
Lemma page_span_word addr : 0 <= addr -> (Z.to_nat (page_span addr (addr + 8 - 1)) <= 2)%nat.
Proof.
  intros Ha. unfold page_span.
  pose proof (round_down_bounds addr Size4KiB Size4KiB_pos).
  pose proof (round_down_bounds (addr + 8 - 1) Size4KiB Size4KiB_pos).
  assert ((round_down (addr + 8 - 1) Size4KiB - round_down addr Size4KiB) / Size4KiB < 2).
  { apply Z.div_lt_upper_bound; page_lia. }
  lia.
Qed.

Lemma read_relocation_spec lo hi s table idx bs :
  space_ok lo hi s -> 0 <= table -> 0 <= idx -> table + 24 * idx < 2 ^ 64 ->
  0 <= off s + (table + 24 * idx) -> off s + (table + 24 * idx) + 24 <= 2 ^ 47 ->
  vbytes (vread s) (off s + (table + 24 * idx)) 24 = Some bs ->
  read_relocation table idx s = Ret (Ok bs, s).
Proof.
  intros Hs Ht Hi Hb H0 H1 Hbs.
  unfold read_relocation, add_offset. unfold size_of_Rela.
  erewrite load_bind_lift by (apply u64_mul_ok; unfold u64_size; lia).
  erewrite load_bind_lift by (apply u64_add_ok; unfold u64_size; lia).
  rewrite load_bind_assoc, load_bind_get.
  erewrite load_bind_lift by (apply VirtualAddressOffset.add_ok; unfold u64_size; lia).
  erewrite load_bind_lift by (rewrite virt_try_new_canonical by (left; lia); reflexivity).
  destruct (copy_from_spec lo hi s (off s + (table + 24 * idx)) (replicate 24 0)) as (bs' & Hr & Hl & Hbs');
    [done|simpl; lia|done|simpl; lia| |].
  { intros a Ha. eapply vbytes_mapped; [exact Hbs|]. exact Ha. }
  rewrite Hr. do 3 f_equal.
  assert (Some bs = Some bs') as [= ->]; [|done]. rewrite <- Hbs. apply vbytes_Some.
  split; [done|]. exact Hbs'.
Qed.

Lemma apply_relocation_spec lo hi elf s bs k :
  space_ok lo hi s -> reloc_ok elf s (vread s) bs -> frames (8 + k) s ->
  exists s', apply_relocation bs elf s = Ret (Ok tt, s') /\
    effect lo hi s s' (relocate1 s (vread s) bs) /\ frames k s'.
Proof.
  intros Hs [Hsym Hty Hin Ho [Ht0 Ht1] Hmap Hv] Hk.
  unfold apply_relocation, add_offset. rewrite Hsym, Hty. simpl assert_that.
  erewrite load_bind_lift by done. cbn [Z.eqb Pos.eqb]. rewrite Hin.
  erewrite load_bind_Ret by done. rewrite load_bind_assoc, load_bind_get.
  erewrite load_bind_lift by (apply VirtualAddressOffset.add_ok; unfold target in *; unfold u64_size; lia).
  fold (target s bs). erewrite load_bind_lift by (apply virt_new_low; lia).
  rewrite load_bind_assoc, load_bind_get.
  erewrite load_bind_lift by (apply VirtualAddressOffset.add_ok; unfold value in *; unfold u64_size; lia).
  fold (value s bs).
  apply (copy_to_spec lo hi s (target s bs) (to_ne_bytes (value s bs)) k); [done|simpl; lia|lia|simpl; lia| |].
  - exact Hmap.
  - eapply has_frames_le; [|exact Hk]. pose proof (page_span_word (target s bs) ltac:(lia)).
    change (Z.of_nat (length (to_ne_bytes (value s bs)))) with 8. lia.
Qed.

Lemma relocate_mapped s entries : forall v a, is_Some (v a) -> is_Some (relocate s v entries a).
Proof.
  induction entries as [|bs entries IH]; intros v a Ha; [done|]. apply IH. by apply vwrite_some.
Qed.

Lemma relocate_outside s entries : forall v a,
  (forall bs, bs ∈ entries -> a < target s bs \/ target s bs + 8 <= a) -> relocate s v entries a = v a.
Proof.
  induction entries as [|bs entries IH]; intros v a Ha; [done|]. simpl.
  rewrite IH by (intros; apply Ha; set_solver). apply vwrite_other. apply Ha. set_solver.
Qed.

Lemma relocate_ext s entries : forall v v' a,
  (forall x, v x = v' x) -> relocate s v entries a = relocate s v' entries a.
Proof.
  induction entries as [|bs entries IH]; intros v v' a Hv; [apply Hv|]. simpl. apply IH.
  intros x. by apply vwrite_ext.
Qed.

(** The relocation table at [table]: [entries] in the image [v], all supported,
    none of whose targets meets the table. *)
Record table_ok (elf : ElfFile) (s : Inner M F) (v : Z -> option Z) (table : Z) (entries : list (list Z))
  : Prop := {
  tb_table : 0 <= table;
  tb_top : table + 24 * Z.of_nat (length entries) < 2 ^ 64;
  tb_low : 0 <= off s + table;
  tb_high : off s + table + 24 * Z.of_nat (length entries) <= 2 ^ 47;
  tb_bytes i bs : entries !! i = Some bs -> vbytes v (off s + (table + 24 * Z.of_nat i)) 24 = Some bs;
  tb_ok bs : bs ∈ entries -> reloc_ok elf s v bs;
  tb_apart bs : bs ∈ entries ->
    target s bs + 8 <= off s + table \/ off s + table + 24 * Z.of_nat (length entries) <= target s bs;
}.

Lemma target_evolves lo hi s s' bs : evolves lo hi s s' -> target s' bs = target s bs.
Proof. intros He. unfold target. by rewrite (ev_vao _ _ _ _ He). Qed.

Lemma value_evolves lo hi s s' bs : evolves lo hi s s' -> value s' bs = value s bs.
Proof. intros He. unfold value. by rewrite (ev_vao _ _ _ _ He). Qed.

Lemma reloc_ok_evolves lo hi elf s s' v v' bs :
  evolves lo hi s s' -> (forall a, is_Some (v a) -> is_Some (v' a)) ->
  reloc_ok elf s v bs -> reloc_ok elf s' v' bs.
Proof.
  intros He Hv [H1 H2 H3 H4 H5 H6 H7].
  split; rewrite ?(target_evolves lo hi s s' bs He), ?(value_evolves lo hi s s' bs He); auto.
Qed.

Lemma elem_of_take {A} (x : A) n l : x ∈ take n l -> x ∈ l.
Proof. intros Hx. rewrite <- (take_drop n l). apply elem_of_app. by left. Qed.

(** The loop over the relocation table applies the entries of the image. *)
Lemma relocations_spec lo hi elf s table entries k :
  space_ok lo hi s -> table_ok elf s (vread s) table entries -> frames (8 * length entries + k) s ->
  exists s', for_each (range0 (Z.of_nat (length entries))) (fun idx =>
      rela ← read_relocation table idx;
      apply_relocation rela elf) s = Ret (Ok tt, s') /\
    effect lo hi s s' (relocate s (vread s) entries) /\ frames k s'.
Proof.
  intros Hs Ht Hk. set (n := length entries) in *.
  destruct (for_each_invariant (fun don st =>
    effect lo hi s st (relocate s (vread s) (take (length don) entries)) /\
    frames (8 * (n - length don) + k) st) (range0 (Z.of_nat n)) (fun idx =>
      rela ← read_relocation table idx;
      apply_relocation rela elf) s) as (s' & Hr & Hef & Hk').
  - split; [by apply effect_refl|]. simpl. by rewrite Nat.sub_0_r.
  - intros don idx rest st Hxs [Hef Hkst].
    assert (Hx : range0 (Z.of_nat n) !! length don = Some idx)
      by (rewrite Hxs, lookup_app_r, Nat.sub_diag by lia; done).
    apply range0_lookup in Hx as [-> Hlt]. set (i := length don) in *.
    destruct (lookup_lt_is_Some_2 entries i) as [bs Hbs]; [unfold n in *; lia|].
    pose proof (list_elem_of_lookup_2 _ _ _ Hbs) as Hin.
    pose proof (ef_evolves _ _ _ _ _ Hef) as Hev.
    assert (Hoff : off st = off s) by (by rewrite (ev_vao _ _ _ _ Hev)).
    destruct Ht as [T1 T2 T3 T4 T5 T6 T7]. fold n in T2, T4, T7.
    assert (Hread : read_relocation table (Z.of_nat i) st = Ret (Ok bs, st)).
    { apply (read_relocation_spec lo hi); rewrite ?Hoff; try lia; [apply Hef|].
      rewrite <- (T5 i bs Hbs). apply vbytes_ext. intros a Ha.
      rewrite (ef_read _ _ _ _ _ Hef). apply relocate_outside.
      intros bs' Hbs'%elem_of_take. specialize (T7 bs' Hbs'). unfold n in *. lia. }
    destruct (apply_relocation_spec lo hi elf st bs (8 * (n - S i) + k)) as (s' & Hr & Hef' & Hk');
      [apply Hef| |by replace (8 + _)%nat with (8 * (n - i) + k)%nat by lia|].
    { eapply (reloc_ok_evolves lo hi elf s st (vread s)); [done| |by apply T6].
      intros a Ha. rewrite (ef_read _ _ _ _ _ Hef). by apply relocate_mapped. }
    exists s'. split; [erewrite load_bind_Ret by exact Hread; exact Hr|].
    rewrite length_app, Nat.add_1_r. fold i. split; [|done].
    eapply effect_ext; [eapply effect_trans; [exact Hef|exact Hef']|].
    intros a. rewrite (take_S_r _ _ _ Hbs). unfold relocate. rewrite foldl_app. simpl.
    unfold relocate1. rewrite (target_evolves lo hi s st), (value_evolves lo hi s st) by done.
    apply vwrite_ext. apply Hef.
  - exists s'. split; [exact Hr|].
    assert (length (range0 (Z.of_nat n)) = n) as Hlen by (unfold range0; rewrite length_seqZ; lia).
    rewrite Hlen in *. split; [|by rewrite Nat.sub_diag in Hk'].
    eapply effect_ext; [exact Hef|]. intros a. by rewrite take_ge by done.
Qed.
End Relocs.
