(* ===== verification/KernelLoad.v ===== *)
(** [Loader::load_segments] and the parts of the loader around it: the passes
    over the program headers composed. *)

From S2P Require Import Prelude X86 Synapse Entries FrameAlloc Paging.
From S2P Require Import Kernel KernelSpace KernelCopy KernelSegments KernelFlags KernelRelocs.

(** * The dynamic section *)

#[export] Instance Tag_eq_dec : EqDecision Tag.
Proof. solve_decision. Defined.

Definition option_list {A} (o : option A) : list A := match o with Some a => [a] | None => [] end.

(** The values of the entries with a tag. *)
Definition values_of (read : Dynamic -> result Z string) (t : Tag) (data : list Dynamic) : list Z :=
  omap (fun d => match get_tag d, read d with
                 | Ok t', Ok v => if bool_decide (t' = t) then Some v else None
                 | _, _ => None
                 end) data.

(** No accessor of an entry fails. *)
Definition dynamic_ok (d : Dynamic) : Prop :=
  (exists t, get_tag d = Ok t) /\ (exists p, get_ptr d = Ok p) /\ (exists v, get_val d = Ok v).

(** The dynamic section has the three values exactly when each of the three
    tags occurs at most once. *)
Lemma scan_dynamic_spec data : Forall dynamic_ok data -> forall e e',
  scan_dynamic data e = Ok e' <->
    option_list (rela e) ++ values_of get_ptr Rela data = option_list (rela e') /\
    option_list (rela_size e) ++ values_of get_val RelaSize data = option_list (rela_size e') /\
    option_list (rela_ent e) ++ values_of get_val RelaEnt data = option_list (rela_ent e').
Proof.
  induction 1 as [|d data ((t & Ht) & (p & Hp) & (v & Hv)) Hok IH]; intros e e'.
  - simpl. rewrite !app_nil_r. destruct e as [[] [] []], e' as [[] [] []]; simpl; naive_solver.
  - unfold values_of. simpl. rewrite Ht, Hp, Hv. simpl.
    destruct t; simpl; rewrite ?(bool_decide_eq_true_2 _ eq_refl);
      repeat (rewrite bool_decide_eq_false_2 by done); simpl; try apply IH.
    all: destruct e as [er es ee]; simpl.
    + destruct er as [x|]; simpl; [|rewrite IH; done].
      split; [done|]. intros (H & _). by destruct (rela e').
    + destruct es as [x|]; simpl; [|rewrite IH; done].
      split; [done|]. intros (_ & H & _). by destruct (rela_size e').
    + destruct ee as [x|]; simpl; [|rewrite IH; done].
      split; [done|]. intros (_ & _ & H). by destruct (rela_ent e').
Qed.

Section Load.
Context {X : X86_64} {XL : X86_64_Laws X} {P : Profile} {RF : RelaFormat}.
Context {M F : Type} {FA : FrameAllocator F} {FL : FreeList F} {PT : PageTable M F}.
Context {PL : PageTableLaws M F}.

Abbreviation off s := (VirtualAddressOffset.virtual_address_offset (virtual_address_offset s)).

(** A dynamic segment whose relocation table, if it has one, holds [entries]
    in the image [v]. *)
Definition dynamic_relocs (elf : ElfFile) (s : Inner M F) (v : Z -> option Z) (h : ProgramHeader)
    (entries : list (list Z)) : Prop :=
  exists data e, get_data h = Ok (Dynamic64 data) /\
    scan_dynamic data (mkRelaEntries None None None) = Ok e /\
    match rela e with
    | None => rela_size e = None /\ rela_ent e = None /\ entries = []
    | Some table => rela_size e = Some (24 * Z.of_nat (length entries)) /\ rela_ent e = Some 24 /\
        table_ok elf s v table entries
    end.

Lemma handle_dynamic_spec lo hi elf s h entries k :
  space_ok lo hi s -> dynamic_relocs elf s (vread s) h entries -> frames (8 * length entries + k) s ->
  exists s', handle_dynamic_segment h elf s = Ret (Ok tt, s') /\
    effect lo hi s s' (relocate s (vread s) entries) /\ frames k s'.
Proof.
  intros Hs (data & e & Hd & He & Hm) Hk. unfold handle_dynamic_segment. rewrite Hd.
  erewrite load_bind_Ret by done. erewrite load_bind_lift by done.
  erewrite load_bind_Ret by (unfold try_; rewrite He; reflexivity).
  destruct (rela e) as [table|].
  - destruct Hm as (Hsz & Hen & Ht). rewrite Hsz, Hen.
    erewrite load_bind_Ret by done. erewrite load_bind_Ret by done.
    erewrite load_bind_lift by done. cbn zeta.
    replace (24 * Z.of_nat (length entries) / 24) with (Z.of_nat (length entries))
      by (rewrite Z.mul_comm, Z.div_mul; done).
    by apply (relocations_spec lo hi).
  - destruct Hm as (-> & -> & ->). exists s. split; [done|]. split; [by apply effect_refl|].
    by apply (frames_weaken (8 * length (@nil (list Z)) + k)); [lia|].
Qed.

(** * The first pass: load segments *)

Definition tls_of (s : Inner M F) (h : ProgramHeader) : TlsTemplate :=
  mkTlsTemplate (seg_va s h) (file_size h) (mem_size h).

Definition seg_pages (s : Inner M F) (h : ProgramHeader) (a : Z) : Prop :=
  round_down (seg_va s h) Size4KiB <= a < seg_last s h + Size4KiB.

(** Two segments have no page in common. *)
Definition pages_apart (s : Inner M F) (h1 h2 : ProgramHeader) : Prop :=
  seg_last s h1 + Size4KiB <= round_down (seg_va s h2) Size4KiB \/
  seg_last s h2 + Size4KiB <= round_down (seg_va s h1) Size4KiB.

(** Program headers that the loader accepts. *)
Record headers_ok (lo hi : Z) (s : Inner M F) (hs : list ProgramHeader) : Prop := {
  ho_types : types_ok hs;
  ho_segments h : h ∈ hs -> is_type Load_ h = true -> seg_ok lo hi s h;
  ho_tls h : h ∈ hs -> is_type Tls h = true -> 0 <= seg_va s h < 2 ^ 64;
  ho_apart : ForallOrdPairs (pages_apart s) (List.filter (is_type Load_) hs);
  ho_one_tls : (length (List.filter (is_type Tls) hs) <= 1)%nat;
}.

Definition load_cost (s : Inner M F) (hs : list ProgramHeader) : nat :=
  sum_list_with (seg_cost s) (List.filter (is_type Load_) hs).

(** The image of the load segments of [hs] has been added to [s]. *)
Record loaded (lo hi : Z) (s : Inner M F) (hs : list ProgramHeader) (s' : Inner M F) : Prop := {
  ld_ok : space_ok lo hi s';
  ld_evolves : evolves lo hi s s';
  ld_byte h a : h ∈ hs -> is_type Load_ h = true ->
    seg_va s h <= a < seg_va s h + mem_size h -> vread s' a = Some (seg_byte s h a);
  ld_other a : (forall h, h ∈ hs -> is_type Load_ h = true -> ~ seg_pages s h a) -> vread s' a = vread s a;
  ld_flags h q : h ∈ hs -> is_type Load_ h = true -> seg_pages s h q -> (Size4KiB | q) ->
    base_flags s' q = Some (segment_flags h);
  ld_other_flags q : (forall h, h ∈ hs -> is_type Load_ h = true -> ~ seg_pages s h q) ->
    base_flags s' q = base_flags s q;
}.

Lemma seg_last_evolves lo hi (s s' : Inner M F) h : evolves lo hi s s' -> seg_last s' h = seg_last s h.
Proof. intros He. unfold seg_last. by rewrite (seg_va_evolves lo hi s s' h He). Qed.

Lemma seg_byte_evolves lo hi (s s' : Inner M F) h a :
  evolves lo hi s s' -> seg_ok lo hi s h -> seg_va s h <= a -> seg_byte s' h a = seg_byte s h a.
Proof.
  intros He [_ _ _ _ _ [H0 H1] _] Ha. unfold seg_byte. rewrite (seg_va_evolves lo hi s s' h He).
  case_decide; [|done].
  assert (seg_pa s' h = seg_pa s h) as -> by (unfold seg_pa; by rewrite (ev_offset _ _ _ _ He)).
  apply (ev_file _ _ _ _ He). lia.
Qed.

Lemma headers_ok_cons lo hi s h hs : headers_ok lo hi s (h :: hs) -> headers_ok lo hi s hs.
Proof.
  intros [H1 H2 H3 H4 H5]. split.
  - by apply Forall_cons in H1 as [_ ?].
  - intros h' Hh'. apply H2. by right.
  - intros h' Hh'. apply H3. by right.
  - simpl in H4. destruct (is_type Load_ h); [by inversion H4|done].
  - simpl in H5. destruct (is_type Tls h); simpl in H5; lia.
Qed.

Lemma headers_ok_evolves lo hi (s s' : Inner M F) hs : evolves lo hi s s' -> headers_ok lo hi s hs -> headers_ok lo hi s' hs.
Proof.
  intros He [H1 H2 H3 H4 H5]. split; [done| | | |done].
  - intros h Hh Ht. eapply seg_ok_evolves; [exact He|auto].
  - intros h Hh Ht. rewrite (seg_va_evolves lo hi s s' h He). auto.
  - revert H4. generalize (List.filter (is_type Load_) hs). induction 1; constructor; [|done].
    eapply List.Forall_impl; [|eassumption]. intros h2. unfold pages_apart.
    by rewrite !(seg_last_evolves lo hi s s'), !(seg_va_evolves lo hi s s') by done.
Qed.

Lemma file_ok_evolves lo hi (s s' : Inner M F) : evolves lo hi s s' -> file_ok lo hi s -> file_ok lo hi s'.
Proof. intros He [H1 H2 H3 H4 H5]. split; try done. by rewrite (ev_offset _ _ _ _ He). Qed.

Lemma seg_cost_evolves lo hi (s s' : Inner M F) h : evolves lo hi s s' -> seg_cost s' h = seg_cost s h.
Proof. intros He. unfold seg_cost. by rewrite (seg_va_evolves lo hi s s' h He). Qed.

Lemma load_cost_evolves lo hi (s s' : Inner M F) hs : evolves lo hi s s' -> load_cost s' hs = load_cost s hs.
Proof.
  intros He. unfold load_cost. induction (List.filter (is_type Load_) hs) as [|h l IH]; simpl; [done|].
  by rewrite (seg_cost_evolves lo hi s s' h He), IH.
Qed.

Lemma seg_pages_evolves lo hi (s s' : Inner M F) h a :
  evolves lo hi s s' -> seg_pages s' h a <-> seg_pages s h a.
Proof.
  intros He. unfold seg_pages. by rewrite (seg_last_evolves lo hi s s'), (seg_va_evolves lo hi s s').
Qed.

(** A segment's bytes lie in its pages. *)
Lemma seg_pages_byte (s : Inner M F) h a :
  seg_va s h <= a < seg_va s h + mem_size h -> seg_pages s h a.
Proof.
  intros Ha. unfold seg_pages, seg_last. pose proof (round_down_bounds (seg_va s h) Size4KiB Size4KiB_pos).
  pose proof (round_down_bounds (seg_va s h + mem_size h - 1) Size4KiB Size4KiB_pos). lia.
Qed.

Lemma pages_apart_disjoint (s : Inner M F) h1 h2 a :
  pages_apart s h1 h2 -> seg_pages s h1 a -> seg_pages s h2 a -> False.
Proof. unfold pages_apart, seg_pages. lia. Qed.

(** The remaining segments are apart from the first. *)
Lemma apart_cons lo hi (s : Inner M F) h hs h' :
  headers_ok lo hi s (h :: hs) -> is_type Load_ h = true -> h' ∈ hs -> is_type Load_ h' = true ->
  pages_apart s h h'.
Proof.
  intros [_ _ _ H _] Hh Hin Hh'. simpl in H. rewrite Hh in H. inversion H as [|? ? Hall]; subst.
  rewrite List.Forall_forall in Hall. apply Hall. apply filter_In. split; [by apply list_elem_of_In|done].
Qed.

(** One load segment, then the rest. *)
Lemma loaded_cons lo hi (s : Inner M F) h hs s1 s' :
  headers_ok lo hi s (h :: hs) -> is_type Load_ h = true ->
  space_ok lo hi s1 -> evolves lo hi s s1 ->
  (forall a, seg_va s h <= a < seg_va s h + mem_size h -> vread s1 a = Some (seg_byte s h a)) ->
  (forall a, ~ seg_pages s h a -> vread s1 a = vread s a) ->
  (forall q, base_flags s1 q = if decide (seg_pages s h q /\ (Size4KiB | q))
                               then Some (segment_flags h) else base_flags s q) ->
  loaded lo hi s1 hs s' -> loaded lo hi s (h :: hs) s'.
Proof.
  intros Hok Hh Hs1 He1 Hb1 Ho1 Hf1 [L1 L2 L3 L4 L5 L6].
  pose proof (apart_cons lo hi s h hs) as Hap.
  assert (Hout : forall a, seg_pages s h a ->
    forall h', h' ∈ hs -> is_type Load_ h' = true -> ~ seg_pages s1 h' a).
  { intros a Ha h' Hin Ht. rewrite (seg_pages_evolves lo hi s s1) by done.
    intros Ha'. by apply (pages_apart_disjoint s h h' a); [apply Hap|..]. }
  split; [done|by eapply evolves_trans| | | |].
  - intros h' a [->|Hin]%elem_of_cons Ht Ha.
    + rewrite L4; [by apply Hb1|]. apply Hout. by apply seg_pages_byte.
    + rewrite (L3 h') by (done || by rewrite (seg_va_evolves lo hi s s1)). f_equal.
      apply (seg_byte_evolves lo hi); [done| |lia]. apply (ho_segments _ _ _ _ Hok); [by right|done].
  - intros a Ha. rewrite L4, Ho1; [done| |].
    + apply Ha; [by left|done].
    + intros h' Hin Ht. rewrite (seg_pages_evolves lo hi s s1) by done. apply Ha; [by right|done].
  - intros h' q [->|Hin]%elem_of_cons Ht Hq Hd.
    + rewrite L6, Hf1 by (by apply Hout). by rewrite decide_True.
    + apply (L5 h'); try done. by rewrite (seg_pages_evolves lo hi s s1).
  - intros q Hq. rewrite L6, Hf1.
    + rewrite decide_False; [done|]. intros [Hp _]. by apply (Hq h); [left|..].
    + intros h' Hin Ht. rewrite (seg_pages_evolves lo hi s s1) by done. apply Hq; [by right|done].
Qed.

(** A header that is not a load segment changes nothing. *)
Lemma loaded_skip lo hi (s : Inner M F) h hs s' :
  is_type Load_ h = false -> loaded lo hi s hs s' -> loaded lo hi s (h :: hs) s'.
Proof.
  intros Hh [L1 L2 L3 L4 L5 L6]. split; [done|done| | | |].
  - intros h' a [->|Hin]%elem_of_cons Ht; [congruence|by apply L3].
  - intros a Ha. apply L4. intros h' Hin. apply Ha. by right.
  - intros h' q [->|Hin]%elem_of_cons Ht; [congruence|by apply L5].
  - intros q Hq. apply L6. intros h' Hin. apply Hq. by right.
Qed.

Definition first_tls (s : Inner M F) (hs : list ProgramHeader) (tls : option TlsTemplate)
  : option TlsTemplate :=
  match List.filter (is_type Tls) hs with [] => tls | h :: _ => Some (tls_of s h) end.

Lemma first_tls_evolves lo hi (s s' : Inner M F) hs tls : evolves lo hi s s' -> first_tls s' hs tls = first_tls s hs tls.
Proof.
  intros He. unfold first_tls. case_match; [done|]. unfold tls_of. by rewrite (seg_va_evolves lo hi s s').
Qed.

(** Loading one segment leaves the others vacant. *)
Lemma vacant_evolves lo hi (s s1 : Inner M F) h h' :
  pages_apart s h h' -> evolves lo hi s s1 -> seg_vacant s h' ->
  (forall q, base_flags s1 q = if decide (seg_pages s h q /\ (Size4KiB | q))
                               then Some (segment_flags h) else base_flags s q) ->
  seg_vacant s1 h'.
Proof.
  intros Hap He Hv Hf q Hq. rewrite (seg_last_evolves lo hi s s1), (seg_va_evolves lo hi s s1) in Hq by done.
  apply flags_none_page. rewrite Hf, decide_False; [by apply flags_none_page, Hv|].
  intros [Hp _]. by apply (pages_apart_disjoint s h h' q).
Qed.

(** The first pass of [load_segments]. *)
Lemma load_headers_spec lo hi hs : forall (s : Inner M F) tls k,
  space_ok lo hi s -> file_ok lo hi s -> headers_ok lo hi s hs ->
  (forall h, h ∈ hs -> is_type Load_ h = true -> seg_vacant s h) ->
  (tls = None \/ List.filter (is_type Tls) hs = []) ->
  frames (load_cost s hs + k) s ->
  exists s', load_headers hs tls s = Ret (Ok (first_tls s hs tls), s') /\ frames k s' /\ loaded lo hi s hs s'.
Proof.
  induction hs as [|h hs IH]; intros s tls k Hs Hfile Hok Hvac Htls Hk.
  - exists s. split; [done|]. split; [done|].
    split; try done; [apply evolves_refl|by intros ? ? ?%elem_of_nil..].
  - destruct (proj1 (Forall_forall _ _) (ho_types _ _ _ _ Hok) h ltac:(by left)) as [t Ht].
    pose proof (headers_ok_cons _ _ _ _ _ Hok) as Hok'.
    assert (Hvac' : forall h', h' ∈ hs -> is_type Load_ h' = true -> seg_vacant s h')
      by (intros; apply Hvac; [by right|done]).
    cbn [load_headers]. erewrite load_bind_Ret by (unfold try_; rewrite Ht; reflexivity).
    destruct (decide (t = Load_)) as [->|Hl]; [|destruct (decide (t = Tls)) as [->|Htt]].
    + assert (Hit : is_type Load_ h = true) by (unfold is_type; by rewrite Ht).
      assert (Hnt : is_type Tls h = false) by (unfold is_type; by rewrite Ht).
      assert (Hc : load_cost s (h :: hs) = (seg_cost s h + load_cost s hs)%nat)
        by (unfold load_cost; simpl; by rewrite Hit).
      rewrite Hc, <- Nat.add_assoc in Hk.
      destruct (handle_load_segment_spec lo hi s h (load_cost s hs + k)) as
        (s1 & Hr & Hk1 & Hs1 & He1 & Hb1 & Ho1 & Hf1); [done|done| | |exact Hk|].
      { apply (ho_segments _ _ _ _ Hok); [by left|done]. }
      { apply Hvac; [by left|done]. }
      erewrite load_bind_Ret by exact Hr.
      destruct (IH s1 tls k) as (s' & Hr' & Hk' & Hl'); [done|by eapply file_ok_evolves
        |by eapply headers_ok_evolves| | |by rewrite (load_cost_evolves lo hi s s1)|].
      { intros h' Hin Ht'. eapply vacant_evolves; [by eapply apart_cons|done|by apply Hvac'|exact Hf1]. }
      { simpl in Htls. by rewrite Hnt in Htls. }
      exists s'. split; [|split; [done|by eapply loaded_cons]].
      rewrite Hr', (first_tls_evolves lo hi s s1) by done. unfold first_tls. simpl. by rewrite Hnt.
    + assert (Hil : is_type Load_ h = false) by (unfold is_type; by rewrite Ht).
      assert (Hit : is_type Tls h = true) by (unfold is_type; by rewrite Ht).
      pose proof (ho_one_tls _ _ _ _ Hok) as Hone. simpl in Hone, Htls. rewrite Hit in Hone, Htls.
      destruct Htls as [->|?]; [|done].
      assert (Hnil : List.filter (is_type Tls) hs = []).
      { destruct (List.filter (is_type Tls) hs); [done|simpl in Hone; lia]. }
      destruct (IH s (Some (tls_of s h)) k) as (s' & Hr' & Hk' & Hl'); try done; [by right| |].
      { unfold load_cost in *. simpl in Hk. by rewrite Hil in Hk. }
      exists s'. split; [|split; [done|by apply loaded_skip]].
      unfold handle_tls_segment, add_offset. rewrite !load_bind_assoc, load_bind_get.
      erewrite load_bind_lift.
      2: { apply VirtualAddressOffset.add_ok. pose proof (ho_tls _ _ _ _ Hok h ltac:(by left) Hit).
           unfold seg_va in *. unfold u64_size. lia. }
      fold (seg_va s h). fold (tls_of s h). erewrite load_bind_Ret by done.
      rewrite Hr'. unfold first_tls. simpl. by rewrite Hit, Hnil.
    + assert (Hil : is_type Load_ h = false).
      { unfold is_type. rewrite Ht. by apply bool_decide_eq_false. }
      assert (Hit : is_type Tls h = false).
      { unfold is_type. rewrite Ht. by apply bool_decide_eq_false. }
      destruct (IH s tls k) as (s' & Hr' & Hk' & Hl'); try done.
      { simpl in Htls. by rewrite Hit in Htls. }
      { unfold load_cost in *. simpl in Hk. by rewrite Hil in Hk. }
      exists s'. split; [|split; [done|by apply loaded_skip]].
      assert (Hft : first_tls s (h :: hs) tls = first_tls s hs tls) by (unfold first_tls; simpl; by rewrite Hit).
      rewrite Hft. destruct t; done || exact Hr'.
Qed.

(** * All passes *)

(** A pass over the headers of one type. *)
Lemma for_each_type t hs (body : ProgramHeader -> load M F unit) : forall s,
  types_ok hs ->
  for_each hs (fun h => ty ← try_ (get_type h); if decide (ty = t) then body h else mret tt) s =
  for_each (List.filter (is_type t) hs) body s.
Proof.
  induction hs as [|h hs IH]; intros s Hok; [done|].
  apply Forall_cons in Hok as [[ty Ht] Hok]. cbn [for_each List.filter].
  rewrite load_bind_assoc. erewrite load_bind_Ret by (unfold try_; rewrite Ht; reflexivity).
  unfold is_type at 1. rewrite Ht. destruct (decide (ty = t)) as [->|Hne].
  - rewrite bool_decide_eq_true_2 by done. cbn [for_each]. unfold mbind, load_bind.
    destruct (body h s) as [[[[]|e] s']|msg|]; simpl; [by apply IH|done..].
  - rewrite bool_decide_eq_false_2 by done. erewrite load_bind_Ret by done. by apply IH.
Qed.

(** The bytes of the load segments, as the file describes them. *)
Definition image (s : Inner M F) (hs : list ProgramHeader) : Z -> option Z := fun a =>
  match List.find (fun h => is_type Load_ h &&
                     ((seg_va s h <=? a) && (a <? seg_va s h + mem_size h))) hs with
  | Some h => Some (seg_byte s h a)
  | None => None
  end.

(** [v] extended. *)
Definition included (v v' : Z -> option Z) : Prop := forall a b, v a = Some b -> v' a = Some b.

Lemma image_loaded lo hi (s : Inner M F) hs s' : loaded lo hi s hs s' -> included (image s hs) (vread s').
Proof.
  intros Hl a b. unfold image. destruct (List.find _ hs) as [h|] eqn:E; [|done]. intros [= <-].
  apply List.find_some in E as [Hin Hb]. apply andb_true_iff in Hb as [Ht Hb].
  apply andb_true_iff in Hb as [H1%Z.leb_le H2%Z.ltb_lt].
  apply (ld_byte _ _ _ _ _ Hl); [by apply list_elem_of_In|done|lia].
Qed.

Lemma included_mapped v v' a : included v v' -> is_Some (v a) -> is_Some (v' a).
Proof. intros H [b Hb]. exists b. by apply H. Qed.

Lemma included_vbytes v v' addr n bs : included v v' -> vbytes v addr n = Some bs -> vbytes v' addr n = Some bs.
Proof.
  intros H [Hl Hb]%vbytes_Some. apply vbytes_Some. split; [done|]. intros a Ha. by apply H, Hb.
Qed.

Lemma included_relocate (s : Inner M F) entries : forall v v', included v v' ->
  included (relocate s v entries) (relocate s v' entries).
Proof.
  induction entries as [|bs entries IH]; intros v v' H; [done|]. simpl. apply IH.
  intros a b. unfold relocate1, vwrite. case_decide; [done|]. apply H.
Qed.

Lemma relocate_evolves lo hi (s s' : Inner M F) entries : forall v a,
  evolves lo hi s s' -> relocate s' v entries a = relocate s v entries a.
Proof.
  induction entries as [|bs entries IH]; intros v a He; [done|]. simpl. rewrite IH by done.
  apply relocate_ext. intros x. unfold relocate1.
  by rewrite (target_evolves lo hi s s'), (value_evolves lo hi s s').
Qed.

Lemma table_ok_included elf lo hi (s s' : Inner M F) v v' table entries :
  evolves lo hi s s' -> included v v' -> table_ok elf s v table entries -> table_ok elf s' v' table entries.
Proof.
  intros He Hv [T1 T2 T3 T4 T5 T6 T7].
  assert (Hoff : off s' = off s) by (by rewrite (ev_vao _ _ _ _ He)).
  split; rewrite ?Hoff; try done.
  - intros i bs Hi. by eapply included_vbytes; [|apply T5].
  - intros bs Hbs. eapply reloc_ok_evolves; [done| |by apply T6]. intros a. by apply included_mapped.
  - intros bs Hbs. rewrite (target_evolves lo hi s s') by done. by apply T7.
Qed.

(** The relocations of a file: those of its dynamic segment, if it has one. *)
Definition file_relocs (elf : ElfFile) (s : Inner M F) (v : Z -> option Z) (entries : list (list Z)) : Prop :=
  match List.filter (is_type Dynamic_) (program_iter elf) with
  | [] => entries = []
  | [h] => dynamic_relocs elf s v h entries
  | _ => False
  end.

(** The relro headers lie in the load segments. *)
Definition relro_ok (s : Inner M F) (hs : list ProgramHeader) : Prop :=
  forall r, r ∈ hs -> is_type GnuRelro r = true ->
    0 < mem_size r /\ (0 <= seg_va s r /\ seg_va s r + mem_size r < 2 ^ 47) /\
    forall q, (Size4KiB | q) -> in_seg_pages s r q = true ->
      exists h, h ∈ hs /\ is_type Load_ h = true /\ seg_pages s h q.

(** The flags a page of segment [h] ends up with. *)
Definition final_flags (s : Inner M F) (hs : list ProgramHeader) (h : ProgramHeader) (q : Z) : Z :=
  if existsb (fun r => is_type GnuRelro r && in_seg_pages s r q) hs
  then Z.ldiff (segment_flags h) WRITABLE else segment_flags h.

(** The pass over the dynamic segments. *)
Lemma dynamic_pass lo hi elf (s s1 : Inner M F) entries k :
  loaded lo hi s (program_iter elf) s1 -> types_ok (program_iter elf) ->
  file_relocs elf s (image s (program_iter elf)) entries -> frames (8 * length entries + k) s1 ->
  exists s2, for_each (program_iter elf) (fun program_header =>
        t ← try_ (get_type program_header);
        if decide (t = Dynamic_) then handle_dynamic_segment program_header elf else mret tt) s1
      = Ret (Ok tt, s2) /\
    effect lo hi s1 s2 (relocate s (vread s1) entries) /\ frames k s2.
Proof.
  intros Hl Hty Hre Hk. rewrite for_each_type by done. unfold file_relocs in Hre.
  pose proof (ld_evolves _ _ _ _ _ Hl) as He.
  destruct (List.filter (is_type Dynamic_) (program_iter elf)) as [|h [|h2 rest]]; [|..|done].
  - subst. exists s1. split; [done|]. split; [apply effect_refl, Hl|].
    by apply (frames_weaken (8 * length (@nil (list Z)) + k)); [lia|].
  - assert (Hd : dynamic_relocs elf s1 (vread s1) h entries).
    { destruct Hre as (data & e & H1 & H2 & H3). exists data, e. split; [done|]. split; [done|].
      destruct (rela e); [|done]. destruct H3 as (H3 & H4 & H5). split; [done|]. split; [done|].
      eapply table_ok_included; [exact He|by eapply image_loaded|done]. }
    destruct (handle_dynamic_spec lo hi elf s1 h entries k) as (s2 & Hr & Hef & Hk2); [apply Hl|done|done|].
    exists s2. split; [cbn [for_each]; by erewrite load_bind_Ret by exact Hr|]. split; [|done].
    eapply effect_ext; [exact Hef|]. intros a.
    by apply (relocate_evolves lo hi).
Qed.

(** The pages of load segments are mapped, and stay mapped. *)
Lemma loaded_range_mapped lo hi (s : Inner M F) hs s1 s2 h :
  headers_ok lo hi s hs -> loaded lo hi s hs s1 -> evolves lo hi s1 s2 ->
  (forall q, is_Some (base_flags s1 q) -> is_Some (page_at s2 q)) ->
  h ∈ hs -> is_type Load_ h = true -> range_mapped s2 h.
Proof.
  intros Hok Hl He Hm Hin Ht. pose proof (evolves_trans _ _ _ _ _ (ld_evolves _ _ _ _ _ Hl) He) as He2.
  destruct (ho_segments _ _ _ _ Hok h Hin Ht) as [_ _ H3 [H4 H5] _ _ _].
  split; [done|rewrite (seg_va_evolves lo hi s s2) by done; page_lia|].
  intros q Hq Hp. apply Hm. rewrite (ld_flags _ _ _ _ _ Hl h q); [by eexists|done|done| |done].
  rewrite (in_seg_pages_evolves lo hi s s2) in Hp by done. unfold in_seg_pages in Hp.
  apply andb_true_iff in Hp as [H1%Z.leb_le H2%Z.leb_le]. unfold seg_pages. page_lia.
Qed.
End Load.
