(* ===== verification/KernelImage.v ===== *)
(** What the kernel loader promises: the claims about initium/src/kernel.rs. *)

From S2P Require Import Prelude X86 Synapse Entries FrameAlloc Paging Kernel.
From S2P Require Import KernelSpace KernelCopy KernelSegments KernelFlags KernelRelocs KernelLoad.

Section Image.
Context {X : X86_64} {XL : X86_64_Laws X} {P : Profile} {RF : RelaFormat}.
Context {M F : Type} {FA : FrameAllocator F} {FL : FreeList F} {PT : PageTable M F}.
Context {PL : PageTableLaws M F}.

Lemma file_relocs_ok elf (s : Inner M F) v entries bs :
  file_relocs elf s v entries -> bs ∈ entries -> reloc_ok elf s v bs.
Proof.
  unfold file_relocs. intros H Hin. destruct (List.filter _ _) as [|h [|h2 rest]]; [|..|done].
  - subst. by apply elem_of_nil in Hin.
  - destruct H as (data & e & _ & _ & H). destruct (rela e).
    + destruct H as (_ & _ & H). by apply (tb_ok _ _ _ _ _ H).
    + destruct H as (_ & _ & ->). by apply elem_of_nil in Hin.
Qed.

Lemma image_pages (s : Inner M F) hs a :
  is_Some (image s hs a) -> exists h, h ∈ hs /\ is_type Load_ h = true /\ seg_pages s h a.
Proof.
  unfold image. intros [b Hb]. destruct (List.find _ hs) as [h|] eqn:E; [|done].
  apply List.find_some in E as [Hin Hb']. apply andb_true_iff in Hb' as [Ht Hb'].
  apply andb_true_iff in Hb' as [H1%Z.leb_le H2%Z.ltb_lt].
  exists h. split; [by apply list_elem_of_In|]. split; [done|]. apply seg_pages_byte. lia.
Qed.

Lemma ldiff_comm fl a b : Z.ldiff (Z.ldiff fl a) b = Z.ldiff (Z.ldiff fl b) a.
Proof.
  apply Z.bits_inj'. intros n Hn. rewrite !Z.ldiff_spec.
  destruct (Z.testbit fl n), (Z.testbit a n), (Z.testbit b n); done.
Qed.

(** The passes after the first: the relro pages lose [WRITABLE], the load
    pages [COPIED]. *)
Lemma flag_passes lo hi elf (s s1 s2 : Inner M F) :
  headers_ok lo hi s (program_iter elf) -> loaded lo hi s (program_iter elf) s1 ->
  relro_ok s (program_iter elf) -> space_ok lo hi s2 -> evolves lo hi s1 s2 ->
  (forall q, base_flags s2 q = base_flags s1 q) ->
  exists s3 s4,
    for_each (program_iter elf) (fun program_header =>
        t ← try_ (get_type program_header);
        if decide (t = GnuRelro) then handle_relro_segment program_header else mret tt) s2
      = Ret (Ok tt, s3) /\
    remove_copied_flags elf s3 = Ret (Ok tt, s4) /\
    clears lo hi WRITABLE (fun q => existsb (fun r => is_type GnuRelro r && in_seg_pages s r q)
      (program_iter elf)) s2 s3 /\
    clears lo hi COPIED (fun q => existsb (fun h => is_type Load_ h && in_seg_pages s h q)
      (program_iter elf)) s3 s4.
Proof.
  intros Hok Hl Hro Hs2 He12 Hbf. pose proof (evolves_trans _ _ _ _ _ (ld_evolves _ _ _ _ _ Hl) He12) as He2.
  assert (Hpages : forall q, is_Some (base_flags s1 q) -> is_Some (page_at s2 q)).
  { intros q. rewrite <- Hbf. unfold base_flags. destruct (page_at s2 q); [by eexists|by intros []]. }
  destruct (clear_headers_spec lo hi WRITABLE 1 GnuRelro (program_iter elf) s2) as (s3 & Hr3 & Hc3);
    [done|done|done|apply Hok| |].
  { intros r Hr Ht. destruct (Hro r Hr Ht) as (H1 & H2 & H3).
    split; [done|by rewrite (seg_va_evolves lo hi s s2)|].
    intros q Hq. rewrite (in_seg_pages_evolves lo hi s s2) by done. intros Hin.
    destruct (H3 q Hq Hin) as (h & Hh & Hth & Hp). apply Hpages.
    rewrite (ld_flags _ _ _ _ _ Hl h q) by done. by eexists. }
  destruct (remove_copied_flags_spec lo hi elf s3) as (s4 & Hr4 & Hc4); [apply Hc3|apply Hok| |].
  { intros h Hh Ht. eapply range_mapped_clears; [exact Hc3|].
    exact (loaded_range_mapped lo hi s (program_iter elf) s1 s2 h Hok Hl He12 Hpages Hh Ht). }
  exists s3, s4. split; [exact Hr3|]. split; [exact Hr4|].
  assert (Hex : forall t q (s5 : Inner M F), evolves lo hi s s5 ->
    existsb (fun h => is_type t h && in_seg_pages s5 h q) (program_iter elf) =
    existsb (fun h => is_type t h && in_seg_pages s h q) (program_iter elf)).
  { intros t q s5 He. clear - He. generalize (program_iter elf). intros hs.
    induction hs as [|h hs IH]; simpl; [done|]. by rewrite IH, (in_seg_pages_evolves lo hi s s5). }
  split.
  - eapply clears_ext; [|exact Hc3]. intros q _. by apply Hex.
  - eapply clears_ext; [|exact Hc4]. intros q _. apply Hex. eapply evolves_trans; [exact He2|apply Hc3].
Qed.

(** [load_segments] on a well-formed file: the passes together. *)
Lemma load_segments_spec lo hi elf (s : Inner M F) entries k :
  let hs := program_iter elf in
  space_ok lo hi s -> file_ok lo hi s -> headers_ok lo hi s hs ->
  (forall h, h ∈ hs -> is_type Load_ h = true -> seg_vacant s h) ->
  relro_ok s hs -> file_relocs elf s (image s hs) entries ->
  frames (load_cost s hs + (8 * length entries + k)) s ->
  exists s', load_segments elf s = Ret (Ok (first_tls s hs None), s') /\
    space_ok lo hi s' /\ frames k s' /\ evolves lo hi s s' /\
    (forall a b, relocate s (image s hs) entries a = Some b -> vread s' a = Some b) /\
    (forall h q, h ∈ hs -> is_type Load_ h = true -> seg_pages s h q -> (Size4KiB | q) ->
       vflags s' q = Some (final_flags s hs h q)) /\
    (forall a, (forall h, h ∈ hs -> is_type Load_ h = true -> ~ seg_pages s h a) -> vread s' a = vread s a) /\
    (forall a, lo <= a < hi -> memory s' a = memory s a).
Proof.
  intros hs Hs Hfile Hok Hvac Hro Hre Hk.
  destruct (load_headers_spec lo hi hs s None (8 * length entries + k)) as (s1 & Hr1 & Hk1 & Hl); try done;
    [by left|].
  destruct (dynamic_pass lo hi elf s s1 entries k) as (s2 & Hr2 & Hef & Hk2); [done|apply Hok|done|done|].
  destruct (flag_passes lo hi elf s s1 s2) as (s3 & s4 & Hr3 & Hr4 & Hc3 & Hc4); try done;
    [apply Hef|apply Hef|apply Hef|].
  assert (Hread : forall a, vread s4 a = relocate s (vread s1) entries a).
  { intros a. rewrite (clears_vread lo hi _ _ _ _ _ ltac:(apply Hc3) Hc4).
    rewrite (clears_vread lo hi _ _ _ _ _ ltac:(apply Hef) Hc3). apply Hef. }
  pose proof (evolves_trans _ _ _ _ _ (ld_evolves _ _ _ _ _ Hl) (ef_evolves _ _ _ _ _ Hef)) as He2.
  pose proof (evolves_trans _ _ _ _ _ He2 (cl_evolves _ _ _ _ _ _ Hc3)) as He3.
  pose proof (evolves_trans _ _ _ _ _ He3 (cl_evolves _ _ _ _ _ _ Hc4)) as He4.
  exists s4. split; [|split; [apply Hc4|split; [|split; [|split; [|split; [|split]]]]]].
  - unfold load_segments. erewrite load_bind_Ret by exact Hr1.
    erewrite load_bind_Ret by exact Hr2. erewrite load_bind_Ret by exact Hr3.
    erewrite load_bind_Ret by (unfold unwrap; rewrite Hr4; reflexivity). done.
  - unfold frames. by rewrite (cl_allocator _ _ _ _ _ _ Hc4), (cl_allocator _ _ _ _ _ _ Hc3).
  - exact He4.
  - intros a b Hb. rewrite Hread. revert Hb. apply included_relocate. by eapply image_loaded.
  - intros h q Hh Ht Hp Hq.
    assert (Hb : base_flags s2 q = Some (segment_flags h)).
    { rewrite (ef_flags _ _ _ _ _ Hef). by apply (ld_flags _ _ _ _ _ Hl h). }
    unfold base_flags in Hb. destruct (page_at s2 q) as [[g gl]|] eqn:E; [|done].
    simpl in Hb. injection Hb as Hb.
    assert (Hex : existsb (fun h => is_type Load_ h && in_seg_pages s h q) hs = true).
    { apply existsb_exists. exists h. split; [by apply list_elem_of_In|]. rewrite Ht, andb_true_l. unfold in_seg_pages.
      unfold seg_pages in Hp. apply andb_true_iff. rewrite !Z.leb_le. split; [lia|].
      destruct (decide (q <= seg_last s h)); [done|].
      pose proof (divide_lt_step (seg_last s h) q _ Size4KiB_pos ltac:(by apply round_down_divide) Hq
        ltac:(lia)). lia. }
    rewrite (vflags_page_at lo hi) by apply Hc4. rewrite round_down_id by done.
    rewrite (cl_pages _ _ _ _ _ _ Hc4), (cl_pages _ _ _ _ _ _ Hc3), E. fold hs. rewrite Hex.
    unfold final_flags. destruct (existsb (fun r => is_type GnuRelro r && in_seg_pages s r q) hs).
    + change (Some (Z.ldiff (Z.ldiff gl WRITABLE) COPIED) = Some (Z.ldiff (segment_flags h) WRITABLE)).
      by rewrite ldiff_comm, Hb.
    + change (Some (Z.ldiff gl COPIED) = Some (segment_flags h)). by rewrite Hb.
  - intros a Ha. rewrite Hread, relocate_outside; [by apply (ld_other _ _ _ _ _ Hl)|].
    intros bs Hbs. pose proof (file_relocs_ok _ _ _ _ _ Hre Hbs) as Hrl.
    destruct (decide (a < target s bs)), (decide (target s bs + 8 <= a)); [by left|by left|by right|].
    destruct (image_pages s hs a) as (h & Hh & Ht & Hp); [apply (rl_mapped _ _ _ _ Hrl); lia|].
    by destruct (Ha h Hh Ht).
  - apply He4.
Qed.

(** C5: [load_segments] terminates, without panic and without error, on a
    well-formed ELF file, when enough frames are free, and builds the image
    that the file describes.  Every byte of the load segments, zeroed beyond
    the file contents and relocated by the entries of the dynamic section, is
    readable at its virtual address; each page of a segment ends with exactly
    the flags of the program header, without [WRITABLE] if it is in a relro
    segment and without the loader's own bookkeeping bit; no address outside
    of the pages of the segments changes; and the file in memory, whose frames
    are mapped too, is not written to. *)
Theorem load_segments_correct lo hi elf (s : Inner M F) entries :
  let hs := program_iter elf in
  space_ok lo hi s -> file_ok lo hi s -> headers_ok lo hi s hs ->
  (forall h, h ∈ hs -> is_type Load_ h = true -> seg_vacant s h) ->
  relro_ok s hs -> file_relocs elf s (image s hs) entries ->
  frames (load_cost s hs + 8 * length entries) s ->
  exists s', load_segments elf s = Ret (Ok (first_tls s hs None), s') /\
    (forall a b, relocate s (image s hs) entries a = Some b -> vread s' a = Some b) /\
    (forall h q, h ∈ hs -> is_type Load_ h = true -> seg_pages s h q -> (Size4KiB | q) ->
       vflags s' q = Some (final_flags s hs h q)) /\
    (forall a, (forall h, h ∈ hs -> is_type Load_ h = true -> ~ seg_pages s h a) -> vread s' a = vread s a) /\
    (forall a, lo <= a < hi -> memory s' a = memory s a).
Proof.
  intros hs Hs Hfile Hok Hvac Hro Hre Hk.
  destruct (load_segments_spec lo hi elf s entries 0 Hs Hfile Hok Hvac Hro Hre) as (s' & Hr & _ & _ & _ & H);
    [by rewrite Nat.add_0_r|].
  by exists s'.
Qed.

(** C16: [handle_load_segment] on a well-formed load segment whose pages are
    not mapped returns [Ok]: every byte of the segment is readable at its
    virtual address and is the byte of the file, or zero beyond the file
    contents; the segment's pages get the flags of the header; nothing changes
    at other addresses, and the file in memory is not modified. *)
Theorem handle_load_segment_image lo hi (s : Inner M F) seg :
  space_ok lo hi s -> file_ok lo hi s -> seg_ok lo hi s seg -> seg_vacant s seg ->
  frames (seg_cost s seg) s ->
  exists s', handle_load_segment seg s = Ret (Ok tt, s') /\
    (forall a, seg_va s seg <= a < seg_va s seg + mem_size seg ->
       vread s' a = Some (if decide (a < seg_va s seg + file_size seg)
                          then memory s (kernel_offset s + ph_offset seg + (a - seg_va s seg)) else 0)) /\
    (forall a, ~ seg_pages s seg a -> vread s' a = vread s a) /\
    (forall q, seg_pages s seg q -> (Size4KiB | q) -> base_flags s' q = Some (segment_flags seg)) /\
    (forall a, lo <= a < hi -> memory s' a = memory s a).
Proof.
  intros Hs Hf Hg Hv Hk.
  destruct (handle_load_segment_spec lo hi s seg 0) as (s' & Hr & _ & Hs' & He & Hb & Ho & Hfl);
    [done..|by rewrite Nat.add_0_r|].
  exists s'. split; [done|]. split; [done|]. split; [done|]. split; [|apply He].
  intros q Hq Hd. rewrite Hfl. by rewrite decide_True.
Qed.

(** C17: [make_mut] is copy on write.  The page keeps its bytes and every other
    page too; after it, a write inside the frame it returns changes the bytes
    of that page and of no other virtual address, and the file in memory stays
    as it is: pages that share a frame of the file do not see each other's
    writes. *)
Theorem make_mut_copy_on_write lo hi (s : Inner M F) p l :
  space_ok lo hi s -> page_at s p = Some l -> frames 4 s ->
  exists frame s', make_mut p s = Ret (Ok frame, s') /\
    (forall a, vread s' a = vread s a) /\
    forall off bs, 0 <= off -> off + Z.of_nat (length bs) <= Size4KiB ->
      let s'' := set_memory s' (write_bytes (memory s') (frame + off) bs) in
      (forall a, vread s'' a = vwrite (vread s) (p + off) bs a) /\
      (forall a, lo <= a < hi -> memory s'' a = memory s a).
Proof.
  destruct l as [f fl]. intros Hs Hp Hk.
  destruct (make_mut_spec lo hi s p f fl 0 Hs Hk Hp) as (g & s' & Hr & Hv & _).
  assert (Hread : forall a, vread s' a = vread s a) by (intros; by eapply privatised_vread).
  exists g, s'. split; [done|]. split; [done|]. intros o bs H0 H1.
  assert (Hp' : page_at s' p = Some (g, Z.lor fl COPIED)).
  { rewrite (pv_pages _ _ _ _ _ _ _ _ Hv). by rewrite decide_True. }
  destruct (write_private_page lo hi s' p g (Z.lor fl COPIED) o bs) as [E1 E2 E3 E4]; try done.
  { apply Hv. } { apply contains_lor_copied. }
  split.
  - intros a. rewrite E4. by apply vwrite_ext.
  - intros a Ha. rewrite (ev_file _ _ _ _ E2) by done. by apply (ev_file _ _ _ _ (pv_evolves _ _ _ _ _ _ _ _ Hv)).
Qed.

(** C18: what [copy_to] writes, [copy_from] reads back, across page boundaries,
    and no other address of the kernel's memory changes. *)
Theorem copy_roundtrip lo hi (s : Inner M F) addr buf buf0 :
  space_ok lo hi s -> 0 < Z.of_nat (length buf) -> length buf0 = length buf ->
  0 <= addr -> addr + Z.of_nat (length buf) <= 2 ^ 47 ->
  (forall a, addr <= a < addr + Z.of_nat (length buf) -> is_Some (vread s a)) ->
  frames (4 * Z.to_nat (page_span addr (addr + Z.of_nat (length buf) - 1))) s ->
  exists s', copy_to addr buf s = Ret (Ok tt, s') /\ copy_from addr buf0 s' = Ret (Ok buf, s') /\
    forall a, ~ (addr <= a < addr + Z.of_nat (length buf)) -> vread s' a = vread s a.
Proof.
  intros Hs Hl Hlen Ha Hb Hm Hk.
  destruct (copy_to_spec lo hi s addr buf 0 Hs Hl Ha Hb Hm) as (s' & Hr & Hef & _); [by rewrite Nat.add_0_r|].
  assert (Hin : forall a, addr <= a < addr + Z.of_nat (length buf) ->
    vread s' a = Some (nth (Z.to_nat (a - addr)) buf 0)).
  { intros a Hin. rewrite (ef_read _ _ _ _ _ Hef). unfold vwrite. by rewrite decide_True. }
  exists s'. split; [done|]. split.
  - destruct (copy_from_spec lo hi s' addr buf0) as (bs & Hr' & Hlb & Hbs); rewrite ?Hlen; try done;
      [apply Hef|intros a Hin'; rewrite Hin by done; by eexists|].
    rewrite Hr'. do 3 f_equal. apply (list_eq_same_length _ _ (length buf)); [done|congruence|].
    intros i x y Hi Hx Hy. rewrite Hlen in Hbs.
    specialize (Hbs (addr + Z.of_nat i) ltac:(lia)). rewrite Hin in Hbs by lia.
    replace (Z.to_nat (addr + Z.of_nat i - addr)) with i in Hbs by lia.
    rewrite (nth_lookup_Some _ _ _ _ Hx), (nth_lookup_Some _ _ _ _ Hy) in Hbs. congruence.
  - intros a Hout. rewrite (ef_read _ _ _ _ _ Hef). unfold vwrite. by rewrite decide_False.
Qed.

(** C19: [handle_dynamic_segment] applies the relocation table: if the dynamic
    section names a table whose entries are supported and whose targets do not
    meet the table itself, the call returns [Ok] and the kernel's memory is
    the old one with, for each entry in order, the word at the load offset
    plus [r_offset] replaced by the load offset plus [r_addend]; if the
    section names no table, nothing changes. *)
Theorem dynamic_segment_relocates lo hi elf (s : Inner M F) h entries :
  space_ok lo hi s -> dynamic_relocs elf s (vread s) h entries -> frames (8 * length entries) s ->
  exists s', handle_dynamic_segment h elf s = Ret (Ok tt, s') /\
    (forall a, vread s' a =
       foldl (fun v bs =>
         let off := VirtualAddressOffset.virtual_address_offset (virtual_address_offset s) in
         vwrite v (off + get_offset bs) (to_ne_bytes (off + get_addend bs))) (vread s) entries a) /\
    (forall q, base_flags s' q = base_flags s q) /\
    (forall a, lo <= a < hi -> memory s' a = memory s a).
Proof.
  intros Hs Hd Hk. destruct (handle_dynamic_spec lo hi elf s h entries 0 Hs Hd) as (s' & Hr & Hef & _);
    [by rewrite Nat.add_0_r|].
  exists s'. split; [done|]. split; [apply Hef|]. split; [apply Hef|apply Hef].
Qed.
(** C21: a dynamic section that is not what the loader needs is refused: sizes
    without a table, a table without its size or without its entry size are
    errors with their messages, and an entry size other than 24 is a panic; the
    state does not change. *)
Theorem dynamic_segment_rejects elf (s : Inner M F) h data e :
  get_data h = Ok (Dynamic64 data) -> scan_dynamic data (mkRelaEntries None None None) = Ok e ->
  (rela e = None -> rela_size e <> None \/ rela_ent e <> None ->
   handle_dynamic_segment h elf s =
     Ret (Err "Rela entry is missing but RelaSize or RelaEnt have been provided"%string, s)) /\
  (rela e <> None -> rela_size e = None ->
   handle_dynamic_segment h elf s = Ret (Err "RelaSize entry is missing"%string, s)) /\
  (rela e <> None -> rela_size e <> None -> rela_ent e = None ->
   handle_dynamic_segment h elf s = Ret (Err "RelaEnt entry is missing"%string, s)) /\
  (forall n, rela e <> None -> rela_size e <> None -> rela_ent e = Some n -> n <> 24 ->
   handle_dynamic_segment h elf s = Panic "unsupported entry size").
Proof.
  intros Hd He. unfold handle_dynamic_segment. rewrite Hd.
  erewrite load_bind_Ret by done. erewrite load_bind_lift by done.
  erewrite load_bind_Ret by (unfold try_; rewrite He; reflexivity).
  destruct (rela e) as [t|], (rela_size e) as [sz|], (rela_ent e) as [en|];
    repeat split; intros; try done; try naive_solver; simplify_eq.
  erewrite load_bind_Ret by done. erewrite load_bind_Ret by done.
  unfold size_of_Rela. destruct (Z.eqb_spec n 24); done.
Qed.
End Image.

(** The loop of [handle_dynamic_segment] over the dynamic entries returns
    [Ok] exactly when each of the tags [Rela], [RelaSize] and [RelaEnt] occurs
    at most once, and then it returns their values. *)
Theorem scan_dynamic_exact data e :
  Forall dynamic_ok data ->
  scan_dynamic data (mkRelaEntries None None None) = Ok e <->
    values_of get_ptr Rela data = option_list (rela e) /\
    values_of get_val RelaSize data = option_list (rela_size e) /\
    values_of get_val RelaEnt data = option_list (rela_ent e).
Proof. intros Hok. by apply (scan_dynamic_spec data Hok). Qed.

(** When the headers' types can be read, [check_is_in_load] accepts an
    offset exactly when it lies in the memory of a load segment, and rejects
    every other with its message. *)
Theorem check_is_in_load_exact elf virt_offset :
  types_ok (program_iter elf) ->
  (check_is_in_load elf virt_offset = Ok tt <->
   exists h, h ∈ program_iter elf /\ is_type Load_ h = true /\
     virtual_addr h <= virt_offset < virtual_addr h + mem_size h) /\
  (check_is_in_load elf virt_offset <> Ok tt ->
   check_is_in_load elf virt_offset = Err "offset is not in load segment"%string).
Proof.
  unfold check_is_in_load. induction 1 as [|h hs [t Ht] Hok [IH1 IH2]]; simpl.
  - split; [|done]. split; [done|]. intros (h & Hh & _). by apply elem_of_nil in Hh.
  - assert (Hload : is_type Load_ h = bool_decide (t = Load_)) by (unfold is_type; by rewrite Ht).
    assert (Hskip : bool_decide (t = Load_) && ((virtual_addr h <=? virt_offset) &&
        (virt_offset - virtual_addr h <? mem_size h)) = false ->
      (exists h', h' ∈ hs /\ is_type Load_ h' = true /\ virtual_addr h' <= virt_offset < virtual_addr h' + mem_size h') <->
      (exists h', h' ∈ h :: hs /\ is_type Load_ h' = true /\ virtual_addr h' <= virt_offset < virtual_addr h' + mem_size h')).
    { intros Hno. split; intros (h' & Hin & Hl & Hr); exists h'.
      - split; [by right|done].
      - apply elem_of_cons in Hin as [->|Hin]; [|done]. rewrite Hload in Hl. rewrite Hl in Hno.
        destruct (Z.leb_spec (virtual_addr h) virt_offset),
          (Z.ltb_spec (virt_offset - virtual_addr h) (mem_size h)); done || lia. }
    rewrite Ht. destruct (decide (t = Load_)) as [->|Hne].
    + destruct ((virtual_addr h <=? virt_offset) && (virt_offset - virtual_addr h <? mem_size h)) eqn:E.
      * split; [|done]. split; [|done]. intros _. exists h. split; [by left|]. split; [by rewrite Hload|].
        apply andb_true_iff in E as [H1%Z.leb_le H2%Z.ltb_lt]. lia.
      * rewrite <- Hskip by done. by split.
    + rewrite bool_decide_eq_false_2 in Hskip by done. rewrite <- Hskip by done.
      destruct t; done || (split; [exact IH1|exact IH2]).
Qed.
