(* ===== verification/KernelEntry.v ===== *)
(** [Loader::new] and [load_kernel] of initium/src/kernel.rs: where the image
    is placed, what is reserved for it, and the whole loader. *)

From S2P Require Import Prelude X86 Synapse Entries FrameAlloc Paging Kernel.
From S2P Require Import KernelSpace KernelCopy KernelSegments KernelFlags KernelRelocs KernelLoad KernelImage.

(** * Maxima and minima *)

Lemma fold_max_spec xs : forall x, x <= fold_left Z.max xs x /\ (forall y, y ∈ xs -> y <= fold_left Z.max xs x) /\
  fold_left Z.max xs x ∈ x :: xs.
Proof.
  induction xs as [|y xs IH]; intros x; simpl.
  - split; [lia|]. split; [|set_solver]. intros y Hy. by apply elem_of_nil in Hy.
  - destruct (IH (Z.max x y)) as (H1 & H2 & H3). split; [lia|]. split.
    + intros z [->|Hz]%elem_of_cons; [lia|auto].
    + apply elem_of_cons in H3 as [H3|H3]; [|set_solver].
      rewrite H3. destruct (Z.max_spec x y) as [[_ ->]|[_ ->]]; set_solver.
Qed.

Lemma fold_min_spec xs : forall x, fold_left Z.min xs x <= x /\ (forall y, y ∈ xs -> fold_left Z.min xs x <= y) /\
  fold_left Z.min xs x ∈ x :: xs.
Proof.
  induction xs as [|y xs IH]; intros x; simpl.
  - split; [lia|]. split; [|set_solver]. intros y Hy. by apply elem_of_nil in Hy.
  - destruct (IH (Z.min x y)) as (H1 & H2 & H3). split; [lia|]. split.
    + intros z [->|Hz]%elem_of_cons; [lia|auto].
    + apply elem_of_cons in H3 as [H3|H3]; [|set_solver].
      rewrite H3. destruct (Z.min_spec x y) as [[_ ->]|[_ ->]]; set_solver.
Qed.

Lemma list_max_spec xs m : list_max xs = Some m -> m ∈ xs /\ forall y, y ∈ xs -> y <= m.
Proof.
  destruct xs as [|x xs]; [done|]. intros [= <-]. destruct (fold_max_spec xs x) as (H1 & H2 & H3).
  split; [done|]. intros y [->|Hy]%elem_of_cons; auto.
Qed.

Lemma list_min_spec xs m : list_min xs = Some m -> m ∈ xs /\ forall y, y ∈ xs -> m <= y.
Proof.
  destruct xs as [|x xs]; [done|]. intros [= <-]. destruct (fold_min_spec xs x) as (H1 & H2 & H3).
  split; [done|]. intros y [->|Hy]%elem_of_cons; auto.
Qed.

Section Offset.
Context {X : X86_64} {XL : X86_64_Laws X} {P : Profile}.

(** A load segment with plausible addresses. *)
Definition load_range_ok (h : ProgramHeader) : Prop :=
  0 <= virtual_addr h /\ 0 <= mem_size h /\ virtual_addr h + mem_size h < 2 ^ 63.

Lemma segment_ends hs :
  Forall load_range_ok hs ->
  mapM_out (fun h => u64_add (virtual_addr h) (mem_size h)) hs =
    Ret ((fun h => virtual_addr h + mem_size h) <$> hs).
Proof.
  induction 1 as [|h hs (H1 & H2 & H3) _ IH]; simpl; [done|].
  rewrite u64_add_ok, bind_Ret, IH by (unfold u64_size; lia). done.
Qed.

(** C20: the load offset of a position independent kernel places every byte of
    its load segments at an address whose level 4 entry was free before and is
    reserved afterwards; the segment with the lowest address starts at the
    start of the reserved window, a multiple of 512 GiB that is not zero, and
    no earlier reservation is lost. *)
Theorem choose_offset_places elf e off e' :
  let loads := List.filter is_load (program_iter elf) in
  wf e -> header_type elf = HeaderType.SharedObject -> Forall load_range_ok loads ->
  (exists h, h ∈ loads /\ 0 < mem_size h) ->
  choose_offset elf e = Ret (off, e') ->
  wf e' /\ (forall i, 0 <= i < 512 -> used e i -> used e' i) /\
  (forall h a, h ∈ loads ->
     VirtualAddressOffset.virtual_address_offset off + virtual_addr h <= a <
       VirtualAddressOffset.virtual_address_offset off + virtual_addr h + mem_size h ->
     ~ used e (p4_of a) /\ used e' (p4_of a)) /\
  exists base h0, h0 ∈ loads /\ VirtualAddressOffset.virtual_address_offset off + virtual_addr h0 = base /\
    canonical base /\ (2 ^ 39 | base) /\ base <> 0 /\ forall h, h ∈ loads -> virtual_addr h0 <= virtual_addr h.
Proof.
  intros loads Hwf Hty Hok (h1 & Hh1 & Hpos) H. unfold choose_offset in H. rewrite Hty in H. fold loads in H.
  rewrite segment_ends, bind_Ret in H by done.
  set (ends := (fun h => virtual_addr h + mem_size h) <$> loads) in *.
  destruct (list_max ends) as [mx|] eqn:Emx.
  2: { unfold ends in Emx. by destruct loads; [apply elem_of_nil in Hh1|]. }
  destruct (list_min (virtual_addr <$> loads)) as [mn|] eqn:Emn.
  2: { by destruct loads; [apply elem_of_nil in Hh1|]. }
  apply list_max_spec in Emx as [Hmx Hmax]. apply list_min_spec in Emn as [Hmn Hmin]. simpl in H.
  apply list_elem_of_fmap in Hmx as (hm & -> & Hhm). apply list_elem_of_fmap in Hmn as (h0 & -> & Hh0).
  rewrite Forall_forall in Hok.
  assert (Hm1 : virtual_addr h1 + mem_size h1 <= virtual_addr hm + mem_size hm)
    by (apply Hmax, list_elem_of_fmap; by exists h1).
  assert (Hmin' : forall h, h ∈ loads -> virtual_addr h0 <= virtual_addr h)
    by (intros h Hh; apply Hmin, list_elem_of_fmap; by exists h).
  pose proof (Hmin' h1 Hh1). destruct (Hok h0 Hh0) as (A1 & A2 & A3), (Hok hm Hhm) as (B1 & B2 & B3).
  rewrite u64_sub_ok, bind_Ret in H by (unfold u64_size; lia).
  bind_inv H. destruct v as [base e1]. simpl in H. injection H as <- <-. simpl.
  destruct (get_free_address_spec e (virtual_addr hm + mem_size hm - virtual_addr h0) _ _ _ Hwf ltac:(lia) Hv) as (Hwf' & Hcan & Hdiv & Hnz & Hk & Hmono).
  split; [done|]. split; [done|]. split.
  - intros h a Hh Ha. pose proof (Hmin' h Hh).
    assert (virtual_addr h + mem_size h <= virtual_addr hm + mem_size hm)
      by (apply Hmax, list_elem_of_fmap; by exists h).
    replace a with (base + (a - base)) by lia. apply Hk. lia.
  - exists base, h0. split; [done|]. split; [lia|done].
Qed.

(** The reservations for all program headers. *)
Lemma mark_headers e hs off :
  wf e ->
  Forall (fun h => 0 <= VirtualAddressOffset.virtual_address_offset off + virtual_addr h /\
    VirtualAddressOffset.virtual_address_offset off + virtual_addr h + mem_size h < 2 ^ 47) hs ->
  exists e', mark_segments e ((fun h => (virtual_addr h, mem_size h)) <$> hs) off = Ret e' /\ wf e' /\
    (forall i, 0 <= i < 512 -> used e i -> used e' i) /\
    (forall h a, h ∈ hs ->
       VirtualAddressOffset.virtual_address_offset off + virtual_addr h <= a <
         VirtualAddressOffset.virtual_address_offset off + virtual_addr h + mem_size h -> used e' (p4_of a)).
Proof.
  intros Hwf Hb.
  destruct (mark_segments_low e ((fun h => (virtual_addr h, mem_size h)) <$> hs) off Hwf) as (e' & H1 & H2 & H3 & H4).
  { apply Forall_fmap. eapply Forall_impl; [exact Hb|]. done. }
  exists e'. split; [done|]. split; [done|]. split; [done|].
  intros h a Hh Ha. apply (H4 (virtual_addr h, mem_size h)).
  - apply list_elem_of_fmap. by exists h.
  - unfold in_segment. simpl. lia.
Qed.
End Offset.

Section Entry.
Context {X : X86_64} {XL : X86_64_Laws X} {P : Profile} {RF : RelaFormat}.
Context {M F : Type} {FA : FrameAllocator F} {FL : FreeList F} {PT : PageTable M F}.
Context {PL : PageTableLaws M F}.

(** A kernel that [Loader::new] accepts. *)
Record kernel_ok (k : Kernel) : Prop := {
  ko_input : input (elf k) <> [];
  ko_start : 0 <= start_address k < 2 ^ 52;
  ko_aligned : (Size4KiB | start_address k);
  ko_headers : Forall (fun h => ph_sanity_check h = Ok tt) (program_iter (elf k));
  ko_header : header_sanity_check (elf k) = Ok tt;
}.

(** The ranges that [Loader::new] reserves. *)
Definition segments_of (k : Kernel) : list (Z * Z) :=
  (fun h => (virtual_addr h, mem_size h)) <$> program_iter (elf k).

Lemma sanity_checks_ok hs : Forall (fun h => ph_sanity_check h = Ok tt) hs -> sanity_checks hs = Ok tt.
Proof. induction 1 as [|h hs Hh _ IH]; simpl; [done|]. by rewrite Hh. Qed.

Lemma loader_new_spec kernel (pt : M) (fa : F) m e off e1 :
  kernel_ok kernel -> choose_offset (elf kernel) e = Ret (off, e1) -> wf e1 ->
  Forall (fun h => 0 <= VirtualAddressOffset.virtual_address_offset off + virtual_addr h /\
    VirtualAddressOffset.virtual_address_offset off + virtual_addr h + mem_size h < 2 ^ 47)
    (program_iter (elf kernel)) ->
  exists e2, Loader_new kernel pt fa m e = Ret (Ok (mkInner (start_address kernel) off pt fa m), e2) /\
    mark_segments e1 (segments_of kernel) off = Ret e2 /\ wf e2 /\
    (forall i, 0 <= i < 512 -> used e1 i -> used e2 i) /\
    (forall h a, h ∈ program_iter (elf kernel) ->
       VirtualAddressOffset.virtual_address_offset off + virtual_addr h <= a <
         VirtualAddressOffset.virtual_address_offset off + virtual_addr h + mem_size h -> used e2 (p4_of a)).
Proof.
  intros [H1 H2 H3 H4 H5] Hoff Hwf Hb.
  destruct (mark_headers e1 (program_iter (elf kernel)) off Hwf Hb) as (e2 & Hm & Hwf2 & Hmono & Hused).
  exists e2. split; [|by split_and!]. unfold Loader_new.
  assert (Hlen : (0 <? Z.of_nat (length (input (elf kernel)))) = true).
  { apply Z.ltb_lt. destruct (input (elf kernel)); [done|simpl; lia]. }
  rewrite Hlen. simpl assert_that. rewrite bind_Ret, phys_new_spec, bind_Ret by done.
  rewrite (phys_is_aligned_spec _ _ 12) by done.
  assert (Hal : (start_address kernel mod PAGE_SIZE =? 0) = true).
  { apply Z.eqb_eq. apply Z.mod_divide; [done|]. exact H3. }
  rewrite Hal. cbn [negb]. rewrite sanity_checks_ok by done.
  rewrite Hoff, bind_Ret. cbn [fst snd]. rewrite Hm, bind_Ret, H5. done.
Qed.

(** C22: the loader refuses a kernel file that does not start at a page
    boundary, with its message and without touching the reservations, and a
    file whose program headers fail the check of the ELF library, with that
    library's message. *)
Theorem loader_rejects kernel (pt : M) (fa : F) m e :
  input (elf kernel) <> [] -> 0 <= start_address kernel < 2 ^ 52 ->
  (~ (Size4KiB | start_address kernel) ->
   load_kernel kernel pt fa m e = Ret (Err "Loaded kernel ELF file is not sufficiently aligned"%string, e)) /\
  (forall msg, (Size4KiB | start_address kernel) -> sanity_checks (program_iter (elf kernel)) = Err msg ->
   load_kernel kernel pt fa m e = Ret (Err msg, e)).
Proof.
  intros H1 H2. unfold load_kernel, Loader_new.
  assert (Hlen : (0 <? Z.of_nat (length (input (elf kernel)))) = true).
  { apply Z.ltb_lt. destruct (input (elf kernel)); [done|simpl; lia]. }
  rewrite Hlen. simpl assert_that. rewrite !bind_Ret, phys_new_spec, bind_Ret by done.
  rewrite (phys_is_aligned_spec _ _ 12) by done. split.
  - intros Hna. assert (Hal : (start_address kernel mod PAGE_SIZE =? 0) = false).
    { apply Z.eqb_neq. intros Hz. apply Hna. by apply Z.mod_divide. }
    by rewrite Hal.
  - intros msg Hd Hs. assert (Hal : (start_address kernel mod PAGE_SIZE =? 0) = true).
    { apply Z.eqb_eq. by apply Z.mod_divide. }
    rewrite Hal. cbn [negb]. by rewrite Hs.
Qed.

(** A kernel that the loader accepts: the checks of [Loader::new], addresses
    in the lower half, and a file that is what [load_segments] expects. *)
Record loads_ok kernel (s : Inner M F) (off : VirtualAddressOffset.t) e e1 lo hi entries (k : nat) : Prop := {
  lk_kernel : kernel_ok kernel;
  lk_offset : choose_offset (elf kernel) e = Ret (off, e1);
  lk_entries : wf e1;
  lk_ranges : Forall (fun h => 0 <= seg_va s h /\ seg_va s h + mem_size h < 2 ^ 47) (program_iter (elf kernel));
  lk_entry : 0 <= VirtualAddressOffset.virtual_address_offset off + elf_entry_point (elf kernel) < 2 ^ 47;
  lk_space : space_ok lo hi s;
  lk_file : file_ok lo hi s;
  lk_headers : headers_ok lo hi s (program_iter (elf kernel));
  lk_vacant h : h ∈ program_iter (elf kernel) -> is_type Load_ h = true -> seg_vacant s h;
  lk_relro : relro_ok s (program_iter (elf kernel));
  lk_relocs : file_relocs (elf kernel) s (image s (program_iter (elf kernel))) entries;
  lk_frames : frames (load_cost s (program_iter (elf kernel)) + (8 * length entries + k)) s;
}.

(** The whole loader, with what its caller goes on with. *)
Lemma load_kernel_spec kernel (pt : M) (fa : F) m e off e1 lo hi entries k :
  let s := mkInner (start_address kernel) off pt fa m in
  let hs := program_iter (elf kernel) in
  let entry := VirtualAddressOffset.virtual_address_offset off + elf_entry_point (elf kernel) in
  loads_ok kernel s off e e1 lo hi entries k ->
  exists s' e2, load_kernel kernel pt fa m e = Ret (Ok (entry, first_tls s hs None, s'), e2) /\
    (space_ok lo hi s' /\ frames k s' /\ evolves lo hi s s') /\
    (forall a b, relocate s (image s hs) entries a = Some b -> vread s' a = Some b) /\
    (forall a, (forall h, h ∈ hs -> is_type Load_ h = true -> ~ seg_pages s h a) -> vread s' a = vread s a) /\
    (mark_segments e1 (segments_of kernel) off = Ret e2 /\ wf e2) /\
    (forall h a, h ∈ hs -> seg_va s h <= a < seg_va s h + mem_size h -> used e2 (p4_of a)) /\
    (forall i, 0 <= i < 512 -> used e1 i -> used e2 i).
Proof.
  intros s hs entry [Hk Hoff Hwf Hb He Hs Hfile Hok Hvac Hro Hre Hfr].
  destruct (loader_new_spec kernel pt fa m e off e1 Hk Hoff Hwf Hb) as (e2 & Hnew & Hmark & Hwf2 & Hmono & Hused).
  destruct (load_segments_spec lo hi (elf kernel) s entries k Hs Hfile Hok Hvac Hro Hre Hfr)
    as (s' & Hr & Hs' & Hk' & Hev & Hread & _ & Hout & _).
  exists s', e2. split; [|by split_and!].
  unfold load_kernel. rewrite Hnew, bind_Ret. cbn [fst snd].
  erewrite load_bind_Ret by exact Hr. unfold entry_point, add_offset.
  rewrite !load_bind_assoc, load_bind_get.
  erewrite load_bind_lift.
  2: { rewrite (ev_vao _ _ _ _ Hev). apply VirtualAddressOffset.add_ok.
       change (VirtualAddressOffset.virtual_address_offset (virtual_address_offset s)) with
         (VirtualAddressOffset.virtual_address_offset off). fold entry. unfold u64_size. lia. }
  change (VirtualAddressOffset.virtual_address_offset (virtual_address_offset s)) with
    (VirtualAddressOffset.virtual_address_offset off).
  fold entry. erewrite load_bind_lift by (apply virt_new_low; lia). done.
Qed.

(** C4: the whole loader.  For a kernel that the checks accept, placed at
    the load offset [off], [load_kernel] returns the entry point at its load
    address and the first TLS template; the kernel's memory is the relocated
    image of the file; and every byte of every program header's memory range
    is reserved. *)
Theorem load_kernel_correct kernel (pt : M) (fa : F) m e off e1 lo hi entries :
  let s := mkInner (start_address kernel) off pt fa m in
  let hs := program_iter (elf kernel) in
  let entry := VirtualAddressOffset.virtual_address_offset off + elf_entry_point (elf kernel) in
  loads_ok kernel s off e e1 lo hi entries 0 ->
  exists s' e2, load_kernel kernel pt fa m e = Ret (Ok (entry, first_tls s hs None, s'), e2) /\
    (forall a b, relocate s (image s hs) entries a = Some b -> vread s' a = Some b) /\
    (forall h a, h ∈ hs -> seg_va s h <= a < seg_va s h + mem_size h -> used e2 (p4_of a)) /\
    (forall i, 0 <= i < 512 -> used e1 i -> used e2 i).
Proof.
  intros s hs entry Hok.
  destruct (load_kernel_spec kernel pt fa m e off e1 lo hi entries 0 Hok)
    as (s' & e2 & Hr & _ & Hread & _ & _ & Hused & Hmono).
  by exists s', e2.
Qed.
End Entry.
