(* ===== verification/KernelSample.v ===== *)
(** A small position independent kernel, and the claims about the loader
    applied to it.

    The file is two pages at physical address [0x10000]: a text segment of one
    page, whose byte [0x800] starts a relocation table with one entry, and a
    data segment with [0x100] bytes of file contents and [0x1800] bytes of
    memory.  It is loaded by the reference page table over a list of frames. *)

From S2P Require Import Prelude X86 Synapse Entries FrameAlloc Paging Kernel KernelSpace.
From S2P Require Import KernelCopy KernelSegments KernelFlags KernelRelocs KernelLoad KernelImage KernelEntry.
Import ListAllocator MapTable.

#[local] Instance sample_profile : Profile := false.

(** * The file *)

Definition text_header : ProgramHeader := {|
  get_type := Ok Load_; virtual_addr := 0; Kernel.mem_size := 0x1000; Kernel.file_size := 0x1000;
  ph_offset := 0; ph_align := 0x1000; is_execute := true; is_write := false;
  get_data := Err "unused"%string; ph_sanity_check := Ok tt |}.

Definition data_header : ProgramHeader := {|
  get_type := Ok Load_; virtual_addr := 0x1000; Kernel.mem_size := 0x1800; Kernel.file_size := 0x100;
  ph_offset := 0x1000; ph_align := 0x1000; is_execute := false; is_write := true;
  get_data := Err "unused"%string; ph_sanity_check := Ok tt |}.

Definition sample_dynamic : list Dynamic :=
  [mkDynamic (Ok Rela) (Ok 0x800) (Ok 0x800); mkDynamic (Ok RelaSize) (Ok 24) (Ok 24);
   mkDynamic (Ok (OtherTag 30)) (Ok 0) (Ok 0); mkDynamic (Ok RelaEnt) (Ok 24) (Ok 24)].

Definition dynamic_header : ProgramHeader := {|
  get_type := Ok Dynamic_; virtual_addr := 0x1080; Kernel.mem_size := 0x40; Kernel.file_size := 0x40;
  ph_offset := 0x1080; ph_align := 8; is_execute := false; is_write := true;
  get_data := Ok (Dynamic64 sample_dynamic); ph_sanity_check := Ok tt |}.

Definition relro_header : ProgramHeader := {|
  get_type := Ok GnuRelro; virtual_addr := 0x1000; Kernel.mem_size := 0x1000; Kernel.file_size := 0x100;
  ph_offset := 0x1000; ph_align := 1; is_execute := false; is_write := false;
  get_data := Err "unused"%string; ph_sanity_check := Ok tt |}.

Definition tls_header : ProgramHeader := {|
  get_type := Ok Tls; virtual_addr := 0x1010; Kernel.mem_size := 16; Kernel.file_size := 8;
  ph_offset := 0x1010; ph_align := 8; is_execute := false; is_write := false;
  get_data := Err "unused"%string; ph_sanity_check := Ok tt |}.

Definition sample_headers : list ProgramHeader :=
  [text_header; data_header; dynamic_header; relro_header; tls_header].

Definition sample_elf : ElfFile := {|
  input := [0x7f]; program_iter := sample_headers; header_type := HeaderType.SharedObject;
  elf_entry_point := 0x40; header_sanity_check := Ok tt |}.

Definition sample_kernel : Kernel := mkKernel sample_elf 0x10000 0x2000.

(** One entry: the word at [0x1010] becomes the load offset plus [0x20]. *)
Definition sample_entry : list Z :=
  [0x10; 0x10; 0; 0; 0; 0; 0; 0; 8; 0; 0; 0; 0; 0; 0; 0; 0x20; 0; 0; 0; 0; 0; 0; 0].

Definition sample_memory : mem := write_bytes (fun a => (a * 7) mod 256) 0x10800 sample_entry.

(** * The loader's state *)

Definition sample_offset : VirtualAddressOffset.t := VirtualAddressOffset.mk (2 ^ 39).

(** The loader over any frame allocator whose frames lie outside of the file,
    with the sample file in memory. *)
Section Over.
Context {F : Type} {FA : FrameAllocator F} {FL : FreeList F}.

Definition state_over (fa : F) (m : mem) : Inner MapTable.t F :=
  mkInner 0x10000 sample_offset MapTable.empty fa m.

Lemma over_page_at fa m q : page_at (state_over fa m) q = None.
Proof. unfold page_at. simpl. apply lookup_empty. Qed.

Lemma over_space_ok fa m :
  (forall f, f ∈ fa_free fa -> apart 0x10000 0x12000 f) -> space_ok 0x10000 0x12000 (state_over fa m).
Proof.
  intros Hfa. split; try (intros *; rewrite over_page_at; done).
  - apply MapTable.inv_empty.
  - intros sz p l. simpl. by rewrite lookup_empty.
  - exact Hfa.
Qed.

Lemma over_file_ok fa m : file_ok 0x10000 0x12000 (state_over fa m).
Proof. split; [compute_divide|compute_divide|simpl; lia..]. Qed.

Lemma over_seg_ok fa m h :
  h ∈ sample_headers -> is_type Load_ h = true -> seg_ok 0x10000 0x12000 (state_over fa m) h.
Proof.
  intros [->|[->|[->|[->|[->|[]%elem_of_nil]%elem_of_cons]%elem_of_cons]%elem_of_cons]%elem_of_cons]%elem_of_cons
    Ht; try discriminate Ht.
  all: split; unfold seg_va, seg_pa; simpl; unfold Size4KiB; try lia; compute_divide.
Qed.

Lemma over_headers_ok fa m : headers_ok 0x10000 0x12000 (state_over fa m) sample_headers.
Proof.
  split.
  - repeat constructor; simpl; eauto.
  - apply over_seg_ok.
  - intros h Hh Ht. unfold seg_va. simpl.
    repeat (apply elem_of_cons in Hh as [->|Hh]; [try discriminate Ht; simpl; lia|]).
    by apply elem_of_nil in Hh.
  - simpl. repeat constructor. vm_compute. discriminate.
  - simpl. lia.
Qed.

Lemma over_vacant fa m h : seg_vacant (state_over fa m) h.
Proof. intros q _. apply over_page_at. Qed.

Lemma over_relro_ok fa m : relro_ok (state_over fa m) sample_headers.
Proof.
  intros r Hr Ht. repeat (apply elem_of_cons in Hr as [->|Hr]; [try discriminate Ht|]);
    [|by apply elem_of_nil in Hr].
  split; [done|]. split; [unfold seg_va; simpl; lia|].
  intros q Hq Hin. exists data_header. split; [set_solver|]. split; [done|].
  unfold in_seg_pages in Hin. apply andb_true_iff in Hin as [H1%Z.leb_le H2%Z.leb_le].
  unfold seg_pages.
  replace (round_down (seg_va (state_over fa m) data_header) Size4KiB) with (2 ^ 39 + 0x1000) by (vm_compute; reflexivity).
  replace (seg_last (state_over fa m) data_header) with (2 ^ 39 + 0x2000) by (vm_compute; reflexivity).
  replace (round_down (seg_va (state_over fa m) relro_header) Size4KiB) with (2 ^ 39 + 0x1000) in H1 by (vm_compute; reflexivity).
  replace (seg_last (state_over fa m) relro_header) with (2 ^ 39 + 0x1000) in H2 by (vm_compute; reflexivity).
  unfold Size4KiB. lia.
Qed.

(** The relocation table in the image. *)
Lemma over_reloc_ok fa : let s := state_over fa sample_memory in
  reloc_ok sample_elf s (image s sample_headers) sample_entry.
Proof.
  split; [reflexivity|reflexivity|reflexivity|..].
  - vm_compute. split; [discriminate|reflexivity].
  - vm_compute. split; discriminate.
  - intros a Ha.
    replace (target (state_over fa sample_memory) sample_entry) with (2 ^ 39 + 0x1010) in Ha by (vm_compute; reflexivity).
    assert (Hc : a = 2 ^ 39 + 0x1010 \/ a = 2 ^ 39 + 0x1011 \/ a = 2 ^ 39 + 0x1012 \/ a = 2 ^ 39 + 0x1013 \/
      a = 2 ^ 39 + 0x1014 \/ a = 2 ^ 39 + 0x1015 \/ a = 2 ^ 39 + 0x1016 \/ a = 2 ^ 39 + 0x1017) by lia.
    repeat (destruct Hc as [->|Hc]; [vm_compute; eauto|]). subst. vm_compute. eauto.
  - vm_compute. split; [discriminate|reflexivity].
Qed.

Lemma over_table_ok fa : let s := state_over fa sample_memory in
  table_ok sample_elf s (image s sample_headers) 0x800 [sample_entry].
Proof.
  split; [lia|simpl; lia|simpl; lia|simpl; lia|..].
  - intros [|i] bs; [|done]. intros [= <-]. vm_compute. reflexivity.
  - intros bs ->%list_elem_of_singleton. exact (over_reloc_ok fa).
  - intros bs ->%list_elem_of_singleton. right. vm_compute. discriminate.
Qed.

(** The image reads memory in the file only. *)
Lemma over_image fa m a b :
  (forall x, 0x10000 <= x < 0x12000 -> m x = sample_memory x) ->
  image (state_over fa sample_memory) sample_headers a = Some b -> image (state_over fa m) sample_headers a = Some b.
Proof.
  intros Hm. unfold image.
  change (fun h => is_type Load_ h && ((seg_va (state_over fa m) h <=? a) && (a <? seg_va (state_over fa m) h + Kernel.mem_size h)))
    with (fun h => is_type Load_ h && ((seg_va (state_over fa sample_memory) h <=? a) &&
      (a <? seg_va (state_over fa sample_memory) h + Kernel.mem_size h))).
  destruct (List.find _ sample_headers) as [h|] eqn:E; [|done]. intros [= <-]. f_equal.
  apply List.find_some in E as [Hin [Ht [H1%Z.leb_le _]%andb_true_iff]%andb_true_iff].
  destruct (over_seg_ok fa m h) as [_ _ _ _ _ Hpa _]; [by apply list_elem_of_In|done|].
  unfold seg_byte. change (seg_va (state_over fa m) h) with (seg_va (state_over fa sample_memory) h).
  case_decide; [|done]. change (seg_pa (state_over fa sample_memory) h) with (seg_pa (state_over fa m) h).
  apply Hm. lia.
Qed.

Lemma over_relocs fa m :
  (forall x, 0x10000 <= x < 0x12000 -> m x = sample_memory x) ->
  file_relocs sample_elf (state_over fa m) (image (state_over fa m) sample_headers) [sample_entry].
Proof.
  intros Hm. unfold file_relocs. change (List.filter (is_type Dynamic_) (program_iter sample_elf)) with [dynamic_header].
  exists sample_dynamic, (mkRelaEntries (Some 0x800) (Some 24) (Some 24)).
  split; [reflexivity|]. split; [reflexivity|]. split; [reflexivity|]. split; [reflexivity|].
  eapply (table_ok_included _ 0x10000 0x12000 (state_over fa sample_memory)); [| |exact (over_table_ok fa)].
  - split; try done; [by exists O|exists O; apply takes_refl].
  - intros a b. by apply over_image.
Qed.
End Over.

(** Over a list of free frames from 1 MiB on. *)
Definition sample_free : list Z := (fun i => 0x100000 + i * 0x1000) <$> seqZ 0 40.

Definition sample_state : Inner MapTable.t (list Z) := state_over sample_free sample_memory.

Lemma sample_space_ok : space_ok 0x10000 0x12000 sample_state.
Proof.
  apply over_space_ok. intros f Hf. unfold apart, Size4KiB. change (f ∈ sample_free) in Hf. unfold sample_free in Hf.
  apply list_elem_of_fmap in Hf as (i & -> & Hi). apply elem_of_seqZ in Hi. lia.
Qed.

Lemma sample_frames n : (n <= 40)%nat -> frames n sample_state.
Proof.
  intros Hn. split.
  - split; apply (bool_decide_unpack _); vm_compute; exact I.
  - exact Hn.
Qed.

Lemma sample_file_ok : file_ok 0x10000 0x12000 sample_state.
Proof. apply over_file_ok. Qed.

Lemma sample_seg_ok h : h ∈ sample_headers -> is_type Load_ h = true -> seg_ok 0x10000 0x12000 sample_state h.
Proof. apply over_seg_ok. Qed.

Lemma sample_headers_ok : headers_ok 0x10000 0x12000 sample_state sample_headers.
Proof. apply over_headers_ok. Qed.

Lemma sample_vacant h : seg_vacant sample_state h.
Proof. apply over_vacant. Qed.

Lemma sample_relro_ok : relro_ok sample_state sample_headers.
Proof. apply over_relro_ok. Qed.

Lemma sample_table_ok : table_ok sample_elf sample_state (image sample_state sample_headers) 0x800 [sample_entry].
Proof. exact (over_table_ok sample_free). Qed.

Lemma sample_relocs :
  file_relocs sample_elf sample_state (image sample_state sample_headers) [sample_entry].
Proof. by apply over_relocs. Qed.

Lemma sample_cost : load_cost sample_state sample_headers = 20%nat.
Proof. vm_compute. reflexivity. Qed.

(** * Witnesses *)

(** The relocated word, a byte of bss and a byte of text. *)
Lemma load_segments_correct_witness :
  exists s', load_segments sample_elf sample_state = Ret (Ok (Some (mkTlsTemplate (2 ^ 39 + 0x1010) 8 16)), s') /\
    vread s' (2 ^ 39 + 0x1010) = Some 0x20 /\ vread s' (2 ^ 39 + 0x1100) = Some 0 /\
    vread s' (2 ^ 39 + 3) = Some ((0x10003 * 7) mod 256) /\
    vflags s' (2 ^ 39) = Some PRESENT /\
    vflags s' (2 ^ 39 + 0x1000) = Some (Z.lor PRESENT NO_EXECUTE) /\
    vflags s' (2 ^ 39 + 0x2000) = Some (Z.lor (Z.lor PRESENT NO_EXECUTE) WRITABLE).
Proof.
  destruct (load_segments_correct 0x10000 0x12000 sample_elf sample_state [sample_entry] sample_space_ok
    sample_file_ok sample_headers_ok (fun h _ _ => sample_vacant h) sample_relro_ok sample_relocs)
    as (s' & Hr & Hread & Hfl & _ & _).
  { apply sample_frames. change (program_iter sample_elf) with sample_headers. rewrite sample_cost. simpl. lia. }
  exists s'. split; [exact Hr|].
  split; [apply Hread; vm_compute; reflexivity|].
  split; [apply Hread; vm_compute; reflexivity|].
  split; [apply Hread; vm_compute; reflexivity|].
  split; [|split].
  - rewrite (Hfl text_header); [vm_compute; reflexivity|left|reflexivity|vm_compute; split; [discriminate|reflexivity]|].
    compute_divide.
  - rewrite (Hfl data_header); [vm_compute; reflexivity|right; left|reflexivity|vm_compute; split; [discriminate|reflexivity]|].
    compute_divide.
  - rewrite (Hfl data_header); [vm_compute; reflexivity|right; left|reflexivity|vm_compute; split; [discriminate|reflexivity]|].
    compute_divide.
Defined.

Lemma handle_load_segment_image_witness :
  exists s', handle_load_segment data_header sample_state = Ret (Ok tt, s') /\
    vread s' (2 ^ 39 + 0x1001) = Some ((0x11001 * 7) mod 256) /\ vread s' (2 ^ 39 + 0x1100) = Some 0.
Proof.
  destruct (handle_load_segment_image 0x10000 0x12000 sample_state data_header sample_space_ok
    sample_file_ok (sample_seg_ok data_header ltac:(right; left) eq_refl) (sample_vacant data_header))
    as (s' & Hr & Hb & _).
  { apply sample_frames. vm_compute. lia. }
  exists s'. split; [exact Hr|].
  split; (rewrite Hb; [vm_compute; reflexivity|vm_compute; split; [discriminate|reflexivity]]).
Defined.

(** The state after the text segment has been loaded: one page of the file. *)
Definition loaded_state : Inner MapTable.t (list Z) :=
  match handle_load_segment text_header sample_state with Ret (_, s) => s | _ => sample_state end.

Lemma loaded_state_facts :
  space_ok 0x10000 0x12000 loaded_state /\ page_at loaded_state (2 ^ 39) = Some (0x10000, PRESENT) /\
  frames 12 loaded_state /\ forall a, 2 ^ 39 <= a < 2 ^ 39 + 0x1000 -> is_Some (vread loaded_state a).
Proof.
  destruct (handle_load_segment_spec 0x10000 0x12000 sample_state text_header 12 sample_space_ok
    sample_file_ok (sample_seg_ok text_header ltac:(left) eq_refl) (sample_vacant text_header))
    as (s' & Hr & Hk & Hs & _ & Hb & _).
  { apply sample_frames. vm_compute. lia. }
  unfold loaded_state at 1 3 4. rewrite Hr. split; [exact Hs|]. split; [vm_compute; reflexivity|].
  split; [exact Hk|]. intros a Ha. eexists. apply Hb. unfold seg_va. simpl. lia.
Qed.

Lemma make_mut_copy_on_write_witness :
  exists frame s', make_mut (2 ^ 39) loaded_state = Ret (Ok frame, s') /\
    vread s' (2 ^ 39 + 5) = vread loaded_state (2 ^ 39 + 5).
Proof.
  destruct loaded_state_facts as (Hs & Hp & Hk & _).
  destruct (make_mut_copy_on_write 0x10000 0x12000 loaded_state (2 ^ 39) (0x10000, PRESENT) Hs Hp)
    as (g & s' & Hr & Hv & _); [exact (frames_weaken 12 4 _ ltac:(lia) Hk)|].
  exists g, s'. split; [exact Hr|apply Hv].
Defined.

Lemma copy_roundtrip_witness :
  exists s', copy_to (2 ^ 39 + 16) [1; 2; 3] loaded_state = Ret (Ok tt, s') /\
    copy_from (2 ^ 39 + 16) [0; 0; 0] s' = Ret (Ok [1; 2; 3], s').
Proof.
  destruct loaded_state_facts as (Hs & _ & Hk & Hm).
  destruct (copy_roundtrip 0x10000 0x12000 loaded_state (2 ^ 39 + 16) [1; 2; 3] [0; 0; 0] Hs)
    as (s' & H1 & H2 & _); [simpl; lia|reflexivity|lia|simpl; lia| | |].
  - intros a Ha. apply Hm. simpl in Ha. lia.
  - apply (frames_weaken 12); [apply Nat.leb_le; vm_compute; reflexivity|exact Hk].
  - exists s'. split; [exact H1|exact H2].
Defined.

(** The relocation of the sample, on the state that the first pass leaves. *)
Definition headers_state : Inner MapTable.t (list Z) :=
  match load_headers sample_headers None sample_state with Ret (_, s) => s | _ => sample_state end.

Lemma dynamic_segment_relocates_witness :
  exists s', handle_dynamic_segment dynamic_header sample_elf headers_state = Ret (Ok tt, s') /\
    vread s' (2 ^ 39 + 0x1017) = Some 0 /\ vread s' (2 ^ 39 + 0x1010) = Some 0x20 /\
    vread headers_state (2 ^ 39 + 0x1010) = Some ((0x11010 * 7) mod 256).
Proof.
  destruct (load_headers_spec 0x10000 0x12000 sample_headers sample_state None 8 sample_space_ok
    sample_file_ok sample_headers_ok (fun h _ _ => sample_vacant h) (or_introl eq_refl))
    as (s' & Hr & Hk & Hl).
  { apply sample_frames. rewrite sample_cost. lia. }
  assert (Hst : headers_state = s') by (unfold headers_state; rewrite Hr; reflexivity).
  destruct (dynamic_segment_relocates 0x10000 0x12000 sample_elf headers_state dynamic_header [sample_entry])
    as (s2 & Hr2 & Hv & _).
  - rewrite Hst. apply Hl.
  - rewrite Hst. exists sample_dynamic, (mkRelaEntries (Some 0x800) (Some 24) (Some 24)).
    split; [reflexivity|]. split; [reflexivity|]. split; [reflexivity|]. split; [reflexivity|].
    apply (table_ok_included sample_elf 0x10000 0x12000 sample_state s' (image sample_state sample_headers));
      [apply Hl|exact (image_loaded _ _ _ _ _ Hl)|exact sample_table_ok].
  - rewrite Hst. exact Hk.
  - exists s2. split; [exact Hr2|]. rewrite !Hv.
    split; [|split]; vm_compute; reflexivity.
Defined.

Lemma dynamic_segment_rejects_witness :
  handle_dynamic_segment {| get_type := Ok Dynamic_; virtual_addr := 0; Kernel.mem_size := 0;
      Kernel.file_size := 0; ph_offset := 0; ph_align := 8; is_execute := false; is_write := false;
      get_data := Ok (Dynamic64 [mkDynamic (Ok Rela) (Ok 0) (Ok 0)]); ph_sanity_check := Ok tt |}
    sample_elf sample_state = Ret (Err "RelaSize entry is missing"%string, sample_state).
Proof.
  apply (dynamic_segment_rejects sample_elf sample_state _ [mkDynamic (Ok Rela) (Ok 0) (Ok 0)]
    (mkRelaEntries (Some 0) None None)); [reflexivity|reflexivity|discriminate|reflexivity].
Defined.

Lemma scan_dynamic_exact_witness :
  scan_dynamic sample_dynamic (mkRelaEntries None None None) =
    Ok (mkRelaEntries (Some 0x800) (Some 24) (Some 24)).
Proof.
  apply scan_dynamic_exact; [|split; [reflexivity|split; reflexivity]].
  unfold sample_dynamic, dynamic_ok. repeat constructor; simpl; eauto.
Defined.

Lemma check_is_in_load_exact_witness :
  check_is_in_load sample_elf 0x27ff = Ok tt /\
  check_is_in_load sample_elf 0x2800 = Err "offset is not in load segment"%string.
Proof.
  assert (Ht : types_ok (program_iter sample_elf)) by (repeat constructor; simpl; eauto).
  split.
  - apply (check_is_in_load_exact sample_elf 0x27ff Ht). exists data_header.
    split; [right; left|]. split; [reflexivity|]. simpl. lia.
  - apply (check_is_in_load_exact sample_elf 0x2800 Ht). vm_compute. discriminate.
Defined.

(** The entries after the offset has been chosen. *)
Definition sample_entries : Entries :=
  match choose_offset sample_elf Entries_new with Ret (_, e) => e | _ => Entries_new end.

Lemma choose_offset_places_witness :
  ~ used Entries_new (p4_of (2 ^ 39 + 0x27ff)) /\ used sample_entries (p4_of (2 ^ 39 + 0x27ff)).
Proof.
  destruct (choose_offset_places sample_elf Entries_new sample_offset sample_entries wf_new eq_refl)
    as (_ & _ & H & _).
  - repeat constructor; simpl; lia.
  - exists data_header. split; [right; left|simpl; lia].
  - vm_compute. reflexivity.
  - apply (H data_header); [right; left|simpl; lia].
Defined.

Lemma loader_rejects_witness :
  load_kernel (mkKernel sample_elf 0x10010 0x1100) MapTable.empty sample_free sample_memory Entries_new =
    Ret (Err "Loaded kernel ELF file is not sufficiently aligned"%string, Entries_new).
Proof.
  destruct (loader_rejects (mkKernel sample_elf 0x10010 0x1100) MapTable.empty sample_free sample_memory
    Entries_new) as [H _]; [discriminate|simpl; lia|].
  apply H.
  intros Hd. apply Z.mod_divide in Hd; [|discriminate]. vm_compute in Hd. discriminate Hd.
Defined.

Lemma over_loads {F} {FA : FrameAllocator F} {FL : FreeList F} (fa : F) m k :
  (forall f, f ∈ fa_free fa -> apart 0x10000 0x12000 f) -> has_frames (28 + k) fa ->
  (forall x, 0x10000 <= x < 0x12000 -> m x = sample_memory x) ->
  loads_ok sample_kernel (state_over fa m) sample_offset Entries_new sample_entries 0x10000 0x12000 [sample_entry] k.
Proof.
  intros Hfa Hk Hm. split.
  - split; [discriminate|simpl; lia|compute_divide|repeat constructor|reflexivity].
  - vm_compute. reflexivity.
  - split; vm_compute; reflexivity.
  - unfold seg_va. repeat constructor; simpl; lia.
  - simpl. lia.
  - by apply over_space_ok.
  - apply over_file_ok.
  - apply over_headers_ok.
  - intros h _ _. apply over_vacant.
  - apply over_relro_ok.
  - by apply over_relocs.
  - assert (Hc : load_cost (state_over fa m) sample_headers = 20%nat) by (vm_compute; reflexivity).
    change (program_iter (elf sample_kernel)) with sample_headers. rewrite Hc. exact Hk.
Qed.

Lemma sample_loads :
  loads_ok sample_kernel sample_state sample_offset Entries_new sample_entries 0x10000 0x12000 [sample_entry] 0.
Proof.
  apply over_loads; [exact (so_free _ _ _ sample_space_ok)|exact (sample_frames 28 ltac:(lia))|done].
Qed.

Lemma load_kernel_correct_witness :
  exists s' e2, load_kernel sample_kernel MapTable.empty sample_free sample_memory Entries_new =
      Ret (Ok (2 ^ 39 + 0x40, Some (mkTlsTemplate (2 ^ 39 + 0x1010) 8 16), s'), e2) /\
    vread s' (2 ^ 39 + 0x1010) = Some 0x20 /\ used e2 1.
Proof.
  destruct (load_kernel_correct sample_kernel MapTable.empty sample_free sample_memory Entries_new
    sample_offset sample_entries 0x10000 0x12000 [sample_entry])
    as (s' & e2 & Hr & Hread & Hu & _).
  - exact sample_loads.
  - exists s', e2. split; [exact Hr|]. split; [apply Hread; vm_compute; reflexivity|].
    apply (Hu text_header (2 ^ 39)); [left|]. unfold seg_va. simpl. lia.
Defined.
