(* ===== verification/Initium.v ===== *)
(** initium/src/initium.rs, gdt.rs and the last part of main.rs: the page
    tables of the bootloader and the kernel, the kernel's mappings, the boot
    information, and the switch to the kernel.

    [System] is the state these functions work on: the registers they set,
    physical memory, the frame allocator, the two page tables and the level 4
    entries in use.  Every failure of these functions is a panic, so they are
    computations of the monad [sys] over that state.

    Parameters: the bytes of the descriptor table and the selectors that the
    x86_64 crate computes ([Gdt]), the crate's view of a level 4 table in
    memory ([OffsetPageTable]), and the layout that the compiler gives the
    [BootInfo] struct ([BootInfoLayout]). *)

From S2P Require Import Prelude X86 Synapse Entries FrameAlloc LegacyMemory Paging Kernel Firmware.

(** * Parameters *)

Class Gdt := { gdt_bytes : list Z; code_selector : Z; data_selector : Z }.

(** [OffsetPageTable::new(&mut *table, offset)] on the memory it reads. *)
Class OffsetPageTable (M : Type) := offset_page_table : mem -> Z -> Z -> M.

(** [Layout::new::<BootInfo>()] *)
Class BootInfoLayout := { boot_info_size : Z; boot_info_align : Z }.

(** * State *)

Record Cpu : Type := mkCpu {
  efer : Z;
  cr0 : Z;
  cr3 : Z;
  gdtr : Z;
  cs : Z;
  ds : Z;
  es : Z;
  ss : Z;
}.

(** [EferFlags::NO_EXECUTE_ENABLE] and [Cr0Flags::WRITE_PROTECT] *)
Definition NO_EXECUTE_ENABLE : Z := 2 ^ 11.
Definition WRITE_PROTECT : Z := 2 ^ 16.

Record PageTables (M : Type) : Type := mkPageTables {
  bootloader : M;
  kernel_table : M;
  kernel_level_4_frame : Z;
}.
Arguments mkPageTables {M}.
Arguments bootloader {M}.
Arguments kernel_table {M}.
Arguments kernel_level_4_frame {M}.

Record SystemInfo : Type := mkSystemInfo {
  si_framebuffer : option RawFramebufferInfo;
  si_rsdp_addr : option Z;
  si_ramdisk_addr : option Z;
  si_ramdisk_len : Z;
}.

Record Mappings : Type := mkMappings {
  ma_entry_point : Z;
  ma_stack_top : Z;
  ma_framebuffer : option Z;
  ma_physical_memory_offset : option Z;
  ma_tls_template : option TlsTemplate;
  ma_kernel_slice_start : Z;
  ma_kernel_slice_len : Z;
  ma_ramdisk_slice_start : option Z;
  ma_ramdisk_slice_len : Z;
}.

(** The arguments of [context_switch]. *)
Record Addresses : Type := mkAddresses {
  page_table_frame : Z;
  stack_top : Z;
  entry : Z;
  boot_info : Z;
}.

(** [used_entries], a field of [Mappings] in the code, is kept with the state. *)
Record System (M F : Type) : Type := mkSystem {
  cpu : Cpu;
  sys_memory : mem;
  sys_frames : F;
  sys_tables : PageTables M;
  sys_entries : Entries;
}.
Arguments mkSystem {M F}.
Arguments cpu {M F}.
Arguments sys_memory {M F}.
Arguments sys_frames {M F}.
Arguments sys_tables {M F}.
Arguments sys_entries {M F}.

Definition sys (M F A : Type) : Type := System M F -> outcome (A * System M F).

#[global] Instance sys_ret {M F} : MRet (sys M F) := fun A a s => Ret (a, s).

#[global] Instance sys_bind {M F} : MBind (sys M F) := fun A B f m s =>
  r ← m s; f (fst r) (snd r).

Section Monad.
Context {M F : Type}.

Definition sys_get : sys M F (System M F) := fun s => Ret (s, s).
Definition sys_lift {A} (m : outcome A) : sys M F A := fun s => a ← m; Ret (a, s).
Definition set_cpu (c : Cpu) : sys M F unit := fun s =>
  Ret (tt, mkSystem c (sys_memory s) (sys_frames s) (sys_tables s) (sys_entries s)).
Definition set_sys_memory (m : mem) : sys M F unit := fun s =>
  Ret (tt, mkSystem (cpu s) m (sys_frames s) (sys_tables s) (sys_entries s)).
Definition set_frames (fa : F) : sys M F unit := fun s =>
  Ret (tt, mkSystem (cpu s) (sys_memory s) fa (sys_tables s) (sys_entries s)).
Definition set_entries (e : Entries) : sys M F unit := fun s =>
  Ret (tt, mkSystem (cpu s) (sys_memory s) (sys_frames s) (sys_tables s) e).
Definition set_tables (t : PageTables M) : sys M F unit := fun s =>
  Ret (tt, mkSystem (cpu s) (sys_memory s) (sys_frames s) t (sys_entries s)).
Definition set_kernel_table (pt : M) : sys M F unit := fun s =>
  set_tables (mkPageTables (bootloader (sys_tables s)) pt (kernel_level_4_frame (sys_tables s))) s.
Definition set_bootloader (pt : M) : sys M F unit := fun s =>
  set_tables (mkPageTables pt (kernel_table (sys_tables s)) (kernel_level_4_frame (sys_tables s))) s.

(** [for x in xs { body }] *)
Fixpoint sys_for {A} (xs : list A) (body : A -> sys M F unit) : sys M F unit :=
  match xs with
  | [] => mret tt
  | x :: xs => body x ≫= fun _ => sys_for xs body
  end.
End Monad.
Arguments sys_get {M F}.

(** * initium.rs *)

Section Mapping.
Context {X : X86_64} {P : Profile} {RF : RelaFormat} {GD : Gdt} {D : Type} {R : LegacyMemoryRegion D}.
Context {M : Type} {PT : PageTable M (LegacyFrameAllocator D)}.

Abbreviation step := (sys M (LegacyFrameAllocator D)).

Definition enable_nxe_bit : step unit :=
  s ← sys_get;
  let c := cpu s in
  set_cpu (mkCpu (Z.lor (efer c) NO_EXECUTE_ENABLE) (cr0 c) (cr3 c) (gdtr c) (cs c) (ds c) (es c) (ss c)).

Definition enable_write_protect_bit : step unit :=
  s ← sys_get;
  let c := cpu s in
  set_cpu (mkCpu (efer c) (Z.lor (cr0 c) WRITE_PROTECT) (cr3 c) (gdtr c) (cs c) (ds c) (es c) (ss c)).

(** gdt.rs *)
Definition create_and_load (frame : Z) : step unit :=
  virtual_address ← sys_lift (VirtAddr_new frame);
  s ← sys_get;
  _ ← set_sys_memory (write_bytes (sys_memory s) virtual_address gdt_bytes);
  let c := cpu s in
  set_cpu (mkCpu (efer c) (cr0 c) (cr3 c) virtual_address code_selector data_selector data_selector data_selector).

Definition mapping_addr (size alignment : Z) : step (result Z Z) :=
  s ← sys_get;
  r ← sys_lift (get_free_address (sys_entries s) size alignment);
  let '(addr, e) := r in
  _ ← set_entries e;
  if VirtAddr_is_aligned addr alignment then mret (Ok addr) else mret (Err addr).

Definition mapping_addr_page_aligned (size : Z) : step Z :=
  r ← mapping_addr size Size4KiB;
  match r with
  | Ok addr => sys_lift (expect_ok "called `Result::unwrap()` on an `Err` value"
                           (Page_from_start_address Size4KiB addr))
  | Err _ => sys_lift (Panic "address must be page-aligned")
  end.

(** [frame_allocator.allocate_frame().expect(msg)] *)
Definition take_frame (msg : string) : step Z :=
  s ← sys_get;
  r ← sys_lift (allocate_frame (sys_frames s));
  let '(o, fa) := r in
  _ ← set_frames fa;
  sys_lift (expect msg o).

(** [match kernel_page_table.map_to(..) { Ok(tlb) => .., Err(err) => panic!(..) }] *)
Definition map_kernel (sz page frame flags : Z) : step unit :=
  s ← sys_get;
  r ← sys_lift (map_to sz (kernel_table (sys_tables s)) page frame flags (sys_frames s));
  let '(res, pt, fa) := r in
  _ ← set_kernel_table pt;
  _ ← set_frames fa;
  sys_lift (expect_ok "failed to map page" res).

Definition identity_map_kernel (frame flags : Z) : step unit :=
  s ← sys_get;
  r ← sys_lift (identity_map Size4KiB (kernel_table (sys_tables s)) frame flags (sys_frames s));
  let '(res, pt, fa) := r in
  _ ← set_kernel_table pt;
  _ ← set_frames fa;
  sys_lift (expect_ok "failed to identity map frame" res).

Definition map_bootloader (sz page frame flags : Z) : step unit :=
  s ← sys_get;
  r ← sys_lift (map_to sz (bootloader (sys_tables s)) page frame flags (sys_frames s));
  let '(res, pt, fa) := r in
  _ ← set_bootloader pt;
  _ ← set_frames fa;
  sys_lift (expect_ok "failed to map page" res).

Definition kernel_stack_size : Z := 80 * 1024.

Definition data_flags : Z := Z.lor PRESENT WRITABLE.

(** The kernel stack: the guard page's successor and the address behind the
    stack. *)
Definition map_stack : step (Z * Z) :=
  size ← sys_lift (u64_add Size4KiB kernel_stack_size);
  guard_page ← mapping_addr_page_aligned size;
  stack_start ← sys_lift (Page_add Size4KiB guard_page 1);
  stack_end_addr ← sys_lift (VirtAddr_add stack_start kernel_stack_size);
  e ← sys_lift (VirtAddr_sub stack_end_addr 1);
  let stack_end := Page_containing_address Size4KiB e in
  _ ← sys_for (Page_range_inclusive Size4KiB stack_start stack_end) (fun page =>
        frame ← take_frame "frame allocation failed when mapping a kernel stack";
        map_kernel Size4KiB page frame data_flags);
  mret (stack_start, stack_end_addr).

(** The two frames from the one that holds [context_switch] on. *)
Definition map_context_switch (context_switch : Z) : step unit :=
  context_switch_function ← sys_lift (PhysAddr_new context_switch);
  let start_frame := PhysFrame_containing_address Size4KiB context_switch_function in
  end_frame ← sys_lift (PhysFrame_add Size4KiB start_frame 1);
  sys_for (PhysFrame_range_inclusive Size4KiB start_frame end_frame) (fun frame =>
    identity_map_kernel frame PRESENT).

Definition map_gdt : step Z :=
  gdt_frame ← take_frame "failed to allocate GDT frame";
  _ ← create_and_load gdt_frame;
  _ ← identity_map_kernel gdt_frame PRESENT;
  mret gdt_frame.

(** [for (i, frame) in frames.enumerate() { map_to(start_page + i, frame) }] *)
Fixpoint map_enumerated (start_page i : Z) (frames : list Z) : step unit :=
  match frames with
  | [] => mret tt
  | frame :: frames =>
      page ← sys_lift (Page_add Size4KiB start_page i);
      _ ← map_kernel Size4KiB page frame data_flags;
      map_enumerated start_page (i + 1) frames
  end.

Definition map_framebuffer (framebuffer : option RawFramebufferInfo) : step (option Z) :=
  match framebuffer with
  | None => mret None
  | Some framebuffer =>
      let start_frame := PhysFrame_containing_address Size4KiB (addr framebuffer) in
      e ← sys_lift (PhysAddr_add (addr framebuffer) (byte_len (info framebuffer)));
      e ← sys_lift (PhysAddr_sub e 1);
      let end_frame := PhysFrame_containing_address Size4KiB e in
      start_page ← mapping_addr_page_aligned (byte_len (info framebuffer));
      _ ← map_enumerated start_page 0 (PhysFrame_range_inclusive Size4KiB start_frame end_frame);
      mret (Some start_page)
  end.

Definition map_ramdisk (system_info : SystemInfo) : step (option Z) :=
  match si_ramdisk_addr system_info with
  | None => mret None
  | Some ramdisk_address =>
      start_page ← mapping_addr_page_aligned (si_ramdisk_len system_info);
      physical_address ← sys_lift (PhysAddr_new ramdisk_address);
      let start_frame := PhysFrame_containing_address Size4KiB physical_address in
      l ← sys_lift (u64_sub (si_ramdisk_len system_info) 1);
      let ramdisk_page_count := l / Size4KiB in
      end_frame ← sys_lift (PhysFrame_add Size4KiB start_frame ramdisk_page_count);
      _ ← map_enumerated start_page 0 (PhysFrame_range_inclusive Size4KiB start_frame end_frame);
      mret (Some start_page)
  end.

(** All physical memory, in pages of 2 MiB. *)
Definition map_physical_memory : step Z :=
  zero ← sys_lift (PhysAddr_new 0);
  let start_frame := PhysFrame_containing_address Size2MiB zero in
  s ← sys_get;
  max_phys ← sys_lift (max_physical_address (sys_frames s));
  e ← sys_lift (PhysAddr_sub max_phys 1);
  let end_frame := PhysFrame_containing_address Size2MiB e in
  r ← mapping_addr max_phys Size2MiB;
  offset ← sys_lift (expect_ok
    "start address for physical memory mapping must be 2MiB-page-aligned" r);
  _ ← sys_for (PhysFrame_range_inclusive Size2MiB start_frame end_frame) (fun frame =>
        a ← sys_lift (VirtAddr_add offset frame);
        map_kernel Size2MiB (Page_containing_address Size2MiB a) frame data_flags);
  mret offset.

(** The call of [load_kernel]. *)
Definition load_the_kernel (kernel : Kernel) : step (Z * option TlsTemplate) :=
  s ← sys_get;
  r ← sys_lift (load_kernel kernel (kernel_table (sys_tables s)) (sys_frames s) (sys_memory s) (sys_entries s));
  let '(res, e) := r in
  _ ← set_entries e;
  l ← sys_lift (expect_ok "no entry point" res);
  let '(et, inner) := l in
  _ ← set_kernel_table (page_table inner);
  _ ← set_frames (frame_allocator inner);
  _ ← set_sys_memory (memory inner);
  mret et.

Definition set_up_mappings (kernel : Kernel) (context_switch : Z)
    (framebuffer : option RawFramebufferInfo) (system_info : SystemInfo) : step Mappings :=
  _ ← set_entries Entries_new;
  _ ← enable_nxe_bit;
  _ ← enable_write_protect_bit;
  let kernel_slice_start := Kernel.start_address kernel in
  let kernel_slice_len := kernel_len kernel in
  et ← load_the_kernel kernel;
  let '(entry_point, tls_template) := et in
  st ← map_stack;
  _ ← map_context_switch context_switch;
  _ ← map_gdt;
  framebuffer_virt_addr ← map_framebuffer framebuffer;
  ramdisk_slice_start ← map_ramdisk system_info;
  offset ← map_physical_memory;
  top ← sys_lift (VirtAddr_align_down (snd st) 16);
  mret {|
    ma_framebuffer := framebuffer_virt_addr;
    ma_entry_point := entry_point;
    ma_stack_top := top;
    ma_physical_memory_offset := Some offset;
    ma_tls_template := tls_template;
    ma_kernel_slice_start := kernel_slice_start;
    ma_kernel_slice_len := kernel_slice_len;
    ma_ramdisk_slice_start := ramdisk_slice_start;
    ma_ramdisk_slice_len := si_ramdisk_len system_info |}.

(** ** The boot information *)

Context {BL : BootInfoLayout}.

(** [boot_info_layout.extend(memory_regions_layout)]: size and offset of the
    regions; both layouts are aligned to 8 bytes. *)
Definition combined_layout (regions : Z) : outcome (Z * Z * Z) :=
  let offset := round_down (boot_info_size + 8 - 1) 8 in
  let array := size_of_MemoryRegion * regions in
  if offset + array <=? isize_max then Ret (offset + array, Z.max boot_info_align 8, offset)
  else Panic "called `Result::unwrap()` on an `Err` value: LayoutError".

(** The pages of the boot information, in both page tables. *)
Definition map_boot_info (boot_info_addr size : Z) : step unit :=
  memory_map_regions_end ← sys_lift (VirtAddr_add boot_info_addr size);
  let start_page := Page_containing_address Size4KiB boot_info_addr in
  e ← sys_lift (VirtAddr_sub memory_map_regions_end 1);
  let end_page := Page_containing_address Size4KiB e in
  sys_for (Page_range_inclusive Size4KiB start_page end_page) (fun page =>
    frame ← take_frame "frame allocation for boot info failed";
    _ ← map_kernel Size4KiB page frame data_flags;
    map_bootloader Size4KiB page frame data_flags).

(** [create_boot_info]: the address of the boot information, its contents, and
    the regions stored behind it. *)
Definition create_boot_info (mappings : Mappings) (system_info : SystemInfo)
  : step (Z * BootInfo * list MemoryRegion) :=
  s ← sys_get;
  regions ← sys_lift (u64_add (allocator_len (sys_frames s)) 4);
  layout ← sys_lift (combined_layout regions);
  let '(size, align, memory_regions_offset) := layout in
  r ← mapping_addr size align;
  boot_info_addr ← sys_lift (expect_ok "boot info addr is not properly aligned" r);
  memory_map_regions_addr ← sys_lift (VirtAddr_add boot_info_addr memory_regions_offset);
  _ ← map_boot_info boot_info_addr size;
  s ← sys_get;
  memory_regions ← sys_lift (construct_memory_map (sys_frames s)
    (replicate (Z.to_nat regions) None) (ma_kernel_slice_start mappings) (ma_kernel_slice_len mappings));
  framebuffer ← sys_lift (match ma_framebuffer mappings with
    | None => Ret None
    | Some a =>
        fb ← expect "there shouldn't be a mapping for the framebuffer if there is no framebuffer"
          (si_framebuffer system_info);
        Ret (Some (Framebuffer_new a (info fb)))
    end);
  let slice := mkRegionSlice memory_map_regions_addr (Z.of_nat (length memory_regions)) in
  let i := BootInfo_new (MemoryRegions_from slice) in
  mret (boot_info_addr, {|
    Synapse.memory_regions := Synapse.memory_regions i;
    Synapse.framebuffer := Optional.from_option framebuffer;
    physical_memory_offset := Optional.from_option (ma_physical_memory_offset mappings);
    rsdp_address := Optional.from_option (si_rsdp_addr system_info);
    Synapse.tls_template := Optional.from_option (ma_tls_template mappings);
    ramdisk_address := Optional.from_option (ma_ramdisk_slice_start mappings);
    ramdisk_len := ma_ramdisk_slice_len mappings |}, memory_regions).

(** [switch_to_kernel]: what [context_switch] loads into the registers. *)
Definition switch_to_kernel (mappings : Mappings) (boot_info : Z) : step Addresses :=
  s ← sys_get;
  mret (mkAddresses (kernel_level_4_frame (sys_tables s)) (ma_stack_top mappings)
    (ma_entry_point mappings) boot_info).

Definition load_and_switch_to_kernel (kernel : Kernel) (context_switch : Z) (system_info : SystemInfo)
  : step (Addresses * BootInfo * list MemoryRegion) :=
  mappings ← set_up_mappings kernel context_switch (si_framebuffer system_info) system_info;
  b ← create_boot_info mappings system_info;
  let '(boot_info, contents, regions) := b in
  a ← switch_to_kernel mappings boot_info;
  mret (a, contents, regions).
End Mapping.

(** * main.rs *)

Section Main.
Context {X : X86_64} {P : Profile} {RF : RelaFormat} {GD : Gdt} {Gu : Guids} {D : Type} {R : LegacyMemoryRegion D}.
Context {M : Type} {PT : PageTable M (LegacyFrameAllocator D)} {OPT : OffsetPageTable M} {BL : BootInfoLayout}.

(** [create_page_tables]: the bootloader goes on with a level 4 table that
    has only entry 0 of the old one; the kernel's table is empty. *)
Definition create_page_tables (c : Cpu) (m : mem) (frame_allocator : LegacyFrameAllocator D)
  : outcome (PageTables M * Cpu * mem * LegacyFrameAllocator D) :=
  phys_offset ← VirtAddr_new 0;
  old_table ← VirtAddr_add phys_offset (cr3 c);
  r ← allocate_frame frame_allocator;
  new_frame ← expect "Failed to allocate frame for new level 4 table" (fst r);
  new_table ← VirtAddr_add phys_offset new_frame;
  let m := write_bytes m new_table (replicate (Z.to_nat Size4KiB) 0) in
  let m := write_bytes m new_table (read_bytes m old_table 8) in
  let c := mkCpu (efer c) (cr0 c) new_frame (gdtr c) (cs c) (ds c) (es c) (ss c) in
  let bootloader_page_table := offset_page_table m new_table phys_offset in
  r ← allocate_frame (snd r);
  frame ← expect "no unused frames" (fst r);
  addr ← VirtAddr_add phys_offset frame;
  let m := write_bytes m addr (replicate (Z.to_nat Size4KiB) 0) in
  Ret (mkPageTables bootloader_page_table (offset_page_table m addr phys_offset) frame, c, m, snd r).

(** [main_inner] from [exit_boot_services] on: [memory_map] is the sorted
    memory map, [ramdisk] the address and length of the file in memory,
    [config_table] the system table's configuration table. *)
Definition main_inner (kernel : Kernel) (context_switch : Z) (framebuffer : option RawFramebufferInfo)
    (ramdisk : option (Z * Z)) (config_table : list ConfigTableEntry) (memory_map : list D) (c : Cpu) (m : mem)
  : outcome ((Addresses * BootInfo * list MemoryRegion) * System M (LegacyFrameAllocator D)) :=
  frame_allocator ← LegacyFrameAllocator_new memory_map;
  r ← create_page_tables c m frame_allocator;
  let '(page_tables, c, m, frame_allocator) := r in
  let ramdisk_len := match ramdisk with Some rd => snd rd | None => 0 end in
  rsdp ← rsdp_addr config_table;
  let system_info := mkSystemInfo framebuffer rsdp (fst <$> ramdisk) ramdisk_len in
  load_and_switch_to_kernel kernel context_switch system_info
    (mkSystem c m frame_allocator page_tables Entries_new).
End Main.
