(* ===== verification/InitiumSteps.v ===== *)
(** The steps of initium/src/initium.rs: mapping pages in the kernel's table,
    taking frames, and reserving address ranges, each as one lemma about the
    [System] state; and the loops over pages made of them. *)

From S2P Require Import Prelude X86 Entries FrameAlloc LegacyMemory Paging Mapping Kernel Initium.

(** * The monad *)

Section Monad.
Context {M F : Type}.

Lemma sys_bind_Ret {A B} (m : sys M F A) (f : A -> sys M F B) s a s' :
  m s = Ret (a, s') -> (m ≫= f) s = f a s'.
Proof. unfold mbind, sys_bind. by intros ->. Qed.

Lemma sys_bind_get {B} (f : System M F -> sys M F B) s : (sys_get ≫= f) s = f s s.
Proof. done. Qed.

Lemma sys_bind_lift {A B} (m : outcome A) (f : A -> sys M F B) s a :
  m = Ret a -> (sys_lift m ≫= f) s = f a s.
Proof. by intros ->. Qed.

Lemma sys_for_invariant {A} (I : list A -> System M F -> Prop) xs (body : A -> sys M F unit) s :
  I [] s ->
  (forall don x rest s, xs = don ++ x :: rest -> I don s ->
     exists s', body x s = Ret (tt, s') /\ I (don ++ [x]) s') ->
  exists s', sys_for xs body s = Ret (tt, s') /\ I xs s'.
Proof.
  intros H0 Hstep.
  assert (Hgen : forall rest don s, xs = don ++ rest -> I don s ->
    exists s', sys_for rest body s = Ret (tt, s') /\ I xs s').
  { intros rest. induction rest as [|x rest IH]; intros don s1 Hxs HI; simpl.
    - exists s1. split; [done|]. by rewrite Hxs, app_nil_r.
    - destruct (Hstep don x rest s1 Hxs HI) as (s2 & Hs2 & HI2).
      erewrite sys_bind_Ret by exact Hs2. apply (IH (don ++ [x])); [|done].
      by rewrite <- app_assoc. }
  by apply (Hgen xs []).
Qed.

Definition with_kernel (s : System M F) (pt : M) (fa : F) : System M F :=
  mkSystem (cpu s) (sys_memory s) fa
    (mkPageTables (bootloader (sys_tables s)) pt (kernel_level_4_frame (sys_tables s))) (sys_entries s).

Definition with_bootloader (s : System M F) (pt : M) (fa : F) : System M F :=
  mkSystem (cpu s) (sys_memory s) fa
    (mkPageTables pt (kernel_table (sys_tables s)) (kernel_level_4_frame (sys_tables s))) (sys_entries s).

Definition with_frames (s : System M F) (fa : F) : System M F :=
  mkSystem (cpu s) (sys_memory s) fa (sys_tables s) (sys_entries s).

Definition with_entries (s : System M F) (e : Entries) : System M F :=
  mkSystem (cpu s) (sys_memory s) (sys_frames s) (sys_tables s) e.
End Monad.

(** * Frames that were taken *)

Section Fresh.
Context {F : Type} {FA : FrameAllocator F} {FL : FreeList F}.

(** Different frames that were free and are not any more. *)
Definition fresh (fs : list Z) (fa fa' : F) : Prop :=
  NoDup fs /\ forall f, f ∈ fs -> f ∈ fa_free fa /\ f ∉ fa_free fa'.

Definition fewer (fa fa' : F) : Prop := exists j, fa_free fa' = drop j (fa_free fa).

Lemma fewer_refl fa : fewer fa fa.
Proof. by exists O. Qed.

Lemma fewer_trans fa1 fa2 fa3 : fewer fa1 fa2 -> fewer fa2 fa3 -> fewer fa1 fa3.
Proof. intros [j Hj] [k Hk]. exists (j + k)%nat. by rewrite Hk, Hj, drop_drop. Qed.

Lemma fewer_elem fa fa' f : fewer fa fa' -> f ∈ fa_free fa' -> f ∈ fa_free fa.
Proof. intros [j Hj]. rewrite Hj. apply elem_of_drop. Qed.

Lemma fresh_nil fa fa' : fresh [] fa fa'.
Proof. split; [constructor|]. by intros f ?%elem_of_nil. Qed.

Lemma fresh_snoc fs fa fa1 fa2 f :
  fresh fs fa fa1 -> fewer fa fa1 -> fewer fa1 fa2 -> f ∈ fa_free fa1 -> f ∉ fa_free fa2 ->
  fresh (fs ++ [f]) fa fa2.
Proof.
  intros [Hnd Hf] H1 H2 Hin Hout. split.
  - apply NoDup_app. split; [done|]. split; [|apply NoDup_singleton].
    intros g Hg ->%list_elem_of_singleton. by destruct (Hf f Hg).
  - intros g [Hg| ->%list_elem_of_singleton]%elem_of_app.
    + destruct (Hf g Hg) as [? Hn]. split; [done|]. intros Hg2. by apply Hn, (fewer_elem fa1 fa2).
    + split; [by apply (fewer_elem fa fa1)|done].
Qed.

(** What [takes] says about the frames. *)
Lemma takes_fewer n k fa fa' : has_frames (n + k) fa -> takes n fa fa' -> has_frames k fa' /\ fewer fa fa'.
Proof. intros Hk Ht. destruct (takes_has n k fa fa' Hk Ht) as [? (j & _ & ?)]. split; [done|by exists j]. Qed.
End Fresh.

(** * Single steps *)

Section Steps.
Context {X : X86_64} {XL : X86_64_Laws X} {P : Profile} {D : Type} {R : LegacyMemoryRegion D}.
Context {M : Type} {PT : PageTable M (LegacyFrameAllocator D)} {PL : PageTableLaws M (LegacyFrameAllocator D)}.
Abbreviation system := (System M (LegacyFrameAllocator D)).

Definition ktable (s : system) : M := kernel_table (sys_tables s).

Lemma map_kernel_spec sz p n fs fl v f (s : system) :
  shows (ktable s) (put_pages sz p fs fl v) -> vacant v p (p + sz * Z.of_nat n) -> (length fs < n)%nat ->
  page_size sz -> (sz | p) -> 0 <= p -> p + sz * Z.of_nat n <= 2 ^ 47 ->
  frame_at sz f -> flags_ok fl -> has_frames 3 (sys_frames s) ->
  exists pt fa, map_kernel sz (p + sz * Z.of_nat (length fs)) f fl s = Ret (tt, with_kernel s pt fa) /\
    shows pt (put_pages sz p (fs ++ [f]) fl v) /\ takes 3 (sys_frames s) fa.
Proof.
  intros. destruct (map_next sz (ktable s) p n fs fl v f (sys_frames s)) as (pt & fa & Hm & Hs & Ht); try done.
  exists pt, fa. split; [|done]. unfold map_kernel. rewrite sys_bind_get.
  erewrite sys_bind_lift by exact Hm. done.
Qed.

Lemma map_bootloader_spec sz p n fs fl v f (s : system) :
  shows (bootloader (sys_tables s)) (put_pages sz p fs fl v) -> vacant v p (p + sz * Z.of_nat n) ->
  (length fs < n)%nat -> page_size sz -> (sz | p) -> 0 <= p -> p + sz * Z.of_nat n <= 2 ^ 47 ->
  frame_at sz f -> flags_ok fl -> has_frames 3 (sys_frames s) ->
  exists pt fa, map_bootloader sz (p + sz * Z.of_nat (length fs)) f fl s = Ret (tt, with_bootloader s pt fa) /\
    shows pt (put_pages sz p (fs ++ [f]) fl v) /\ takes 3 (sys_frames s) fa.
Proof.
  intros. destruct (map_next sz (bootloader (sys_tables s)) p n fs fl v f (sys_frames s))
    as (pt & fa & Hm & Hs & Ht); try done.
  exists pt, fa. split; [|done]. unfold map_bootloader. rewrite sys_bind_get.
  erewrite sys_bind_lift by exact Hm. done.
Qed.

(** Identity mapping is mapping the page of the frame's address. *)
Lemma identity_map_kernel_ret f fl (s : system) r :
  map_kernel Size4KiB f f fl s = Ret r -> identity_map_kernel f fl s = Ret r.
Proof.
  unfold identity_map_kernel, map_kernel. rewrite !sys_bind_get.
  rewrite identity_map_spec by (by left). unfold mbind, sys_bind, sys_lift.
  by destruct (map_to _ _ _ _ _ _) as [[[[u|e] pt] fa]|m|].
Qed.

Lemma take_frame_spec msg k (s : system) :
  has_frames (S k) (sys_frames s) ->
  exists f fa, take_frame msg s = Ret (f, with_frames s fa) /\ takes 1 (sys_frames s) fa /\
    has_frames k fa /\ fewer (sys_frames s) fa /\
    f ∈ fa_free (sys_frames s) /\ (f ∉ fa_free fa) /\ frame_at Size4KiB f.
Proof.
  intros Hk. destruct (allocate_has k (sys_frames s) Hk) as (f & fa & Ha & Hf & Hk').
  destruct (allocate_fresh _ _ f fa Hk Hf) as (Hn & Hd & H0 & H1).
  exists f, fa. split; [unfold take_frame; rewrite sys_bind_get; by erewrite sys_bind_lift by exact Ha|].
  split; [by eapply takes_one|]. split; [done|]. split; [exists 1%nat; by rewrite Hf|].
  split; [rewrite Hf; by left|]. by split_and!.
Qed.

(** * Loops *)

Lemma data_flags_ok : flags_ok data_flags.
Proof. split; vm_compute; reflexivity. Qed.

(** A loop that maps [n] pages from [p] on to new frames. *)
Lemma map_fresh_spec msg p n k v (s : system) :
  shows (ktable s) v -> vacant v p (p + Size4KiB * Z.of_nat n) -> (Size4KiB | p) -> 0 <= p ->
  p + Size4KiB * Z.of_nat n <= 2 ^ 47 -> has_frames (4 * n + k) (sys_frames s) ->
  exists fs pt fa,
    sys_for ((fun i => p + Size4KiB * Z.of_nat i) <$> seq 0 n) (fun page =>
      frame ← take_frame msg; map_kernel Size4KiB page frame data_flags) s = Ret (tt, with_kernel s pt fa) /\
    length fs = n /\ shows pt (put_pages Size4KiB p fs data_flags v) /\ fresh fs (sys_frames s) fa /\
    has_frames k fa /\ fewer (sys_frames s) fa /\ takes (4 * n) (sys_frames s) fa.
Proof.
  intros Hsh Hvac Hp Hp0 Htop Hk.
  destruct (sys_for_invariant (fun don s' => exists fs pt fa, s' = with_kernel s pt fa /\
      length fs = length don /\ shows pt (put_pages Size4KiB p fs data_flags v) /\
      fresh fs (sys_frames s) fa /\ has_frames (4 * (n - length don) + k) fa /\
      fewer (sys_frames s) fa /\ takes (4 * length don) (sys_frames s) fa)
    ((fun i => p + Size4KiB * Z.of_nat i) <$> seq 0 n)
    (fun page => frame ← take_frame msg; map_kernel Size4KiB page frame data_flags) s)
    as (s' & Hr & fs & pt & fa & -> & Hl & Hsh' & Hfr & Hk' & Hfe & Ht).
  - exists [], (ktable s), (sys_frames s). simpl. rewrite Nat.sub_0_r.
    split; [by destruct s as [? ? ? []]|]. split; [done|]. split; [|split; [apply fresh_nil|]].
    + eapply shows_ext; [exact Hsh|]. intros. by rewrite put_pages_nil.
    + split; [done|]. split; [apply fewer_refl|apply takes_refl].
  - intros don x rest s1 Heq (fs & pt & fa & -> & Hl & Hsh' & Hfr & Hk' & Hfe & Ht).
    assert (Hx : x = p + Size4KiB * Z.of_nat (length fs) /\ (length don < n)%nat).
    { assert (Hx : ((fun i => p + Size4KiB * Z.of_nat i) <$> seq 0 n) !! length don = Some x)
        by (rewrite Heq; by apply list_lookup_middle).
      apply list_lookup_fmap_Some in Hx as (i & -> & Hi). apply lookup_seq in Hi as [-> Hi].
      by rewrite Hl. }
    destruct Hx as [-> Hlt].
    destruct (take_frame_spec msg (3 + (4 * (n - S (length don)) + k)) (with_kernel s pt fa))
      as (f & fa1 & Ha & Ht1 & Hk1 & Hfe1 & Hin & Hout & Hfa).
    { by replace (S (3 + (4 * (n - S (length don)) + k))) with (4 * (n - length don) + k)%nat by lia. }
    destruct (map_kernel_spec Size4KiB p n fs data_flags v f (with_frames (with_kernel s pt fa) fa1))
      as (pt2 & fa2 & Hm & Hsh2 & Ht2);
      [done|done|lia|by left|done|done|done|done|exact data_flags_ok|by eapply has_frames_le; [|exact Hk1]; lia|].
    destruct (takes_fewer 3 _ _ _ Hk1 Ht2) as [Hk2 Hfe2]. simpl in Hin, Hfe1.
    exists (with_kernel s pt2 fa2). split; [by erewrite sys_bind_Ret by exact Ha|].
    exists (fs ++ [f]), pt2, fa2. rewrite !length_app. simpl.
    split; [done|]. split; [lia|]. split; [done|]. split; [|split; [|split]].
    + eapply fresh_snoc; [exact Hfr|exact Hfe|by eapply fewer_trans|exact Hin|].
      intros Hx. by apply Hout, (fewer_elem fa1 fa2).
    + by replace (n - (length don + 1))%nat with (n - S (length don))%nat by lia.
    + eapply fewer_trans; [exact Hfe|]. by eapply fewer_trans.
    + eapply takes_le; [|exact (takes_trans _ _ _ _ _ Ht (takes_trans _ _ _ _ _ Ht1 Ht2))]. lia.
  - rewrite length_fmap, length_seq in *. exists fs, pt, fa.
    split; [exact Hr|]. split; [done|]. split; [done|]. split; [done|].
    split; [by rewrite Nat.sub_diag in Hk'|by split].
Qed.

(** [map_enumerated]: the given frames, in order. *)
Lemma map_enumerated_spec p n v k frames : forall fs (s : system),
  shows (ktable s) (put_pages Size4KiB p fs data_flags v) -> vacant v p (p + Size4KiB * Z.of_nat n) ->
  (length fs + length frames <= n)%nat -> (Size4KiB | p) -> 0 <= p ->
  p + Size4KiB * Z.of_nat n <= 2 ^ 47 -> Forall (frame_at Size4KiB) frames ->
  has_frames (3 * length frames + k) (sys_frames s) ->
  exists pt fa, map_enumerated p (Z.of_nat (length fs)) frames s = Ret (tt, with_kernel s pt fa) /\
    shows pt (put_pages Size4KiB p (fs ++ frames) data_flags v) /\
    has_frames k fa /\ fewer (sys_frames s) fa /\ takes (3 * length frames) (sys_frames s) fa.
Proof.
  induction frames as [|f frames IH]; intros fs s Hsh Hvac Hn Hp Hp0 Htop Hok Hk; simpl in Hn.
  - exists (ktable s), (sys_frames s). rewrite app_nil_r. split; [by destruct s as [? ? ? []]|].
    split; [done|]. split; [done|]. split; [apply fewer_refl|apply takes_refl].
  - apply Forall_cons in Hok as [Hf Hok].
    destruct (map_kernel_spec Size4KiB p n fs data_flags v f s) as (pt & fa & Hm & Hsh1 & Ht1);
      [done|done|lia|by left|done|done|lia|done|exact data_flags_ok|by eapply has_frames_le; [|exact Hk]; simpl; lia|].
    assert (Hk0 : has_frames (3 + (3 * length frames + k)) (sys_frames s))
      by (eapply has_frames_le; [|exact Hk]; simpl; lia).
    destruct (takes_fewer 3 _ _ _ Hk0 Ht1) as [Hk1 Hfe1].
    destruct (IH (fs ++ [f]) (with_kernel s pt fa)) as (pt2 & fa2 & Hr & Hsh2 & Hk2 & Hfe2 & Ht2);
      [done|done|rewrite length_app; simpl; lia|done|done|done|done|done|].
    exists pt2, fa2. split; [|split; [|split; [done|split]]].
    + cbn [map_enumerated]. erewrite sys_bind_lift.
      2: { rewrite page_add_spec; [|by left|done|done|lia|].
           - rewrite Z.mul_comm. reflexivity.
           - unfold Size4KiB in *. nia. }
      erewrite sys_bind_Ret by exact Hm. rewrite length_app in Hr. cbn [length] in Hr.
      by replace (Z.of_nat (length fs) + 1) with (Z.of_nat (length fs + 1)) by lia.
    + by rewrite <- app_assoc in Hsh2.
    + by eapply fewer_trans.
    + eapply takes_le; [|exact (takes_trans _ _ _ _ _ Ht1 Ht2)]. simpl. lia.
Qed.

(** The loop that maps [n] pages of 2 MiB from [p] on to physical memory. *)
Lemma map_physical_spec p n v k (s : system) :
  shows (ktable s) v -> vacant v p (p + Size2MiB * Z.of_nat n) -> (Size2MiB | p) -> 0 <= p ->
  p + Size2MiB * Z.of_nat n <= 2 ^ 47 -> has_frames (3 * n + k) (sys_frames s) ->
  exists pt fa,
    sys_for ((fun i => 0 + Size2MiB * Z.of_nat i) <$> seq 0 n) (fun frame =>
      a ← sys_lift (VirtAddr_add p frame);
      map_kernel Size2MiB (Page_containing_address Size2MiB a) frame data_flags) s
      = Ret (tt, with_kernel s pt fa) /\
    shows pt (put_pages Size2MiB p ((fun i => 0 + Size2MiB * Z.of_nat i) <$> seq 0 n) data_flags v) /\
    has_frames k fa /\ fewer (sys_frames s) fa /\ takes (3 * n) (sys_frames s) fa.
Proof.
  intros Hsh Hvac Hp Hp0 Htop Hk. set (frames := (fun i => 0 + Size2MiB * Z.of_nat i) <$> seq 0 n).
  assert (Hlen : length frames = n) by (unfold frames; by rewrite length_fmap, length_seq).
  destruct (sys_for_invariant (fun don s' => exists pt fa, s' = with_kernel s pt fa /\
      shows pt (put_pages Size2MiB p don data_flags v) /\
      has_frames (3 * (n - length don) + k) fa /\ fewer (sys_frames s) fa /\
      takes (3 * length don) (sys_frames s) fa) frames
    (fun frame => a ← sys_lift (VirtAddr_add p frame);
      map_kernel Size2MiB (Page_containing_address Size2MiB a) frame data_flags) s)
    as (s' & Hr & pt & fa & -> & Hsh' & Hk' & Hfe & Ht).
  - exists (ktable s), (sys_frames s). simpl. rewrite Nat.sub_0_r.
    split; [by destruct s as [? ? ? []]|]. split; [|split; [done|split; [apply fewer_refl|apply takes_refl]]].
    eapply shows_ext; [exact Hsh|]. intros. by rewrite put_pages_nil.
  - intros don f rest s1 Heq (pt & fa & -> & Hsh' & Hk' & Hfe & Ht).
    assert (Hx : f = Size2MiB * Z.of_nat (length don) /\ (length don < n)%nat).
    { assert (Hx : frames !! length don = Some f) by (rewrite Heq; by apply list_lookup_middle).
      apply list_lookup_fmap_Some in Hx as (i & -> & Hi). apply lookup_seq in Hi as [-> Hi]. done. }
    destruct Hx as [-> Hlt].
    assert (Hpage : p + Size2MiB * Z.of_nat (length don) + Size2MiB <= 2 ^ 47) by (unfold Size2MiB in *; nia).
    destruct (map_kernel_spec Size2MiB p n don data_flags v (Size2MiB * Z.of_nat (length don))
      (with_kernel s pt fa)) as (pt2 & fa2 & Hm & Hsh2 & Ht2);
      [done|done|done|by right|done|done|lia| |exact data_flags_ok|eapply has_frames_le; [|exact Hk']; lia|].
    { split; [apply Z.divide_factor_l|]. unfold Size2MiB in *. lia. }
    assert (Hk0 : has_frames (3 + (3 * (n - (length don + 1)) + k)) fa)
      by (eapply has_frames_le; [|exact Hk']; lia).
    destruct (takes_fewer 3 _ _ _ Hk0 Ht2) as [Hk2 Hfe2].
    exists (with_kernel s pt2 fa2). split.
    + erewrite sys_bind_lift by (apply virt_add_low; unfold Size2MiB in *; lia).
      rewrite page_containing_spec; [|by right|left; unfold Size2MiB in *; lia].
      rewrite round_down_id by (done || (apply Z.divide_add_r; [done|apply Z.divide_factor_l])). exact Hm.
    + exists pt2, fa2. rewrite length_app. simpl. split; [done|]. split; [done|]. split; [done|].
      split; [by eapply fewer_trans|].
      eapply takes_le; [|exact (takes_trans _ _ _ _ _ Ht Ht2)]. lia.
  - exists pt, fa. split; [exact Hr|]. rewrite Hlen, Nat.sub_diag in *. by split_and!.
Qed.
End Steps.
