(* ===== verification/InitiumStages.v ===== *)
(** The stages of [set_up_mappings] and [create_boot_info]
    (initium/src/initium.rs): each reserves an address range and maps pages in
    it, or identity maps frames.  [ready] is the invariant between stages. *)

From S2P Require Import Prelude X86 Synapse Entries FrameAlloc LegacyMemory Paging Mapping.
From S2P Require Import Kernel KernelSpace Firmware Initium InitiumSteps.

(** * Level 4 entries and leaves *)

(** Every mapped address belongs to a level 4 entry in use. *)
Definition covered (v : view) (e : Entries) : Prop :=
  forall sz q l a, v sz q = Some l -> q <= a < q + sz -> 0 <= a < 2 ^ 47 /\ used e (p4_of a).

(** [n] entries in a row are free in the lower half of the address space. *)
Definition room (n : Z) (e : Entries) : Prop :=
  n <= 0 \/ exists i, 0 < i /\ i + n <= 256 /\ forall j, i <= j < i + n -> ~ used e j.

Lemma room_le n m e : n <= m -> room m e -> room n e.
Proof.
  intros Hnm [Hm|(i & Hi & Hb & Hf)]; [left; lia|]. destruct (decide (n <= 0)); [by left|].
  right. exists i. split; [done|]. split; [lia|]. intros j Hj. apply Hf. lia.
Qed.

Lemma covered_mono v e e' :
  covered v e -> (forall i, 0 <= i < 512 -> used e i -> used e' i) -> covered v e'.
Proof. intros Hc Hm sz q l a Hl Ha. destruct (Hc sz q l a Hl Ha). split; [done|]. apply Hm; [apply p4_of_range|done]. Qed.

Lemma covered_put sz p fs fl v e :
  0 < sz -> covered v e ->
  (forall a, p <= a < p + sz * Z.of_nat (length fs) -> 0 <= a < 2 ^ 47 /\ used e (p4_of a)) ->
  covered (put_pages sz p fs fl v) e.
Proof.
  intros Hsz Hc Hp sz' q l a Hl Ha.
  apply put_pages_inv in Hl as [(i & f & Hi & -> & -> & _)|Hl]; [|by eapply Hc|done].
  apply lookup_lt_Some in Hi. apply Hp.
  pose proof (Z.mul_le_mono_nonneg_l (Z.of_nat i + 1) (Z.of_nat (length fs)) sz ltac:(lia) ltac:(lia)). lia.
Qed.

Lemma p4_low a : 0 <= a < 2 ^ 39 -> p4_of a = 0.
Proof. intros Ha. unfold p4_of. by rewrite Z.div_small. Qed.

(** A window of unused entries has no leaves. *)
Lemma covered_vacant v e lo hi :
  lo < hi -> covered v e -> (forall sz q l, v sz q = Some l -> 0 < sz) ->
  (forall a, lo <= a < hi -> ~ used e (p4_of a)) -> vacant v lo hi.
Proof.
  intros Hlt Hc Hpos Hu sz q l Hl. pose proof (Hpos sz q l Hl).
  destruct (decide (q + sz <= lo)), (decide (hi <= q)); [by left|by left|by right|].
  destruct (decide (q <= lo)).
  - destruct (Hu lo); [lia|]. apply (Hc sz q l); [done|lia].
  - destruct (Hu q); [lia|]. apply (Hc sz q l); [done|lia].
Qed.

Section Stages.
Context {X : X86_64} {XL : X86_64_Laws X} {P : Profile} {GD : Gdt} {D : Type} {R : LegacyMemoryRegion D}.
Context {M : Type} {PT : PageTable M (LegacyFrameAllocator D)} {PL : PageTableLaws M (LegacyFrameAllocator D)}.
Abbreviation system := (System M (LegacyFrameAllocator D)).

(** * The invariant *)

(** The kernel's table has the leaves of [v]; [n] more level 4 entries and [k]
    more frames are to be had. *)
Record ready (v : view) (n : Z) (k : nat) (s : system) : Prop := {
  rd_shows : shows (ktable s) v;
  rd_covered : covered v (sys_entries s);
  rd_entries : wf (sys_entries s);
  rd_room : room n (sys_entries s);
  rd_frames : has_frames k (sys_frames s);
}.

(** What every stage keeps: the control registers, the bootloader's table, the
    frame of the kernel's table, and memory outside of free frames; frames are
    only taken. *)
Record keeps (s s' : system) : Prop := {
  kp_control : (efer (cpu s'), cr0 (cpu s'), cr3 (cpu s')) = (efer (cpu s), cr0 (cpu s), cr3 (cpu s));
  kp_bootloader : bootloader (sys_tables s') = bootloader (sys_tables s);
  kp_level_4 : kernel_level_4_frame (sys_tables s') = kernel_level_4_frame (sys_tables s);
  kp_memory a : (forall f, f ∈ fa_free (sys_frames s) -> ~ (f <= a < f + Size4KiB)) ->
    sys_memory s' a = sys_memory s a;
  kp_fewer : fewer (sys_frames s) (sys_frames s');
  kp_takes : exists n, takes n (sys_frames s) (sys_frames s');
}.

Lemma keeps_refl s : keeps s s.
Proof. split; try done; [apply fewer_refl|exists O; apply takes_refl]. Qed.

Lemma keeps_trans s1 s2 s3 : keeps s1 s2 -> keeps s2 s3 -> keeps s1 s3.
Proof.
  intros [A0 A1 A2 A3 A4 [n A5]] [B0 B1 B2 B3 B4 [m B5]]. split; [congruence|congruence|congruence| | |].
  - intros a Ha. rewrite B3; [by apply A3|]. intros f Hf. apply Ha. by eapply fewer_elem.
  - by eapply fewer_trans.
  - exists (n + m)%nat. by eapply takes_trans.
Qed.

Lemma keeps_with_kernel s pt fa n :
  fewer (sys_frames s) fa -> takes n (sys_frames s) fa -> keeps s (with_kernel s pt fa).
Proof. intros H1 H2. split; try done. by exists n. Qed.

Lemma shows_pos pt v sz q l : shows pt v -> v sz q = Some l -> 0 < sz.
Proof. intros [Hi Hv] Hl. rewrite <- Hv in Hl. apply page_size_pos. by eapply pt_view_aligned. Qed.

Lemma ready_le v n m k j s : m <= n -> (j <= k)%nat -> ready v n k s -> ready v m j s.
Proof. intros Hm Hj []. split; try done; [by eapply room_le|by eapply has_frames_le]. Qed.

(** * Reserving an address range *)

(** The addresses that a reservation of [size] bytes gets. *)
Definition window (size : Z) : Z := level_4_entries size * 2 ^ 39.

(** A reserved window: no leaf of [v] in it, its entries in use. *)
Record reserved (v : view) (base size : Z) (e : Entries) : Prop := {
  rs_aligned : (2 ^ 39 | base);
  rs_base : 2 ^ 39 <= base;
  rs_top : base + window size <= 2 ^ 47;
  rs_size : size <= window size;
  rs_vacant : vacant v base (base + window size);
  rs_used a : base <= a < base + window size -> used e (p4_of a);
}.

Lemma level_4_entries_pos size : 0 < size -> 0 < level_4_entries size.
Proof. intros Hs. by apply level_4_entries_covers. Qed.

(** Reserving [num] of the free entries. *)
Lemma get_free_entries_room e num n :
  wf e -> 0 < num -> 0 <= n -> room (num + n) e ->
  exists idx e', get_free_entries e num = Ret (idx, e') /\ wf e' /\ room n e' /\
    0 < idx /\ idx + num <= 256 /\ (forall i, idx <= i < idx + num -> ~ used e i) /\
    (forall i, 0 <= i < 512 -> used e' i <-> used e i \/ idx <= i < idx + num).
Proof.
  intros Hwf Hnum Hn0 [Hr|(i & Hi & Hb & Hf)]; [lia|].
  destruct (get_free_entries_result e num Hwf Hnum)
    as [(idx & e' & Hg & H0 & H1 & Hfree & Hfirst & Hm)|[Hno _]].
  2: { destruct (Hno i) as (j & Hj & Hu); [lia|lia|]. destruct (Hf j); [lia|done]. }
  assert (Hle : idx <= i).
  { destruct (decide (idx <= i)); [done|]. destruct (Hfirst i ltac:(lia)) as (j & Hj & Hu).
    destruct (Hf j); [lia|done]. }
  assert (Hpos : 0 < idx).
  { destruct (decide (idx = 0)) as [->|]; [|lia]. destruct (Hfree 0); [lia|apply Hwf]. }
  exists idx, e'. split; [done|]. split; [by eapply marks_wf|]. destruct Hm as [_ Hm].
  split; [|split; [done|split; [lia|split; [done|done]]]].
  destruct (decide (n = 0)); [left; lia|]. right. exists (i + num). split; [lia|]. split; [lia|].
  intros j Hj. rewrite Hm by lia. intros [Hu|Hin]; [|lia]. destruct (Hf j); [lia|done].
Qed.

Lemma mapping_addr_spec size align b v n k (s : system) :
  ready v (level_4_entries size + n) k s -> 0 <= n -> 0 < size < 2 ^ 63 -> align = 2 ^ b -> 0 <= b <= 39 ->
  exists base e', mapping_addr size align s = Ret (Ok base, with_entries s e') /\
    reserved v base size e' /\ ready v n k (with_entries s e').
Proof.
  intros [Hsh Hc Hwf Hr Hk] Hn Hsize Hal Hb.
  destruct (level_4_entries_covers size ltac:(lia)) as [Hpos Hcov].
  destruct (get_free_entries_room (sys_entries s) (level_4_entries size) n Hwf Hpos Hn Hr)
    as (idx & e' & Hg & Hwf' & Hr' & Hi0 & Hi1 & Hfree & Hm).
  set (base := idx * 2 ^ 39).
  assert (Hpow : is_power_of_two align = true).
  { unfold is_power_of_two. subst align. rewrite Z.log2_pow2 by lia.
    apply andb_true_iff. split; [apply Z.ltb_lt; lia|apply Z.eqb_refl]. }
  assert (Hga : get_free_address (sys_entries s) size align = Ret (base, e')).
  { unfold get_free_address. rewrite Hpow. simpl assert_that. rewrite bind_Ret.
    rewrite u64_add_ok, bind_Ret by (unfold u64_size, LEVEL_4_SIZE; lia). cbv zeta.
    fold (level_4_entries size). rewrite Hg, bind_Ret, index_new_spec, bind_Ret by lia.
    cbn [fst snd]. rewrite page_1gib_spec by lia. unfold sign_extend48.
    rewrite Z.mod_small by lia. destruct (Z.ltb_spec (idx * 2 ^ 39 + 0 * 2 ^ 30) (2 ^ 47)); [|lia].
    do 2 f_equal. unfold base. lia. }
  assert (Hdiv : (2 ^ 39 | base)) by (by exists idx).
  assert (Hp4 : forall a, base <= a < base + window size -> idx <= p4_of a < idx + level_4_entries size).
  { intros a Ha. unfold base, window in Ha. unfold p4_of.
    assert (Hd : idx <= a / 2 ^ 39 < idx + level_4_entries size).
    { split; [apply Z.div_le_lower_bound; lia|apply Z.div_lt_upper_bound; lia]. }
    by rewrite Z.mod_small by lia. }
  exists base, e'. split; [|split].
  - unfold mapping_addr. rewrite sys_bind_get. erewrite sys_bind_lift by exact Hga.
    cbv beta iota. erewrite sys_bind_Ret by reflexivity. rewrite (virt_is_aligned_spec base align b) by (done || lia).
    assert (Hmod : (base mod align =? 0) = true).
    { apply Z.eqb_eq. apply Z.mod_divide; [subst; lia|]. eapply Z.divide_trans; [|exact Hdiv].
      exists (2 ^ (39 - b)). subst align. rewrite <- Z.pow_add_r by lia. f_equal. lia. }
    rewrite Hmod. done.
  - split.
    + done.
    + unfold base. lia.
    + unfold base, window. lia.
    + unfold window. lia.
    + eapply covered_vacant; [unfold window; lia|exact Hc|intros *; by eapply shows_pos|].
      intros a Ha. apply Hfree, Hp4, Ha.
    + intros a Ha. specialize (Hp4 a Ha). apply Hm; [lia|]. by right.
  - split; try done. eapply covered_mono; [exact Hc|]. intros i Hi Hu. apply Hm; [done|]. by left.
Qed.

Lemma mapping_page_spec size v n k (s : system) :
  ready v (level_4_entries size + n) k s -> 0 <= n -> 0 < size < 2 ^ 63 ->
  exists base e', mapping_addr_page_aligned size s = Ret (base, with_entries s e') /\
    reserved v base size e' /\ ready v n k (with_entries s e').
Proof.
  intros Hr Hn Hs. destruct (mapping_addr_spec size Size4KiB 12 v n k s) as (base & e' & Hm & Hre & Hrd); [done|done|done|done|lia|].
  exists base, e'. split; [|done]. unfold mapping_addr_page_aligned. erewrite sys_bind_Ret by exact Hm.
  pose proof (rs_base _ _ _ _ Hre). pose proof (rs_top _ _ _ _ Hre). pose proof (level_4_entries_pos size ltac:(lia)).
  unfold window in *.
  rewrite page_from_start_spec; [|by left|by left; split; [lia|nia]].
  assert (Hmod : (base mod Size4KiB =? 0) = true).
  { apply mod_eqb_divide; [done|]. eapply Z.divide_trans; [|apply Hre]. by exists (2 ^ 27). }
  by rewrite Hmod.
Qed.

(** Pages mapped in a reserved window. *)
Lemma ready_put v base size n k k0 (s : system) sz p fs fl pt fa :
  reserved v base size (sys_entries s) -> ready v n k0 s -> 0 < sz -> base <= p ->
  p + sz * Z.of_nat (length fs) <= base + window size ->
  shows pt (put_pages sz p fs fl v) -> has_frames k fa ->
  ready (put_pages sz p fs fl v) n k (with_kernel s pt fa).
Proof.
  intros Hre [Hsh Hc Hwf Hr _] Hsz Hp Htop Hsh' Hk. split; try done.
  apply covered_put; [done|exact Hc|]. intros a Ha.
  pose proof (rs_base _ _ _ _ Hre). pose proof (rs_top _ _ _ _ Hre).
  split; [lia|]. apply (rs_used _ _ _ _ Hre). lia.
Qed.

(** Identity mapped frames lie in entry 0, which is always in use. *)
Lemma ready_identity v n k k0 (s : system) f m pt fa :
  ready v n k0 s -> 0 <= f -> f + Size4KiB * Z.of_nat (length m) <= 2 ^ 39 ->
  shows pt (put_pages Size4KiB f m PRESENT v) -> has_frames k fa ->
  ready (put_pages Size4KiB f m PRESENT v) n k (with_kernel s pt fa).
Proof.
  intros [Hsh Hc Hwf Hr _] Hf Htop Hsh' Hk. split; try done.
  apply covered_put; [done|exact Hc|]. intros a Ha. split; [lia|].
  rewrite p4_low by lia. apply Hwf.
Qed.

(** * The kernel stack *)

Lemma map_stack_spec v n k (s : system) :
  ready v (1 + n) (80 + k) s -> 0 <= n ->
  exists guard fs s', map_stack s = Ret ((guard + Size4KiB, guard + Size4KiB + kernel_stack_size), s') /\
    ready (put_pages Size4KiB (guard + Size4KiB) fs data_flags v) n k s' /\ keeps s s' /\
    reserved v guard (Size4KiB + kernel_stack_size) (sys_entries s') /\
    length fs = 20%nat /\ fresh fs (sys_frames s) (sys_frames s').
Proof.
  intros Hr Hn. destruct (mapping_page_spec (Size4KiB + kernel_stack_size) v n (80 + k) s) as
    (guard & e' & Hm & Hre & Hrd); [exact Hr|done|vm_compute; split; [reflexivity|reflexivity]|].
  pose proof (rs_base _ _ _ _ Hre) as Hb. pose proof (rs_top _ _ _ _ Hre) as Ht.
  change (window (Size4KiB + kernel_stack_size)) with (2 ^ 39) in Ht.
  assert (Hg : (Size4KiB | guard)) by (eapply Z.divide_trans; [|apply Hre]; by exists (2 ^ 27)).
  assert (Hst : (Size4KiB | guard + Size4KiB)) by (apply Z.divide_add_r; [done|apply Z.divide_refl]).
  destruct (map_fresh_spec "frame allocation failed when mapping a kernel stack" (guard + Size4KiB) 20 k v
    (with_entries s e')) as (fs & pt & fa & Hl & Hlen & Hsh & Hfr & Hk & Hfe & Htk).
  - apply Hrd.
  - eapply vacant_sub; [apply Hre|page_lia|].
    change (window (Size4KiB + kernel_stack_size)) with (2 ^ 39). page_lia.
  - done.
  - page_lia.
  - page_lia.
  - apply Hrd.
  - exists guard, fs, (with_kernel (with_entries s e') pt fa). split; [|split; [|split; [|split; [|done]]]].
    + unfold map_stack. erewrite sys_bind_lift by (apply u64_add_ok; by vm_compute).
      erewrite sys_bind_Ret by exact Hm.
      erewrite sys_bind_lift by (apply page_add_spec; [by left|done|lia|lia|page_lia]).
      rewrite Z.mul_1_l. erewrite sys_bind_lift by (apply virt_add_low; unfold kernel_stack_size; page_lia).
      erewrite sys_bind_lift by (apply virt_sub_low; unfold kernel_stack_size; page_lia). cbv zeta.
      rewrite page_containing_4k by (unfold kernel_stack_size; page_lia).
      assert (Hend : round_down (guard + Size4KiB + kernel_stack_size - 1) Size4KiB =
        guard + Size4KiB + Size4KiB * (Z.of_nat 20 - 1)).
      { rewrite round_down_pred; [unfold kernel_stack_size; page_lia|done|].
        apply Z.divide_add_r; [done|]. by exists 20. }
      rewrite Hend, page_range_spec; [|by left|done| |page_lia|page_lia].
      2: { apply Z.divide_add_r; [done|]. apply Z.divide_factor_l. }
      rewrite addr_range_seq by (done || lia). by erewrite sys_bind_Ret by exact Hl.
    + eapply ready_put; [exact Hre|exact Hrd|done|page_lia| |exact Hsh|exact Hk].
      rewrite Hlen. change (window (Size4KiB + kernel_stack_size)) with (2 ^ 39). page_lia.
    + eapply keeps_trans; [|exact (keeps_with_kernel (with_entries s e') pt fa _ Hfe Htk)].
      split; try done; [apply fewer_refl|exists O; apply takes_refl].
    + exact Hre.
Qed.

(** * Identity mappings *)

Lemma map_context_switch_spec c v n k (s : system) :
  let f := round_down c Size4KiB in
  ready v n (6 + k) s -> 0 <= c -> f + 2 * Size4KiB <= 2 ^ 39 -> vacant v f (f + 2 * Size4KiB) ->
  exists s', map_context_switch c s = Ret (tt, s') /\
    ready (put_pages Size4KiB f [f; f + Size4KiB] PRESENT v) n k s' /\ keeps s s'.
Proof.
  intros f Hr Hc Htop Hvac.
  assert (Hf : (Size4KiB | f)) by (by apply round_down_divide).
  assert (Hf0 : 0 <= f) by (apply (round_down_le_multiple 0); [done|apply Z.divide_0_r|done]).
  pose proof (round_down_bounds c Size4KiB Size4KiB_pos) as Hcb. fold f in Hcb.
  assert (Hpok : flags_ok PRESENT) by (split; vm_compute; reflexivity).
  assert (Hf2 : (Size4KiB | f + Size4KiB)) by (apply Z.divide_add_r; [done|apply Z.divide_refl]).
  destruct (map_kernel_spec Size4KiB f 2 [] PRESENT v f s) as (pt1 & fa1 & Hm1 & Hsh1 & Ht1);
    [eapply shows_ext; [apply Hr|intros; by rewrite put_pages_nil]
    |eapply vacant_sub; [exact Hvac|lia|page_lia]|simpl; lia|by left|done|done|page_lia
    |split; [done|page_lia]|done|eapply has_frames_le; [|apply Hr]; lia|].
  destruct (takes_fewer 3 (3 + k) _ _ (rd_frames _ _ _ _ Hr) Ht1) as [Hk1 Hfe1].
  destruct (map_kernel_spec Size4KiB f 2 [f] PRESENT v (f + Size4KiB) (with_kernel s pt1 fa1))
    as (pt2 & fa2 & Hm2 & Hsh2 & Ht2);
    [done|eapply vacant_sub; [exact Hvac|lia|page_lia]|simpl; lia|by left|done|done|page_lia
    |split; [done|page_lia]|done|eapply has_frames_le; [|exact Hk1]; lia|].
  destruct (takes_fewer 3 k _ _ Hk1 Ht2) as [Hk2 Hfe2].
  exists (with_kernel s pt2 fa2). split; [|split].
  - unfold map_context_switch. erewrite sys_bind_lift by (apply phys_new_spec; page_lia). cbv zeta.
    rewrite frame_containing_4k by done. fold f.
    erewrite sys_bind_lift by (apply frame_add_spec; [by left|done|done|lia|page_lia]).
    rewrite Z.mul_1_l, frame_range_spec; [|by left|done|done|done|page_lia].
    rewrite addr_range_cons by (done || page_lia). rewrite addr_range_cons by (done || page_lia).
    rewrite addr_range_empty; [|done|by apply Z.divide_add_r, Z.divide_refl|done|page_lia].
    simpl in Hm1, Hm2. rewrite Z.mul_0_r, Z.add_0_r in Hm1. rewrite Z.mul_1_r in Hm2.
    cbn [sys_for]. erewrite sys_bind_Ret by (apply identity_map_kernel_ret; exact Hm1).
    by erewrite sys_bind_Ret by (apply identity_map_kernel_ret; exact Hm2).
  - eapply ready_identity; [exact Hr|done|simpl; page_lia|exact Hsh2|exact Hk2].
  - eapply keeps_with_kernel; [by eapply fewer_trans|].
    exact (takes_trans _ _ _ _ _ Ht1 Ht2).
Qed.

Lemma map_gdt_spec v n k (s : system) :
  ready v n (4 + k) s -> Z.of_nat (length gdt_bytes) <= Size4KiB ->
  (forall f, f ∈ fa_free (sys_frames s) -> f + Size4KiB <= 2 ^ 39 /\ vacant v f (f + Size4KiB)) ->
  exists g s', map_gdt s = Ret (g, s') /\
    ready (put_pages Size4KiB g [g] PRESENT v) n k s' /\ keeps s s' /\
    fresh [g] (sys_frames s) (sys_frames s') /\ gdtr (cpu s') = g.
Proof.
  intros Hr Hgdt Hfree.
  destruct (take_frame_spec "failed to allocate GDT frame" (3 + k) s) as
    (g & fa & Ha & Ht & Hk & Hfe & Hin & Hout & (Hg & Hg0 & Hg1)); [apply Hr|].
  destruct (Hfree g Hin) as [Htop Hvac].
  assert (Hpok : flags_ok PRESENT) by (split; vm_compute; reflexivity).
  set (c := mkCpu (efer (cpu s)) (cr0 (cpu s)) (cr3 (cpu s)) g code_selector data_selector data_selector data_selector).
  set (s1 := mkSystem c (write_bytes (sys_memory s) g gdt_bytes) fa (sys_tables s) (sys_entries s)).
  destruct (map_kernel_spec Size4KiB g 1 [] PRESENT v g s1) as (pt1 & fa1 & Hm1 & Hsh1 & Ht1);
    [eapply shows_ext; [apply Hr|intros; by rewrite put_pages_nil]|eapply vacant_sub; [exact Hvac|lia|page_lia]
    |simpl; lia|by left|done|done|page_lia|by split|done|eapply has_frames_le; [|exact Hk]; lia|].
  destruct (takes_fewer 3 k _ _ Hk Ht1) as [Hk1 Hfe1]. simpl in Hfe1.
  exists g, (with_kernel s1 pt1 fa1). split; [|split; [|split; [|split]]].
  - unfold map_gdt. erewrite sys_bind_Ret by exact Ha.
    assert (Hc : create_and_load g (with_frames s fa) = Ret (tt, s1)).
    { unfold create_and_load. by erewrite sys_bind_lift by (apply virt_new_low; page_lia). }
    erewrite sys_bind_Ret by exact Hc. rewrite Z.mul_0_r, Z.add_0_r in Hm1.
    by erewrite sys_bind_Ret by (apply identity_map_kernel_ret; exact Hm1).
  - apply (ready_identity v n k k s1 g [g] pt1 fa1); [|done|simpl; page_lia|done|done].
    destruct Hr as [H1 H2 H3 H4 _]. split; try done. by eapply has_frames_le; [|exact Hk]; lia.
  - split; try done.
    + intros a Hna. simpl. apply write_bytes_out. specialize (Hna g Hin). lia.
    + simpl. by eapply fewer_trans.
    + exists (1 + 3)%nat. by eapply takes_trans.
  - split; [apply NoDup_singleton|]. intros f ->%list_elem_of_singleton. split; [done|].
    intros Hx. by apply Hout, (fewer_elem fa fa1).
  - done.
Qed.

(** * Buffers: framebuffer and ramdisk *)

(** The frames of [len] bytes from the frame [f] on. *)
Definition page_count (len : Z) : nat := Z.to_nat ((len - 1) / Size4KiB + 1).
Definition buffer_frames (f len : Z) : list Z := (fun i => f + Size4KiB * Z.of_nat i) <$> seq 0 (page_count len).

Lemma page_count_spec len : 0 < len ->
  (0 < page_count len)%nat /\ Z.of_nat (page_count len) = (len - 1) / Size4KiB + 1 /\
  len <= Size4KiB * Z.of_nat (page_count len) < len + Size4KiB.
Proof.
  intros Hl. unfold page_count. pose proof (Z.div_pos (len - 1) Size4KiB ltac:(lia) Size4KiB_pos).
  pose proof (Z.div_mod (len - 1) Size4KiB ltac:(done)). pose proof (Z.mod_pos_bound (len - 1) Size4KiB Size4KiB_pos).
  split; [lia|]. split; [lia|]. rewrite Z2Nat.id by lia. page_lia.
Qed.

Lemma length_buffer_frames f len : length (buffer_frames f len) = page_count len.
Proof. unfold buffer_frames. by rewrite length_fmap, length_seq. Qed.

(** The whole pages of a buffer fit its window. *)
Lemma page_count_window len : 0 < len -> Size4KiB * Z.of_nat (page_count len) <= window len.
Proof.
  intros Hl. destruct (page_count_spec len Hl) as (_ & Hc & Hb).
  destruct (level_4_entries_covers len Hl) as [_ Hw]. unfold window.
  assert (Hd : (Size4KiB | level_4_entries len * 2 ^ 39)) by (exists (level_4_entries len * 2 ^ 27); page_lia).
  destruct (decide (Size4KiB * Z.of_nat (page_count len) <= level_4_entries len * 2 ^ 39)) as [|Hgt]; [done|].
  pose proof (divide_lt_step _ _ Size4KiB Size4KiB_pos Hd
    (Z.divide_factor_l Size4KiB (Z.of_nat (page_count len))) ltac:(lia)). lia.
Qed.

(** Mapping the frames of a buffer in a window of its own. *)
Lemma map_buffer_spec v n k f len base (s : system) :
  reserved v base len (sys_entries s) -> ready v n (3 * page_count len + k) s -> 0 < len ->
  (Size4KiB | f) -> 0 <= f -> f + len + Size4KiB <= 2 ^ 52 ->
  exists s', map_enumerated base 0 (buffer_frames f len) s = Ret (tt, s') /\
    ready (put_pages Size4KiB base (buffer_frames f len) data_flags v) n k s' /\ keeps s s' /\
    sys_entries s' = sys_entries s /\ cpu s' = cpu s.
Proof.
  intros Hre Hr Hl Hf Hf0 Htop. destruct (page_count_spec len Hl) as (Hc0 & Hc & Hb).
  pose proof (page_count_window len Hl) as Hw. pose proof (length_buffer_frames f len) as Hlen.
  pose proof (rs_base _ _ _ _ Hre). pose proof (rs_top _ _ _ _ Hre).
  assert (Hbase : (Size4KiB | base)) by (eapply Z.divide_trans; [|apply Hre]; by exists (2 ^ 27)).
  destruct (map_enumerated_spec base (page_count len) v k (buffer_frames f len) [] s) as
    (pt & fa & Hm & Hsh & Hk & Hfe & Ht).
  - eapply shows_ext; [apply Hr|]. intros. by rewrite put_pages_nil.
  - eapply vacant_sub; [apply Hre|lia|lia].
  - rewrite Hlen. done.
  - done.
  - lia.
  - lia.
  - apply Forall_forall. intros x Hx. unfold buffer_frames in Hx.
    apply list_elem_of_fmap in Hx as (i & -> & Hi%elem_of_seq). split; [|page_lia].
    apply Z.divide_add_r; [done|apply Z.divide_factor_l].
  - rewrite Hlen. apply Hr.
  - exists (with_kernel s pt fa). split; [exact Hm|]. split; [|split; [|done]].
    + eapply ready_put; [exact Hre|exact Hr|done|lia|rewrite Hlen; lia|exact Hsh|exact Hk].
    + by eapply keeps_with_kernel.
Qed.

(** A buffer that is there or not: its first frame and its length. *)
Definition buffer_ok (o : option (Z * Z)) : Prop :=
  match o with
  | Some (f, len) => (Size4KiB | f) /\ 0 <= f /\ 0 < len /\ f + len + Size4KiB <= 2 ^ 52
  | None => True
  end.

Definition buffer_entries (o : option (Z * Z)) : Z :=
  match o with Some (_, len) => level_4_entries len | None => 0 end.
Definition buffer_cost (o : option (Z * Z)) : nat :=
  match o with Some (_, len) => 3 * page_count len | None => 0 end.

(** The view with the buffer mapped from [base] on. *)
Definition put_buffer (base : option Z) (o : option (Z * Z)) (v : view) : view :=
  match base, o with
  | Some b, Some (f, len) => put_pages Size4KiB b (buffer_frames f len) data_flags v
  | _, _ => v
  end.

Definition placed (base : option Z) (o : option (Z * Z)) (v : view) (e : Entries) : Prop :=
  match base, o with
  | Some b, Some (_, len) => reserved v b len e
  | None, None => True
  | _, _ => False
  end.

Lemma buffer_entries_nonneg o : buffer_ok o -> 0 <= buffer_entries o.
Proof.
  destruct o as [[f len]|]; simpl; [|done]. intros (_ & _ & Hl & _).
  pose proof (level_4_entries_pos len Hl). lia.
Qed.

Definition framebuffer_buffer (fb : option RawFramebufferInfo) : option (Z * Z) :=
  (fun fb => (addr fb, byte_len (info fb))) <$> fb.

(** The last frame of a buffer, as the code computes it. *)
Lemma buffer_range f len :
  (Size4KiB | f) -> 0 <= f -> 0 < len -> f + len + Size4KiB <= 2 ^ 52 ->
  PhysFrame_range_inclusive Size4KiB f (f + (len - 1) / Size4KiB * Size4KiB) = buffer_frames f len.
Proof.
  intros Hf Hf0 Hl Htop. destruct (page_count_spec len Hl) as (Hc0 & Hc & Hb).
  assert (Hend : f + (len - 1) / Size4KiB * Size4KiB = f + Size4KiB * (Z.of_nat (page_count len) - 1)) by lia.
  rewrite Hend, frame_range_spec; [|by left|done| |done|page_lia].
  - by apply addr_range_seq.
  - apply Z.divide_add_r; [done|apply Z.divide_factor_l].
Qed.

Lemma map_framebuffer_spec framebuffer v n k (s : system) :
  let o := framebuffer_buffer framebuffer in
  buffer_ok o -> 0 <= n -> ready v (buffer_entries o + n) (buffer_cost o + k) s ->
  exists base s', map_framebuffer framebuffer s = Ret (base, s') /\
    ready (put_buffer base o v) n k s' /\ keeps s s' /\ placed base o v (sys_entries s') /\
    cpu s' = cpu s.
Proof.
  destruct framebuffer as [fb|]; intros o Ho Hn Hr.
  2: { exists None, s. split; [done|]. split; [done|]. split; [apply keeps_refl|by split]. }
  simpl in o. subst o. destruct Ho as (Hf & Hf0 & Hl & Htop). simpl in Hr. set (len := byte_len (info fb)) in *.
  destruct (mapping_page_spec len v n (3 * page_count len + k) s Hr Hn) as (base & e' & Hm & Hre & Hrd); [page_lia|].
  destruct (map_buffer_spec v n k (addr fb) len base (with_entries s e') Hre Hrd Hl Hf Hf0 Htop)
    as (s' & Hb & Hrd' & Hkp & He' & Hcpu).
  exists (Some base), s'. split; [|split; [exact Hrd'|split; [|by rewrite He']]].
  - unfold map_framebuffer. fold len. erewrite sys_bind_lift by (apply phys_add_ok; page_lia).
    erewrite sys_bind_lift by (apply phys_sub_ok; page_lia). cbv zeta.
    rewrite !frame_containing_4k by lia. rewrite (round_down_id (addr fb)) by done.
    erewrite sys_bind_Ret by exact Hm.
    assert (Hend : round_down (addr fb + len - 1) Size4KiB = addr fb + (len - 1) / Size4KiB * Size4KiB).
    { destruct Hf as [q Hq]. rewrite Hq. unfold round_down.
      replace (q * Size4KiB + len - 1) with (len - 1 + q * Size4KiB) by lia.
      rewrite Z.mod_add by done. pose proof (Z.div_mod (len - 1) Size4KiB ltac:(done)). lia. }
    rewrite Hend, buffer_range by done. by erewrite sys_bind_Ret by exact Hb.
  - eapply keeps_trans; [|exact Hkp]. split; try done; [apply fewer_refl|exists O; apply takes_refl].
Qed.

Definition ramdisk_buffer (si : SystemInfo) : option (Z * Z) :=
  (fun a => (a, si_ramdisk_len si)) <$> si_ramdisk_addr si.

Lemma map_ramdisk_spec si v n k (s : system) :
  let o := ramdisk_buffer si in
  buffer_ok o -> 0 <= n -> ready v (buffer_entries o + n) (buffer_cost o + k) s ->
  exists base s', map_ramdisk si s = Ret (base, s') /\
    ready (put_buffer base o v) n k s' /\ keeps s s' /\ placed base o v (sys_entries s') /\
    cpu s' = cpu s.
Proof.
  unfold ramdisk_buffer, map_ramdisk. set (len := si_ramdisk_len si).
  set (o := (fun a => (a, len)) <$> si_ramdisk_addr si).
  destruct (si_ramdisk_addr si) as [f|]; intros Ho Hn Hr.
  2: { exists None, s. split; [done|]. split; [done|]. split; [apply keeps_refl|by split]. }
  change o with (Some (f, len)) in *. clear o. destruct Ho as (Hf & Hf0 & Hl & Htop). simpl in Hr.
  destruct (mapping_page_spec len v n (3 * page_count len + k) s Hr Hn) as (base & e' & Hm & Hre & Hrd); [page_lia|].
  destruct (map_buffer_spec v n k f len base (with_entries s e') Hre Hrd Hl Hf Hf0 Htop)
    as (s' & Hb & Hrd' & Hkp & He' & Hcpu).
  pose proof (Z.div_pos (len - 1) Size4KiB ltac:(lia) Size4KiB_pos).
  pose proof (Z.mul_div_le (len - 1) Size4KiB Size4KiB_pos).
  exists (Some base), s'. split; [|split; [exact Hrd'|split; [|by rewrite He']]].
  - erewrite sys_bind_Ret by exact Hm. erewrite sys_bind_lift by (apply phys_new_spec; page_lia). cbv zeta.
    rewrite frame_containing_4k by done. rewrite round_down_id by done.
    erewrite sys_bind_lift by (apply u64_sub_ok; unfold u64_size; page_lia). cbv zeta.
    erewrite sys_bind_lift by (apply frame_add_spec; [by left|done|done|page_lia|page_lia]).
    rewrite buffer_range by done. by erewrite sys_bind_Ret by exact Hb.
  - eapply keeps_trans; [|exact Hkp]. split; try done; [apply fewer_refl|exists O; apply takes_refl].
Qed.

(** * Physical memory *)

(** The pages of 2 MiB that cover [mp] bytes. *)
Definition huge_count (mp : Z) : nat := Z.to_nat ((mp - 1) / Size2MiB + 1).
Definition huge_frames (mp : Z) : list Z := (fun i => 0 + Size2MiB * Z.of_nat i) <$> seq 0 (huge_count mp).

Lemma huge_count_spec mp : 0 < mp ->
  (0 < huge_count mp)%nat /\ Z.of_nat (huge_count mp) = (mp - 1) / Size2MiB + 1 /\
  mp <= Size2MiB * Z.of_nat (huge_count mp) < mp + Size2MiB.
Proof.
  intros Hl. unfold huge_count. pose proof (Z.div_pos (mp - 1) Size2MiB ltac:(lia) ltac:(done)).
  pose proof (Z.div_mod (mp - 1) Size2MiB ltac:(done)). pose proof (Z.mod_pos_bound (mp - 1) Size2MiB ltac:(done)).
  split; [lia|]. split; [lia|]. rewrite Z2Nat.id by lia. page_lia.
Qed.

Lemma huge_count_window mp : 0 < mp -> Size2MiB * Z.of_nat (huge_count mp) <= window mp.
Proof.
  intros Hl. destruct (huge_count_spec mp Hl) as (_ & Hc & Hb).
  destruct (level_4_entries_covers mp Hl) as [_ Hw]. unfold window.
  assert (Hd : (Size2MiB | level_4_entries mp * 2 ^ 39)) by (exists (level_4_entries mp * 2 ^ 18); page_lia).
  destruct (decide (Size2MiB * Z.of_nat (huge_count mp) <= level_4_entries mp * 2 ^ 39)) as [|Hgt]; [done|].
  pose proof (divide_lt_step _ _ Size2MiB ltac:(done) Hd
    (Z.divide_factor_l Size2MiB (Z.of_nat (huge_count mp))) ltac:(lia)). lia.
Qed.

Lemma map_physical_memory_spec mp v n k (s : system) :
  max_physical_address (sys_frames s) = Ret mp -> 0 < mp < 2 ^ 47 -> 0 <= n ->
  ready v (level_4_entries mp + n) (3 * huge_count mp + k) s ->
  exists base s', map_physical_memory s = Ret (base, s') /\
    ready (put_pages Size2MiB base (huge_frames mp) data_flags v) n k s' /\ keeps s s' /\
    reserved v base mp (sys_entries s') /\ cpu s' = cpu s.
Proof.
  intros Hmax Hmp Hn Hr. destruct (huge_count_spec mp ltac:(lia)) as (Hc0 & Hc & Hb).
  pose proof (huge_count_window mp ltac:(lia)) as Hw.
  destruct (mapping_addr_spec mp Size2MiB 21 v n (3 * huge_count mp + k) s Hr Hn) as (base & e' & Hm & Hre & Hrd);
    [lia|done|lia|].
  pose proof (rs_base _ _ _ _ Hre). pose proof (rs_top _ _ _ _ Hre).
  assert (Hbase : (Size2MiB | base)) by (eapply Z.divide_trans; [|apply Hre]; by exists (2 ^ 18)).
  destruct (map_physical_spec base (huge_count mp) v k (with_entries s e')) as (pt & fa & Hp & Hsh & Hk & Hfe & Ht).
  - apply Hrd.
  - eapply vacant_sub; [apply Hre|lia|lia].
  - done.
  - lia.
  - lia.
  - apply Hrd.
  - exists base, (with_kernel (with_entries s e') pt fa). split; [|split; [|split; [|by split]]].
    + unfold map_physical_memory. erewrite sys_bind_lift by (apply phys_new_spec; lia). cbv zeta.
      rewrite sys_bind_get. erewrite sys_bind_lift by exact Hmax.
      erewrite sys_bind_lift by (apply phys_sub_ok; lia). cbv zeta.
      erewrite sys_bind_Ret by exact Hm. erewrite sys_bind_lift by reflexivity.
      rewrite !frame_containing_spec by (by right || lia).
      change (round_down 0 Size2MiB) with 0.
      assert (Hend : round_down (mp - 1) Size2MiB = 0 + Size2MiB * (Z.of_nat (huge_count mp) - 1)).
      { unfold round_down. pose proof (Z.div_mod (mp - 1) Size2MiB ltac:(done)). lia. }
      rewrite Hend, frame_range_spec; [|by right|apply Z.divide_0_r|apply Z.divide_factor_l|done|page_lia].
      rewrite addr_range_seq by done. by erewrite sys_bind_Ret by exact Hp.
    + eapply ready_put; [exact Hre|exact Hrd|done|lia| |exact Hsh|exact Hk].
      unfold huge_frames. rewrite length_fmap, length_seq. lia.
    + eapply keeps_trans; [|exact (keeps_with_kernel (with_entries s e') pt fa _ Hfe Ht)].
      split; try done; [apply fewer_refl|exists O; apply takes_refl].
Qed.
End Stages.
