(* ===== verification/InitiumMappings.v ===== *)
(** [set_up_mappings] (initium/src/initium.rs): what the kernel's page table
    holds when the bootloader has mapped everything the kernel needs. *)

From S2P Require Import Prelude X86 Synapse Entries FrameAlloc LegacyMemory Paging Mapping.
From S2P Require Import Kernel KernelSpace KernelSegments KernelFlags KernelRelocs KernelLoad KernelEntry.
From S2P Require Import Firmware Initium InitiumSteps InitiumStages.

Section Mappings.
Context {X : X86_64} {XL : X86_64_Laws X} {P : Profile} {RF : RelaFormat} {GD : Gdt}.
Context {D : Type} {R : LegacyMemoryRegion D} {RA : RegionAddresses D}.
Context {M : Type} {PT : PageTable M (LegacyFrameAllocator D)} {PL : PageTableLaws M (LegacyFrameAllocator D)}.
Abbreviation system := (System M (LegacyFrameAllocator D)).

(** * Reading through the kernel's table *)

(** The physical address and the flags of a virtual address. *)
Definition physical (pt : M) (a : Z) : option (Z * Z) :=
  match translate pt a with
  | Mapped (Mapped4KiB f) off fl | Mapped (Mapped2MiB f) off fl | Mapped (Mapped1GiB f) off fl => Some (f + off, fl)
  | _ => None
  end.

(** The byte at a virtual address. *)
Definition byte_at (s : system) (a : Z) : option Z :=
  (fun p => sys_memory s (fst p)) <$> physical (ktable s) a.

Lemma physical_4k pt v p f fl j :
  shows pt v -> (Size4KiB | p) -> 0 <= j < Size4KiB -> v Size4KiB p = Some (f, fl) ->
  physical pt (p + j) = Some (f + j, fl).
Proof.
  intros Hs Hp Hj Hv. unfold physical.
  assert (Hr : round_down (p + j) Size4KiB = p) by (apply in_page; [done|lia]).
  rewrite (shows_translate_4k pt v (p + j) f fl Hs) by (by rewrite Hr). rewrite Hr. do 2 f_equal. lia.
Qed.

Lemma physical_2m pt v p f fl j :
  shows pt v -> (Size2MiB | p) -> 0 <= j < Size2MiB -> v Size2MiB p = Some (f, fl) ->
  physical pt (p + j) = Some (f + j, fl).
Proof.
  intros Hs Hp Hj Hv. unfold physical.
  assert (Hr : round_down (p + j) Size2MiB = p) by (apply round_down_unique; [done|done|lia]).
  rewrite (shows_translate_2m pt v (p + j) f fl Hs) by (by rewrite Hr). rewrite Hr. do 2 f_equal. lia.
Qed.

(** A page that no leaf meets is not mapped. *)
Lemma physical_none pt v p :
  shows pt v -> (2 ^ 39 | p) -> vacant v p (p + Size4KiB) -> translate pt p = NotMapped.
Proof.
  intros [Hi Hv] Hp Hvac.
  assert (H4 : (Size4KiB | p)) by (eapply Z.divide_trans; [|exact Hp]; by exists (2 ^ 27)).
  assert (H2 : (Size2MiB | p)) by (eapply Z.divide_trans; [|exact Hp]; by exists (2 ^ 18)).
  apply translate_none; [done|..]; rewrite Hv, round_down_id by done.
  - destruct (v Size4KiB p) as [l|] eqn:E; [|done]. destruct (Hvac _ _ _ E); page_lia.
  - destruct (v Size2MiB p) as [l|] eqn:E; [|done]. destruct (Hvac _ _ _ E); page_lia.
Qed.

Lemma new_leaf_4k f fl : new_leaf Size4KiB f fl = (f, fl).
Proof. unfold new_leaf. by rewrite decide_False. Qed.

Lemma new_leaf_2m f fl : new_leaf Size2MiB f fl = (f, Z.lor fl HUGE_PAGE).
Proof. unfold new_leaf. by rewrite decide_True. Qed.

(** The bytes of a mapped buffer. *)
Lemma physical_buffer pt v v' base f len i :
  shows pt v' -> extends (put_pages Size4KiB base (buffer_frames f len) data_flags v) v' -> (Size4KiB | base) ->
  0 <= i < len -> physical pt (base + i) = Some (f + i, data_flags).
Proof.
  intros Hs He Hb Hi. pose proof (Z.div_mod i Size4KiB ltac:(done)). pose proof (Z.mod_pos_bound i Size4KiB Size4KiB_pos).
  destruct (page_count_spec len ltac:(lia)) as (_ & Hc & Hl).
  pose proof (Z.div_pos i Size4KiB ltac:(lia) Size4KiB_pos).
  set (n := Z.to_nat (i / Size4KiB)). assert (HnZ : Z.of_nat n = i / Size4KiB) by (unfold n; lia).
  assert (Hn : (n < page_count len)%nat).
  { unfold n. pose proof (Z.div_le_mono i (len - 1) Size4KiB Size4KiB_pos ltac:(lia)). lia. }
  replace (base + i) with (base + Size4KiB * Z.of_nat n + i mod Size4KiB) by lia.
  replace (f + i) with (f + Size4KiB * Z.of_nat n + i mod Size4KiB) by lia.
  eapply physical_4k; [exact Hs| |done|].
  - apply Z.divide_add_r; [done|apply Z.divide_factor_l].
  - apply He. rewrite (put_pages_at Size4KiB base (buffer_frames f len) data_flags v n (f + Size4KiB * Z.of_nat n));
      [by rewrite new_leaf_4k|done|].
    unfold buffer_frames. apply list_lookup_fmap_Some. exists n. split; [done|]. by apply lookup_seq.
Qed.

Lemma physical_memory pt v base mp a :
  shows pt (put_pages Size2MiB base (huge_frames mp) data_flags v) -> (Size2MiB | base) ->
  0 <= a < mp -> physical pt (base + a) = Some (a, Z.lor data_flags HUGE_PAGE).
Proof.
  intros Hs Hb Hi. pose proof (Z.div_mod a Size2MiB ltac:(done)). pose proof (Z.mod_pos_bound a Size2MiB ltac:(done)).
  destruct (huge_count_spec mp ltac:(lia)) as (_ & Hc & Hl).
  pose proof (Z.div_pos a Size2MiB ltac:(lia) ltac:(done)).
  set (n := Z.to_nat (a / Size2MiB)). assert (HnZ : Z.of_nat n = a / Size2MiB) by (unfold n; lia).
  assert (Hn : (n < huge_count mp)%nat).
  { unfold n. pose proof (Z.div_le_mono a (mp - 1) Size2MiB ltac:(done) ltac:(lia)). lia. }
  replace (base + a) with (base + Size2MiB * Z.of_nat n + a mod Size2MiB) by lia.
  replace a with (0 + Size2MiB * Z.of_nat n + a mod Size2MiB) at 2 by lia.
  eapply physical_2m; [exact Hs| |done|].
  - apply Z.divide_add_r; [done|apply Z.divide_factor_l].
  - rewrite (put_pages_at Size2MiB base (huge_frames mp) data_flags v n (0 + Size2MiB * Z.of_nat n));
      [by rewrite new_leaf_2m|done|].
    unfold huge_frames. apply list_lookup_fmap_Some. exists n. split; [done|]. by apply lookup_seq.
Qed.

(** * The kernel *)

(** The loader's state at the call of [load_kernel]. *)
Definition inner_of (kernel : Kernel) (off : VirtualAddressOffset.t) (s : system) : Inner M (LegacyFrameAllocator D) :=
  mkInner (Kernel.start_address kernel) off (ktable s) (sys_frames s) (sys_memory s).

(** A kernel that can be loaded at [off] into an empty table, above the first
    512 GiB of addresses, with [k] frames and [n] level 4 entries to spare. *)
Record kernel_loads (kernel : Kernel) (off : VirtualAddressOffset.t) (e1 : Entries)
    (entries : list (list Z)) (lo hi n : Z) (k : nat) (s : system) : Prop := {
  kl_loads : loads_ok kernel (inner_of kernel off s) off Entries_new e1 lo hi entries k;
  kl_room e : mark_segments e1 (segments_of kernel) off = Ret e -> room n e;
  kl_inv : pt_inv (ktable s);
  kl_empty sz q : pt_view (ktable s) sz q = None;
  kl_high h : h ∈ program_iter (elf kernel) -> is_type Load_ h = true -> 2 ^ 39 <= seg_va (inner_of kernel off s) h;
}.

Lemma p4_same_page q a b :
  (Size4KiB | q) -> q <= a < q + Size4KiB -> q <= b < q + Size4KiB -> p4_of a = p4_of b.
Proof.
  intros [i ->] Ha Hb. unfold p4_of. change (2 ^ 39) with (Size4KiB * 2 ^ 27).
  rewrite <- !Z.div_div by done.
  rewrite <- (Z.div_unique_pos a Size4KiB i (a - i * Size4KiB)) by page_lia.
  by rewrite <- (Z.div_unique_pos b Size4KiB i (b - i * Size4KiB)) by page_lia.
Qed.

(** A page of a segment holds a byte of it. *)
Lemma page_has_byte (si : Inner M (LegacyFrameAllocator D)) h q :
  (Size4KiB | q) -> 0 < mem_size h -> seg_pages si h q ->
  exists b, q <= b < q + Size4KiB /\ seg_va si h <= b < seg_va si h + mem_size h.
Proof.
  intros Hq Hm [H1 H2]. pose proof (round_down_bounds (seg_va si h) Size4KiB Size4KiB_pos) as Hb.
  pose proof (round_down_bounds (seg_va si h + mem_size h - 1) Size4KiB Size4KiB_pos) as He.
  fold (seg_last si h) in He.
  destruct (decide (seg_va si h <= q)).
  - exists q. split; [page_lia|]. split; [done|].
    destruct (decide (q <= seg_last si h)); [lia|].
    pose proof (divide_lt_step (seg_last si h) q _ Size4KiB_pos ltac:(by apply round_down_divide) Hq ltac:(lia)). lia.
  - exists (seg_va si h). split; [|lia].
    assert (round_down (seg_va si h) Size4KiB = q) as <-; [|lia].
    apply (divide_close _ _ Size4KiB Size4KiB_pos); [by apply round_down_divide|done|lia].
Qed.

(** The leaves after the kernel has been loaded. *)
Record kernel_leaves (lo hi : Z) (v : view) (s : system) : Prop := {
  lv_small sz q l : v sz q = Some l -> sz = Size4KiB;
  lv_high sz q l : v sz q = Some l -> 2 ^ 39 <= q;
  lv_frame q f fl : v Size4KiB q = Some (f, fl) -> (Size4KiB | f) /\ f ∉ fa_free (sys_frames s);
}.

Lemma load_the_kernel_spec kernel off e1 entries lo hi n k (s : system) :
  kernel_loads kernel off e1 entries lo hi n k s -> sys_entries s = Entries_new ->
  let hs := program_iter (elf kernel) in
  let si := inner_of kernel off s in
  exists s' v, load_the_kernel kernel s =
      Ret ((VirtualAddressOffset.virtual_address_offset off + elf_entry_point (elf kernel), first_tls si hs None), s') /\
    ready v n k s' /\ kernel_leaves lo hi v s' /\
    cpu s' = cpu s /\ bootloader (sys_tables s') = bootloader (sys_tables s) /\
    kernel_level_4_frame (sys_tables s') = kernel_level_4_frame (sys_tables s) /\
    fewer (sys_frames s) (sys_frames s') /\ (exists j, takes j (sys_frames s) (sys_frames s')) /\
    (forall a b, relocate si (image si hs) entries a = Some b -> byte_at s' a = Some b).
Proof.
  intros [Hl Hroom Hinv Hempty Hhigh] Hent hs si.
  destruct (load_kernel_spec kernel (ktable s) (sys_frames s) (sys_memory s) Entries_new off e1 lo hi entries k Hl)
    as (s1 & e2 & Hr & (Hs1 & Hk1 & Hev) & Hread & Hout & [Hmark Hwf2] & Hused & _).
  set (s' := mkSystem (cpu s) (memory s1) (frame_allocator s1)
    (mkPageTables (bootloader (sys_tables s)) (page_table s1) (kernel_level_4_frame (sys_tables s))) e2).
  assert (Hpage : forall sz q l, pt_view (page_table s1) sz q = Some l ->
    sz = Size4KiB /\ exists h, h ∈ hs /\ is_type Load_ h = true /\ seg_pages si h q).
  { intros sz q l Hv. pose proof (so_small _ _ _ Hs1 _ _ _ Hv) as ->. split; [done|].
    destruct (decide (Exists (fun h => is_type Load_ h = true /\
      round_down (seg_va si h) Size4KiB <= q < seg_last si h + Size4KiB) hs)) as [Hex|Hno].
    - apply Exists_exists in Hex as (h & Hh & Ht & Hq). by exists h.
    - exfalso. assert (Hn : vread s1 q = vread si q).
      { apply Hout. intros h Hh Ht Hq. apply Hno, Exists_exists. by exists h. }
      rewrite (vread_page_at lo hi s1), (vread_page_at lo hi si) in Hn by (done || apply Hl).
      pose proof (page_at_aligned lo hi s1 q l Hs1 Hv) as Hq. rewrite round_down_id in Hn by done.
      unfold page_at in Hn at 1. rewrite Hv in Hn. unfold page_at in Hn. simpl in Hn.
      rewrite Hempty in Hn. by destruct l. }
  exists s', (pt_view (page_table s1)). split; [|split; [|split; [|split; [done|split; [done|split; [done|]]]]]].
  - unfold load_the_kernel. rewrite sys_bind_get. rewrite Hent. erewrite sys_bind_lift by exact Hr. done.
  - split; simpl.
    + apply shows_self, Hs1.
    + intros sz q l a Hv Ha. destruct (Hpage _ _ _ Hv) as (-> & h & Hh & Ht & Hq). destruct l as [f fl].
      destruct (so_page _ _ _ Hs1 _ _ _ Hv) as (Hq0 & Hq1 & _). split; [lia|].
      pose proof (page_at_aligned lo hi s1 q _ Hs1 Hv) as Hal.
      pose proof (ho_segments _ _ _ _ (lk_headers _ _ _ _ _ _ _ _ _ Hl) h Hh Ht) as Hok.
      destruct (page_has_byte si h q Hal (sg_mem _ _ _ _ Hok) Hq) as (b & Hb & Hbh).
      rewrite (p4_same_page q a b) by done. by apply (Hused h).
    + done.
    + by apply Hroom.
    + done.
  - split.
    + intros sz q l Hv. by apply Hpage in Hv as [-> _].
    + intros sz q l Hv. destruct (Hpage _ _ _ Hv) as (_ & h & Hh & Ht & [Hq _]).
      pose proof (Hhigh h Hh Ht) as Hhi.
      pose proof (round_down_le_multiple (2 ^ 39) (seg_va si h) Size4KiB Size4KiB_pos ltac:(by exists (2 ^ 27)) Hhi). lia.
    + intros q f fl Hv. destruct (so_frame _ _ _ Hs1 _ _ _ Hv) as (? & _ & _ & ?). done.
  - split; [apply Hev|]. split; [apply Hev|]. intros a b Hb. specialize (Hread a b Hb).
    unfold byte_at, physical, ktable. simpl. unfold vread in Hread.
    destruct (translate (page_table s1) a) as [[f|f|f] o fl| |]; try done.
Qed.

(** What the kernel's image reads does not change in later stages. *)
Lemma byte_at_keeps lo hi v (s s' : system) v' a b :
  shows (ktable s) v -> kernel_leaves lo hi v s -> keeps s s' -> shows (ktable s') v' -> extends v v' ->
  (forall f, f ∈ fa_free (sys_frames s) -> (Size4KiB | f)) ->
  byte_at s a = Some b -> byte_at s' a = Some b.
Proof.
  intros Hs Hl Hkp Hs' He Hfree Hb. unfold byte_at, physical in *.
  pose proof (round_down_bounds a Size4KiB Size4KiB_pos) as Hra.
  destruct (v Size4KiB (round_down a Size4KiB)) as [[f fl]|] eqn:E.
  - rewrite (shows_translate_4k _ _ _ _ _ Hs E) in Hb.
    rewrite (shows_translate_4k _ _ _ _ _ Hs' (He _ _ _ E)). simpl in *.
    rewrite (kp_memory _ _ Hkp); [done|]. intros g Hg Hin.
    destruct (lv_frame _ _ _ _ Hl _ _ _ E) as [Hf Hnf]. apply Hnf.
    rewrite (frames_disjoint f g (a - round_down a Size4KiB) (f + (a - round_down a Size4KiB) - g)); auto; lia.
  - rewrite translate_none in Hb; [done|apply Hs|by rewrite (proj2 Hs)|].
    rewrite (proj2 Hs). destruct (v Size2MiB _) as [l|] eqn:E2; [|done].
    by apply (lv_small _ _ _ _ Hl) in E2.
Qed.

(** * The guard page *)

(** A window that is reserved later does not meet one that is in use. *)
Lemma window_skip v base size e g sz q l :
  reserved v base size e -> (2 ^ 39 | g) -> v sz q = Some l -> 0 < sz -> g <= q -> q + sz <= g + 2 ^ 39 ->
  base + window size <= g \/ g + 2 ^ 39 <= base.
Proof.
  intros Hre Hg Hl Hsz H1 H2. pose proof (rs_aligned _ _ _ _ Hre) as Hb.
  assert (Hw : (2 ^ 39 | base + window size)) by (apply Z.divide_add_r; [done|apply Z.divide_factor_r]).
  destruct (decide (base + window size <= g)), (decide (g + 2 ^ 39 <= base)); [by left|by left|by right|].
  pose proof (divide_lt_step g (base + window size) (2 ^ 39) ltac:(lia) Hg Hw ltac:(lia)).
  destruct (decide (g < base)).
  - pose proof (divide_lt_step g base (2 ^ 39) ltac:(lia) Hg Hb ltac:(lia)). lia.
  - destruct (rs_vacant _ _ _ _ Hre _ _ _ Hl); lia.
Qed.

Lemma vacant_put_buffer base o v e g :
  placed base o v e -> buffer_ok o -> (2 ^ 39 | g) -> vacant v g (g + Size4KiB) ->
  (exists q l, v Size4KiB q = Some l /\ g <= q /\ q + Size4KiB <= g + 2 ^ 39) ->
  vacant (put_buffer base o v) g (g + Size4KiB).
Proof.
  destruct base as [base|], o as [[f len]|]; simpl; try done.
  intros Hre (_ & _ & Hl & _) Hg Hv (q & l & Hq & H1 & H2). apply vacant_put; [done|done|].
  rewrite length_buffer_frames. pose proof (page_count_window len Hl).
  destruct (window_skip v base len e g Size4KiB q l Hre Hg Hq Size4KiB_pos H1 H2); [left|right]; page_lia.
Qed.

Lemma put_buffer_extends base o v e :
  placed base o v e -> buffer_ok o -> extends v (put_buffer base o v).
Proof.
  destruct base as [base|], o as [[f len]|]; simpl; try (intros; apply extends_refl).
  intros Hre (_ & _ & Hl & _). apply put_pages_extends; [done|].
  rewrite length_buffer_frames. eapply vacant_sub; [apply Hre|lia|]. pose proof (page_count_window len Hl). lia.
Qed.

(** * set_up_mappings *)

(** The level 4 entries and the frames that [set_up_mappings] may take besides
    what the kernel takes. *)
Definition setup_entries (fb : option RawFramebufferInfo) (sinfo : SystemInfo) (mp : Z) : Z :=
  1 + (buffer_entries (framebuffer_buffer fb) + (buffer_entries (ramdisk_buffer sinfo) + level_4_entries mp)).
Definition setup_cost (fb : option RawFramebufferInfo) (sinfo : SystemInfo) (mp : Z) : nat :=
  80 + (6 + (4 + (buffer_cost (framebuffer_buffer fb) + (buffer_cost (ramdisk_buffer sinfo) + 3 * huge_count mp)))).

(** A system on which [set_up_mappings] can run: the kernel can be loaded; the
    code that switches to it, the frames of memory and the buffers are where
    the identity mapping and the windows can take them; and enough level 4
    entries ([n] more) and frames ([k] more) are free. *)
Record setup_ok kernel off e1 entries lo hi (n : Z) (k : nat) (c : Z) fb sinfo (mp : Z) (s : system) : Prop := {
  su_kernel : kernel_loads kernel off e1 entries lo hi (setup_entries fb sinfo mp + n) (setup_cost fb sinfo mp + k) s;
  su_room : 0 <= n;
  su_switch : 0 <= c /\ round_down c Size4KiB + 2 * Size4KiB <= 2 ^ 39;
  su_free f : f ∈ fa_free (sys_frames s) ->
    f + Size4KiB <= 2 ^ 39 /\ f <> round_down c Size4KiB /\ f <> round_down c Size4KiB + Size4KiB;
  su_gdt : Z.of_nat (length gdt_bytes) <= Size4KiB;
  su_framebuffer : buffer_ok (framebuffer_buffer fb);
  su_ramdisk : buffer_ok (ramdisk_buffer sinfo);
  su_max : max_physical_address (sys_frames s) = Ret mp /\ 0 < mp < 2 ^ 47;
}.

(** A buffer is mapped, writable, where [base] says. *)
Definition buffer_mapped (pt : M) (base : option Z) (o : option (Z * Z)) : Prop :=
  match base, o with
  | Some b, Some (f, len) => forall i, 0 <= i < len -> physical pt (b + i) = Some (f + i, data_flags)
  | None, None => True
  | _, _ => False
  end.

(** What the kernel finds: its image; a stack of its own with an unmapped page
    below it; the code and the descriptor table that are in use across the
    switch, at their own addresses; its buffers; and all physical memory. *)
Record set_up kernel off entries c fb sinfo mp (s s' : system) (m : Mappings) : Prop := {
  up_entry : ma_entry_point m = VirtualAddressOffset.virtual_address_offset off + elf_entry_point (elf kernel);
  up_tls : ma_tls_template m = first_tls (inner_of kernel off s) (program_iter (elf kernel)) None;
  up_slice : ma_kernel_slice_start m = Kernel.start_address kernel /\ ma_kernel_slice_len m = kernel_len kernel;
  up_image a b : relocate (inner_of kernel off s) (image (inner_of kernel off s) (program_iter (elf kernel))) entries a
    = Some b -> byte_at s' a = Some b;
  up_stack : exists guard fs, (2 ^ 39 | guard) /\ ma_stack_top m = guard + Size4KiB + kernel_stack_size /\
    translate (ktable s') guard = NotMapped /\ length fs = 20%nat /\ fresh fs (sys_frames s) (sys_frames s') /\
    forall i f j, fs !! i = Some f -> 0 <= j < Size4KiB ->
      physical (ktable s') (guard + Size4KiB + Size4KiB * Z.of_nat i + j) = Some (f + j, data_flags);
  up_switch a : round_down c Size4KiB <= a < round_down c Size4KiB + 2 * Size4KiB ->
    physical (ktable s') a = Some (a, PRESENT);
  up_gdt : fresh [gdtr (cpu s')] (sys_frames s) (sys_frames s') /\
    forall j, 0 <= j < Size4KiB -> physical (ktable s') (gdtr (cpu s') + j) = Some (gdtr (cpu s') + j, PRESENT);
  up_framebuffer : buffer_mapped (ktable s') (ma_framebuffer m) (framebuffer_buffer fb);
  up_ramdisk : buffer_mapped (ktable s') (ma_ramdisk_slice_start m) (ramdisk_buffer sinfo) /\
    ma_ramdisk_slice_len m = si_ramdisk_len sinfo;
  up_physical : exists offset, ma_physical_memory_offset m = Some offset /\
    forall a, 0 <= a < mp -> physical (ktable s') (offset + a) = Some (a, Z.lor data_flags HUGE_PAGE);
  up_control : Z.testbit (efer (cpu s')) 11 = true /\ Z.testbit (cr0 (cpu s')) 16 = true;
}.

Lemma fresh_between (fs : list Z) (fa fa1 fa2 fa3 : LegacyFrameAllocator D) :
  fewer fa fa1 -> fresh fs fa1 fa2 -> fewer fa2 fa3 -> fresh fs fa fa3.
Proof.
  intros H1 [Hnd Hf] H2. split; [done|]. intros f Hin. destruct (Hf f Hin) as [Ha Hb].
  split; [by eapply fewer_elem|]. intros Hc. apply Hb. by eapply fewer_elem.
Qed.

(** Calls of the allocator keep the map that [max_physical_address] reads. *)
Lemma takes_original j k (fa fa' : LegacyFrameAllocator D) :
  has_frames k fa -> takes j fa fa' -> original fa' = original fa.
Proof.
  intros [Hi _] (n & rs & _ & Ha). assert (Hok : next_ok fa) by (split; apply Hi).
  by destruct (allocate_frames_advance n fa rs fa' Hok Ha) as (_ & ? & _).
Qed.

Lemma max_physical_original (fa fa' : LegacyFrameAllocator D) :
  original fa' = original fa -> max_physical_address fa' = max_physical_address fa.
Proof. unfold max_physical_address. by intros ->. Qed.

Lemma put_buffer_mapped pt base o v e v' :
  placed base o v e -> buffer_ok o -> shows pt v' -> extends (put_buffer base o v) v' -> buffer_mapped pt base o.
Proof.
  destruct base as [base|], o as [[f len]|]; simpl; try done.
  intros Hre (_ & _ & Hl & _) Hs He i Hi.
  assert (Hb : (Size4KiB | base)) by (eapply Z.divide_trans; [|apply Hre]; by exists (2 ^ 27)).
  by apply (physical_buffer pt v v' base f len).
Qed.

(** The stages behind the identity mappings: buffers and physical memory. *)
Lemma buffer_stages fb sinfo mp v n k (s : system) :
  buffer_ok (framebuffer_buffer fb) -> buffer_ok (ramdisk_buffer sinfo) ->
  max_physical_address (sys_frames s) = Ret mp -> 0 < mp < 2 ^ 47 -> 0 <= n ->
  ready v (buffer_entries (framebuffer_buffer fb) + (buffer_entries (ramdisk_buffer sinfo) + (level_4_entries mp + n)))
    (buffer_cost (framebuffer_buffer fb) + (buffer_cost (ramdisk_buffer sinfo) + (3 * huge_count mp + k))) s ->
  exists bf br off s1 s2 s' v', map_framebuffer fb s = Ret (bf, s1) /\ map_ramdisk sinfo s1 = Ret (br, s2) /\
    map_physical_memory s2 = Ret (off, s') /\ ready v' n k s' /\ keeps s s' /\ extends v v' /\ cpu s' = cpu s /\
    buffer_mapped (ktable s') bf (framebuffer_buffer fb) /\ buffer_mapped (ktable s') br (ramdisk_buffer sinfo) /\
    (forall a, 0 <= a < mp -> physical (ktable s') (off + a) = Some (a, Z.lor data_flags HUGE_PAGE)) /\
    (forall g, (2 ^ 39 | g) -> vacant v g (g + Size4KiB) ->
       (exists q l, v Size4KiB q = Some l /\ g <= q /\ q + Size4KiB <= g + 2 ^ 39) -> vacant v' g (g + Size4KiB)).
Proof.
  intros Hfb Hrd Hmax Hmp Hn Hr.
  pose proof (level_4_entries_pos mp ltac:(lia)). pose proof (buffer_entries_nonneg _ Hrd).
  destruct (map_framebuffer_spec fb v (buffer_entries (ramdisk_buffer sinfo) + (level_4_entries mp + n)) _ s
    Hfb ltac:(lia) Hr) as (bf & s1 & Hr1 & Hrd1 & Hkp1 & Hpl1 & Hc1).
  destruct (map_ramdisk_spec sinfo (put_buffer bf (framebuffer_buffer fb) v) (level_4_entries mp + n) _ s1
    Hrd ltac:(lia) Hrd1)
    as (br & s2 & Hr2 & Hrd2 & Hkp2 & Hpl2 & Hc2).
  destruct (map_physical_memory_spec mp (put_buffer br (ramdisk_buffer sinfo) (put_buffer bf (framebuffer_buffer fb) v))
    n k s2) as (off & s' & Hr3 & Hrd3 & Hkp3 & Hre3 & Hc3); [|done|done|exact Hrd2|].
  { rewrite <- Hmax. apply max_physical_original.
    destruct (kp_takes _ _ (keeps_trans _ _ _ Hkp1 Hkp2)) as [j Ht]. by eapply takes_original; [apply Hr|]. }
  pose proof (put_buffer_extends _ _ _ _ Hpl1 Hfb) as He1. pose proof (put_buffer_extends _ _ _ _ Hpl2 Hrd) as He2.
  set (v1 := put_buffer bf (framebuffer_buffer fb) v) in *. set (v2 := put_buffer br (ramdisk_buffer sinfo) v1) in *.
  assert (He3 : extends v2 (put_pages Size2MiB off (huge_frames mp) data_flags v2)).
  { apply put_pages_extends; [done|]. eapply vacant_sub; [apply Hre3|lia|].
    pose proof (huge_count_window mp ltac:(lia)). unfold huge_frames. rewrite length_fmap, length_seq. lia. }
  exists bf, br, off, s1, s2, s', (put_pages Size2MiB off (huge_frames mp) data_flags v2).
  split; [done|]. split; [done|]. split; [done|]. split; [done|].
  split; [eapply keeps_trans; [exact Hkp1|by eapply keeps_trans]|].
  split; [eapply extends_trans; [exact He1|by eapply extends_trans]|].
  split; [congruence|].
  split; [eapply put_buffer_mapped; [exact Hpl1|done|apply Hrd3|by eapply extends_trans]|].
  split; [by eapply put_buffer_mapped; [exact Hpl2|done|apply Hrd3|]|].
  split.
  - intros a Ha. eapply physical_memory; [apply Hrd3| |exact Ha].
    eapply Z.divide_trans; [|apply Hre3]. by exists (2 ^ 18).
  - intros g Hg Hv (q & l & Hq & H1 & H2).
    assert (Hv1 : vacant v1 g (g + Size4KiB)) by (eapply vacant_put_buffer; eauto).
    assert (Hv2 : vacant v2 g (g + Size4KiB)).
    { eapply vacant_put_buffer; [exact Hpl2|done|done|exact Hv1|]. exists q, l. auto. }
    apply vacant_put; [done|done|]. unfold huge_frames. rewrite length_fmap, length_seq.
    pose proof (huge_count_window mp ltac:(lia)).
    destruct (window_skip v2 off mp _ g Size4KiB q l Hre3 Hg) as [?|?]; [by auto|done|done|done|left|right]; page_lia.
Qed.

(** A frame that is neither of two adjacent ones lies before or behind them. *)
Lemma frame_beside f g :
  (Size4KiB | f) -> (Size4KiB | g) -> g <> f -> g <> f + Size4KiB -> g + Size4KiB <= f \/ f + 2 * Size4KiB <= g.
Proof.
  intros Hf Hg H1 H2. assert (Hf2 : (Size4KiB | f + Size4KiB)) by (by apply Z.divide_add_r, Z.divide_refl).
  destruct (decide (g < f)); [left; by apply divide_lt_step|]. right.
  destruct (decide (g < f + Size4KiB)).
  - destruct H1. symmetry. by apply (divide_close _ _ Size4KiB Size4KiB_pos); [..|lia].
  - pose proof (divide_lt_step (f + Size4KiB) g Size4KiB Size4KiB_pos Hf2 Hg ltac:(lia)). lia.
Qed.

(** The stages before them: stack, context switch, descriptor table, in a table
    without leaves in the first 512 GiB. *)
Lemma low_stages c v n k (s : system) :
  let f := round_down c Size4KiB in
  ready v (1 + n) (80 + (6 + (4 + k))) s -> 0 <= n -> 0 <= c -> f + 2 * Size4KiB <= 2 ^ 39 ->
  Z.of_nat (length gdt_bytes) <= Size4KiB -> vacant v 0 (2 ^ 39) ->
  (forall g, g ∈ fa_free (sys_frames s) -> g + Size4KiB <= 2 ^ 39 /\ g <> f /\ g <> f + Size4KiB) ->
  exists guard fs s1 s2 s' v',
    map_stack s = Ret ((guard + Size4KiB, guard + Size4KiB + kernel_stack_size), s1) /\
    map_context_switch c s1 = Ret (tt, s2) /\ map_gdt s2 = Ret (gdtr (cpu s'), s') /\
    ready v' n k s' /\ keeps s s' /\ extends v v' /\ (2 ^ 39 | guard) /\ vacant v' guard (guard + Size4KiB) /\
    2 ^ 39 <= guard /\ guard + 2 ^ 39 <= 2 ^ 47 /\ length fs = 20%nat /\ fresh fs (sys_frames s) (sys_frames s') /\
    (forall i g, fs !! i = Some g -> v' Size4KiB (guard + Size4KiB + Size4KiB * Z.of_nat i) = Some (g, data_flags)) /\
    v' Size4KiB f = Some (f, PRESENT) /\ v' Size4KiB (f + Size4KiB) = Some (f + Size4KiB, PRESENT) /\
    v' Size4KiB (gdtr (cpu s')) = Some (gdtr (cpu s'), PRESENT) /\
    fresh [gdtr (cpu s')] (sys_frames s) (sys_frames s').
Proof.
  intros f Hr Hn Hc Hf Hgdt Hlow Hfree.
  assert (Hfal : (Size4KiB | f)) by (by apply round_down_divide).
  assert (Hf0 : 0 <= f) by (apply (round_down_le_multiple 0); [done|apply Z.divide_0_r|done]).
  destruct (map_stack_spec v n (6 + (4 + k)) s Hr Hn) as (guard & fs & s1 & Hr1 & Hrd1 & Hkp1 & Hre & Hlen & Hfr).
  pose proof (rs_base _ _ _ _ Hre) as Hb. pose proof (rs_top _ _ _ _ Hre) as Ht. pose proof (rs_vacant _ _ _ _ Hre) as Hvac.
  change (window (Size4KiB + kernel_stack_size)) with (2 ^ 39) in *.
  set (v1 := put_pages Size4KiB (guard + Size4KiB) fs data_flags v) in *.
  assert (He1 : extends v v1).
  { apply put_pages_extends; [done|]. eapply vacant_sub; [exact Hvac|page_lia|]. rewrite Hlen. page_lia. }
  assert (Hlow1 : vacant v1 0 (2 ^ 39)) by (apply vacant_put; [done|done|right; page_lia]).
  destruct (map_context_switch_spec c v1 n (4 + k) s1 Hrd1 Hc Hf) as (s2 & Hr2 & Hrd2 & Hkp2);
    [by eapply vacant_sub; [exact Hlow1|..]|].
  fold f in Hrd2. set (v2 := put_pages Size4KiB f [f; f + Size4KiB] PRESENT v1) in *.
  assert (He2 : extends v1 v2) by (apply put_pages_extends; [done|]; eapply vacant_sub; [exact Hlow1|done|simpl; page_lia]).
  assert (Hok : forall g, g ∈ fa_free (sys_frames s2) -> g + Size4KiB <= 2 ^ 39 /\ vacant v2 g (g + Size4KiB)).
  { intros g Hg. destruct (Hfree g) as (Htop & Hn1 & Hn2).
    { eapply fewer_elem; [|exact Hg]. eapply fewer_trans; [apply Hkp1|apply Hkp2]. }
    split; [done|]. destruct (rd_frames _ _ _ _ Hrd2) as [Hi _].
    destruct (fa_aligned _ _ g Hi Hg) as (Hgal & Hg0 & _).
    apply vacant_put; [done|by eapply vacant_sub; [exact Hlow1|..]|].
    by destruct (frame_beside f g Hfal Hgal Hn1 Hn2); [right|left; simpl; page_lia]. }
  destruct (map_gdt_spec v2 n k s2 Hrd2 Hgdt Hok) as (g & s' & Hr3 & Hrd3 & Hkp3 & Hfg & Hg).
  destruct (Hok g (proj1 (proj2 Hfg g ltac:(by left)))) as [Hgtop Hgvac].
  assert (He3 : extends v2 (put_pages Size4KiB g [g] PRESENT v2))
    by (apply put_pages_extends; [done|]; eapply vacant_sub; [exact Hgvac|done|simpl; page_lia]).
  pose proof (extends_trans _ _ _ He1 (extends_trans _ _ _ He2 He3)) as He.
  assert (Hguard : vacant v1 guard (guard + Size4KiB)).
  { apply vacant_put; [done|eapply vacant_sub; [exact Hvac|lia|page_lia]|right; lia]. }
  exists guard, fs, s1, s2, s', (put_pages Size4KiB g [g] PRESENT v2). rewrite Hg.
  split; [exact Hr1|]. split; [exact Hr2|]. split; [exact Hr3|]. split; [exact Hrd3|].
  split; [eapply keeps_trans; [exact Hkp1|by eapply keeps_trans]|]. split; [exact He|]. split; [apply Hre|].
  split; [apply vacant_put; [done|apply vacant_put; [done|exact Hguard|left; simpl; page_lia]|left; simpl; page_lia]|].
  split; [exact Hb|]. split; [exact Ht|]. split; [exact Hlen|].
  split; [apply (fresh_between fs _ (sys_frames s) (sys_frames s1)); [apply fewer_refl|exact Hfr|eapply fewer_trans; [apply Hkp2|apply Hkp3]]|].
  split; [|split; [|split; [|split]]].
  - intros i h Hi. apply He3, He2. unfold v1. by rewrite (put_pages_at _ _ _ _ _ i h), new_leaf_4k by done.
  - apply He3. unfold v2. pose proof (put_pages_at Size4KiB f [f; f + Size4KiB] PRESENT v1 0 f Size4KiB_pos eq_refl) as H.
    by rewrite Z.mul_0_r, Z.add_0_r, new_leaf_4k in H.
  - apply He3. unfold v2.
    pose proof (put_pages_at Size4KiB f [f; f + Size4KiB] PRESENT v1 1 (f + Size4KiB) Size4KiB_pos eq_refl) as H.
    by rewrite Z.mul_1_r, new_leaf_4k in H.
  - pose proof (put_pages_at Size4KiB g [g] PRESENT v2 0 g Size4KiB_pos eq_refl) as H.
    by rewrite Z.mul_0_r, Z.add_0_r, new_leaf_4k in H.
  - apply (fresh_between [g] _ (sys_frames s2) (sys_frames s')); [|exact Hfg|apply fewer_refl].
    eapply fewer_trans; [apply Hkp1|apply Hkp2].
Qed.

(** The state in which [load_kernel] is called. *)
Definition prepared (s : system) : system :=
  let c := cpu s in
  mkSystem (mkCpu (Z.lor (efer c) NO_EXECUTE_ENABLE) (Z.lor (cr0 c) WRITE_PROTECT) (cr3 c) (gdtr c)
    (cs c) (ds c) (es c) (ss c)) (sys_memory s) (sys_frames s) (sys_tables s) Entries_new.

Lemma kernel_loads_prepared kernel off e1 entries lo hi n k s :
  kernel_loads kernel off e1 entries lo hi n k s -> kernel_loads kernel off e1 entries lo hi n k (prepared s).
Proof. intros []. by split. Qed.

(** What [set_up_mappings] leaves as it was. *)
Record untouched (s s' : system) : Prop := {
  un_bootloader : bootloader (sys_tables s') = bootloader (sys_tables s);
  un_level_4 : kernel_level_4_frame (sys_tables s') = kernel_level_4_frame (sys_tables s);
  un_fewer : fewer (sys_frames s) (sys_frames s');
  un_takes : exists j, takes j (sys_frames s) (sys_frames s');
}.

Lemma set_up_mappings_spec kernel off e1 entries lo hi n k c fb sinfo mp (s : system) :
  setup_ok kernel off e1 entries lo hi n k c fb sinfo mp s ->
  exists m s' v, set_up_mappings kernel c fb sinfo s = Ret (m, s') /\ ready v n k s' /\ untouched s s' /\
    set_up kernel off entries c fb sinfo mp s s' m.
Proof.
  intros [Hker Hn [Hc Hsw] Hfree Hgdt Hfb Hrd [Hmax Hmp]].
  apply kernel_loads_prepared in Hker. set (s0 := prepared s) in *.
  destruct (load_the_kernel_spec kernel off e1 entries lo hi _ _ s0 Hker eq_refl) as
    (s1 & v & Hr1 & Hrd1 & Hl1 & Hcpu1 & Hbl1 & Hl41 & Hfe1 & [j1 Ht1] & Himg).
  pose proof (level_4_entries_pos mp ltac:(lia)). pose proof (buffer_entries_nonneg _ Hrd).
  pose proof (buffer_entries_nonneg _ Hfb).
  unfold setup_entries, setup_cost in Hrd1. rewrite <- !Z.add_assoc, <- !Nat.add_assoc in Hrd1.
  destruct (low_stages c v _ _ s1 Hrd1) as (guard & fs & s2 & s3 & s4 & v4 & Hr2 & Hr3 & Hr4 & Hrd4 & Hkp4 & He4 &
    Hg & Hgv & Hg0 & Hg1 & Hlen & Hfr & Hst & Hcs1 & Hcs2 & Hgl & Hgf); [lia|done|done|done| |..].
  { intros sz q l Hl. right. by apply (lv_high _ _ _ _ Hl1 sz q l). }
  { intros g Hin. apply Hfree. by eapply fewer_elem. }
  destruct (buffer_stages fb sinfo mp v4 n k s4 Hfb Hrd) as (bf & br & o & s5 & s6 & s7 & v7 & Hr5 & Hr6 & Hr7 & Hrd7 &
    Hkp7 & He7 & Hcpu7 & Hbf & Hbr & Hph & Hguard); [|done|done|exact Hrd4|].
  { rewrite <- Hmax. apply max_physical_original. destruct (kp_takes _ _ Hkp4) as [j4 Ht4].
    rewrite (takes_original j4 _ _ _ (rd_frames _ _ _ _ Hrd1) Ht4).
    eapply takes_original; [apply (lk_frames _ _ _ _ _ _ _ _ _ (kl_loads _ _ _ _ _ _ _ _ _ Hker))|exact Ht1]. }
  pose proof (extends_trans _ _ _ He4 He7) as He. pose proof (keeps_trans _ _ _ Hkp4 Hkp7) as Hkp.
  pose proof (rd_shows _ _ _ _ Hrd7) as Hsh7.
  eexists _, s7, v7. split; [|split; [exact Hrd7|split; [split|]]].
  - unfold set_up_mappings. erewrite sys_bind_Ret by reflexivity. unfold enable_nxe_bit, enable_write_protect_bit.
    erewrite sys_bind_Ret by reflexivity. erewrite sys_bind_Ret by reflexivity. cbv zeta.
    erewrite sys_bind_Ret by exact Hr1. cbv beta iota.
    erewrite sys_bind_Ret by exact Hr2. erewrite sys_bind_Ret by exact Hr3. erewrite sys_bind_Ret by exact Hr4.
    erewrite sys_bind_Ret by exact Hr5. erewrite sys_bind_Ret by exact Hr6. erewrite sys_bind_Ret by exact Hr7.
    erewrite sys_bind_lift by (apply (virt_align_down_spec _ 16 4); [done|lia|cbn [snd]; unfold kernel_stack_size; page_lia]).
    cbn [snd]. rewrite round_down_id; [reflexivity|done|].
    unfold kernel_stack_size. apply Z.divide_add_r; [apply Z.divide_add_r|]; [eapply Z.divide_trans; [|exact Hg]; by exists (2 ^ 35)|by exists 256|by exists 5120].
  - by rewrite (kp_bootloader _ _ Hkp), Hbl1.
  - by rewrite (kp_level_4 _ _ Hkp), Hl41.
  - eapply fewer_trans; [exact Hfe1|apply Hkp].
  - destruct (kp_takes _ _ Hkp) as [j Ht]. exists (j1 + j)%nat. by eapply takes_trans.
  - split; try done.
    + intros a b Hb. eapply (byte_at_keeps lo hi v s1 s7 v7); [apply Hrd1|done|done|done|done| |by apply Himg].
      intros f Hf. destruct (rd_frames _ _ _ _ Hrd1) as [Hi _]. by apply (fa_aligned _ _ f Hi).
    + exists guard, fs. split; [done|]. split; [done|]. split; [apply (physical_none _ v7); [done|done|]|].
      * apply Hguard; [done|done|]. exists (guard + Size4KiB + Size4KiB * Z.of_nat 0).
        destruct fs as [|f0 fs]; [done|]. eexists. split; [by apply Hst|]. page_lia.
      * split; [done|]. split; [eapply fresh_between; [exact Hfe1|exact Hfr|apply Hkp7]|].
        intros i f j Hi Hj. eapply physical_4k; [exact Hsh7| |done|by apply He7, Hst].
        apply Z.divide_add_r; [apply Z.divide_add_r|]; [eapply Z.divide_trans; [|exact Hg]; by exists (2 ^ 27)|apply Z.divide_refl|apply Z.divide_factor_l].
    + intros a Ha. destruct (decide (a < round_down c Size4KiB + Size4KiB)).
      * replace a with (round_down c Size4KiB + (a - round_down c Size4KiB)) by lia.
        eapply physical_4k; [exact Hsh7|by apply round_down_divide|lia|by apply He7].
      * replace a with (round_down c Size4KiB + Size4KiB + (a - round_down c Size4KiB - Size4KiB)) by lia.
        eapply physical_4k; [exact Hsh7| |page_lia|by apply He7].
        apply Z.divide_add_r; [by apply round_down_divide|apply Z.divide_refl].
    + rewrite Hcpu7. split; [eapply fresh_between; [exact Hfe1|exact Hgf|apply Hkp7]|].
      intros j Hj. eapply physical_4k; [exact Hsh7| |done|by apply He7].
      destruct (rd_frames _ _ _ _ Hrd1) as [Hi _]. apply (fa_aligned _ _ (gdtr (cpu s4)) Hi). by apply Hgf; left.
    + by exists o.
    + pose proof (kp_control _ _ Hkp) as Hco. rewrite Hcpu1 in Hco. injection Hco as -> -> _.
      change (efer (cpu s0)) with (Z.lor (efer (cpu s)) NO_EXECUTE_ENABLE).
      change (cr0 (cpu s0)) with (Z.lor (cr0 (cpu s)) WRITE_PROTECT). rewrite !Z.lor_spec.
      change (Z.testbit NO_EXECUTE_ENABLE 11) with true. change (Z.testbit WRITE_PROTECT 16) with true.
      by rewrite !orb_true_r.
Qed.

(** C3: [set_up_mappings] succeeds on a system that satisfies [setup_ok], and
    leaves the kernel's address space as [set_up] says: the relocated image at
    its load addresses; a stack of 80 KiB in frames of its own, above a page
    that is not mapped; the code and the descriptor table in use across the
    switch identity mapped; framebuffer and ramdisk byte for byte; and all
    physical memory at the reported offset. *)
Theorem set_up_mappings_correct kernel off e1 entries lo hi n k c fb sinfo mp (s : system) :
  setup_ok kernel off e1 entries lo hi n k c fb sinfo mp s ->
  exists m s', set_up_mappings kernel c fb sinfo s = Ret (m, s') /\ untouched s s' /\
    set_up kernel off entries c fb sinfo mp s s' m.
Proof.
  intros H. destruct (set_up_mappings_spec kernel off e1 entries lo hi n k c fb sinfo mp s H)
    as (m & s' & v & Hr & _ & Hu & Hup). by exists m, s'.
Qed.
End Mappings.
