(* ===== verification/InitiumBoot.v ===== *)
(** [create_boot_info] (initium/src/initium.rs): the boot information, mapped in
    both address spaces, and what the kernel reads in it. *)

From S2P Require Import Prelude X86 Synapse Entries FrameAlloc LegacyMemory Paging Mapping.
From S2P Require Import Kernel KernelSpace KernelSegments KernelFlags KernelRelocs KernelLoad KernelEntry.
From S2P Require Import Firmware Initium InitiumSteps InitiumStages InitiumMappings.

Section BootInfoPages.
Context {X : X86_64} {XL : X86_64_Laws X} {P : Profile} {GD : Gdt} {D : Type} {R : LegacyMemoryRegion D}.
Context {M : Type} {PT : PageTable M (LegacyFrameAllocator D)} {PL : PageTableLaws M (LegacyFrameAllocator D)}.
Abbreviation system := (System M (LegacyFrameAllocator D)).

Definition with_both (s : system) (pt pb : M) (fa : LegacyFrameAllocator D) : system :=
  with_bootloader (with_kernel s pt fa) pb fa.

(** * Pages that both tables map *)

(** The loop of [map_boot_info] over [n] pages from [p] on. *)
Lemma map_both_spec p n k v vb (s : system) :
  shows (ktable s) v -> shows (bootloader (sys_tables s)) vb ->
  vacant v p (p + Size4KiB * Z.of_nat n) -> vacant vb p (p + Size4KiB * Z.of_nat n) ->
  (Size4KiB | p) -> 0 <= p -> p + Size4KiB * Z.of_nat n <= 2 ^ 47 -> has_frames (7 * n + k) (sys_frames s) ->
  exists fs pt pb fa,
    sys_for ((fun i => p + Size4KiB * Z.of_nat i) <$> seq 0 n) (fun page =>
      frame ← take_frame "frame allocation for boot info failed";
      _ ← map_kernel Size4KiB page frame data_flags;
      map_bootloader Size4KiB page frame data_flags) s = Ret (tt, with_both s pt pb fa) /\
    length fs = n /\ shows pt (put_pages Size4KiB p fs data_flags v) /\
    shows pb (put_pages Size4KiB p fs data_flags vb) /\ fresh fs (sys_frames s) fa /\
    has_frames k fa /\ fewer (sys_frames s) fa /\ takes (7 * n) (sys_frames s) fa.
Proof.
  intros Hsh Hshb Hvac Hvacb Hp Hp0 Htop Hk. set (pages := (fun i => p + Size4KiB * Z.of_nat i) <$> seq 0 n).
  destruct (sys_for_invariant (fun don s' => exists fs pt pb fa, s' = with_both s pt pb fa /\
      length fs = length don /\ shows pt (put_pages Size4KiB p fs data_flags v) /\
      shows pb (put_pages Size4KiB p fs data_flags vb) /\
      fresh fs (sys_frames s) fa /\ has_frames (7 * (n - length don) + k) fa /\
      fewer (sys_frames s) fa /\ takes (7 * length don) (sys_frames s) fa) pages
    (fun page => frame ← take_frame "frame allocation for boot info failed";
      _ ← map_kernel Size4KiB page frame data_flags; map_bootloader Size4KiB page frame data_flags) s)
    as (s' & Hr & fs & pt & pb & fa & -> & Hl & Hsh' & Hshb' & Hfr & Hk' & Hfe & Ht).
  - exists [], (ktable s), (bootloader (sys_tables s)), (sys_frames s). simpl. rewrite Nat.sub_0_r.
    split; [by destruct s as [? ? ? []]|]. split; [done|].
    split; [eapply shows_ext; [exact Hsh|]; intros; by rewrite put_pages_nil|].
    split; [eapply shows_ext; [exact Hshb|]; intros; by rewrite put_pages_nil|].
    split; [apply fresh_nil|]. split; [done|]. split; [apply fewer_refl|apply takes_refl].
  - intros don x rest s1 Heq (fs & pt & pb & fa & -> & Hl & Hsh' & Hshb' & Hfr & Hk' & Hfe & Ht).
    assert (Hx : x = p + Size4KiB * Z.of_nat (length fs) /\ (length don < n)%nat).
    { assert (Hx : pages !! length don = Some x) by (rewrite Heq; by apply list_lookup_middle).
      apply list_lookup_fmap_Some in Hx as (i & -> & Hi). apply lookup_seq in Hi as [-> Hi]. by rewrite Hl. }
    destruct Hx as [-> Hlt]. set (r := (7 * (n - S (length don)) + k)%nat).
    destruct (take_frame_spec "frame allocation for boot info failed" (3 + (3 + r)) (with_both s pt pb fa))
      as (f & fa1 & Ha & Ht1 & Hk1 & Hfe1 & Hin & Hout & Hfa).
    { unfold r. by replace (S (3 + (3 + (7 * (n - S (length don)) + k)))) with (7 * (n - length don) + k)%nat by lia. }
    destruct (map_kernel_spec Size4KiB p n fs data_flags v f (with_frames (with_both s pt pb fa) fa1))
      as (pt2 & fa2 & Hm & Hsh2 & Ht2);
      [done|done|lia|by left|done|done|done|done|exact data_flags_ok|by eapply has_frames_le; [|exact Hk1]; lia|].
    destruct (takes_fewer 3 _ _ _ Hk1 Ht2) as [Hk2 Hfe2].
    destruct (map_bootloader_spec Size4KiB p n fs data_flags vb f
      (with_kernel (with_frames (with_both s pt pb fa) fa1) pt2 fa2)) as (pb2 & fa3 & Hm3 & Hsh3 & Ht3);
      [done|done|lia|by left|done|done|done|done|exact data_flags_ok|by eapply has_frames_le; [|exact Hk2]; lia|].
    destruct (takes_fewer 3 _ _ _ Hk2 Ht3) as [Hk3 Hfe3]. simpl in Hin, Hfe1.
    exists (with_both s pt2 pb2 fa3). split.
    { erewrite sys_bind_Ret by exact Ha. erewrite sys_bind_Ret by exact Hm. exact Hm3. }
    exists (fs ++ [f]), pt2, pb2, fa3. rewrite !length_app. simpl.
    split; [done|]. split; [lia|]. split; [done|]. split; [done|]. split; [|split; [|split]].
    + eapply fresh_snoc; [exact Hfr|exact Hfe|eapply fewer_trans; [exact Hfe1|by eapply fewer_trans]|exact Hin|].
      intros Hx. apply Hout, (fewer_elem fa1 fa3); [by eapply fewer_trans|done].
    + unfold r in Hk3. by replace (n - (length don + 1))%nat with (n - S (length don))%nat by lia.
    + eapply fewer_trans; [exact Hfe|]. eapply fewer_trans; [exact Hfe1|]. by eapply fewer_trans.
    + eapply takes_le; [|exact (takes_trans _ _ _ _ _ Ht (takes_trans _ _ _ _ _ Ht1 (takes_trans _ _ _ _ _ Ht2 Ht3)))]. lia.
  - unfold pages in *. rewrite length_fmap, length_seq in *. exists fs, pt, pb, fa.
    split; [exact Hr|]. split; [done|]. split; [done|]. split; [done|]. split; [done|].
    split; [by rewrite Nat.sub_diag in Hk'|by split].
Qed.

Lemma map_boot_info_spec base size n k v vb (s : system) :
  reserved v base size (sys_entries s) -> ready v n (7 * page_count size + k) s ->
  shows (bootloader (sys_tables s)) vb -> vacant vb base (base + window size) -> 0 < size < 2 ^ 39 ->
  exists fs pt pb fa, map_boot_info base size s = Ret (tt, with_both s pt pb fa) /\
    length fs = page_count size /\ ready (put_pages Size4KiB base fs data_flags v) n k (with_both s pt pb fa) /\
    shows pb (put_pages Size4KiB base fs data_flags vb) /\ fresh fs (sys_frames s) fa /\
    fewer (sys_frames s) fa /\ exists j, takes j (sys_frames s) fa.
Proof.
  intros Hre Hr Hshb Hvb [Hsize Hsmall]. destruct (page_count_spec size Hsize) as (Hc0 & Hc & Hb).
  pose proof (page_count_window size Hsize) as Hw. pose proof (level_4_entries_pos size Hsize).
  assert (Hwin : 2 ^ 39 <= window size) by (unfold window; lia).
  pose proof (rs_base _ _ _ _ Hre). pose proof (rs_top _ _ _ _ Hre).
  assert (Hbase : (Size4KiB | base)) by (eapply Z.divide_trans; [|apply Hre]; by exists (2 ^ 27)).
  destruct (map_both_spec base (page_count size) k v vb s) as (fs & pt & pb & fa & Hm & Hl & Hsh & Hshb' & Hfr & Hk & Hfe & Ht).
  - apply Hr.
  - done.
  - eapply vacant_sub; [apply Hre|lia|lia].
  - eapply vacant_sub; [exact Hvb|lia|lia].
  - done.
  - lia.
  - lia.
  - apply Hr.
  - exists fs, pt, pb, fa. split; [|split; [done|split; [|split; [done|split; [done|split; [done|by eexists]]]]]].
    + unfold map_boot_info. erewrite sys_bind_lift by (apply virt_add_low; page_lia). cbv zeta.
      erewrite sys_bind_lift by (apply virt_sub_low; page_lia). cbv zeta.
      rewrite !page_containing_4k by page_lia. rewrite (round_down_id base) by done.
      assert (Hend : round_down (base + size - 1) Size4KiB = base + Size4KiB * (Z.of_nat (page_count size) - 1)).
      { destruct Hbase as [q ->]. unfold round_down.
        replace (q * Size4KiB + size - 1) with (size - 1 + q * Size4KiB) by lia.
        rewrite Z.mod_add by done. pose proof (Z.div_mod (size - 1) Size4KiB ltac:(done)). lia. }
      rewrite Hend, page_range_spec; [|by left|done| |lia|page_lia].
      * rewrite addr_range_seq by done. exact Hm.
      * apply Z.divide_add_r; [done|apply Z.divide_factor_l].
    + pose proof (ready_put v base size n k _ s Size4KiB base fs data_flags pt fa Hre Hr) as Hp.
      destruct Hp as [P1 P2 P3 P4 P5]; [done|lia|rewrite Hl; lia|done|done|]. by split.
Qed.
End BootInfoPages.

Section Boot.
Context {X : X86_64} {XL : X86_64_Laws X} {P : Profile} {RF : RelaFormat} {GD : Gdt} {BL : BootInfoLayout}.
Context {D : Type} {R : LegacyMemoryRegion D} {RA : RegionAddresses D}.
Context {M : Type} {PT : PageTable M (LegacyFrameAllocator D)} {PL : PageTableLaws M (LegacyFrameAllocator D)}.
Abbreviation system := (System M (LegacyFrameAllocator D)).

(** * create_boot_info *)

(** Where the regions start, and the size of everything, for [n] regions. *)
Definition info_offset : Z := round_down (boot_info_size + 8 - 1) 8.
Definition info_size (n : Z) : Z := info_offset + size_of_MemoryRegion * n.

(** The struct's layout and the number of descriptors are in the range that
    the address arithmetic is made for. *)
Definition info_ok (mm : list D) : Prop :=
  0 < boot_info_size < 2 ^ 20 /\ boot_info_align = 8 /\ Z.of_nat (length mm) < 2 ^ 20.

Definition info_cost (mm : list D) : nat := 7 * page_count (info_size (Z.of_nat (length mm) + 4)).

Lemma info_size_bounds mm : info_ok mm ->
  0 < info_size (Z.of_nat (length mm) + 4) < 2 ^ 39 /\ boot_info_size <= info_offset < boot_info_size + 8.
Proof.
  intros (Hs & _ & Hl). unfold info_size, info_offset, size_of_MemoryRegion.
  pose proof (round_down_bounds (boot_info_size + 8 - 1) 8 ltac:(done)). lia.
Qed.

(** The boot information, at [base] in both address spaces. *)
Record handed (m : Mappings) (sinfo : SystemInfo) (base : Z) (contents : BootInfo) (out : list MemoryRegion)
    (mm : list D) (s s' : system) : Prop := {
  hd_regions : memory_regions contents = mkMemoryRegions (base + info_offset) (Z.of_nat (length out));
  hd_inside : base + info_offset + size_of_MemoryRegion * Z.of_nat (length out) <=
    base + info_size (Z.of_nat (length mm) + 4);
  hd_pages : exists fs, length fs = page_count (info_size (Z.of_nat (length mm) + 4)) /\
    fresh fs (sys_frames s) (sys_frames s') /\
    forall i f j, fs !! i = Some f -> 0 <= j < Size4KiB ->
      physical (ktable s') (base + Size4KiB * Z.of_nat i + j) = Some (f + j, data_flags) /\
      physical (bootloader (sys_tables s')) (base + Size4KiB * Z.of_nat i + j) = Some (f + j, data_flags);
  hd_framebuffer : Optional.to_option (framebuffer contents) =
    match ma_framebuffer m, si_framebuffer sinfo with
    | Some a, Some fb => Some (Framebuffer_new a (info fb)) | _, _ => None end;
  hd_offset : Optional.to_option (physical_memory_offset contents) = ma_physical_memory_offset m;
  hd_rsdp : Optional.to_option (rsdp_address contents) = si_rsdp_addr sinfo;
  hd_tls : Optional.to_option (tls_template contents) = ma_tls_template m;
  hd_ramdisk : Optional.to_option (ramdisk_address contents) = ma_ramdisk_slice_start m /\
    ramdisk_len contents = ma_ramdisk_slice_len m;
}.

Lemma create_boot_info_spec m sinfo v vb k (s : system) mm ks kl :
  ready v 1 (info_cost mm + k) s -> shows (bootloader (sys_tables s)) vb ->
  (forall sz q l, vb sz q = Some l -> q + sz <= 2 ^ 39) ->
  original (sys_frames s) = mm -> info_ok mm -> Forall region_ok mm -> sorted mm ->
  ma_kernel_slice_start m = ks -> ma_kernel_slice_len m = kl ->
  0 <= ks -> 0 <= kl -> ks + kl < u64_size -> (forall nf, Forall (kernel_fits nf ks (ks + kl)) mm) ->
  (ma_framebuffer m = None <-> si_framebuffer sinfo = None) ->
  exists base contents fs s', create_boot_info m sinfo s =
      Ret ((base, contents, map_of (next_frame (sys_frames s')) ks (ks + kl) mm), s') /\
    ready (put_pages Size4KiB base fs data_flags v) 0 k s' /\
    reserved v base (info_size (Z.of_nat (length mm) + 4)) (sys_entries s') /\
    length fs = page_count (info_size (Z.of_nat (length mm) + 4)) /\
    cpu s' = cpu s /\ sys_memory s' = sys_memory s /\
    kernel_level_4_frame (sys_tables s') = kernel_level_4_frame (sys_tables s) /\
    fewer (sys_frames s) (sys_frames s') /\ (exists j, takes j (sys_frames s) (sys_frames s')) /\
    handed m sinfo base contents (map_of (next_frame (sys_frames s')) ks (ks + kl) mm) mm s s'.
Proof.
  intros Hr Hshb Hlow Horig Hinfo Hok Hsort Hmks Hmkl Hks Hkl Hov Hfit Hfb.
  destruct (info_size_bounds mm Hinfo) as [Hsize Hoff]. destruct Hinfo as (Hbs & Hal & Hlen).
  set (size := info_size (Z.of_nat (length mm) + 4)) in *.
  assert (Hone : level_4_entries size = 1).
  { unfold level_4_entries. symmetry. apply (Z.div_unique_pos _ _ _ (size - 1)); unfold LEVEL_4_SIZE; lia. }
  destruct (mapping_addr_spec size 8 3 v 0 (info_cost mm + k) s) as (base & e' & Hm & Hre & Hrd);
    [by rewrite Hone|done|lia|done|lia|].
  pose proof (rs_base _ _ _ _ Hre). pose proof (rs_top _ _ _ _ Hre). pose proof (rs_size _ _ _ _ Hre).
  assert (Hw : window size = 2 ^ 39) by (unfold window; rewrite Hone; lia).
  destruct (map_boot_info_spec base size 0 k v vb (with_entries s e') Hre Hrd Hshb) as
    (fs & pt & pb & fa & Hb & Hl & Hrd' & Hshb' & Hfr & Hfe & j & Ht); [|done|].
  { intros sz q l Hq. left. specialize (Hlow sz q l Hq). lia. }
  set (s' := with_both (with_entries s e') pt pb fa) in *.
  assert (Ho' : original fa = mm).
  { rewrite <- Horig. by apply (takes_original j (info_cost mm + k) (sys_frames s)); [apply Hr|]. }
  assert (Hcap : (length (map_of (next_frame fa) ks (ks + kl) mm) <= length mm + 3)%nat) by (by apply length_map_of).
  assert (Hmap : construct_memory_map fa (replicate (Z.to_nat (Z.of_nat (length mm) + 4)) None) ks kl =
    Ret (map_of (next_frame fa) ks (ks + kl) mm)).
  { rewrite construct_memory_map_spec; rewrite ?Ho'; try done. rewrite length_replicate. lia. }
  assert (Hbuf : (match ma_framebuffer m with
      | Some a => fb ← expect "there shouldn't be a mapping for the framebuffer if there is no framebuffer"
          (si_framebuffer sinfo); Ret (Some (Framebuffer_new a (info fb)))
      | None => Ret None end) =
    Ret (match ma_framebuffer m, si_framebuffer sinfo with
      | Some a, Some fb => Some (Framebuffer_new a (info fb)) | _, _ => None end)).
  { destruct (ma_framebuffer m), (si_framebuffer sinfo); try done. by specialize (proj2 Hfb eq_refl). }
  eexists base, _, fs, s'. split; [|split; [exact Hrd'|]].
  - unfold create_boot_info. rewrite sys_bind_get.
    erewrite sys_bind_lift.
    2: { unfold allocator_len. rewrite Horig. apply u64_add_ok. unfold u64_size. lia. }
    erewrite sys_bind_lift.
    2: { unfold combined_layout. fold info_offset. fold (info_size (Z.of_nat (length mm) + 4)). fold size.
         rewrite Hal. rewrite (proj2 (Z.leb_le size isize_max)) by (unfold isize_max; lia). reflexivity. }
    cbv beta iota. change (Z.max 8 8) with 8. erewrite sys_bind_Ret by exact Hm.
    erewrite sys_bind_lift by reflexivity.
    erewrite sys_bind_lift by (apply virt_add_low; unfold size, info_size, size_of_MemoryRegion in *; lia).
    erewrite sys_bind_Ret by exact Hb. rewrite sys_bind_get.
    erewrite sys_bind_lift by (rewrite Hmks, Hmkl; exact Hmap).
    erewrite sys_bind_lift by exact Hbuf. reflexivity.
  - split; [exact Hre|]. split; [exact Hl|]. split; [done|]. split; [done|]. split; [done|]. split; [exact Hfe|].
    split; [by exists j|]. split; try done.
    + change (sys_frames s') with fa. unfold info_size, size_of_MemoryRegion. lia.
    + exists fs. split; [done|]. split; [exact Hfr|]. intros i f o Hi Ho.
      assert (Hp : (Size4KiB | base + Size4KiB * Z.of_nat i)).
      { apply Z.divide_add_r; [|apply Z.divide_factor_l]. eapply Z.divide_trans; [|apply Hre]. by exists (2 ^ 27). }
      split; (eapply physical_4k; [apply Hrd' || exact Hshb'|done|done|by rewrite (put_pages_at _ _ _ _ _ i f), new_leaf_4k]).
    + apply Optional.to_from.
    + apply Optional.to_from.
    + apply Optional.to_from.
    + apply Optional.to_from.
    + split; [apply Optional.to_from|done].
Qed.
End Boot.
