(* ===== verification/Boot.v ===== *)
(** The boot as a whole: [create_page_tables] and [main_inner]
    (initium/src/main.rs) on top of [set_up_mappings] and [create_boot_info]
    (initium/src/initium.rs).  The last lemma composes them: what the kernel
    finds in its registers, its page table and its memory when the bootloader
    jumps to it, and that the memory map it is handed spares all of it. *)

From S2P Require Import Prelude X86 Synapse Entries FrameAlloc LegacyMemory BootMemory NukleusMemory Handoff Paging Mapping.
From S2P Require Import Kernel KernelSpace KernelSegments KernelFlags KernelRelocs KernelLoad KernelEntry.
From S2P Require Import Firmware Initium InitiumSteps InitiumStages InitiumMappings InitiumBoot.

(** A level 4 table of zeroes maps nothing. *)
Class EmptyTable (M : Type) {OPT : OffsetPageTable M} {F : Type} {FA : FrameAllocator F} {FL : FreeList F}
    {PT : PageTable M F} {PL : PageTableLaws M F} : Prop :=
  empty_table m a : (forall j, 0 <= j < Size4KiB -> m (a + j) = 0) ->
    shows (offset_page_table m a 0) (fun _ _ => None).

(** * create_page_tables *)

Definition zero_page (m : mem) (a : Z) : mem := write_bytes m a (replicate (Z.to_nat Size4KiB) 0).

Lemma zero_page_inside m a j : 0 <= j < Size4KiB -> zero_page m a (a + j) = 0.
Proof.
  intros Hj. unfold zero_page, write_bytes. rewrite length_replicate, Z2Nat.id by done.
  destruct (Z.leb_spec a (a + j)), (Z.ltb_spec (a + j) (a + Size4KiB)); try lia.
  cbn [andb]. rewrite nth_lookup, lookup_replicate_2; [done|lia].
Qed.

Lemma zero_page_outside m a x : x < a \/ a + Size4KiB <= x -> zero_page m a x = m x.
Proof.
  intros Hx. unfold zero_page, write_bytes. rewrite length_replicate, Z2Nat.id by done.
  destruct (Z.leb_spec a x), (Z.ltb_spec x (a + Size4KiB)); done || lia.
Qed.

(** Memory with the new table of the bootloader at [f], and with the empty
    table of the kernel at [g] besides. *)
Definition low_table (m : mem) (old f : Z) : mem :=
  write_bytes (zero_page m f) f (read_bytes (zero_page m f) old 8).
Definition both_tables (m : mem) (old f g : Z) : mem := zero_page (low_table m old f) g.

Lemma low_table_entry m old f j :
  old + 8 <= f \/ f + Size4KiB <= old -> 0 <= j < 8 -> low_table m old f (f + j) = m (old + j).
Proof.
  intros Hold Hj. unfold low_table, write_bytes, read_bytes. rewrite length_fmap, length_seq.
  assert (Hlt : (f <=? f + j) && (f + j <? f + Z.of_nat 8) = true)
    by (apply andb_true_iff; rewrite Z.leb_le, Z.ltb_lt; lia).
  rewrite Hlt. replace (f + j - f) with j by lia. rewrite nth_lookup, list_lookup_fmap, lookup_seq_lt by lia.
  simpl. rewrite zero_page_outside by page_lia. f_equal. lia.
Qed.

Lemma low_table_rest m old f j : 8 <= j < Size4KiB -> low_table m old f (f + j) = 0.
Proof.
  intros Hj. unfold low_table, write_bytes at 1. unfold read_bytes. rewrite length_fmap, length_seq. case_match.
  - rewrite andb_true_iff, Z.leb_le, Z.ltb_lt in *. lia.
  - apply zero_page_inside. lia.
Qed.

Lemma low_table_outside m old f x : x < f \/ f + Size4KiB <= x -> low_table m old f x = m x.
Proof.
  intros Hx. unfold low_table, write_bytes at 1. unfold read_bytes. rewrite length_fmap, length_seq. case_match.
  - rewrite andb_true_iff, Z.leb_le, Z.ltb_lt in *. page_lia.
  - by apply zero_page_outside.
Qed.

Section Tables.
Context {X : X86_64} {XL : X86_64_Laws X} {D : Type} {R : LegacyMemoryRegion D}.
Context {M : Type} {PT : PageTable M (LegacyFrameAllocator D)} {PL : PageTableLaws M (LegacyFrameAllocator D)}.
Context {OPT : OffsetPageTable M} {ET : EmptyTable M (F := LegacyFrameAllocator D)}.
Abbreviation system := (System M (LegacyFrameAllocator D)).

(** The state in which the page tables have been made, in the frames [f] and
    [g], with the allocator [fa]. *)
Definition created (c : Cpu) (m : mem) (f g : Z) (fa : LegacyFrameAllocator D) : system :=
  mkSystem (mkCpu (efer c) (cr0 c) f (gdtr c) (cs c) (ds c) (es c) (ss c)) (both_tables m (cr3 c) f g) fa
    (mkPageTables (offset_page_table (low_table m (cr3 c) f) f 0)
       (offset_page_table (both_tables m (cr3 c) f g) g 0) g) Entries_new.

Lemma create_page_tables_spec k c m (fa : LegacyFrameAllocator D) :
  has_frames (2 + k) fa -> 0 <= cr3 c < 2 ^ 47 -> (forall f, f ∈ fa_free fa -> f < 2 ^ 47) ->
  exists f g fa', let s := created c m f g fa' in
    create_page_tables c m fa = Ret (sys_tables s, cpu s, sys_memory s, fa') /\
    fa_free fa = f :: g :: fa_free fa' /\ has_frames k fa' /\ allocate_frames 2 fa = Ret ([Some f; Some g], fa').
Proof.
  intros Hk Hc Htop. destruct (allocate_has (S k) fa Hk) as (f & fa1 & Ha & Hf & Hk1).
  destruct (allocate_has k fa1 Hk1) as (g & fa2 & Ha2 & Hf2 & Hk2). rewrite Hf2 in Hf.
  destruct (fa_aligned _ fa f (proj1 Hk)) as (_ & Hf0 & _); [rewrite Hf; left|].
  destruct (fa_aligned _ fa g (proj1 Hk)) as (_ & Hg0 & _); [rewrite Hf; right; left|].
  pose proof (Htop f ltac:(rewrite Hf; left)). pose proof (Htop g ltac:(rewrite Hf; right; left)).
  exists f, g, fa2. split; [|split; [done|split; [done|]]].
  - unfold create_page_tables. rewrite virt_new_low, bind_Ret by lia.
    rewrite virt_add_low, bind_Ret by lia. rewrite Ha, bind_Ret. cbn [fst snd expect]. rewrite bind_Ret.
    rewrite virt_add_low, bind_Ret by lia. cbv zeta. rewrite Ha2, bind_Ret. cbn [fst snd expect].
    rewrite bind_Ret, virt_add_low, bind_Ret by lia. rewrite !Z.add_0_l. reflexivity.
  - simpl. rewrite Ha, bind_Ret. simpl. by rewrite Ha2.
Qed.

Lemma created_empty c m f g fa : shows (ktable (created c m f g fa)) (fun _ _ => None).
Proof. apply empty_table. intros j Hj. by apply zero_page_inside. Qed.

(** C40: [create_page_tables] takes the first two free frames.  The kernel's
    table, in the second, maps nothing; the first, which the processor uses
    from then on, holds entry 0 of the old table (the first 512 GiB of
    addresses) and is empty otherwise; memory is the same everywhere else. *)
Theorem create_page_tables_correct k c m (fa : LegacyFrameAllocator D) :
  has_frames (2 + k) fa -> 0 <= cr3 c < 2 ^ 47 ->
  (forall f, f ∈ fa_free fa -> f < 2 ^ 47 /\ (cr3 c + Size4KiB <= f \/ f + Size4KiB <= cr3 c)) ->
  exists f g t c' m' fa', create_page_tables c m fa = Ret (t, c', m', fa') /\
    fa_free fa = f :: g :: fa_free fa' /\ has_frames k fa' /\
    cr3 c' = f /\ (efer c', cr0 c', gdtr c', cs c') = (efer c, cr0 c, gdtr c, cs c) /\
    kernel_level_4_frame t = g /\ shows (kernel_table t) (fun _ _ => None) /\
    (forall j, 0 <= j < 8 -> m' (f + j) = m (cr3 c + j)) /\ (forall j, 8 <= j < Size4KiB -> m' (f + j) = 0) /\
    (forall a, ~ (f <= a < f + Size4KiB) -> ~ (g <= a < g + Size4KiB) -> m' a = m a).
Proof.
  intros Hk Hc Htop.
  destruct (create_page_tables_spec k c m fa Hk Hc) as (f & g & fa' & Hr & Hf & Hk' & _); [intros f Hf; by apply Htop|].
  assert (Hfg : f + Size4KiB <= g \/ g + Size4KiB <= f).
  { pose proof (fa_nodup _ _ (proj1 Hk)) as Hnd. rewrite Hf in Hnd. apply NoDup_cons in Hnd as [Hn _].
    destruct (fa_aligned _ fa f (proj1 Hk)) as (Hfa & _); [rewrite Hf; left|].
    destruct (fa_aligned _ fa g (proj1 Hk)) as (Hga & _); [rewrite Hf; right; left|].
    destruct (decide (f < g)); [left; by apply divide_lt_step|]. right.
    apply divide_lt_step; try done. destruct (decide (g = f)) as [->|]; [|lia]. by destruct Hn; left. }
  destruct (Htop f ltac:(rewrite Hf; left)) as [_ Hold].
  eexists f, g, _, _, _, fa'. split; [exact Hr|]. split; [done|]. split; [done|]. split; [done|]. split; [done|].
  split; [done|]. split; [exact (created_empty c m f g fa')|]. simpl. unfold both_tables. split; [|split].
  - intros j Hj. rewrite zero_page_outside by page_lia. apply low_table_entry; [page_lia|done].
  - intros j Hj. rewrite zero_page_outside by page_lia. by apply low_table_rest.
  - intros a Ha Hb. rewrite zero_page_outside by lia. apply low_table_outside. lia.
Qed.
End Tables.

(** * main_inner *)

Section Booting.
Context {X : X86_64} {XL : X86_64_Laws X} {P : Profile} {RF : RelaFormat} {GD : Gdt} {Gu : Guids} {BL : BootInfoLayout}.
Context {D : Type} {R : LegacyMemoryRegion D} {RA : RegionAddresses D}.
Context {M : Type} {PT : PageTable M (LegacyFrameAllocator D)} {PL : PageTableLaws M (LegacyFrameAllocator D)}.
Context {OPT : OffsetPageTable M}.
Abbreviation system := (System M (LegacyFrameAllocator D)).

(** ** What later stages keep *)

(** The leaf that a table reports at an address. *)
Lemma physical_leaf pt v a x : shows pt v -> physical pt a = Some x ->
  exists sz l, page_size sz /\ v sz (round_down a sz) = Some l.
Proof.
  intros [Hi Hv] Hp. unfold physical in Hp.
  destruct (v Size4KiB (round_down a Size4KiB)) as [l|] eqn:E4; [exists Size4KiB, l; split; [by left|done]|].
  destruct (v Size2MiB (round_down a Size2MiB)) as [l|] eqn:E2; [exists Size2MiB, l; split; [by right|done]|].
  by rewrite translate_none in Hp by (done || by rewrite Hv).
Qed.

Lemma physical_extends pt pt' v v' a x :
  shows pt v -> shows pt' v' -> extends v v' -> physical pt a = Some x -> physical pt' a = Some x.
Proof.
  intros Hs Hs' He Hp. destruct (physical_leaf pt v a x Hs Hp) as (sz & [f fl] & [-> | ->] & Hl);
    unfold physical in *.
  - rewrite (shows_translate_4k pt v a f fl Hs Hl) in Hp.
    by rewrite (shows_translate_4k pt' v' a f fl Hs' (He _ _ _ Hl)).
  - rewrite (shows_translate_2m pt v a f fl Hs Hl) in Hp.
    by rewrite (shows_translate_2m pt' v' a f fl Hs' (He _ _ _ Hl)).
Qed.

(** The guard page stays unmapped when a window is reserved elsewhere: the
    page behind it is mapped, so the window is another one. *)
Lemma guard_kept pt pt' v base size e fs guard x :
  shows pt v -> reserved v base size e -> length fs = page_count size -> 0 < size ->
  shows pt' (put_pages Size4KiB base fs data_flags v) -> (2 ^ 39 | guard) ->
  translate pt guard = NotMapped -> physical pt (guard + Size4KiB) = Some x ->
  translate pt' guard = NotMapped.
Proof.
  intros Hs Hre Hlen Hsize Hs' Hg Hn Hp.
  assert (H4 : (Size4KiB | guard)) by (eapply Z.divide_trans; [|exact Hg]; by exists (2 ^ 27)).
  assert (H2 : (Size2MiB | guard)) by (eapply Z.divide_trans; [|exact Hg]; by exists (2 ^ 18)).
  assert (Hno : forall sz, page_size sz -> v sz guard = None).
  { intros sz Hsz. destruct (v sz guard) as [[f fl]|] eqn:E; [|done]. exfalso.
    assert (Ht : translate pt guard <> NotMapped); [|done].
    destruct Hsz as [-> | ->].
    - by rewrite (shows_translate_4k pt v guard f fl Hs) by (by rewrite round_down_id).
    - by rewrite (shows_translate_2m pt v guard f fl Hs) by (by rewrite round_down_id). }
  destruct (physical_leaf pt v _ x Hs Hp) as (sz & l & [-> | ->] & Hl).
  2: { rewrite (round_down_unique guard) in Hl by (done || page_lia). by rewrite Hno in Hl by (by right). }
  rewrite round_down_id in Hl by (done || by apply Z.divide_add_r, Z.divide_refl).
  pose proof (window_skip v base size e guard Size4KiB _ l Hre Hg Hl Size4KiB_pos ltac:(page_lia) ltac:(page_lia)) as Hw.
  pose proof (page_count_window size Hsize) as Hc.
  assert (Hout : forall sz, page_size sz -> put_pages Size4KiB base fs data_flags v sz guard = None).
  { intros sz Hsz. rewrite put_pages_other by (try done; right; rewrite Hlen; page_lia). by apply Hno. }
  apply translate_none; [apply Hs'|..]; rewrite (proj2 Hs'), round_down_id by done; apply Hout; [by left|by right].
Qed.

(** What [set_up_mappings] promised holds after the boot information has been
    made. *)
Lemma set_up_later kernel off entries c fb sinfo mp (s s1 s' : system) m n k v base size e fs :
  set_up kernel off entries c fb sinfo mp s s1 m -> ready v n k s1 ->
  reserved v base size e -> length fs = page_count size -> 0 < size ->
  shows (ktable s') (put_pages Size4KiB base fs data_flags v) -> cpu s' = cpu s1 -> sys_memory s' = sys_memory s1 ->
  fewer (sys_frames s1) (sys_frames s') -> set_up kernel off entries c fb sinfo mp s s' m.
Proof.
  intros [U1 U2 U3 U4 U5 U6 U7 U8 U9 U10 U11] Hrd Hre Hlen Hsize Hs' Hcpu Hmem Hfe.
  pose proof (rd_shows _ _ _ _ Hrd) as Hs. pose proof (page_count_window size Hsize) as Hw.
  assert (He : extends v (put_pages Size4KiB base fs data_flags v)).
  { apply put_pages_extends; [done|]. eapply vacant_sub; [apply Hre|done|]. rewrite Hlen. lia. }
  assert (Hph : forall a x, physical (ktable s1) a = Some x -> physical (ktable s') a = Some x)
    by (intros a x; by eapply physical_extends).
  assert (Hbuf : forall b o, buffer_mapped (ktable s1) b o -> buffer_mapped (ktable s') b o).
  { intros [b|] [[f len]|]; simpl; try done. intros Hb i Hi. by apply Hph, Hb. }
  split; try done.
  - intros a b Hb. specialize (U4 a b Hb). unfold byte_at in *. rewrite Hmem.
    destruct (physical (ktable s1) a) as [x|] eqn:E; [|done]. by rewrite (Hph a x E).
  - destruct U5 as (guard & gs & G0 & G1 & G2 & G3 & G4 & G5).
    exists guard, gs. split; [done|]. split; [done|]. split; [|split; [done|split]].
    + destruct gs as [|g0 gs]; [done|]. eapply (guard_kept (ktable s1)); try done.
      pose proof (G5 0%nat g0 0 eq_refl ltac:(done)) as H0. rewrite Z.mul_0_r, !Z.add_0_r in H0. exact H0.
    + eapply fresh_between; [apply fewer_refl|exact G4|exact Hfe].
    + intros i f j Hi Hj. by apply Hph, G5.
  - intros a Ha. by apply Hph, U6.
  - rewrite Hcpu. destruct U7 as [U7 U7']. split; [by eapply fresh_between; [apply fewer_refl|exact U7|exact Hfe]|].
    intros j Hj. by apply Hph, U7'.
  - by apply Hbuf.
  - destruct U9. split; [by apply Hbuf|done].
  - destruct U10 as (o & Ho & Hp). exists o. split; [done|]. intros a Ha. by apply Hph, Hp.
  - by rewrite Hcpu.
Qed.

Lemma handed_earlier m sinfo base contents out mm (s s1 s' : system) :
  fewer (sys_frames s) (sys_frames s1) -> handed m sinfo base contents out mm s1 s' ->
  handed m sinfo base contents out mm s s'.
Proof.
  intros Hfe []. split; try done. destruct hd_pages as (fs & H1 & H2 & H3). exists fs.
  split; [done|]. split; [by eapply fresh_between; [exact Hfe|exact H2|apply fewer_refl]|done].
Qed.

(** ** The memory map *)

(** The regions handed to the kernel, at the end of a run of the allocator from
    [fa0] on. *)
Lemma map_spares (mm : list D) j ks kl (fa0 fa : LegacyFrameAllocator D) r a :
  Forall region_ok mm -> sorted mm -> 0 <= ks /\ 0 < kl /\ ks + kl < u64_size ->
  (forall nf, Forall (kernel_fits nf ks (ks + kl)) mm) ->
  LegacyFrameAllocator_new mm = Ret fa0 -> takes j fa0 fa ->
  r ∈ map_of (next_frame fa) ks (ks + kl) mm -> kind r = Usable -> in_region a r ->
  ~ (ks <= a < ks + kl) /\
  forall f, f ∈ usable_frames_from 4096 mm -> f ∉ fa_free fa -> ~ (f <= a < f + Size4KiB).
Proof.
  intros Hok Hs Hk Hfit Hnew (n & rs & _ & Hrun) Hr Hkind Ha.
  destruct (legacy_new_spec mm Hok Hs) as (fa1 & Hnew1 & Hinv & Horig & Hfree).
  rewrite Hnew in Hnew1. injection Hnew1 as <-.
  destruct (allocate_frames_spec (FL := legacy_free_list) n 0 fa0 Hinv) as (fa2 & Hrun2 & Hdrop & _).
  rewrite Hrun in Hrun2. injection Hrun2 as Hrs <-. simpl in Hrs, Hdrop.
  assert (Ho : original fa = mm).
  { rewrite <- Horig. by destruct (allocate_frames_advance n fa0 rs fa ltac:(split; apply Hinv) Hrun) as (_ & ? & _). }
  assert (Hho : handed_over mm n ks kl rs fa (map_of (next_frame fa) ks (ks + kl) mm)).
  { split; try done.
    - by exists fa0.
    - exists (replicate (length mm + 4) None). split; [rewrite length_replicate; unfold allocator_len; rewrite Ho; lia|].
      rewrite construct_memory_map_spec; rewrite ?Ho; try done; try lia.
      rewrite length_replicate. pose proof (length_map_of (next_frame fa) ks (ks + kl) mm Hok Hs (Hfit _)). lia. }
  destruct (usable_byte _ _ _ _ _ _ _ r a Hho Hr Hkind Ha) as [H1 H2]. split; [done|].
  intros f Hf Hn. apply H2. rewrite <- Hfree in Hf. apply list_elem_of_lookup in Hf as [i Hi].
  rewrite Hrs. apply list_elem_of_fmap. exists i. split; [done|]. apply elem_of_seq. split; [lia|].
  destruct (decide (i < 0 + n)%nat) as [|Hge]; [done|]. destruct Hn. change (f ∈ legacy_free fa).
  rewrite Hdrop. apply list_elem_of_lookup. exists (i - n)%nat. rewrite lookup_drop.
  by replace (n + (i - n))%nat with i by lia.
Qed.

(** ** The whole boot *)

Definition system_info_of (fb : option RawFramebufferInfo) (ramdisk : option (Z * Z)) (rsdp : option Z) : SystemInfo :=
  mkSystemInfo fb rsdp (fst <$> ramdisk) (match ramdisk with Some rd => snd rd | None => 0 end).

(** What the firmware leaves: a sorted memory map in which the kernel file lies
    in whole regions, and whose first two frames are [f] and [g]; an identity
    mapping of low memory in entry 0 of the level 4 table that is in use; and
    a machine on which the mappings can be set up. *)
Record boot_ok kernel off e1 entries lo hi c_sw fb ramdisk rsdp mp (mm : list D) c m f g (spare : nat) : Prop := {
  bo_map : Forall region_ok mm /\ sorted mm /\ info_ok mm;
  bo_kernel : 0 <= Kernel.start_address kernel /\ 0 < kernel_len kernel /\
    Kernel.start_address kernel + kernel_len kernel < u64_size;
  bo_fits nf : Forall (kernel_fits nf (Kernel.start_address kernel)
    (Kernel.start_address kernel + kernel_len kernel)) mm;
  bo_cr3 : 0 <= cr3 c < 2 ^ 47;
  bo_first : exists rest, usable_frames_from 4096 mm = f :: g :: rest;
  bo_low x : x ∈ usable_frames_from 4096 mm -> x < 2 ^ 47;
  bo_firmware : exists vb, shows (offset_page_table (low_table m (cr3 c) f) f 0) vb /\
    forall sz q l, vb sz q = Some l -> q + sz <= 2 ^ 39;
  bo_set_up fa : original fa = mm -> legacy_inv fa -> usable_frames_from 4096 mm = f :: g :: legacy_free fa ->
    setup_ok kernel off e1 entries lo hi 1 (info_cost mm + spare) c_sw fb (system_info_of fb ramdisk rsdp) mp
      (created c m f g fa);
}.

(** The machine at the jump to the kernel: the registers that [context_switch]
    loads; the kernel's address space; the boot information, in that address
    space; and a memory map whose usable regions spare the kernel file and
    every frame that was taken, the tables, the stack, the descriptor table
    and the boot information among them. *)
Record booted kernel off entries c_sw fb sinfo mp (mm : list D) (s0 s' : system) (m : Mappings)
    (a : Addresses) (contents : BootInfo) (out : list MemoryRegion) (spare : nat) : Prop := {
  bt_registers : a = mkAddresses (kernel_level_4_frame (sys_tables s')) (ma_stack_top m) (ma_entry_point m) (boot_info a);
  bt_set_up : set_up kernel off entries c_sw fb sinfo mp s0 s' m;
  bt_boot_info : handed m sinfo (boot_info a) contents out mm s0 s';
  bt_tables : kernel_level_4_frame (sys_tables s') ∈ usable_frames_from 4096 mm /\
    (kernel_level_4_frame (sys_tables s') ∉ fa_free (sys_frames s')) /\
    cr3 (cpu s0) ∈ usable_frames_from 4096 mm /\ cr3 (cpu s0) ∉ fa_free (sys_frames s');
  bt_spared r x : r ∈ out -> kind r = Usable -> in_region x r ->
    ~ (Kernel.start_address kernel <= x < Kernel.start_address kernel + kernel_len kernel) /\
    forall y, y ∈ usable_frames_from 4096 mm -> y ∉ fa_free (sys_frames s') -> ~ (y <= x < y + Size4KiB);
  bt_max : 0 < mp /\ forall y, y ∈ usable_frames_from 4096 mm -> 0 <= y /\ y + Size4KiB <= mp;
  bt_space : exists v, shows (ktable s') v /\ covered v (sys_entries s');
  bt_map : out = map_of (next_frame (sys_frames s')) (Kernel.start_address kernel)
    (Kernel.start_address kernel + kernel_len kernel) mm;
  bt_free : has_frames spare (sys_frames s') /\
    forall y, y ∈ fa_free (sys_frames s') -> y ∈ usable_frames_from 4096 mm;
}.

Lemma same_framebuffer kernel off entries c_sw fb sinfo mp (s s' : system) m :
  set_up kernel off entries c_sw fb sinfo mp s s' m -> ma_framebuffer m = None <-> fb = None.
Proof. intros [_ _ _ _ _ _ _ U _ _ _]. by destruct (ma_framebuffer m), fb. Qed.

(** Frames of the map lie below its largest address. *)
Lemma frames_below_max (mm : list D) (fa : LegacyFrameAllocator D) mp y :
  Forall region_ok mm -> original fa = mm -> max_physical_address fa = Ret mp -> y ∈ usable_frames_from 4096 mm ->
  0 <= y /\ y + Size4KiB <= mp.
Proof.
  intros Hok Ho Hm (d & Hd & _ & _ & H1 & _ & H2)%elem_of_usable_frames_from; [|done|by exists 1].
  rewrite <- Ho in Hok, Hd. destruct (max_physical_address_is_max fa Hok) as [[_ [msg Hp]]|(a & Ha & _ & Hall)]; [congruence|].
  rewrite Hm in Ha. injection Ha as <-. rewrite Forall_forall in Hall. specialize (Hall d Hd). lia.
Qed.

(** The first two frames stay taken. *)
Lemma taken_frames (fa0 fa fa' : LegacyFrameAllocator D) f g x k :
  has_frames k fa0 -> fa_free fa0 = f :: g :: fa_free fa -> fewer fa fa' -> x = f \/ x = g ->
  x ∈ fa_free fa0 /\ x ∉ fa_free fa'.
Proof.
  intros [Hi _] Hf Hfew Hx. pose proof (fa_nodup _ fa0 Hi) as Hnd. rewrite Hf in Hnd |- *.
  apply NoDup_cons in Hnd as [N1 Hnd]. apply NoDup_cons in Hnd as [N2 _].
  split; [destruct Hx as [-> | ->]; [left|right; left]|]. intros Hin. apply (fewer_elem fa) in Hin; [|done].
  destruct Hx as [-> | ->]; [by apply N1; right|done].
Qed.

(** The boot: [main_inner], from [exit_boot_services] on, ends with the jump to
    the kernel without panic, and leaves the machine as [booted] says. *)
Lemma main_inner_spec kernel off e1 entries lo hi c_sw fb ramdisk config_table rsdp mp (mm : list D) c m f g spare :
  rsdp_addr config_table = Ret rsdp ->
  boot_ok kernel off e1 entries lo hi c_sw fb ramdisk rsdp mp mm c m f g spare ->
  exists a contents out s' fa ma, main_inner kernel c_sw fb ramdisk config_table mm c m = Ret ((a, contents, out), s') /\
    booted kernel off entries c_sw fb (system_info_of fb ramdisk rsdp) mp mm (created c m f g fa) s' ma a contents out spare.
Proof.
  intros Hrsdp [(Hok & Hsort & Hinfo) Hk Hfit Hcr3 [rest Hrest] Hlow (vb & Hvb & Hvlow) Hset].
  destruct (legacy_new_spec mm Hok Hsort) as (fa0 & Hnew & Hinv & Horig & Hfree).
  assert (Hhas : has_frames (2 + 0) fa0) by (split; [exact Hinv|]; change (2 + 0 <= length (legacy_free fa0))%nat;
    rewrite Hfree, Hrest; simpl; lia).
  destruct (create_page_tables_spec 0 c m fa0 Hhas Hcr3) as (f' & g' & fa & Hct & Hfa & [Hinv1 _] & Hrun);
    [intros x Hx; apply Hlow; by rewrite <- Hfree|].
  change (legacy_free fa0 = f' :: g' :: legacy_free fa) in Hfa. rewrite Hfree, Hrest in Hfa.
  injection Hfa as <- <- Hfa.
  assert (Ho : original fa = mm).
  { rewrite <- Horig. eapply (takes_original 2 2 fa0 fa); [exact Hhas|]. exists 2%nat. by eexists. }
  pose proof (Hset fa Ho Hinv1 ltac:(by rewrite Hrest, Hfa)) as Hs0.
  set (s0 := created c m f g fa) in *. set (sinfo := system_info_of fb ramdisk rsdp) in *.
  destruct (set_up_mappings_spec _ _ _ _ _ _ _ _ _ _ _ _ _ Hs0) as (ma & s1 & v & Hsu & Hrd & Hun & Hup).
  destruct (up_slice _ _ _ _ _ _ _ _ _ _ Hup) as [Hms Hml]. destruct (un_takes _ _ Hun) as [j1 Ht1].
  assert (Ho1 : original (sys_frames s1) = mm).
  { rewrite <- Ho. eapply (takes_original j1 0 fa); [|exact Ht1]. split; [exact Hinv1|lia]. }
  destruct (create_boot_info_spec ma sinfo v vb spare s1 mm _ _ Hrd ltac:(by rewrite (un_bootloader _ _ Hun))
    Hvlow Ho1 Hinfo Hok Hsort Hms Hml) as (base & contents & fs & s' & Hcb & Hrd' & Hre & Hlen & Hcpu & Hmem & Hl4 &
    Hfe & [j2 Ht2] & Hha); [lia|lia|lia|exact Hfit|by apply (same_framebuffer _ _ _ _ _ _ _ _ _ _ Hup)|].
  destruct (info_size_bounds mm Hinfo) as [[Hsz _] _].
  pose proof (set_up_later _ _ _ _ _ _ _ s0 s1 s' ma _ _ v base _ _ fs Hup Hrd Hre Hlen Hsz (rd_shows _ _ _ _ Hrd')
    Hcpu Hmem Hfe) as Hup'.
  eexists (mkAddresses (kernel_level_4_frame (sys_tables s')) (ma_stack_top ma) (ma_entry_point ma) base), contents, _, s', fa, ma.
  split.
  - unfold main_inner. rewrite Hnew, bind_Ret, Hct, bind_Ret, Hrsdp, bind_Ret. cbv zeta.
    change (mkSystem (cpu s0) (sys_memory s0) fa (sys_tables s0) Entries_new) with s0.
    unfold load_and_switch_to_kernel. erewrite sys_bind_Ret by exact Hsu. erewrite sys_bind_Ret by exact Hcb.
    cbv beta iota. unfold switch_to_kernel. erewrite sys_bind_Ret by (rewrite sys_bind_get; reflexivity). reflexivity.
  - assert (Hfew : fewer fa (sys_frames s')) by (eapply fewer_trans; [apply Hun|exact Hfe]).
    assert (Hout : forall x, x = f \/ x = g -> x ∈ usable_frames_from 4096 mm /\ x ∉ fa_free (sys_frames s')).
    { intros x Hx. rewrite <- Hfree. eapply (taken_frames fa0 fa); [exact Hhas| |exact Hfew|exact Hx].
      change (legacy_free fa0 = f :: g :: legacy_free fa). by rewrite Hfree, Hrest, Hfa. }
    split; [done|exact Hup'|eapply handed_earlier; [apply Hun|exact Hha]| | | | |done|].
    + rewrite Hl4, (un_level_4 _ _ Hun). destruct (Hout g ltac:(by right)), (Hout f ltac:(by left)). done.
    + intros r x Hr Hkd Hx. eapply (map_spares mm (2 + (j1 + j2)) _ _ fa0); [done|done|exact Hk|exact Hfit|exact Hnew| |exact Hr|done|done].
      eapply takes_trans; [by exists 2%nat; eexists|]. by eapply takes_trans.
    + destruct (su_max _ _ _ _ _ _ _ _ _ _ _ _ _ Hs0) as [Hmax Hmp]. split; [lia|].
      intros y Hy. by apply (frames_below_max mm fa).
    + eexists. split; [apply Hrd'|apply Hrd'].
    + split; [apply Hrd'|]. intros y Hy. rewrite Hrest. do 2 right.
      rewrite Hfa. change (y ∈ fa_free fa). by eapply (fewer_elem fa).
Qed.
End Booting.
