(* ===== verification/FirmwareFiles.v ===== *)
(** initium/src/main.rs: files loaded through the firmware, and [efi_main].

    The bootloader finds the volume it was started from, opens a file on it,
    and reads it into pages that it allocates; this is done for the kernel and
    for the ramdisk, before the boot services end.  The boot services of the
    uefi crate are the class [BootServices]; [BootServicesLaws] says what they do
    to the protocols and files that are open and to the allocated pages. *)

From S2P Require Import Prelude X86 Synapse FrameAlloc LegacyMemory Paging Kernel KernelSpace Firmware Initium.

(** * The boot services *)

Inductive protocol : Type := LoadedImage | DevicePath | SimpleFileSystem | GraphicsOutputProtocol.

#[export] Instance protocol_eq_dec : EqDecision protocol.
Proof. solve_decision. Defined.

#[export] Instance protocol_countable : Countable protocol.
Proof.
  apply (inj_countable'
    (fun p => match p with LoadedImage => 0 | DevicePath => 1 | SimpleFileSystem => 2 | GraphicsOutputProtocol => 3 end)%nat
    (fun n => match n with O => LoadedImage | 1%nat => DevicePath | 2%nat => SimpleFileSystem | _ => GraphicsOutputProtocol end)).
  by intros [].
Defined.

(** The calls, on the firmware's state [S]: [open_protocol] of a handle by an
    agent, exclusively, which returns the interface; the [close_protocol] of its
    drop; [LoadedImage::device]; [locate_device_path]; [open_volume]; [open] of a
    directory for reading; whether [into_type] gives a regular file; the
    [file_size] of [get_info]; [read] of so many bytes; the [close] of a file's
    drop; and [allocate_pages] of so many pages of loader data, anywhere.
    [utf16] is [CStr16::from_str_with_buf]. *)
Class BootServices (S : Type) := {
  open_protocol : protocol -> Z -> Z -> S -> result Z unit * S;
  close_protocol : protocol -> Z -> Z -> S -> S;
  image_device : Z -> Z;
  locate_device_path : protocol -> Z -> S -> result Z unit * S;
  open_volume : Z -> S -> result Z unit * S;
  utf16 : string -> result (list Z) unit;
  file_open : Z -> list Z -> S -> result Z unit * S;
  file_is_regular : Z -> S -> result bool unit * S;
  file_size : Z -> S -> result Z unit * S;
  file_read : Z -> Z -> S -> result (list Z) unit * S;
  file_close : Z -> S -> S;
  allocate_pages : Z -> S -> result Z unit * S;
}.

(** * Computations that may return early *)

(** The firmware and memory. *)
Record Stage (S : Type) : Type := mkStage { services : S; stage_memory : mem }.
Arguments mkStage {S} services stage_memory.
Arguments services {S} s.
Arguments stage_memory {S} s.

(** [None] is the early [return None]. *)
Definition fw (S A : Type) : Type := Stage S -> outcome (option A * Stage S).

#[global] Instance fw_ret {S} : MRet (fw S) := fun A a s => Ret (Some a, s).
#[global] Instance fw_bind {S} : MBind (fw S) := fun A B f m s =>
  r ← m s;
  match r with
  | (Some a, s) => f a s
  | (None, s) => Ret (None, s)
  end.

Section Monad.
Context {S : Type}.

(** A call whose error is an early return, and one whose error is a panic. *)
Definition call {A} (f : S -> result A unit * S) : fw S A := fun s =>
  let '(r, fs) := f (services s) in
  Ret (match r with Ok a => Some a | Err _ => None end, mkStage fs (stage_memory s)).

Definition call_unwrap {A} (f : S -> result A unit * S) : fw S A := fun s =>
  let '(r, fs) := f (services s) in
  a ← expect_ok "called `Result::unwrap()` on an `Err` value" r;
  Ret (Some a, mkStage fs (stage_memory s)).

Definition lift {A} (m : outcome A) : fw S A := fun s => a ← m; Ret (Some a, s).

(** [body], with the drop [close] of a local behind it. *)
Definition dropping {A} (close : S -> S) (body : fw S A) : fw S A := fun s =>
  r ← body s;
  let '(o, s) := r in
  Ret (o, mkStage (close (services s)) (stage_memory s)).

Definition write_memory (a : Z) (bytes : list Z) : fw S unit := fun s =>
  Ret (Some tt, mkStage (services s) (write_bytes (stage_memory s) a bytes)).

Definition read_memory (a : Z) (count : Z) : fw S (list Z) := fun s =>
  Ret (Some (read_bytes (stage_memory s) a (Z.to_nat count)), s).

Lemma fw_bind_Some {A B} (m : fw S A) (f : A -> fw S B) s a s' : m s = Ret (Some a, s') -> (m ≫= f) s = f a s'.
Proof. unfold mbind, fw_bind. intros H. by rewrite H. Qed.

Lemma fw_bind_None {A B} (m : fw S A) (f : A -> fw S B) s s' : m s = Ret (None, s') -> (m ≫= f) s = Ret (None, s').
Proof. unfold mbind, fw_bind. intros H. by rewrite H. Qed.

Lemma fw_bind_Panic {A B} (m : fw S A) (f : A -> fw S B) s msg : m s = Panic msg -> (m ≫= f) s = Panic msg.
Proof. unfold mbind at 1, fw_bind. intros H. by rewrite H. Qed.

Lemma call_Ok {A} (f : S -> result A unit * S) s a fs :
  f (services s) = (Ok a, fs) -> call f s = Ret (Some a, mkStage fs (stage_memory s)).
Proof. unfold call. intros H. by rewrite H. Qed.

Lemma call_Err {A} (f : S -> result A unit * S) s fs :
  f (services s) = (Err tt, fs) -> call f s = Ret (None, mkStage fs (stage_memory s)).
Proof. unfold call. intros H. by rewrite H. Qed.

Lemma call_unwrap_Ok {A} (f : S -> result A unit * S) s a fs :
  f (services s) = (Ok a, fs) -> call_unwrap f s = Ret (Some a, mkStage fs (stage_memory s)).
Proof. unfold call_unwrap. intros H. by rewrite H. Qed.

Lemma dropping_Ret {A} close (body : fw S A) s o s' :
  body s = Ret (o, s') -> dropping close body s = Ret (o, mkStage (close (services s')) (stage_memory s')).
Proof. unfold dropping. intros H. by rewrite H. Qed.

Lemma dropping_eq {A} close (body body' : fw S A) s s' :
  body s = body' s' -> dropping close body s = dropping close body' s'.
Proof. unfold dropping. intros H. by rewrite H. Qed.

Lemma dropping_Panic {A} close (body : fw S A) s msg : body s = Panic msg -> dropping close body s = Panic msg.
Proof. unfold dropping. intros H. by rewrite H. Qed.
End Monad.

(** * main.rs *)

Section Load.
Context {P : Profile} {S : Type} {BS : BootServices S}.

(** [open_device_path_protocol]: the device of the boot loader's image, and the
    interface of its device path. *)
Definition open_device_path_protocol (image : Z) : fw S (Z * Z) :=
  loaded_image ← call (open_protocol LoadedImage image image);
  dropping (close_protocol LoadedImage image image)
    (let device_handle := image_device loaded_image in
     device_path ← call (open_protocol DevicePath device_handle image);
     mret (device_handle, device_path)).

(** [locate_and_open_protocol::<P>] *)
Definition locate_and_open_protocol (p : protocol) (image : Z) : fw S (Z * Z) :=
  device_path ← open_device_path_protocol image;
  dropping (close_protocol DevicePath (fst device_path) image)
    (fs_handle ← call (locate_device_path p (snd device_path));
     opened_handle ← call (open_protocol p fs_handle image);
     mret (fs_handle, opened_handle)).

(** [name.trim_end_matches('\0')] *)
Fixpoint trim_end_nul (name : string) : string :=
  match name with
  | EmptyString => EmptyString
  | String c rest =>
      match trim_end_nul rest with
      | EmptyString => if Ascii.eqb c Ascii.zero then EmptyString else String c EmptyString
      | rest => String c rest
      end
  end.

(** The body of [load_file_from_disk] behind the opened file: address and
    length of the pages with its contents. *)
Definition read_whole_file (file : Z) : fw S (Z * Z) :=
  file_size ← call_unwrap (file_size file);
  n ← lift (u64_sub file_size 1);
  pages ← lift (u64_add (n / 4096) 1);
  file_ptr ← call_unwrap (allocate_pages pages);
  _ ← write_memory file_ptr (replicate (Z.to_nat file_size) 0);
  bytes ← call_unwrap (file_read file file_size);
  _ ← write_memory file_ptr bytes;
  mret (file_ptr, file_size).

(** The file is opened in the root directory and read. *)
Definition open_and_read (root : Z) (filename : list Z) : fw S (Z * Z) :=
  file_handle ← call (file_open root filename);
  dropping (file_close file_handle)
    (regular ← call_unwrap (file_is_regular file_handle);
     _ ← lift (assert_that regular "explicit panic");
     read_whole_file file_handle).

Definition load_file_from_disk (name : string) (image : Z) : fw S (Z * Z) :=
  file_system ← locate_and_open_protocol SimpleFileSystem image;
  dropping (close_protocol SimpleFileSystem (fst file_system) image)
    (root ← call_unwrap (open_volume (snd file_system));
     dropping (file_close root)
       (_ ← lift (assert_that (String.length name <? 256)%nat "assertion failed: name.len() < 256");
        filename ← lift (expect_ok "Failed to convert string to utf16" (utf16 (trim_end_nul name)));
        open_and_read root filename)).

(** The names in the source end in a zero byte. *)
Definition nul_terminated (s : string) : string := (s +:+ String Ascii.zero EmptyString)%string.

Definition load_kernel (parse_elf : list Z -> result ElfFile string) (image : Z) : fw S Kernel :=
  slice ← load_file_from_disk (nul_terminated "kernel-x86_64") image;
  bytes ← read_memory (fst slice) (snd slice);
  lift (Kernel_parse parse_elf (fst slice) bytes).

Definition load_ramdisk (image : Z) : fw S (Z * Z) :=
  load_file_from_disk (nul_terminated "ramdisk") image.
End Load.

(** The graphics output: [get_handle_for_protocol::<GraphicsOutput>], the state
    of the protocol behind an interface, and the firmware when [set_mode] has
    changed that state. *)
Class GraphicsServices (S G : Type) := {
  graphics_handle : S -> result Z unit;
  graphics_state : Z -> S -> G;
  graphics_put : Z -> G -> S -> S;
}.

(** What [main_inner] uses besides: [exit_boot_services], which returns the
    memory map and the system table's configuration table, and [sort] of a
    memory map. *)
Class BootEnd (S D : Type) := {
  exit_boot_services : S -> list D * list ConfigTableEntry;
  sort_memory_map : list D -> list D;
}.

Section Main.
Context {X : X86_64} {P : Profile} {RF : RelaFormat} {GD : Gdt} {Gu : Guids} {BL : BootInfoLayout}.
Context {D : Type} {R : LegacyMemoryRegion D} {M : Type} {PT : PageTable M (LegacyFrameAllocator D)} {OPT : OffsetPageTable M}.
Context {S G : Type} {BS : BootServices S} {GO : GraphicsOutput G} {GS : GraphicsServices S G} {BE : BootEnd S D}.

(** [load_framebuffer] on the firmware: the protocol is opened exclusively by
    the image, and the drop of it at the end closes it. *)
Definition load_framebuffer_on (config : BootConfig) (image : Z) (fs : S) : outcome (option RawFramebufferInfo * S) :=
  match graphics_handle fs with
  | Err _ => Ret (None, fs)
  | Ok gop_handle =>
      let '(opened, fs) := open_protocol GraphicsOutputProtocol gop_handle image fs in
      match opened with
      | Err _ => Ret (None, fs)
      | Ok interface =>
          r ← load_framebuffer (Ok tt) (Ok (graphics_state interface fs)) config;
          let fs := match snd r with Some gop => graphics_put interface gop fs | None => fs end in
          Ret (fst r, close_protocol GraphicsOutputProtocol gop_handle image fs)
      end
  end.

Definition config : BootConfig := {| framebuffer_width := 1280; framebuffer_height := 720 |}.

(** [main_inner] up to [exit_boot_services]: the kernel, the framebuffer and the
    ramdisk. *)
Definition load_all (parse_elf : list Z -> result ElfFile string) (image : Z) (s : Stage S)
  : outcome (Kernel * option RawFramebufferInfo * option (Z * Z) * Stage S) :=
  k ← load_kernel parse_elf image s;
  let '(kernel, s) := k in
  kernel ← expect "Failed to load kernel" kernel;
  f ← load_framebuffer_on config image (services s);
  let '(framebuffer, fs) := f in
  r ← load_ramdisk image (mkStage fs (stage_memory s));
  let '(ramdisk, s) := r in
  Ret (kernel, framebuffer, ramdisk, s).

(** [efi_main]: everything. *)
Definition efi_main (parse_elf : list Z -> result ElfFile string) (context_switch : Z) (image : Z) (s : Stage S) (c : Cpu)
  : outcome ((Addresses * BootInfo * list MemoryRegion) * System M (LegacyFrameAllocator D)) :=
  r ← load_all parse_elf image s;
  let '(kernel, framebuffer, ramdisk, s) := r in
  let '(memory_map, config_table) := exit_boot_services (services s) in
  main_inner kernel context_switch framebuffer ramdisk config_table (sort_memory_map memory_map) c (stage_memory s).
End Main.

(** * What the firmware promises *)

(** An open file: the handle of its volume, its name, or [None] for the root
    directory, and the position in it. *)
Definition open_file : Type := Z * option (list Z) * nat.

(** What is open: protocols, by handle, and files.  And the pages that have
    been allocated. *)
Record Opened : Type := mkOpened {
  op_protocols : gset (protocol * Z);
  op_files : gmap Z open_file;
  op_pages : list (Z * Z);
}.

Definition with_protocols (f : gset (protocol * Z) -> gset (protocol * Z)) (o : Opened) : Opened :=
  mkOpened (f (op_protocols o)) (op_files o) (op_pages o).
Definition with_files (f : gmap Z open_file -> gmap Z open_file) (o : Opened) : Opened :=
  mkOpened (op_protocols o) (f (op_files o)) (op_pages o).

(** Page ranges [a], [n] and [b], [k] have no page in common. *)
Definition pages_apart (p q : Z * Z) : Prop :=
  fst p + snd p * 4096 <= fst q \/ fst q + snd q * 4096 <= fst p.

(** The handles that have a protocol, their interfaces, the device of an
    image, the handle with a protocol on the path to a device, and the files
    of a volume do not change; [fw_room] says that so many pages can be
    allocated. *)
Class BootServicesLaws (S : Type) {BS : BootServices S} := {
  fw_view : S -> Opened;
  fw_has : protocol -> Z -> bool;
  fw_interface : protocol -> Z -> Z;
  fw_device : Z -> Z;
  fw_located : protocol -> Z -> option Z;
  fw_volume : Z -> list Z -> option (list Z);
  fw_room : list (Z * Z) -> Z -> Prop;
  open_protocol_spec p h agent s :
    exists r s', open_protocol p h agent s = (r, s') /\
      if decide (fw_has p h = true /\ (p, h) ∉ op_protocols (fw_view s))
      then r = Ok (fw_interface p h) /\ fw_view s' = with_protocols (union {[(p, h)]}) (fw_view s)
      else r = Err tt /\ fw_view s' = fw_view s;
  close_protocol_spec p h agent s :
    fw_view (close_protocol p h agent s) = with_protocols (fun o => o ∖ {[(p, h)]}) (fw_view s);
  image_device_spec h : image_device (fw_interface LoadedImage h) = fw_device h;
  locate_device_path_spec p h s :
    exists s', locate_device_path p (fw_interface DevicePath h) s =
        (match fw_located p h with Some l => Ok l | None => Err tt end, s') /\ fw_view s' = fw_view s;
  open_volume_spec h s :
    exists root s', open_volume (fw_interface SimpleFileSystem h) s = (Ok root, s') /\
      op_files (fw_view s) !! root = None /\ fw_view s' = with_files <[root := (h, None, 0%nat)]> (fw_view s);
  file_open_spec root h name s : op_files (fw_view s) !! root = Some (h, None, 0%nat) ->
    exists r s', file_open root name s = (r, s') /\
      match fw_volume h name with
      | Some _ => exists f, r = Ok f /\ op_files (fw_view s) !! f = None /\
          fw_view s' = with_files <[f := (h, Some name, 0%nat)]> (fw_view s)
      | None => r = Err tt /\ fw_view s' = fw_view s
      end;
  file_is_regular_spec f h name s : op_files (fw_view s) !! f = Some (h, Some name, 0%nat) ->
    exists s', file_is_regular f s = (Ok true, s') /\ fw_view s' = fw_view s;
  file_size_spec f h name bytes s : op_files (fw_view s) !! f = Some (h, Some name, 0%nat) -> fw_volume h name = Some bytes ->
    exists s', file_size f s = (Ok (Z.of_nat (length bytes)), s') /\ fw_view s' = fw_view s;
  file_read_spec f h name bytes s : op_files (fw_view s) !! f = Some (h, Some name, 0%nat) -> fw_volume h name = Some bytes ->
    exists s', file_read f (Z.of_nat (length bytes)) s = (Ok bytes, s') /\
      fw_view s' = with_files <[f := (h, Some name, length bytes)]> (fw_view s);
  file_close_spec f s : fw_view (file_close f s) = with_files (delete f) (fw_view s);
  allocate_pages_spec n s :
    exists r s', allocate_pages n s = (r, s') /\
      ((exists a, r = Ok a /\ 0 <= a /\ (4096 | a) /\ a + n * 4096 <= u64_size /\
          Forall (pages_apart (a, n)) (op_pages (fw_view s)) /\
          fw_view s' = mkOpened (op_protocols (fw_view s)) (op_files (fw_view s)) ((a, n) :: op_pages (fw_view s))) \/
       (r = Err tt /\ fw_view s' = fw_view s /\ ~ fw_room (op_pages (fw_view s)) n));
}.

(** A display mode has nothing to do with them. *)
Class GraphicsServicesLaws (S G : Type) {BS : BootServices S} {BL : BootServicesLaws S} {GS : GraphicsServices S G} :=
  graphics_put_view interface (gop : G) s : fw_view (graphics_put interface gop s) = fw_view s.

(** * Loading a file *)

Section Loading.
Context {P : Profile} {S : Type} {BS : BootServices S} {BL : BootServicesLaws S}.

(** The boot loader's image lies on a device with a volume [h]. *)
Record volume_found (image h : Z) : Prop := {
  vf_image : fw_has LoadedImage image = true;
  vf_path : fw_has DevicePath (fw_device image) = true;
  vf_located : fw_located SimpleFileSystem (fw_device image) = Some h;
  vf_volume : fw_has SimpleFileSystem h = true;
}.

(** None of the protocols in question is open. *)
Definition closed (image h : Z) (o : gset (protocol * Z)) : Prop :=
  ((LoadedImage, image) ∉ o) /\ ((DevicePath, fw_device image) ∉ o) /\ ((SimpleFileSystem, h) ∉ o).

Lemma open_protocol_Ok p h agent s :
  fw_has p h = true -> (p, h) ∉ op_protocols (fw_view s) ->
  exists s', open_protocol p h agent s = (Ok (fw_interface p h), s') /\
    fw_view s' = with_protocols (union {[(p, h)]}) (fw_view s).
Proof.
  intros Hh Hn. destruct (open_protocol_spec p h agent s) as (r & s' & Hr & H).
  rewrite decide_True in H by done. destruct H as [-> H]. by exists s'.
Qed.

Lemma Opened_eq o1 o2 : op_protocols o1 = op_protocols o2 -> op_files o1 = op_files o2 ->
  op_pages o1 = op_pages o2 -> o1 = o2.
Proof. destruct o1, o2. simpl. congruence. Qed.

Lemma open_device_path_spec image h s :
  volume_found image h -> closed image h (op_protocols (fw_view (services s))) ->
  exists fs, open_device_path_protocol image s =
      Ret (Some (fw_device image, fw_interface DevicePath (fw_device image)), mkStage fs (stage_memory s)) /\
    fw_view fs = with_protocols (union {[(DevicePath, fw_device image)]}) (fw_view (services s)).
Proof.
  intros [Hi Hp _ _] (Hc1 & Hc2 & _).
  destruct (open_protocol_Ok LoadedImage image image (services s) Hi Hc1) as (s1 & Ho1 & Hv1).
  destruct (open_protocol_Ok DevicePath (fw_device image) image s1 Hp) as (s2 & Ho2 & Hv2).
  { rewrite Hv1. simpl. set_solver. }
  eexists. unfold open_device_path_protocol. erewrite fw_bind_Some by (apply call_Ok; exact Ho1). cbv zeta.
  rewrite image_device_spec. split.
  - erewrite dropping_Ret by (erewrite fw_bind_Some by (apply call_Ok; exact Ho2); reflexivity). reflexivity.
  - simpl. rewrite close_protocol_spec, Hv2, Hv1. apply Opened_eq; [|done|done]. simpl. apply set_eq. intros x.
    destruct (decide (x = (LoadedImage, image))) as [->|]; set_solver.
Qed.

Lemma locate_and_open_spec image h s :
  volume_found image h -> closed image h (op_protocols (fw_view (services s))) ->
  exists fs, locate_and_open_protocol SimpleFileSystem image s =
      Ret (Some (h, fw_interface SimpleFileSystem h), mkStage fs (stage_memory s)) /\
    fw_view fs = with_protocols (union {[(SimpleFileSystem, h)]}) (fw_view (services s)).
Proof.
  intros Hf Hc. pose proof Hc as (_ & Hc2 & Hc3). destruct (open_device_path_spec image h s Hf Hc) as (s1 & Hr1 & Hv1).
  destruct (locate_device_path_spec SimpleFileSystem (fw_device image) s1) as (s2 & Hr2 & Hv2).
  rewrite (vf_located _ _ Hf) in Hr2.
  destruct (open_protocol_Ok SimpleFileSystem h image s2) as (s3 & Hr3 & Hv3); [apply Hf|rewrite Hv2, Hv1; simpl; set_solver|].
  eexists. unfold locate_and_open_protocol. erewrite fw_bind_Some by exact Hr1. simpl fst. simpl snd. split.
  - erewrite dropping_Ret.
    2:{ erewrite fw_bind_Some by (apply call_Ok; exact Hr2).
        erewrite fw_bind_Some by (apply call_Ok; exact Hr3). reflexivity. }
    reflexivity.
  - simpl. rewrite close_protocol_spec, Hv3, Hv2, Hv1. apply Opened_eq; [|done|done]. simpl. apply set_eq. intros x.
    destruct (decide (x = (DevicePath, fw_device image))) as [->|]; set_solver.
Qed.

(** The pages that a file of [len] bytes takes. *)
Definition file_pages (len : Z) : Z := (len - 1) / 4096 + 1.

Lemma file_pages_bound len : 0 < len < 2 ^ 63 -> 0 < file_pages len < 2 ^ 63 /\ len <= file_pages len * 4096.
Proof.
  intros Hl. unfold file_pages. pose proof (Z.div_mod (len - 1) 4096 ltac:(done)).
  pose proof (Z.mod_pos_bound (len - 1) 4096 ltac:(done)). lia.
Qed.

(** [a] is what the firmware returns for [n] pages when [pages] are in use. *)
Definition allocated_at (pages : list (Z * Z)) (n a : Z) : Prop :=
  exists fs fs', op_pages (fw_view fs) = pages /\ allocate_pages n fs = (Ok a, fs').

(** [bytes] have been loaded at [a]: they are there, memory elsewhere is as
    before, and the pages are new ones. *)
Record loaded (bytes : list Z) (a : Z) (s s' : Stage S) : Prop := {
  ld_bytes : read_bytes (stage_memory s') a (length bytes) = bytes;
  ld_other x : x < a \/ a + Z.of_nat (length bytes) <= x -> stage_memory s' x = stage_memory s x;
  ld_aligned : 0 <= a /\ (4096 | a) /\ a + file_pages (Z.of_nat (length bytes)) * 4096 <= u64_size;
  ld_pages : op_pages (fw_view (services s')) =
    (a, file_pages (Z.of_nat (length bytes))) :: op_pages (fw_view (services s));
  ld_apart : Forall (pages_apart (a, file_pages (Z.of_nat (length bytes)))) (op_pages (fw_view (services s)));
  ld_allocated : allocated_at (op_pages (fw_view (services s))) (file_pages (Z.of_nat (length bytes))) a;
}.

Lemma read_write_bytes m a bs : read_bytes (write_bytes m a bs) a (length bs) = bs.
Proof.
  apply list_eq_same_length with (length bs); [done|apply length_read_bytes|]. intros i x y Hi Hx Hy.
  apply (nth_lookup_Some _ _ 0) in Hx. rewrite nth_read_bytes, write_bytes_in in Hx by lia.
  replace (Z.to_nat (a + Z.of_nat i - a)) with i in Hx by lia. apply (nth_lookup_Some _ _ 0) in Hy. congruence.
Qed.

Lemma read_whole_file_spec f h name bytes s :
  op_files (fw_view (services s)) !! f = Some (h, Some name, 0%nat) -> fw_volume h name = Some bytes ->
  0 < Z.of_nat (length bytes) < 2 ^ 63 ->
  fw_room (op_pages (fw_view (services s))) (file_pages (Z.of_nat (length bytes))) ->
  exists a s', read_whole_file f s = Ret (Some (a, Z.of_nat (length bytes)), s') /\ loaded bytes a s s' /\
    op_protocols (fw_view (services s')) = op_protocols (fw_view (services s)) /\
    op_files (fw_view (services s')) = <[f := (h, Some name, length bytes)]> (op_files (fw_view (services s))).
Proof.
  intros Hf Hv Hlen Hroom. set (len := Z.of_nat (length bytes)) in *.
  destruct (file_pages_bound len Hlen) as [Hp Hle].
  destruct (file_size_spec f h name bytes (services s) Hf Hv) as (s1 & Hs1 & Hv1).
  destruct (allocate_pages_spec (file_pages len) s1) as (r & s2 & Hs2 & [(a & -> & Ha0 & Ha & Hau & Hapart & Hv2)|(_ & _ & Hno)]).
  2:{ by rewrite Hv1 in Hno. }
  destruct (file_read_spec f h name bytes s2) as (s3 & Hs3 & Hv3); [by rewrite Hv2, Hv1|done|].
  eexists a, _. split; [|split; [split|]].
  - unfold read_whole_file. erewrite fw_bind_Some by (apply call_unwrap_Ok; exact Hs1). fold len.
    erewrite fw_bind_Some by (unfold lift; rewrite u64_sub_ok by (unfold u64_size; lia); reflexivity).
    unfold file_pages in *.
    erewrite fw_bind_Some by (unfold lift; rewrite u64_add_ok by (unfold u64_size; lia); reflexivity).
    erewrite fw_bind_Some by (apply call_unwrap_Ok; exact Hs2). erewrite fw_bind_Some by reflexivity.
    erewrite fw_bind_Some by (apply call_unwrap_Ok; exact Hs3). erewrite fw_bind_Some by reflexivity. reflexivity.
  - apply read_write_bytes.
  - intros x Hx. simpl. rewrite write_bytes_out by done. apply write_bytes_out. rewrite length_replicate, Z2Nat.id by lia. exact Hx.
  - done.
  - simpl. by rewrite Hv3, Hv2, Hv1.
  - by rewrite <- Hv1.
  - exists s1, s2. by rewrite Hv1.
  - simpl. by rewrite Hv3, Hv2, Hv1.
Qed.

(** [load_file_from_disk] up to the file: the volume and its root directory are
    open, and will be closed. *)
Lemma load_file_opened name image h u s :
  volume_found image h -> closed image h (op_protocols (fw_view (services s))) ->
  (String.length name < 256)%nat -> utf16 (trim_end_nul name) = Ok u ->
  exists root fs, op_files (fw_view (services s)) !! root = None /\
    fw_view fs = with_files <[root := (h, None, 0%nat)]>
      (with_protocols (union {[(SimpleFileSystem, h)]}) (fw_view (services s))) /\
    load_file_from_disk name image s = dropping (close_protocol SimpleFileSystem h image)
      (dropping (file_close root) (open_and_read root u)) (mkStage fs (stage_memory s)).
Proof.
  intros Hf Hc Hname Hu. destruct (locate_and_open_spec image h s Hf Hc) as (s1 & Hr1 & Hv1).
  destruct (open_volume_spec h s1) as (root & s2 & Hr2 & Hroot & Hv2). rewrite Hv1 in Hroot, Hv2.
  exists root, s2. split; [done|]. split; [done|]. unfold load_file_from_disk.
  erewrite fw_bind_Some by exact Hr1. simpl fst. simpl snd. apply dropping_eq.
  erewrite fw_bind_Some by (apply call_unwrap_Ok; exact Hr2). apply dropping_eq. unfold assert_that.
  rewrite (proj2 (Nat.ltb_lt _ _) Hname). erewrite fw_bind_Some by reflexivity. rewrite Hu.
  by erewrite fw_bind_Some by reflexivity.
Qed.

(** The two closed again. *)
Lemma reclosed image h root fs o :
  closed image h (op_protocols o) -> op_files o !! root = None ->
  fw_view fs = with_files <[root := (h, None, 0%nat)]> (with_protocols (union {[(SimpleFileSystem, h)]}) o) ->
  fw_view (close_protocol SimpleFileSystem h image (file_close root fs)) = o.
Proof.
  intros (_ & _ & Hc) Hroot Hv. rewrite close_protocol_spec, file_close_spec, Hv.
  apply Opened_eq; simpl; [|by apply delete_insert_id|done]. clear -Hc. apply set_eq. intros x.
  destruct (decide (x = (SimpleFileSystem, h))) as [->|]; set_solver.
Qed.

(** The file's contents are loaded, and everything is closed. *)
Lemma load_file_spec name image h u bytes s :
  volume_found image h -> closed image h (op_protocols (fw_view (services s))) ->
  (String.length name < 256)%nat -> utf16 (trim_end_nul name) = Ok u -> fw_volume h u = Some bytes ->
  0 < Z.of_nat (length bytes) < 2 ^ 63 ->
  fw_room (op_pages (fw_view (services s))) (file_pages (Z.of_nat (length bytes))) ->
  exists a s', load_file_from_disk name image s = Ret (Some (a, Z.of_nat (length bytes)), s') /\ loaded bytes a s s' /\
    op_protocols (fw_view (services s')) = op_protocols (fw_view (services s)) /\
    op_files (fw_view (services s')) = op_files (fw_view (services s)).
Proof.
  intros Hf Hc Hname Hu Hv Hlen Hroom. destruct (load_file_opened name image h u s Hf Hc Hname Hu) as (root & s2 & Hroot & Hv2 & ->).
  destruct (file_open_spec root h u s2) as (r & s3 & Hr3 & H3); [rewrite Hv2; apply lookup_insert_eq|].
  rewrite Hv in H3. destruct H3 as (f & -> & Hfresh & Hv3). rewrite Hv2 in Hfresh. simpl in Hfresh.
  destruct (file_is_regular_spec f h u s3) as (s4 & Hr4 & Hv4); [rewrite Hv3; apply lookup_insert_eq|].
  destruct (read_whole_file_spec f h u bytes (mkStage s4 (stage_memory s))) as (a & s5 & Hr5 & Hld & Hp5 & Hf5).
  { simpl. rewrite Hv4, Hv3. apply lookup_insert_eq. } { done. } { done. } { simpl. by rewrite Hv4, Hv3, Hv2. }
  simpl in Hp5, Hf5. rewrite Hv4, Hv3, Hv2 in Hp5, Hf5. simpl in Hp5, Hf5.
  pose proof (ld_pages _ _ _ _ Hld) as Hpg. simpl in Hpg. rewrite Hv4, Hv3, Hv2 in Hpg. simpl in Hpg.
  assert (Hclosed : fw_view (close_protocol SimpleFileSystem h image (file_close root (file_close f (services s5)))) =
    mkOpened (op_protocols (fw_view (services s))) (op_files (fw_view (services s))) (op_pages (fw_view (services s5)))).
  { apply reclosed; [done|done|]. rewrite file_close_spec. apply Opened_eq; simpl; [by rewrite Hp5| |done].
    by rewrite Hf5, insert_insert_eq, delete_insert_id. }
  eexists a, _. split; [|split].
  - erewrite dropping_Ret; [reflexivity|]. erewrite dropping_Ret; [reflexivity|]. unfold open_and_read.
    erewrite fw_bind_Some by (apply call_Ok; exact Hr3). erewrite dropping_Ret; [reflexivity|].
    erewrite fw_bind_Some by (apply call_unwrap_Ok; exact Hr4). erewrite fw_bind_Some by reflexivity. exact Hr5.
  - destruct Hld as [Hb Ho Ha _ Hap Hat]. split; [done|done|done| | |].
    + cbn [services]. by rewrite Hclosed, <- Hpg.
    + simpl in Hap. by rewrite Hv4, Hv3, Hv2 in Hap.
    + simpl in Hat. by rewrite Hv4, Hv3, Hv2 in Hat.
  - cbn [services]. by rewrite Hclosed.
Qed.

(** A file that is not there: nothing is changed, and nothing stays open. *)
Lemma load_file_missing name image h u s :
  volume_found image h -> closed image h (op_protocols (fw_view (services s))) ->
  (String.length name < 256)%nat -> utf16 (trim_end_nul name) = Ok u -> fw_volume h u = None ->
  exists fs, load_file_from_disk name image s = Ret (None, mkStage fs (stage_memory s)) /\
    fw_view fs = fw_view (services s).
Proof.
  intros Hf Hc Hname Hu Hv. destruct (load_file_opened name image h u s Hf Hc Hname Hu) as (root & s2 & Hroot & Hv2 & ->).
  destruct (file_open_spec root h u s2) as (r & s3 & Hr3 & H3); [rewrite Hv2; apply lookup_insert_eq|].
  rewrite Hv in H3. destruct H3 as [-> Hv3].
  exists (close_protocol SimpleFileSystem h image (file_close root s3)). split.
  - unfold dropping at 1, dropping at 1, open_and_read. by erewrite fw_bind_None by (apply call_Err; exact Hr3).
  - eapply reclosed; [done|done|]. by rewrite Hv3.
Qed.

(** Some page is in use: the boot loader's own image, for one. *)
Definition some_page_used (pages : list (Z * Z)) : Prop :=
  Exists (fun p => 0 <= fst p < u64_size /\ 0 < snd p) pages.

(** C37: an empty file stops the boot: with overflow checks its length minus one
    panics, and without them the whole address space is asked for. *)
Theorem load_file_empty_panics name image h u s :
  volume_found image h -> closed image h (op_protocols (fw_view (services s))) ->
  (String.length name < 256)%nat -> utf16 (trim_end_nul name) = Ok u -> fw_volume h u = Some [] ->
  some_page_used (op_pages (fw_view (services s))) ->
  load_file_from_disk name image s =
    Panic (if overflow_checks then "arithmetic overflow" else "called `Result::unwrap()` on an `Err` value").
Proof.
  intros Hf Hc Hname Hu Hv Hused. destruct (load_file_opened name image h u s Hf Hc Hname Hu) as (root & s2 & _ & Hv2 & ->).
  destruct (file_open_spec root h u s2) as (r & s3 & Hr3 & H3); [rewrite Hv2; apply lookup_insert_eq|].
  rewrite Hv in H3. destruct H3 as (f & -> & _ & Hv3).
  destruct (file_is_regular_spec f h u s3) as (s4 & Hr4 & Hv4); [rewrite Hv3; apply lookup_insert_eq|].
  destruct (file_size_spec f h u [] s4) as (s5 & Hr5 & Hv5); [rewrite Hv4, Hv3; apply lookup_insert_eq|done|].
  destruct (allocate_pages_spec (2 ^ 52) s5) as (r & s6 & Hr6 & H6).
  assert (Hfull : r = Err tt).
  { destruct H6 as [(a & _ & H0 & _ & Ha & Hap & _)|(-> & _)]; [|done]. exfalso.
    rewrite Hv5, Hv4, Hv3, Hv2 in Hap. simpl in Hap. apply Exists_exists in Hused as (p & Hp & Hp1 & Hp2).
    rewrite Forall_forall in Hap. specialize (Hap p Hp). unfold pages_apart, u64_size in *. simpl in Hap. lia. }
  do 2 apply dropping_Panic. unfold open_and_read.
  erewrite fw_bind_Some by (apply call_Ok; exact Hr3). apply dropping_Panic.
  erewrite fw_bind_Some by (apply call_unwrap_Ok; exact Hr4). erewrite fw_bind_Some by reflexivity.
  unfold read_whole_file. erewrite fw_bind_Some by (apply call_unwrap_Ok; exact Hr5).
  unfold u64_sub, arith_u64. simpl. destruct overflow_checks eqn:Ho.
  - by apply fw_bind_Panic.
  - erewrite fw_bind_Some by reflexivity.
    erewrite fw_bind_Some by (unfold lift; rewrite u64_add_ok by done; reflexivity).
    apply fw_bind_Panic. unfold call_unwrap. cbn [services].
    change (wrap64 (Z.of_nat 0 - 1) / 4096 + 1) with (2 ^ 52). rewrite Hfull in Hr6. by rewrite Hr6.
Qed.
End Loading.

(** * Everything that is loaded *)

Section LoadAll.
Context {X : X86_64} {P : Profile} {G S : Type} {BS : BootServices S} {BL : BootServicesLaws S}.
Context {GO : GraphicsOutput G} {GS : GraphicsServices S G} {GL : GraphicsServicesLaws S G}.

(** The graphics output is closed again, or was never opened. *)
Lemma load_framebuffer_view config image fs r fs' :
  load_framebuffer_on config image fs = Ret (r, fs') -> fw_view fs' = fw_view fs.
Proof.
  unfold load_framebuffer_on. destruct (graphics_handle fs) as [h|]; [|by intros [= _ <-]].
  destruct (open_protocol_spec GraphicsOutputProtocol h image fs) as (o & fs1 & -> & Ho).
  case_decide as Hc; destruct Ho as [-> Hv]; [|by intros [= _ <-]; rewrite Hv].
  intros H. bind_inv H. destruct v as [info gop]. injection H as _ <-. rewrite close_protocol_spec. cbn [snd].
  assert (Hput : fw_view (match gop with Some g => graphics_put (fw_interface GraphicsOutputProtocol h) g fs1 | None => fs1 end)
    = fw_view fs1) by (destruct gop; [apply graphics_put_view|done]).
  rewrite Hput, Hv. apply Opened_eq; [|done|done]. simpl. clear -Hc. set_solver.
Qed.

(** The pages of so many bytes at [a], which were not in use. *)
Definition new_pages (a n : Z) (o : Opened) : Prop :=
  (4096 | a) /\ Forall (pages_apart (a, file_pages n)) (op_pages o).

(** What [load_all] has loaded: the kernel and, if the volume has one, the
    ramdisk, in new pages of their own; nothing else of memory has changed, no
    other pages have been allocated, and nothing is open that was not. *)
Record all_loaded (kernel_bytes : list Z) (ramdisk_bytes : option (list Z)) (kernel : Kernel) (ramdisk : option (Z * Z))
    (s s' : Stage S) : Prop := {
  al_kernel : read_bytes (stage_memory s') (Kernel.start_address kernel) (length kernel_bytes) = kernel_bytes /\
    kernel_len kernel = Z.of_nat (length kernel_bytes) /\
    new_pages (Kernel.start_address kernel) (kernel_len kernel) (fw_view (services s));
  al_ramdisk : match ramdisk, ramdisk_bytes with
    | Some (a, n), Some bytes => n = Z.of_nat (length bytes) /\ read_bytes (stage_memory s') a (length bytes) = bytes /\
        new_pages a n (fw_view (services s)) /\
        pages_apart (a, file_pages n) (Kernel.start_address kernel, file_pages (kernel_len kernel))
    | None, None => True
    | _, _ => False
    end;
  al_pages : op_pages (fw_view (services s')) =
    (match ramdisk with Some (a, n) => [(a, file_pages n)] | None => [] end) ++
    (Kernel.start_address kernel, file_pages (kernel_len kernel)) :: op_pages (fw_view (services s));
  al_closed : op_protocols (fw_view (services s')) = op_protocols (fw_view (services s)) /\
    op_files (fw_view (services s')) = op_files (fw_view (services s));
  al_other x : (x < Kernel.start_address kernel \/ Kernel.start_address kernel + kernel_len kernel <= x) ->
    match ramdisk with Some (a, n) => x < a \/ a + n <= x | None => True end ->
    stage_memory s' x = stage_memory s x;
}.

(** The firmware has the files, and room for them. *)
Record files_there (parse_elf : list Z -> result ElfFile string) image h kernel_bytes ramdisk_bytes e (o : Opened) : Prop := {
  ft_volume : volume_found image h;
  ft_closed : closed image h (op_protocols o);
  ft_kernel : exists u, utf16 "kernel-x86_64" = Ok u /\ fw_volume h u = Some kernel_bytes;
  ft_ramdisk : exists u, utf16 "ramdisk" = Ok u /\ fw_volume h u = ramdisk_bytes;
  ft_parse : parse_elf kernel_bytes = Ok e;
  ft_kernel_size : 0 < Z.of_nat (length kernel_bytes) < 2 ^ 63;
  ft_kernel_room : fw_room (op_pages o) (file_pages (Z.of_nat (length kernel_bytes)));
  ft_ramdisk_room bytes a : ramdisk_bytes = Some bytes ->
    allocated_at (op_pages o) (file_pages (Z.of_nat (length kernel_bytes))) a -> 0 < Z.of_nat (length bytes) < 2 ^ 63 /\
    fw_room ((a, file_pages (Z.of_nat (length kernel_bytes))) :: op_pages o) (file_pages (Z.of_nat (length bytes)));
}.

Lemma read_bytes_ext m m' a n : (forall x, a <= x < a + Z.of_nat n -> m' x = m x) -> read_bytes m' a n = read_bytes m a n.
Proof.
  intros Hm. unfold read_bytes. apply list_fmap_ext. intros i k [-> Hk]%lookup_seq. apply Hm. lia.
Qed.

(** C35: the bootloader loads the kernel file and the ramdisk from the volume
    that it was started from, unless the choice of the framebuffer in between
    panics: their bytes lie in pages that were not in use, and those of one not
    in those of the other; no other pages are allocated and no other memory
    changes; a missing ramdisk is no error; and every protocol that is opened,
    that of the graphics output included, and every file is closed again.
    At the start the protocols of the image, its device and its volume are not
    open, the kernel file is there and parses, the files are smaller than 2^63
    bytes and not empty, and the firmware has room for them. *)
Theorem load_all_correct parse_elf image h kernel_bytes ramdisk_bytes e s :
  files_there parse_elf image h kernel_bytes ramdisk_bytes e (fw_view (services s)) ->
  exists a s1, load_kernel parse_elf image s = Ret (Some (mkKernel e a (Z.of_nat (length kernel_bytes))), s1) /\
    forall framebuffer fs, load_framebuffer_on config image (services s1) = Ret (framebuffer, fs) ->
      exists ramdisk s', load_all parse_elf image s =
          Ret (mkKernel e a (Z.of_nat (length kernel_bytes)), framebuffer, ramdisk, s') /\
        all_loaded kernel_bytes ramdisk_bytes (mkKernel e a (Z.of_nat (length kernel_bytes))) ramdisk s s'.
Proof.
  intros [Hvol Hc (ku & Hku & Hkv) (ru & Hru & Hrv) Hparse Hks Hkr Hrr].
  destruct (load_file_spec (nul_terminated "kernel-x86_64") image h ku kernel_bytes s Hvol Hc ltac:(simpl; lia) Hku Hkv Hks Hkr)
    as (a & s1 & Hr1 & Hl1 & Hp1 & Hf1).
  set (kernel := mkKernel e a (Z.of_nat (length kernel_bytes))).
  assert (Hlk : load_kernel parse_elf image s = Ret (Some kernel, s1)).
  { unfold load_kernel. erewrite fw_bind_Some by exact Hr1. erewrite fw_bind_Some by reflexivity. cbn [fst snd].
    rewrite Nat2Z.id, (ld_bytes _ _ _ _ Hl1). unfold lift, Kernel_parse. by rewrite Hparse. }
  exists a, s1. split; [exact Hlk|]. intros fb fs Hfb. pose proof (load_framebuffer_view _ _ _ _ _ Hfb) as Hvfs.
  assert (Hall : forall rd s', load_ramdisk image (mkStage fs (stage_memory s1)) = Ret (rd, s') ->
    load_all parse_elf image s = Ret (kernel, fb, rd, s')).
  { intros rd s' Hr. unfold load_all. rewrite Hlk, bind_Ret. cbv beta iota. unfold expect. rewrite bind_Ret, Hfb, bind_Ret.
    cbv beta iota. by rewrite Hr. }
  assert (Hc1 : closed image h (op_protocols (fw_view fs))) by (by rewrite Hvfs, Hp1).
  destruct Hl1 as [Hb1 Ho1 (Ha0 & Ha1 & Ha2) Hpg1 Hap1 Hat1]. destruct (file_pages_bound _ Hks) as [Hnp Hnb].
  destruct ramdisk_bytes as [rb|].
  - destruct (Hrr rb a eq_refl Hat1) as [Hrs Hroom]. destruct (file_pages_bound _ Hrs) as [Hmp Hmb].
    destruct (load_file_spec (nul_terminated "ramdisk") image h ru rb (mkStage fs (stage_memory s1)) Hvol Hc1 ltac:(simpl; lia)
      Hru Hrv Hrs) as (b & s2 & Hr2 & Hl2 & Hp2 & Hf2); [simpl; by rewrite Hvfs, Hpg1|].
    destruct Hl2 as [Hb2 Ho2 (Hb0 & Hb3 & Hb4) Hpg2 Hap2 _]. simpl in *. rewrite Hvfs, Hpg1 in Hap2, Hpg2.
    apply Forall_cons in Hap2 as [Hapart Hnew]. assert (Hd := Hapart). unfold pages_apart in Hd. simpl in Hd.
    exists (Some (b, Z.of_nat (length rb))), s2. split; [by apply Hall|]. split; simpl.
    + split; [|done]. rewrite <- Hb1 at 2. apply read_bytes_ext. intros x Hx. apply Ho2. lia.
    + done.
    + done.
    + by rewrite Hp2, Hf2, Hvfs, Hp1, Hf1.
    + intros x Hxk Hxr. rewrite Ho2 by done. by apply Ho1.
  - destruct (load_file_missing (nul_terminated "ramdisk") image h ru (mkStage fs (stage_memory s1)) Hvol Hc1 ltac:(simpl; lia)
      Hru Hrv) as (fs2 & Hr2 & Hv2).
    eexists None, _. split; [apply Hall; exact Hr2|]. simpl in *. split; simpl; [done|done| | |].
    + by rewrite Hv2, Hvfs, Hpg1.
    + by rewrite Hv2, Hvfs, Hp1, Hf1.
    + intros x Hx _. by apply Ho1.
Qed.
End LoadAll.

(** [efi_main] hands what it has loaded to the rest of [main_inner]. *)
Lemma efi_main_after_loading {X : X86_64} {P : Profile} {RF : RelaFormat} {GD : Gdt} {Gu : Guids} {BIL : BootInfoLayout}
    {D M S G : Type} {R : LegacyMemoryRegion D} {PT : PageTable M (LegacyFrameAllocator D)} {OPT : OffsetPageTable M}
    {BS : BootServices S} {GO : GraphicsOutput G} {GS : GraphicsServices S G} {BE : BootEnd S D}
    parse_elf context_switch image s c kernel framebuffer ramdisk s' memory_map config_table :
  load_all parse_elf image s = Ret (kernel, framebuffer, ramdisk, s') ->
  exit_boot_services (services s') = (memory_map, config_table) ->
  efi_main parse_elf context_switch image s c =
    main_inner kernel context_switch framebuffer ramdisk config_table (sort_memory_map memory_map) c (stage_memory s').
Proof. intros Hl He. unfold efi_main. rewrite Hl, bind_Ret. cbv beta iota. by rewrite He. Qed.
