(* ===== verification/FirmwareSample.v ===== *)
(** A firmware for the bootloader: a reference instance of [BootServices] with
    its laws, and the theorems of FirmwareFiles.v at concrete inputs.

    One volume, on the device of the boot loader's image, holds the kernel, the
    ramdisk and an empty file; pages are handed out in ascending order. *)

From S2P Require Import Prelude X86 Synapse FrameAlloc LegacyMemory Paging Kernel KernelSpace Firmware Initium.
From S2P Require Import FirmwareFiles KernelSample.
From stdpp Require Import infinite.

#[local] Open Scope Z_scope.

(** The image, its device, the handle of the volume, and the display. *)
Definition image_handle : Z := 1.
Definition device_handle : Z := 2.
Definition volume_handle : Z := 3.
Definition display_handle : Z := 4.

Definition bytes_of_string (s : string) : list Z :=
  (fun c => Z.of_N (Ascii.N_of_ascii c)) <$> String.list_ascii_of_string s.

Definition kernel_file : list Z := [0x7F; 69; 76; 70; 1; 2; 3].
Definition ramdisk_file : list Z := [11; 22; 33].

Definition sample_volume (h : Z) (name : list Z) : option (list Z) :=
  if negb (h =? volume_handle) then None
  else if decide (name = bytes_of_string "kernel-x86_64") then Some kernel_file
  else if decide (name = bytes_of_string "ramdisk") then Some ramdisk_file
  else if decide (name = bytes_of_string "empty") then Some []
  else None.

Definition sample_has (p : protocol) (h : Z) : bool :=
  match p with
  | LoadedImage => h =? image_handle
  | DevicePath => h =? device_handle
  | SimpleFileSystem => h =? volume_handle
  | GraphicsOutputProtocol => h =? display_handle
  end.

Definition device_of (h : Z) : Z := if h =? image_handle then device_handle else 0.
Definition located (p : protocol) (h : Z) : option Z :=
  if h =? device_handle then match p with SimpleFileSystem => Some volume_handle | _ => None end else None.

(** The page behind all allocated ones; there are 4 GiB. *)
Definition next_page (pages : list (Z * Z)) : Z :=
  4096 * (foldr (fun p m => Z.max (fst p + snd p * 4096) m) 0 pages / 4096 + 1).
Definition has_pages (pages : list (Z * Z)) (n : Z) : Prop := next_page pages + n * 4096 <= 2 ^ 32.

#[export] Instance has_pages_dec pages n : Decision (has_pages pages n).
Proof. unfold has_pages. apply _. Defined.

(** The interface of a protocol is its handle plus 100. *)
#[export] Instance sample_services : BootServices Opened := {
  open_protocol p h _ s :=
    if decide (sample_has p h = true /\ (p, h) ∉ op_protocols s)
    then (Ok (h + 100), with_protocols (union {[(p, h)]}) s) else (Err tt, s);
  close_protocol p h _ s := with_protocols (fun o => o ∖ {[(p, h)]}) s;
  image_device i := device_of (i - 100);
  locate_device_path p i s := (match located p (i - 100) with Some h => Ok h | None => Err tt end, s);
  open_volume i s :=
    let root := fresh (dom (op_files s)) in
    (Ok root, with_files <[root := (i - 100, None, 0%nat)]> s);
  utf16 name := Ok (bytes_of_string name);
  file_open root name s :=
    match op_files s !! root with
    | Some (h, None, _) =>
        match sample_volume h name with
        | Some _ => let f := fresh (dom (op_files s)) in (Ok f, with_files <[f := (h, Some name, 0%nat)]> s)
        | None => (Err tt, s)
        end
    | _ => (Err tt, s)
    end;
  file_is_regular f s := match op_files s !! f with Some (_, Some _, _) => (Ok true, s) | _ => (Err tt, s) end;
  file_size f s :=
    match op_files s !! f with
    | Some (h, Some name, _) =>
        (match sample_volume h name with Some bytes => Ok (Z.of_nat (length bytes)) | None => Err tt end, s)
    | _ => (Err tt, s)
    end;
  file_read f n s :=
    match op_files s !! f with
    | Some (h, Some name, pos) =>
        match sample_volume h name with
        | Some bytes =>
            let read := take (Z.to_nat n) (drop pos bytes) in
            (Ok read, with_files <[f := (h, Some name, (pos + length read)%nat)]> s)
        | None => (Err tt, s)
        end
    | _ => (Err tt, s)
    end;
  file_close f s := with_files (delete f) s;
  allocate_pages n s :=
    if decide (has_pages (op_pages s) n)
    then (Ok (next_page (op_pages s)), mkOpened (op_protocols s) (op_files s) ((next_page (op_pages s), n) :: op_pages s))
    else (Err tt, s);
}.

Lemma next_page_spec pages :
  0 <= next_page pages /\ (4096 | next_page pages) /\ Forall (fun p => fst p + snd p * 4096 <= next_page pages) pages.
Proof.
  unfold next_page. set (m := foldr _ 0 pages).
  assert (Hm : 0 <= m /\ Forall (fun p => fst p + snd p * 4096 <= m) pages).
  { subst m. induction pages as [|p pages [IH1 IH2]]; simpl; [done|]. split; [lia|]. constructor; [lia|].
    eapply Forall_impl; [exact IH2|]. simpl. lia. }
  destruct Hm as [H0 Hm]. pose proof (Z.div_mod m 4096 ltac:(done)). pose proof (Z.mod_pos_bound m 4096 ltac:(done)).
  split; [lia|]. split; [by apply Z.divide_factor_l|]. eapply Forall_impl; [exact Hm|]. simpl. lia.
Qed.

Lemma fresh_file (o : Opened) : op_files o !! (fresh (dom (op_files o))) = None.
Proof. apply not_elem_of_dom. apply is_fresh. Qed.

#[export] Program Instance sample_services_laws : BootServicesLaws Opened := {
  fw_view s := s;
  fw_has := sample_has;
  fw_interface _ h := h + 100;
  fw_device := device_of;
  fw_located := located;
  fw_volume := sample_volume;
  fw_room := has_pages;
}.
Next Obligation. intros p h agent s. simpl. case_decide; by do 2 eexists. Qed.
Next Obligation. done. Qed.
Next Obligation. intros h. cbn -[Z.add Z.sub]. by replace (h + 100 - 100) with h by lia. Qed.
Next Obligation. intros p h s. cbn -[Z.add Z.sub located]. replace (h + 100 - 100) with h by lia. by eexists. Qed.
Next Obligation.
  intros h s. do 2 eexists. split; [done|]. split; [apply fresh_file|].
  cbn -[Z.add Z.sub]. by replace (h + 100 - 100) with h by lia.
Qed.
Next Obligation.
  intros root h name s Hr. cbn -[sample_volume] in *. rewrite Hr. destruct (sample_volume h name) as [b|]; [|by do 2 eexists].
  do 2 eexists. split; [done|]. eexists. split; [done|]. split; [apply fresh_file|done].
Qed.
Next Obligation. intros f h name s Hf. cbn in *. rewrite Hf. by eexists. Qed.
Next Obligation. intros f h name b s Hf Hb. cbn -[sample_volume] in *. rewrite Hf, Hb. by eexists. Qed.
Next Obligation.
  intros f h name b s Hf Hb. cbn -[sample_volume] in *. rewrite Hf, Hb, drop_0, Nat2Z.id, take_ge by done. by eexists.
Qed.
Next Obligation. done. Qed.
Next Obligation.
  intros n s. cbn. case_decide as Hp; do 2 eexists; (split; [done|]); [left|by right].
  destruct (next_page_spec (op_pages s)) as (H0 & Ha & Hall). eexists. split; [done|]. split; [done|]. split; [done|].
  split; [unfold has_pages, u64_size in *; lia|]. split; [|done].
  eapply Forall_impl; [exact Hall|]. unfold pages_apart. simpl. lia.
Qed.

(** * The theorems at concrete inputs *)

#[local] Instance loading_profile : Profile := true.

(** The display has one mode. *)
#[export] Instance sample_display : GraphicsServices Opened ModeInfo := {
  graphics_handle _ := Ok display_handle;
  graphics_state _ _ := mkMode (800, 600) GopBgr 800;
  graphics_put _ _ s := s;
}.

#[export] Instance sample_display_laws : GraphicsServicesLaws Opened ModeInfo.
Proof. done. Qed.

#[export] Instance sample_boot_end : BootEnd Opened UefiMemoryDescriptor := {
  exit_boot_services _ := ([], []);
  sort_memory_map m := m;
}.

(** The boot loader's own image takes sixteen pages. *)
Definition powered_on : Stage Opened := mkStage (mkOpened ∅ ∅ [(0x400000, 16)]) (fun x => x mod 256).

Definition parse_sample (bytes : list Z) : result ElfFile string :=
  if decide (bytes = kernel_file) then Ok sample_elf else Err "Did not find ELF magic number".

Lemma sample_volume_found : volume_found image_handle volume_handle.
Proof. by split. Qed.

Lemma sample_closed : closed image_handle volume_handle (op_protocols (fw_view (services powered_on))).
Proof. repeat split; apply not_elem_of_empty. Qed.

(** The display is found, whatever is open. *)
Lemma sample_framebuffer fs : exists fb fs', load_framebuffer_on config image_handle fs = Ret (fb, fs').
Proof.
  unfold load_framebuffer_on. cbn [graphics_handle sample_display open_protocol sample_services].
  case_decide; cbv iota; [|by do 2 eexists]. by do 2 eexists.
Qed.

Lemma load_all_correct_witness :
  exists a framebuffer ramdisk s',
    load_all parse_sample image_handle powered_on = Ret (mkKernel sample_elf a 7, framebuffer, ramdisk, s') /\
    all_loaded kernel_file (Some ramdisk_file) (mkKernel sample_elf a 7) ramdisk powered_on s'.
Proof.
  destruct (load_all_correct parse_sample image_handle volume_handle kernel_file (Some ramdisk_file) sample_elf powered_on)
    as (a & s1 & _ & H).
  - split; [exact sample_volume_found|exact sample_closed| | |reflexivity|done| |].
    + by eexists.
    + by eexists.
    + vm_compute. discriminate.
    + intros bytes a [= <-] (fs & fs' & Hp & Ha). split; [done|]. cbn -[has_pages next_page] in Hp, Ha |- *.
      rewrite Hp in Ha. case_decide; [|done]. injection Ha as <- _. vm_compute. discriminate.
  - destruct (sample_framebuffer (services s1)) as (fb & fs & Hfb).
    destruct (H fb fs Hfb) as (rd & s' & Hr & Hl). do 4 eexists. split; [exact Hr|exact Hl].
Defined.

(** The empty file. *)
Lemma load_file_empty_panics_witness :
  load_file_from_disk (nul_terminated "empty") image_handle powered_on = Panic "arithmetic overflow".
Proof.
  refine (load_file_empty_panics (nul_terminated "empty") image_handle volume_handle (bytes_of_string "empty") powered_on
    sample_volume_found sample_closed _ eq_refl eq_refl _); [simpl; lia|].
  left. split; [split; [discriminate|reflexivity]|reflexivity].
Defined.
