(* ===== verification/NukleusMain.v ===== *)
(** nukleus/src/main.rs and the start of nukleus/src/memory.rs: the kernel's
    [main], from the boot information to the picture on the screen.

    [memory::init] turns the active level 4 table into an [OffsetPageTable];
    the table in memory is the parameter of that name of Initium.v.  Memory is
    what the kernel reads through its own page table. *)

From S2P Require Import Prelude X86 Synapse FrameAlloc NukleusMemory Framebuffer FramebufferLine FramebufferCircle.
From S2P Require Import TextInterface Paging Mapping Heap Kernel Initium.

Section Main.
Context {X : X86_64} {P : Profile} {H : Type} {LH : LockedHeap H}.
Context {M : Type} {PT : PageTable M NukleusFrameAllocator} {OPT : OffsetPageTable M}.

(** [active_level_4_table]: the address of the table that CR3 names. *)
Definition active_level_4_table (cr3 physical_memory_offset : Z) : outcome Z :=
  VirtAddr_add physical_memory_offset cr3.

Definition memory_init (m : mem) (cr3 physical_memory_offset : Z) : outcome M :=
  level_4_table ← active_level_4_table cr3 physical_memory_offset;
  Ret (offset_page_table m level_4_table physical_memory_offset).

(** [Option::unwrap] *)
Definition unwrap {A} (o : option A) : outcome A := expect "called `Option::unwrap()` on a `None` value" o.

(** [core::mem::replace(&mut boot_info.physical_memory_offset, Optional::None)]
    and the same for the framebuffer. *)
Definition take_physical_memory_offset (b : BootInfo) : Optional.t Z * BootInfo :=
  (physical_memory_offset b, mkBootInfo (memory_regions b) (framebuffer b) Optional.None_ (rsdp_address b)
    (tls_template b) (ramdisk_address b) (ramdisk_len b)).

Definition take_framebuffer (b : BootInfo) : Optional.t Framebuffer * BootInfo :=
  (framebuffer b, mkBootInfo (memory_regions b) Optional.None_ (physical_memory_offset b) (rsdp_address b)
    (tls_template b) (ramdisk_address b) (ramdisk_len b)).

(** [main] up to its final loop: the boot information it leaves, its page
    table, frame allocator and heap, and the bytes of the framebuffer.
    [regions] is the array of memory regions that the boot information points
    to. *)
Definition main (boot_info : BootInfo) (regions : Z -> MemoryRegion) (m : mem) (cr3 : Z) (ALLOCATOR : H)
  : outcome (BootInfo * M * NukleusFrameAllocator * H * list Z) :=
  let '(o, boot_info) := take_physical_memory_offset boot_info in
  o ← unwrap (Optional.into_option o);
  physical_memory_offset ← VirtAddr_new o;
  let '(fb, boot_info) := take_framebuffer boot_info in
  framebuffer ← unwrap (Optional.into_option fb);
  mapper ← memory_init m cr3 physical_memory_offset;
  let frame_allocator := NukleusFrameAllocator_init (MemoryRegions_deref regions (memory_regions boot_info)) in
  r ← init_heap mapper frame_allocator ALLOCATOR;
  let '(res, mapper, frame_allocator, ALLOCATOR) := r in
  _ ← expect_ok "" res;
  let info := fb_info framebuffer in
  let buffer := create_buffer m framebuffer in
  buffer ← main_draw info buffer;
  Ret (boot_info, mapper, frame_allocator, ALLOCATOR, buffer).
End Main.

Section Claims.
Context {X : X86_64} {XL : X86_64_Laws X} {P : Profile} {H : Type} {LH : LockedHeap H}.
Context {M : Type} {PT : PageTable M NukleusFrameAllocator} {PL : PageTableLaws M NukleusFrameAllocator}.
Context {OPT : OffsetPageTable M}.

(** What [main] needs of the machine: an offset and a framebuffer in the boot
    information; regions that are in order and hold a hundred usable frames;
    the active table, seen at the offset, with nothing mapped in the heap. *)
Record main_ok (b : BootInfo) (regions : Z -> MemoryRegion) (m : mem) (cr3 o : Z) (fb : Framebuffer) (v : view) : Prop := {
  mo_offset : physical_memory_offset b = Optional.Some_ o /\ 0 <= o /\ 0 <= cr3 /\ o + cr3 < 2 ^ 47;
  mo_framebuffer : framebuffer b = Optional.Some_ fb;
  mo_mode : mode_ok (fb_info fb) /\ 0 <= byte_len (fb_info fb);
  mo_size : 200 <= width (fb_info fb) <= 2 ^ 24 /\ 100 <= height (fb_info fb) <= 2 ^ 24;
  mo_regions : Forall handed_ok (MemoryRegions_deref regions (memory_regions b)) /\
    handed_sorted (MemoryRegions_deref regions (memory_regions b));
  mo_frames : (100 <= length (frame_addresses (MemoryRegions_deref regions (memory_regions b))))%nat;
  mo_table : shows (offset_page_table m (o + cr3) o) v;
  mo_heap : vacant v HEAP_START (HEAP_START + HEAP_SIZE);
}.

(** What [main] leaves: the offset and the framebuffer taken out of the boot
    information; each page of the heap mapped to a usable frame of its own and
    everything else as it was; the global allocator on the heap; and the picture
    on the screen. *)
Record main_done (b b' : BootInfo) (regions : list MemoryRegion) (v : view) (fb : Framebuffer) (pt' : M)
    (fs : list Z) (buffer' : list Z) : Prop := {
  md_info : (memory_regions b', rsdp_address b', tls_template b', ramdisk_address b', ramdisk_len b') =
    (memory_regions b, rsdp_address b, tls_template b, ramdisk_address b, ramdisk_len b);
  md_taken : physical_memory_offset b' = Optional.None_ /\ framebuffer b' = Optional.None_;
  md_frames : length fs = 25%nat /\ NoDup fs /\ forall f, f ∈ fs -> f ∈ frame_addresses regions;
  md_heap : shows pt' (put_pages Size4KiB HEAP_START fs heap_flags v);
  md_picture : main_painted (fb_info fb) buffer';
}.

(** On such a machine [main] reaches its final loop without panic. *)
Lemma main_spec b regions m cr3 o fb (h : H) v :
  main_ok b regions m cr3 o fb v ->
  exists b' pt' fa' buffer' fs, main b regions m cr3 h =
      Ret (b', pt', fa', heap_init h HEAP_START HEAP_SIZE, buffer') /\
    main_done b b' (MemoryRegions_deref regions (memory_regions b)) v fb pt' fs buffer'.
Proof.
  intros [(Ho & Ho0 & Hc0 & Hoc) Hfb [Hmode Hbl] [Hw Hh] [Hok Hs] Hfr Hsh Hvac].
  set (rs := MemoryRegions_deref regions (memory_regions b)) in *.
  assert (Hk : has_frames (4 * 25 + 0) (NukleusFrameAllocator_init rs)).
  { split; [|exact Hfr]. split; [exact Hok|]. split; [exact Hs|]. simpl. unfold u64_size. lia. }
  destruct (map_heap_spec v 25 0 [] (offset_page_table m (o + cr3) o) (NukleusFrameAllocator_init rs) 0) as
    (fs & pt' & fa' & Hr & Hl & Hv' & Hnd & Hg & _); [lia|done| |exact Hvac|exact Hk|].
  { eapply shows_ext; [exact Hsh|]. intros. by rewrite put_pages_nil. }
  destruct (main_draw_spec (fb_info fb) (create_buffer m fb) Hmode) as (buffer' & Hd & Hpaint); [|exact Hw|exact Hh|].
  { unfold create_buffer, range0. rewrite length_fmap, length_seqZ. lia. }
  exists (mkBootInfo (memory_regions b) Optional.None_ Optional.None_ (rsdp_address b) (tls_template b)
    (ramdisk_address b) (ramdisk_len b)), pt', fa', buffer', fs. split.
  - unfold main, take_physical_memory_offset, take_framebuffer. rewrite Ho. cbn [Optional.into_option Optional.to_option unwrap expect].
    rewrite bind_Ret, virt_new_low, bind_Ret by lia. cbn [framebuffer]. rewrite Hfb. cbn [Optional.into_option Optional.to_option unwrap expect].
    rewrite bind_Ret. unfold memory_init, active_level_4_table. rewrite virt_add_low, !bind_Ret by lia.
    cbn [memory_regions]. fold rs. cbv zeta. unfold init_heap.
    rewrite heap_range_spec, bind_Ret, Hr, bind_Ret, virt_new_low, !bind_Ret by (unfold HEAP_START; lia).
    cbn [expect_ok]. by rewrite bind_Ret, Hd, bind_Ret.
  - split; [done|done| |exact Hv'|done]. split; [done|]. split; [done|]. intros f Hf. by destruct (Hg f Hf).
Qed.

(** The mappings that were there are still there. *)
Lemma main_done_keeps b b' regions v fb pt' fs buffer' sz q l :
  main_done b b' regions v fb pt' fs buffer' -> vacant v HEAP_START (HEAP_START + HEAP_SIZE) ->
  v sz q = Some l -> pt_view pt' sz q = Some l.
Proof.
  intros Hd Hvac Hl. destruct (md_heap _ _ _ _ _ _ _ _ Hd) as [_ Hv]. destruct (md_frames _ _ _ _ _ _ _ _ Hd) as (Hlen & _).
  rewrite Hv, put_pages_other; [done|done|]. rewrite Hlen. change (Size4KiB * Z.of_nat 25) with HEAP_SIZE.
  destruct (decide (sz = Size4KiB)) as [->|]; [right|by left]. destruct (Hvac Size4KiB q l Hl); [left|right]; page_lia.
Qed.
End Claims.
