(* ===== verification/System.v ===== *)
(** The boot loader and the kernel together: [main_inner] of initium up to the
    jump, then [main] of nukleus up to its loop.

    The kernel sees the page table it runs on through the window to physical
    memory that the boot loader has mapped, and the memory regions through the
    pointer in the boot information; [kernel_sees] says that it sees what the
    boot loader left there. *)

From S2P Require Import Prelude X86 Synapse Entries FrameAlloc LegacyMemory NukleusMemory Handoff Paging Mapping.
From S2P Require Import Kernel KernelSpace KernelSegments KernelLoad KernelEntry.
From S2P Require Import Firmware Initium InitiumSteps InitiumStages InitiumMappings InitiumBoot Boot.
From S2P Require Import Framebuffer TextInterface Heap NukleusMain.

(** * Free frames in the memory map *)

Section Free.
Context {X : X86_64} {XL : X86_64_Laws X} {P : Profile} {D : Type} {R : LegacyMemoryRegion D} {RA : RegionAddresses D}.

(** A frame that is still free when the map is made, and that is not part of
    the kernel file, is one that the kernel may use. *)
Lemma free_frame_handed nf ks ke (mm : list D) f :
  Forall region_ok mm -> 0 <= ks <= ke -> Forall (kernel_fits nf ks ke) mm ->
  (Size4KiB | nf) -> (Size4KiB | ks) -> (Size4KiB | ke) ->
  f ∈ usable_frames_from nf mm -> f + Size4KiB <= ks \/ ke <= f -> f ∈ frame_addresses (map_of nf ks ke mm).
Proof.
  intros Hok Hk Hfit Hnf Hks Hke (d & Hd & Hkd & Hal & H1 & H2 & H3)%elem_of_usable_frames_from Hap; [|done|done].
  destruct (proj2 (map_of_cover nf ks ke mm f Usable Hok Hk Hfit)) as (r & Hr & Hin & Hkr).
  { exists d. split; [done|]. split; [page_lia|]. unfold kind_at, usable_from. rewrite Hkd.
    destruct (Z.leb_spec (limit d) nf); [page_lia|].
    rewrite (proj2 (Z.leb_le _ _)) by lia. destruct (Z.leb_spec ks f), (Z.ltb_spec f ke); try done. page_lia. }
  apply elem_of_frame_addresses. unfold in_region in Hin.
  assert (Hsr : (Size4KiB | start r)).
  { pose proof Hr as (d' & Hd' & [Hr' _]%elem_of_keep)%elem_of_map_of. rewrite Forall_forall in Hok.
    by destruct (piece_aligned nf ks ke d' r); auto. }
  destruct (Z.divide_sub_r _ _ _ Hal Hsr) as [i Hi]. exists r, i. unfold Size4KiB in *. split_and!; try done; lia.
Qed.

Lemma free_frames_handed nf ks ke (mm : list D) l :
  Forall region_ok mm -> 0 <= ks <= ke -> Forall (kernel_fits nf ks ke) mm ->
  (Size4KiB | nf) -> (Size4KiB | ks) -> (Size4KiB | ke) -> NoDup l ->
  (forall f, f ∈ l -> f ∈ usable_frames_from nf mm /\ (f + Size4KiB <= ks \/ ke <= f)) ->
  (length l <= length (frame_addresses (map_of nf ks ke mm)))%nat.
Proof.
  intros Hok Hk Hfit Hnf Hks Hke Hnd Hl. apply NoDup_ListNoDup in Hnd. apply List.NoDup_incl_length; [done|].
  intros f Hf%list_elem_of_In. apply list_elem_of_In. destruct (Hl f Hf). by apply free_frame_handed.
Qed.

(** A frame of a usable region whose bounds are page aligned lies in it. *)
Lemma frame_in_region nf ks ke (mm : list D) f x :
  Forall region_ok mm -> (Size4KiB | nf) -> (Size4KiB | ks) -> (Size4KiB | ke) ->
  f ∈ frame_addresses (map_of nf ks ke mm) -> f <= x < f + Size4KiB ->
  exists r, r ∈ map_of nf ks ke mm /\ kind r = Usable /\ in_region x r.
Proof.
  intros Hok Hnf Hks Hke (r & i & Hr & Hk & Hi & -> & He)%elem_of_frame_addresses Hx. exists r. split; [done|]. split; [done|].
  pose proof Hr as (d & Hd & [Hr' _]%elem_of_keep)%elem_of_map_of. rewrite Forall_forall in Hok.
  destruct (piece_aligned nf ks ke d r) as [Hs Hend]; auto.
  pose proof (divide_lt_step (start r + 4096 * i) (end_ r) Size4KiB ltac:(done)
    ltac:(apply Z.divide_add_r; [done|by exists i; unfold Size4KiB; lia]) Hend He). unfold in_region, Size4KiB in *. lia.
Qed.
End Free.

(** * The whole system *)

Section System.
Context {X : X86_64} {XL : X86_64_Laws X} {P : Profile} {RF : RelaFormat} {GD : Gdt} {Gu : Guids} {BL : BootInfoLayout}.
Context {D : Type} {R : LegacyMemoryRegion D} {RA : RegionAddresses D} {H : Type} {LH : LockedHeap H}.
Context {M : Type} {PT : PageTable M (LegacyFrameAllocator D)} {PL : PageTableLaws M (LegacyFrameAllocator D)}.
Context {PTn : PageTable M NukleusFrameAllocator} {PLn : PageTableLaws M NukleusFrameAllocator}.
Context {OPT : OffsetPageTable M}.
Abbreviation system := (System M (LegacyFrameAllocator D)).

(** The leaves of a table, for the code of each program. *)
Abbreviation boot_shows := (shows (F := LegacyFrameAllocator D)).
Abbreviation kernel_shows := (shows (F := NukleusFrameAllocator)).
Abbreviation boot_view := (pt_view (F := LegacyFrameAllocator D)).
Abbreviation kernel_view := (pt_view (F := NukleusFrameAllocator)).

(** What the kernel sees of what the boot loader left: the memory map behind the
    boot information, and the table on which it runs. *)
Record kernel_sees (m : mem) (regions : Z -> MemoryRegion) (a : Addresses) (contents : BootInfo)
    (out : list MemoryRegion) (o : Z) (s' : system) : Prop := {
  ks_regions : MemoryRegions_deref regions (memory_regions contents) = out;
  ks_table v : boot_shows (ktable s') v -> kernel_shows (offset_page_table m (o + page_table_frame a) o) v;
}.

(** A screen that the kernel can draw on. *)
Definition screen_ok (i : FramebufferInfo) : Prop :=
  mode_ok i /\ 0 <= byte_len i /\ 200 <= width i <= 2 ^ 24 /\ 100 <= height i <= 2 ^ 24.

(** The level 4 entry of the kernel's heap. *)
Definition heap_entry : Z := p4_of HEAP_START.

Lemma heap_entry_all x : HEAP_START <= x < HEAP_START + HEAP_SIZE -> p4_of x = heap_entry.
Proof.
  intros Hx. unfold HEAP_START, HEAP_SIZE in Hx. unfold p4_of.
  assert (Hq : x / 2 ^ 39 = 136) by (symmetry; apply (Z.div_unique_pos _ _ _ (x - 136 * 2 ^ 39)); lia).
  rewrite Hq. reflexivity.
Qed.

Section Booted.
Context {kernel : Kernel} {off : VirtualAddressOffset.t} {entries : list (list Z)} {c_sw : Z}.
Context {fb : option RawFramebufferInfo} {sinfo : SystemInfo} {mp : Z} {mm : list D} {s0 s' : system} {ma : Mappings}.
Context {a : Addresses} {contents : BootInfo} {out : list MemoryRegion} {spare : nat}.
Hypothesis Hb : booted kernel off entries c_sw fb sinfo mp mm s0 s' ma a contents out spare.

(** The window to physical memory lies in the lower half. *)
Lemma booted_window : exists o, physical_memory_offset contents = Optional.Some_ o /\ 0 <= o /\
  forall x, 0 <= x < mp -> o + x < 2 ^ 47.
Proof.
  destruct (bt_max _ _ _ _ _ _ _ _ _ _ _ _ _ _ _ Hb) as [Hmp _].
  destruct (bt_space _ _ _ _ _ _ _ _ _ _ _ _ _ _ _ Hb) as (v & Hv & Hc).
  destruct (up_physical _ _ _ _ _ _ _ _ _ _ (bt_set_up _ _ _ _ _ _ _ _ _ _ _ _ _ _ _ Hb)) as (o & Ho & Hw).
  assert (Hlow : forall x, 0 <= x < mp -> 0 <= o + x < 2 ^ 47).
  { intros x Hx. destruct (physical_leaf _ v _ _ Hv (Hw x Hx)) as (sz & l & Hsz & Hl).
    apply (Hc sz (round_down (o + x) sz) l); [done|]. apply round_down_bounds. destruct Hsz as [-> | ->]; done. }
  exists o. split.
  - pose proof (hd_offset _ _ _ _ _ _ _ _ (bt_boot_info _ _ _ _ _ _ _ _ _ _ _ _ _ _ _ Hb)) as Hho. rewrite Ho in Hho.
    destruct (physical_memory_offset contents); simpl in Hho; congruence.
  - split; [pose proof (Hlow 0); lia|]. intros x Hx. by apply Hlow.
Qed.

Lemma booted_framebuffer raw : fb = Some raw -> si_framebuffer sinfo = Some raw ->
  exists addr, framebuffer contents = Optional.Some_ (Framebuffer_new addr (Firmware.info raw)).
Proof.
  intros -> Hs. pose proof (hd_framebuffer _ _ _ _ _ _ _ _ (bt_boot_info _ _ _ _ _ _ _ _ _ _ _ _ _ _ _ Hb)) as Hf.
  pose proof (same_framebuffer _ _ _ _ _ _ _ _ _ _ (bt_set_up _ _ _ _ _ _ _ _ _ _ _ _ _ _ _ Hb)) as [Hn _].
  rewrite Hs in Hf. destruct (ma_framebuffer ma) as [addr|]; [|by discriminate (Hn eq_refl)].
  exists addr. destruct (framebuffer contents); simpl in Hf; congruence.
Qed.

(** The frames that the kernel may use: regions in order, as many as are left. *)
Lemma booted_regions :
  Forall region_ok mm -> sorted mm -> (forall nf, Forall (kernel_fits nf (Kernel.start_address kernel)
    (Kernel.start_address kernel + kernel_len kernel)) mm) ->
  0 <= Kernel.start_address kernel -> 0 < kernel_len kernel ->
  (4096 | Kernel.start_address kernel) -> (4096 | kernel_len kernel) ->
  (forall x, x ∈ usable_frames_from 4096 mm ->
    x + Size4KiB <= Kernel.start_address kernel \/ Kernel.start_address kernel + kernel_len kernel <= x) ->
  Forall handed_ok out /\ handed_sorted out /\ (spare <= length (frame_addresses out))%nat /\
  (forall x g, g ∈ frame_addresses out -> g <= x < g + Size4KiB ->
    ~ (Kernel.start_address kernel <= x < Kernel.start_address kernel + kernel_len kernel) /\
    forall y, y ∈ usable_frames_from 4096 mm -> y ∉ fa_free (sys_frames s') -> ~ (y <= x < y + Size4KiB)).
Proof.
  intros Hok Hs Hfit H0 H1 Hks Hkl Hap. set (ks := Kernel.start_address kernel) in *. set (ke := ks + kernel_len kernel) in *.
  assert (Hke : (Size4KiB | ke)) by (by apply Z.divide_add_r).
  destruct (bt_free _ _ _ _ _ _ _ _ _ _ _ _ _ _ _ Hb) as [[Hinv Hlen] Hfree].
  pose proof (bt_map _ _ _ _ _ _ _ _ _ _ _ _ _ _ _ Hb) as Hmap. fold ks ke in Hmap.
  change (legacy_inv (sys_frames s')) in Hinv. pose proof (inv_next_aligned _ Hinv) as Hnf.
  destruct (map_of_handed (next_frame (sys_frames s')) ks ke mm Hok Hs ltac:(lia) (Hfit _) Hnf Hks Hke) as [Hh1 Hh2].
  rewrite <- Hmap in Hh1, Hh2. split; [done|]. split; [done|]. split.
  - rewrite Hmap. etransitivity; [exact Hlen|]. apply free_frames_handed; try done; [lia|apply (fa_nodup spare); exact Hinv|].
    intros f Hf. pose proof (Hfree f Hf) as Hu. split; [|by apply Hap].
    apply elem_of_usable_frames_from in Hu as (d & Hd & Hkd & Hal & _ & Hbd & Hl); [|done|by exists 1].
    apply elem_of_usable_frames_from; [done|done|]. exists d. split_and!; try done.
    change (f ∈ legacy_free (sys_frames s')) in Hf. apply legacy_free_elem in Hf as (_ & _ & _ & _ & Hn & _); done.
  - intros x g Hg Hx. rewrite Hmap in Hg.
    destruct (frame_in_region _ ks ke mm g x Hok Hnf Hks Hke Hg Hx) as (r & Hr & Hk & Hin). rewrite <- Hmap in Hr.
    exact (bt_spared _ _ _ _ _ _ _ _ _ _ _ _ _ _ _ Hb r x Hr Hk Hin).
Qed.
End Booted.

(** C1: the system.  On a machine with enough memory, whose kernel file is page
    aligned, the boot loader jumps to the kernel with the address space, the
    boot information and the memory map of [booted]; and when the kernel finds
    these, and its heap's addresses were not reserved, its [main] reaches its
    final loop: the heap is mapped to frames that hold nothing of the kernel
    file and of what the boot loader has allocated, every other mapping is as
    the boot loader made it, and the picture is on the screen. *)
Theorem boots_and_runs kernel off e1 entries lo hi c_sw raw ramdisk config_table rsdp mp (mm : list D) c m f g :
  rsdp_addr config_table = Ret rsdp ->
  boot_ok kernel off e1 entries lo hi c_sw (Some raw) ramdisk rsdp mp mm c m f g 100 ->
  (4096 | Kernel.start_address kernel) -> (4096 | kernel_len kernel) ->
  (forall x, x ∈ usable_frames_from 4096 mm ->
    x + Size4KiB <= Kernel.start_address kernel \/ Kernel.start_address kernel + kernel_len kernel <= x) ->
  screen_ok (Firmware.info raw) ->
  exists a contents out s' fa ma, main_inner kernel c_sw (Some raw) ramdisk config_table mm c m = Ret ((a, contents, out), s') /\
    booted kernel off entries c_sw (Some raw) (system_info_of (Some raw) ramdisk rsdp) mp mm (created c m f g fa) s' ma a
      contents out 100 /\
    forall mk regions (h : H) o, physical_memory_offset contents = Optional.Some_ o ->
      kernel_sees mk regions a contents out o s' -> ~ used (sys_entries s') heap_entry ->
      exists b' pt' fa' buffer' fs, main contents regions mk (page_table_frame a) h =
          Ret (b', pt', fa', heap_init h HEAP_START HEAP_SIZE, buffer') /\
        length fs = 25%nat /\ NoDup fs /\
        (forall i fr, fs !! i = Some fr -> kernel_view pt' Size4KiB (heap_page i) = Some (fr, Z.lor PRESENT WRITABLE)) /\
        (forall sz q l, boot_view (ktable s') sz q = Some l -> kernel_view pt' sz q = Some l) /\
        (forall fr x, fr ∈ fs -> fr <= x < fr + Size4KiB ->
          ~ (Kernel.start_address kernel <= x < Kernel.start_address kernel + kernel_len kernel) /\
          forall y, y ∈ usable_frames_from 4096 mm -> y ∉ fa_free (sys_frames s') -> ~ (y <= x < y + Size4KiB)) /\
        main_painted (Firmware.info raw) buffer'.
Proof.
  intros Hrsdp Hbo Hks Hkl Hap (Hmode & Hbl & Hw & Hh).
  destruct (main_inner_spec _ _ _ _ _ _ _ _ _ _ _ _ _ _ _ _ _ _ Hrsdp Hbo) as (a & contents & out & s' & fa & ma & Hr & Hb).
  exists a, contents, out, s', fa, ma. split; [exact Hr|]. split; [exact Hb|]. intros mk regions h o Ho [Hrg Htab] Hheap.
  destruct (bo_map _ _ _ _ _ _ _ _ _ _ _ _ _ _ _ _ _ Hbo) as (Hok & Hs & _).
  destruct (bo_kernel _ _ _ _ _ _ _ _ _ _ _ _ _ _ _ _ _ Hbo) as (H0 & H1 & _).
  destruct (booted_regions Hb Hok Hs (bo_fits _ _ _ _ _ _ _ _ _ _ _ _ _ _ _ _ _ Hbo) H0 H1 Hks Hkl Hap) as (Hro & Hrs & Hrl & Hsp).
  destruct (booted_window Hb) as (o' & Ho' & Ho0 & Hlow). rewrite Ho in Ho'. injection Ho' as <-.
  destruct (booted_framebuffer Hb raw eq_refl eq_refl) as (addr & Hfb).
  destruct (bt_space _ _ _ _ _ _ _ _ _ _ _ _ _ _ _ Hb) as (v & Hv & Hc).
  assert (Hl4 : 0 <= page_table_frame a /\ page_table_frame a + Size4KiB <= mp).
  { rewrite (bt_registers _ _ _ _ _ _ _ _ _ _ _ _ _ _ _ Hb). apply (bt_max _ _ _ _ _ _ _ _ _ _ _ _ _ _ _ Hb).
    apply (bt_tables _ _ _ _ _ _ _ _ _ _ _ _ _ _ _ Hb). }
  assert (Hvac : vacant v HEAP_START (HEAP_START + HEAP_SIZE)).
  { apply (covered_vacant v (sys_entries s')); [done|exact Hc|intros sz q l Hl; by eapply shows_pos|].
    intros x Hx. by rewrite heap_entry_all. }
  destruct (main_spec contents regions mk (page_table_frame a) o (Framebuffer_new addr (Firmware.info raw)) h v) as
    (b' & pt' & fa' & buffer' & fs & Hm & Hd).
  { split; try done; rewrite ?Hrg; try done.
    - split; [done|]. pose proof (Hlow (page_table_frame a)). unfold Size4KiB in Hl4. lia.
    - by apply Htab. }
  exists b', pt', fa', buffer', fs. split; [exact Hm|].
  destruct (md_frames _ _ _ _ _ _ _ _ Hd) as (Hlen & Hnd & Hin). rewrite Hrg in Hin.
  split; [done|]. split; [done|]. split; [|split; [|split]].
  - intros i fr Hi. destruct (md_heap _ _ _ _ _ _ _ _ Hd) as [_ Hv']. rewrite Hv'. by apply put_pages_at.
  - intros sz q l Hl. apply (main_done_keeps _ _ _ _ _ _ _ _ sz q l Hd Hvac). rewrite <- Hl. symmetry. apply Hv.
  - intros fr x Hfr Hx. apply (Hsp x fr); [by apply Hin|done].
  - exact (md_picture _ _ _ _ _ _ _ _ Hd).
Qed.
End System.
