(* ===== verification/BootSample.v ===== *)
(** A machine that boots: the kernel of KernelSample.v as loader data at
    64 KiB, four MiB of conventional memory, a framebuffer of 63 pages and a
    ramdisk of three, with the reference page table; and the claims about the
    boot and the system applied to it. *)

From S2P Require Import Prelude X86 Synapse Entries FrameAlloc LegacyMemory NukleusMemory Handoff Paging Mapping.
From S2P Require Import Kernel KernelSpace KernelSegments KernelFlags KernelRelocs KernelLoad KernelEntry KernelSample.
From S2P Require Import Firmware Initium InitiumSteps InitiumStages InitiumMappings InitiumBoot Boot.
From S2P Require Import Framebuffer TextInterface Heap NukleusMain System.
Import MapTable.

#[local] Instance boot_profile : Profile := false.

#[local] Instance sample_gdt : Gdt := {| gdt_bytes := replicate 24 0; code_selector := 8; data_selector := 16 |}.

#[local] Instance sample_layout : BootInfoLayout := {| boot_info_size := 144; boot_info_align := 8 |}.

(** A reference table lies in memory as the number that encodes it, at its
    first address; zero is the empty table. *)
Definition encode_table (t : MapTable.t) : Z := Z.pos (encode (leaves t, tables t)).
Definition decode_table (z : Z) : MapTable.t :=
  match decode (Z.to_pos z) with Some (l, t) => mk l t | None => MapTable.empty end.

Lemma decode_encode_table t : decode_table (encode_table t) = t.
Proof. unfold decode_table, encode_table. cbn [Z.to_pos]. rewrite decode_encode. by destruct t. Qed.

#[local] Instance stored_tables : OffsetPageTable MapTable.t := fun m a _ =>
  if m a =? 0 then MapTable.empty else decode_table (m a).

Lemma stored_empty m a o : m a = 0 -> shows (F := LegacyFrameAllocator UefiMemoryDescriptor) (offset_page_table m a o) (fun _ _ => None).
Proof.
  intros Hm. unfold offset_page_table, stored_tables. rewrite Hm.
  split; [apply inv_empty|]. intros sz q. apply lookup_empty.
Qed.

#[local] Instance empty_tables_law : EmptyTable MapTable.t (F := LegacyFrameAllocator UefiMemoryDescriptor).
Proof. intros m a Hm. apply stored_empty. rewrite <- (Z.add_0_r a). by apply Hm. Qed.

Definition boot_map : list UefiMemoryDescriptor := [mkDescriptor 2 0x10000 2; mkDescriptor 7 0x100000 1024].

Definition boot_framebuffer : RawFramebufferInfo :=
  mkRaw 0x80000000 (mkFramebufferInfo 320 200 Rgb 256000 4 320).

Definition boot_ramdisk : Z * Z := (0x12000, 0x2800).

Definition boot_cpu : Cpu := mkCpu 0x500 0x80000011 0x5000 0 0 0 0 0.

Lemma boot_map_ok : Forall region_ok boot_map.
Proof.
  unfold boot_map. rewrite !Forall_cons.
  split_and!; try apply Forall_nil; try done; apply uefi_region_ok; simpl; try done; try compute_divide.
Qed.

Lemma boot_map_sorted : sorted boot_map.
Proof. repeat constructor; unfold before; vm_compute; discriminate. Qed.

(** The frames of the conventional memory. *)
Lemma boot_frames : usable_frames_from 4096 boot_map = (fun i => 0x100000 + i * 0x1000) <$> seqZ 0 1024.
Proof. vm_compute. reflexivity. Qed.

Lemma boot_frame_range f : f ∈ usable_frames_from 4096 boot_map -> 0x100000 <= f /\ f + 0x1000 <= 0x500000.
Proof. rewrite boot_frames. intros (i & -> & Hi)%list_elem_of_fmap. apply elem_of_seqZ in Hi. lia. Qed.

(** The level 4 entries after the segments have been marked: 0 and 1. *)
Lemma boot_room e n : n <= 250 ->
  mark_segments sample_entries (segments_of sample_kernel) sample_offset = Ret e -> room n e.
Proof.
  intros Hn He.
  assert (Hm : mark_segments sample_entries (segments_of sample_kernel) sample_offset = Ret sample_entries)
    by (vm_compute; reflexivity).
  rewrite Hm in He. injection He as <-. right. exists 2. split; [lia|]. split; [lia|].
  intros j Hj. assert (Hf : Forall (fun i => ~ used sample_entries i) (seqZ 2 250)).
  { apply (bool_decide_unpack _). vm_compute. exact I. }
  rewrite Forall_forall in Hf. apply Hf, elem_of_seqZ. lia.
Qed.

Lemma boot_has_frames (fa : LegacyFrameAllocator UefiMemoryDescriptor) n :
  legacy_inv fa -> usable_frames_from 4096 boot_map = 0x100000 :: 0x101000 :: legacy_free fa -> (n <= 1022)%nat ->
  has_frames n fa.
Proof.
  intros Hi Hf Hn. split; [exact Hi|]. change (n <= length (legacy_free fa))%nat.
  assert (Hl : length (usable_frames_from 4096 boot_map) = 1024%nat) by (vm_compute; reflexivity).
  rewrite Hf in Hl. simpl in Hl. lia.
Qed.

(** The file in memory is what it was before the tables were made. *)
Lemma boot_memory x : 0x10000 <= x < 0x12000 -> both_tables sample_memory 0x5000 0x100000 0x101000 x = sample_memory x.
Proof. intros Hx. unfold both_tables. rewrite zero_page_outside, low_table_outside by page_lia. done. Qed.

Lemma boot_set_up (fa : LegacyFrameAllocator UefiMemoryDescriptor) :
  original fa = boot_map -> legacy_inv fa ->
  usable_frames_from 4096 boot_map = 0x100000 :: 0x101000 :: legacy_free fa ->
  setup_ok sample_kernel sample_offset sample_entries [sample_entry] 0x10000 0x12000 1 (info_cost boot_map + 100) 0x3f80
    (Some boot_framebuffer) (system_info_of (Some boot_framebuffer) (Some boot_ramdisk) (Some 0xe0000)) 0x500000
    (created boot_cpu sample_memory 0x100000 0x101000 fa).
Proof.
  intros Ho Hi Hf.
  assert (Hrange : forall f, f ∈ fa_free fa -> 0x100000 <= f /\ f + 0x1000 <= 0x500000).
  { intros f Hin. apply boot_frame_range. rewrite Hf. by right; right. }
  split.
  - split.
    + change (inner_of sample_kernel sample_offset (created boot_cpu sample_memory 0x100000 0x101000 fa))
        with (state_over fa (both_tables sample_memory 0x5000 0x100000 0x101000)).
      apply over_loads; [|apply (boot_has_frames fa _ Hi Hf)|exact boot_memory].
      * intros f Hin. apply Hrange in Hin. unfold apart. page_lia.
      * vm_compute. lia.
    + intros e. apply boot_room. vm_compute. discriminate.
    + apply (stored_empty (both_tables sample_memory 0x5000 0x100000 0x101000) 0x101000 0). reflexivity.
    + apply (stored_empty (both_tables sample_memory 0x5000 0x100000 0x101000) 0x101000 0). reflexivity.
    + intros h Hh Ht. change (2 ^ 39 <= 2 ^ 39 + virtual_addr h).
      destruct (sg_vaddr _ _ _ _ (sample_seg_ok h Hh Ht)). lia.
  - lia.
  - vm_compute. done.
  - intros f Hin. apply Hrange in Hin. change (round_down 0x3f80 Size4KiB) with 0x3000. page_lia.
  - vm_compute. discriminate.
  - simpl. unfold Size4KiB. split_and!; try lia. compute_divide.
  - simpl. unfold Size4KiB. split_and!; try lia. compute_divide.
  - split; [|lia]. simpl. unfold max_physical_address. rewrite Ho. vm_compute. reflexivity.
Qed.

Lemma boot_sample_ok :
  boot_ok sample_kernel sample_offset sample_entries [sample_entry] 0x10000 0x12000 0x3f80 (Some boot_framebuffer)
    (Some boot_ramdisk) (Some 0xe0000) 0x500000 boot_map boot_cpu sample_memory 0x100000 0x101000 100.
Proof.
  split.
  - split; [exact boot_map_ok|]. split; [exact boot_map_sorted|]. split; [simpl; lia|]. split; [done|simpl; lia].
  - simpl. unfold u64_size. lia.
  - intros nf. unfold boot_map. rewrite !Forall_cons, Forall_nil. split; [|split; [|done]].
    + intros s [= <-] _ _. simpl. vm_compute. split; discriminate.
    + intros s Hs _ Hlt. exfalso. unfold usable_from in Hs. simpl in Hs. case_match; [done|]. injection Hs as <-.
      change (base (mkDescriptor 7 0x100000 1024)) with 0x100000 in Hlt. simpl in Hlt. lia.
  - simpl. lia.
  - exists ((fun i => 0x102000 + i * 0x1000) <$> seqZ 0 1022). rewrite boot_frames. vm_compute. reflexivity.
  - intros x Hx. apply boot_frame_range in Hx. lia.
  - exists (fun _ _ => None). split; [|done]. by apply stored_empty.
  - exact boot_set_up.
Qed.

Lemma create_page_tables_correct_witness :
  exists fa t c' m' fa', LegacyFrameAllocator_new boot_map = Ret fa /\
    create_page_tables (M := MapTable.t) boot_cpu sample_memory fa = Ret (t, c', m', fa') /\
    cr3 c' = 0x100000 /\ kernel_level_4_frame t = 0x101000 /\ m' 0x100003 = sample_memory 0x5003 /\ m' 0x100009 = 0.
Proof.
  destruct (legacy_new_spec boot_map boot_map_ok boot_map_sorted) as (fa & Hnew & Hi & _ & Hf).
  destruct (create_page_tables_correct 0 boot_cpu sample_memory fa)
    as (f & g & t & c' & m' & fa' & Hr & Hfg & _ & Hc & _ & Hl & _ & Hentry & Hrest & _).
  - split; [exact Hi|]. change (2 <= length (legacy_free fa))%nat. rewrite Hf. vm_compute. lia.
  - simpl. lia.
  - intros f Hin. change (f ∈ legacy_free fa) in Hin. rewrite Hf in Hin.
    apply boot_frame_range in Hin. simpl. page_lia.
  - change (legacy_free fa = f :: g :: legacy_free fa') in Hfg. rewrite Hf in Hfg.
    assert (f = 0x100000 /\ g = 0x101000) as [-> ->].
    { pose proof (f_equal (fun l => l !! 0%nat) Hfg) as H0. pose proof (f_equal (fun l => l !! 1%nat) Hfg) as H1.
      simpl in H0, H1. vm_compute in H0, H1. injection H0 as <-. injection H1 as <-. done. }
    exists fa, t, c', m', fa'. split; [exact Hnew|]. split; [exact Hr|]. split; [exact Hc|]. split; [exact Hl|].
    split; [exact (Hentry 3 ltac:(lia))|exact (Hrest 9 ltac:(page_lia))].
Defined.

(** After two frames have been taken for the tables. *)
Lemma set_up_mappings_correct_witness :
  exists fa m s', set_up_mappings sample_kernel 0x3f80 (Some boot_framebuffer)
      (system_info_of (Some boot_framebuffer) (Some boot_ramdisk) (Some 0xe0000))
      (created boot_cpu sample_memory 0x100000 0x101000 fa) = Ret (m, s') /\
    ma_entry_point m = 2 ^ 39 + 0x40 /\ byte_at s' (2 ^ 39 + 0x1010) = Some 0x20 /\
    is_Some (ma_framebuffer m) /\ is_Some (ma_ramdisk_slice_start m).
Proof.
  destruct (legacy_new_spec boot_map boot_map_ok boot_map_sorted) as (fa0 & Hnew & Hi0 & Ho0 & Hf0).
  destruct (allocate_frames_spec (FL := legacy_free_list) 2 0 fa0 Hi0) as (fa & Hrun & Hf & Hi).
  change (legacy_free fa = drop 2 (legacy_free fa0)) in Hf.
  assert (Ho : original fa = boot_map).
  { rewrite <- Ho0. eapply (takes_original 2 2 fa0 fa); [|by exists 2%nat; eexists]. split; [exact Hi0|].
    change (2 <= length (legacy_free fa0))%nat. rewrite Hf0. vm_compute. lia. }
  destruct (set_up_mappings_correct _ _ _ _ _ _ _ _ _ _ _ _ _ (boot_set_up fa Ho Hi
    ltac:(rewrite Hf, Hf0, boot_frames; vm_compute; reflexivity))) as (m & s' & Hr & _ & Hup).
  exists fa, m, s'. split; [exact Hr|]. split; [exact (up_entry _ _ _ _ _ _ _ _ _ _ Hup)|]. split; [|split].
  - apply (up_image _ _ _ _ _ _ _ _ _ _ Hup). vm_compute. reflexivity.
  - pose proof (up_framebuffer _ _ _ _ _ _ _ _ _ _ Hup) as Hb. destruct (ma_framebuffer m); [by eexists|destruct Hb].
  - destruct (up_ramdisk _ _ _ _ _ _ _ _ _ _ Hup) as [Hb _].
    destruct (ma_ramdisk_slice_start m); [by eexists|destruct Hb].
Defined.

(** ** The boot *)

Abbreviation sample_boot := (main_inner (M := MapTable.t) sample_kernel 0x3f80 (Some boot_framebuffer)
  (Some boot_ramdisk) [mkEntry 2 0xe0000] boot_map boot_cpu sample_memory).

(** Nothing is reserved where the kernel's heap will be. *)
Lemma sample_heap_free r s' : sample_boot = Ret (r, s') -> ~ used (sys_entries s') heap_entry.
Proof.
  assert (Hc : match sample_boot with Ret (_, s') => bool_decide (used (sys_entries s') heap_entry) | _ => true end = false)
    by (vm_compute; reflexivity).
  intros Hr. rewrite Hr in Hc. by apply bool_decide_eq_false in Hc.
Qed.

(** The kernel's memory: its table at [p], and the memory map behind its
    pointer. *)
Definition kernel_memory (p : Z) (t : MapTable.t) : mem := fun x => if x =? p then encode_table t else 0.

Definition kernel_regions (p : Z) (out : list MemoryRegion) : Z -> MemoryRegion := fun x =>
  nth (Z.to_nat ((x - p) / size_of_MemoryRegion)) out MemoryRegion_empty.

Lemma kernel_regions_deref p out :
  MemoryRegions_deref (kernel_regions p out) (mkMemoryRegions p (Z.of_nat (length out))) = out.
Proof.
  unfold MemoryRegions_deref, range0. simpl. apply list_eq. intros i.
  rewrite list_lookup_fmap. destruct (out !! i) as [r|] eqn:Hr.
  - pose proof (lookup_lt_Some _ _ _ Hr). rewrite lookup_seqZ_lt by lia. simpl. unfold kernel_regions.
    rewrite Z.add_simpl_l, Z.div_mul by done. rewrite Z.add_0_l, Nat2Z.id. f_equal. by apply nth_lookup_Some.
  - apply lookup_ge_None in Hr. by rewrite lookup_seqZ_ge by lia.
Qed.

Lemma sample_screen_ok : screen_ok (Firmware.info boot_framebuffer).
Proof. split; [split; simpl; unfold isize_max, u64_size; lia|simpl; lia]. Qed.

(** No frame of the conventional memory belongs to the kernel file. *)
Lemma boot_frames_apart x : x ∈ usable_frames_from 4096 boot_map -> x + Size4KiB <= 0x10000 \/ 0x10000 + 0x2000 <= x.
Proof. intros Hx%boot_frame_range. lia. Qed.

#[local] Instance recorded_heap : LockedHeap (option (Z * Z)) := fun _ bottom size => Some (bottom, size).

(** The machine boots; its kernel finds its byte 0x10 at the right place, maps
    its heap and paints the middle of the screen. *)
Lemma boots_and_runs_witness :
  exists a contents out s' regions mk b' pt' fa' buffer', sample_boot = Ret ((a, contents, out), s') /\
    entry a = 2 ^ 39 + 0x40 /\ byte_at s' (2 ^ 39 + 0x1010) = Some 0x20 /\
    Optional.to_option (rsdp_address contents) = Some 0xe0000 /\
    main contents regions mk (page_table_frame a) None = Ret (b', pt', fa', Some (HEAP_START, HEAP_SIZE), buffer') /\
    pixel (Firmware.info boot_framebuffer) buffer' 160 100 = Some (mkColor 255 200 0).
Proof.
  assert (Hrsdp : rsdp_addr [mkEntry 2 0xe0000] = Ret (Some 0xe0000)) by reflexivity.
  destruct (boots_and_runs _ _ _ _ _ _ _ _ _ _ _ _ _ _ _ _ _ Hrsdp boot_sample_ok ltac:(compute_divide) ltac:(compute_divide)
    boot_frames_apart sample_screen_ok) as (a & contents & out & s' & fa & ma & Hr & Hb & Hrun).
  destruct (booted_window Hb) as (o & Ho & Ho0 & _).
  pose proof (bt_boot_info _ _ _ _ _ _ _ _ _ _ _ _ _ _ _ Hb) as Hi.
  destruct (Hrun (kernel_memory (o + page_table_frame a) (ktable s')) (kernel_regions (ptr (memory_regions contents)) out) None o Ho)
    as (b' & pt' & fa' & buffer' & fs & Hm & _ & _ & _ & _ & _ & Hpaint).
  - split.
    + rewrite (hd_regions _ _ _ _ _ _ _ _ Hi). apply kernel_regions_deref.
    + intros v Hv. unfold offset_page_table, stored_tables, kernel_memory. rewrite Z.eqb_refl.
      change (encode_table (ktable s') =? 0) with false. rewrite decode_encode_table. exact Hv.
  - exact (sample_heap_free _ _ Hr).
  - exists a, contents, out, s', (kernel_regions (ptr (memory_regions contents)) out), (kernel_memory (o + page_table_frame a) (ktable s')), b', pt', fa', buffer'.
    split; [exact Hr|]. split; [|split; [|split; [|split]]].
    + rewrite (bt_registers _ _ _ _ _ _ _ _ _ _ _ _ _ _ _ Hb). exact (up_entry _ _ _ _ _ _ _ _ _ _ (bt_set_up _ _ _ _ _ _ _ _ _ _ _ _ _ _ _ Hb)).
    + apply (up_image _ _ _ _ _ _ _ _ _ _ (bt_set_up _ _ _ _ _ _ _ _ _ _ _ _ _ _ _ Hb)). vm_compute. reflexivity.
    + exact (hd_rsdp _ _ _ _ _ _ _ _ Hi).
    + exact Hm.
    + apply (Hpaint 160 100); [split; simpl; lia|]. vm_compute. split; [reflexivity|split; [reflexivity|discriminate]].
Defined.
