(* ===== verification/HostFiles.v ===== *)
(** The standard library as the host tool uses it, and src/src/file_data.rs.

    The tool under src/src runs on the development machine: it reads and writes
    whole files, keeps its files in a [BTreeMap], walks the ancestors of a
    path and reports errors with the contexts that anyhow adds.  Here are these
    parts: [io], a computation with a state that may fail with an error or
    panic; files as a map from paths to contents; [btree], an association list
    with ascending keys; and [Path], on the bytes of a path. *)

From S2P Require Import Prelude.
From stdpp Require Import pretty.
From Stdlib Require Import Ascii OrdersEx.

#[local] Open Scope string_scope.
#[local] Open Scope Z_scope.

(** * Computations that fail *)

(** [anyhow::Error]: the contexts, the outermost first, and the cause. *)
Abbreviation error := (list string).

Definition io (S A : Type) : Type := S -> outcome (result A error * S).

#[global] Instance io_ret {S} : MRet (io S) := fun A a s => Ret (Ok a, s).

(** [m?; ...] *)
#[global] Instance io_bind {S} : MBind (io S) := fun A B f m s =>
  r ← m s;
  match r with
  | (Ok a, s) => f a s
  | (Err e, s) => Ret (Err e, s)
  end.

Section Io.
Context {S : Type}.

Definition io_get : io S S := fun s => Ret (Ok s, s).
Definition io_put (s : S) : io S unit := fun _ => Ret (Ok tt, s).
Definition io_fail {A} (e : error) : io S A := fun s => Ret (Err e, s).
Definition io_lift {A} (m : outcome A) : io S A := fun s => a ← m; Ret (Ok a, s).

(** A call that returns a plain error: [call] on the state. *)
Definition io_call {A} (call : S -> result A string * S) : io S A := fun s =>
  let '(r, s) := call s in Ret (match r with Ok a => Ok a | Err e => Err [e] end, s).

(** [m.context(msg)] and [m.with_context(|| msg)] *)
Definition context {A} (msg : string) (m : io S A) : io S A := fun s =>
  r ← m s;
  match r with
  | (Ok a, s) => Ret (Ok a, s)
  | (Err e, s) => Ret (Err (msg :: e), s)
  end.

(** [m.unwrap()] *)
Definition io_unwrap {A} (m : io S A) : io S A := fun s =>
  r ← m s;
  match r with
  | (Ok a, s) => Ret (Ok a, s)
  | (Err _, _) => Panic "called `Result::unwrap()` on an `Err` value"
  end.

(** [for x in xs { body(x)? }] *)
Fixpoint io_for {A} (xs : list A) (body : A -> io S unit) : io S unit :=
  match xs with
  | [] => mret tt
  | x :: rest => _ ← body x; io_for rest body
  end.

Lemma io_bind_Ok {A B} (m : io S A) (f : A -> io S B) s a s' :
  m s = Ret (Ok a, s') -> (m ≫= f) s = f a s'.
Proof. unfold mbind, io_bind. intros H. by rewrite H. Qed.

Lemma io_bind_Err {A B} (m : io S A) (f : A -> io S B) s e s' :
  m s = Ret (Err e, s') -> (m ≫= f) s = Ret (Err e, s').
Proof. unfold mbind, io_bind. intros H. by rewrite H. Qed.

Lemma context_Err {A} msg (m : io S A) s e s' : m s = Ret (Err e, s') -> context msg m s = Ret (Err (msg :: e), s').
Proof. unfold context. intros H. by rewrite H. Qed.

Lemma context_Ok {A} msg (m : io S A) s a s' : m s = Ret (Ok a, s') -> context msg m s = Ret (Ok a, s').
Proof. unfold context. intros H. by rewrite H. Qed.

Lemma io_unwrap_Ok {A} (m : io S A) s a s' : m s = Ret (Ok a, s') -> io_unwrap m s = Ret (Ok a, s').
Proof. unfold io_unwrap. intros H. by rewrite H. Qed.

Lemma io_call_Ok {A} (call : S -> result A string * S) s a s' :
  call s = (Ok a, s') -> io_call call s = Ret (Ok a, s').
Proof. unfold io_call. intros H. by rewrite H. Qed.

Lemma io_bind_inv {A B} (m : io S A) (f : A -> io S B) s r s' : (m ≫= f) s = Ret (r, s') ->
  (exists e, r = Err e /\ m s = Ret (Err e, s')) \/ exists a s1, m s = Ret (Ok a, s1) /\ f a s1 = Ret (r, s').
Proof.
  unfold mbind at 1, io_bind. destruct (m s) as [[[a|e] s1]| |]; simpl; [|intros [= <- <-]|done|done]; [right|left]; eauto.
Qed.

Lemma context_inv {A} msg (m : io S A) s r s' : context msg m s = Ret (r, s') ->
  (exists a, r = Ok a /\ m s = Ret (Ok a, s')) \/ exists e, r = Err (msg :: e) /\ m s = Ret (Err e, s').
Proof.
  unfold context. destruct (m s) as [[[a|e] s1]| |]; simpl; [| |done|done]; intros [= <- <-]; eauto.
Qed.

Lemma io_for_invariant {A} (I : list A -> S -> Prop) xs (body : A -> io S unit) s :
  I [] s ->
  (forall don x rest s, xs = (don ++ x :: rest)%list -> I don s ->
     exists s', body x s = Ret (Ok tt, s') /\ I (don ++ [x])%list s') ->
  exists s', io_for xs body s = Ret (Ok tt, s') /\ I xs s'.
Proof.
  intros H0 Hstep.
  assert (Hgen : forall rest don s, xs = (don ++ rest)%list -> I don s ->
    exists s', io_for rest body s = Ret (Ok tt, s') /\ I xs s').
  { intros rest. induction rest as [|x rest IH]; intros don s1 Hxs HI; simpl.
    - exists s1. split; [done|]. by rewrite Hxs, app_nil_r.
    - destruct (Hstep don x rest s1 Hxs HI) as (s2 & Hs2 & HI2).
      erewrite io_bind_Ok by exact Hs2. apply (IH (don ++ [x])%list); [|done].
      by rewrite <- app_assoc. }
  by apply (Hgen xs []).
Qed.
End Io.

(** * BTreeMap *)

(** The entries in ascending order of the keys. *)
Definition btree (V : Type) : Type := list (string * V).

(** [insert]: the value that was there before, and the new map. *)
Fixpoint btree_insert {V} (k : string) (v : V) (m : btree V) : option V * btree V :=
  match m with
  | [] => (None, [(k, v)])
  | (k', v') :: rest =>
      if String.eqb k k' then (Some v', (k, v) :: rest)
      else if String.ltb k k' then (None, (k, v) :: m)
      else let '(o, rest) := btree_insert k v rest in (o, (k', v') :: rest)
  end.

Fixpoint btree_get {V} (k : string) (m : btree V) : option V :=
  match m with
  | [] => None
  | (k', v) :: rest => if String.eqb k k' then Some v else btree_get k rest
  end.

Lemma btree_get_insert {V} k (v : V) m k' :
  btree_get k' (snd (btree_insert k v m)) = if String.eqb k' k then Some v else btree_get k' m.
Proof.
  induction m as [|[k1 v1] m IH]; simpl; [done|].
  destruct (String.eqb_spec k k1) as [->|Hne]; simpl; [by destruct (String.eqb k' k1)|].
  destruct (String.ltb k k1); simpl; [done|].
  destruct (btree_insert k v m) as [o rest] eqn:E. simpl in *.
  destruct (String.eqb_spec k' k1) as [->|]; [|done].
  destruct (String.eqb_spec k1 k) as [->|]; done.
Qed.

(** Keys in strictly ascending order. *)
Definition key_lt (a b : string) : Prop := String_as_OT.lt a b.
Definition btree_ok {V} (m : btree V) : Prop := StronglySorted key_lt m.*1.

Lemma ltb_key_lt a b : String.ltb a b = true <-> key_lt a b.
Proof.
  assert (Hc : forall x y, String.compare x y = String_as_OT.compare x y).
  { induction x as [|c x IH]; intros [|d y]; done. }
  unfold key_lt, String_as_OT.lt, String.ltb. rewrite Hc. by destruct (String_as_OT.compare a b).
Qed.

Lemma key_lt_irrefl a : ~ key_lt a a.
Proof. apply (StrictOrder_Irreflexive (R := String_as_OT.lt)). Qed.

Lemma key_lt_trans a b c : key_lt a b -> key_lt b c -> key_lt a c.
Proof. apply (StrictOrder_Transitive (R := String_as_OT.lt)). Qed.

Lemma key_lt_total a b : String.eqb a b = false -> String.ltb a b = false -> key_lt b a.
Proof.
  intros Hne Hlt. destruct (String_as_OT.compare_spec a b) as [He|Hl|Hg]; [|exfalso; apply ltb_key_lt in Hl; congruence|done].
  unfold String_as_OT.eq in He. subst. by rewrite String.eqb_refl in Hne.
Qed.

Lemma btree_get_elem {V} k (v : V) m : btree_ok m -> btree_get k m = Some v <-> (k, v) ∈ m.
Proof.
  intros Hm. induction m as [|[k1 v1] m IH]; simpl; [split; [done|by intros ?%elem_of_nil]|].
  apply StronglySorted_inv in Hm as [Hm Hall]. rewrite elem_of_cons.
  destruct (String.eqb_spec k k1) as [->|Hne].
  - split; [intros [= ->]; by left|intros [[= ->]|Hin]; [done|]]. exfalso.
    rewrite Forall_forall in Hall. apply (key_lt_irrefl k1), Hall. apply list_elem_of_fmap. by exists (k1, v).
  - rewrite IH by done. split; [by right|]. intros [[= -> ->]|?]; done.
Qed.

Lemma btree_insert_keys {V} k (v : V) m x : x ∈ (snd (btree_insert k v m)).*1 <-> x = k \/ x ∈ m.*1.
Proof.
  induction m as [|[k1 v1] m IH]; simpl; [by rewrite list_elem_of_singleton; set_solver|].
  destruct (String.eqb_spec k k1) as [->|]; simpl; [set_solver|].
  destruct (String.ltb k k1); simpl; [set_solver|].
  destruct (btree_insert k v m) as [o rest]. simpl in *. set_solver.
Qed.

Lemma btree_insert_ok {V} k (v : V) m : btree_ok m -> btree_ok (snd (btree_insert k v m)).
Proof.
  unfold btree_ok. intros Hm. induction m as [|[k1 v1] m IH]; simpl in *; [repeat constructor|].
  apply StronglySorted_inv in Hm as [Hm Hall].
  destruct (String.eqb k k1) eqn:He; simpl; [apply String.eqb_eq in He as ->; by constructor|].
  destruct (String.ltb k k1) eqn:Hl; simpl.
  - apply ltb_key_lt in Hl. constructor; [by constructor|]. constructor; [done|].
    eapply Forall_impl; [exact Hall|]. intros x. by apply key_lt_trans.
  - pose proof (btree_insert_keys k v m) as Hk. destruct (btree_insert k v m) as [o rest]. simpl in *.
    constructor; [by apply IH|]. apply Forall_forall. intros x [->|Hx]%Hk; [by apply key_lt_total|].
    by rewrite Forall_forall in Hall; apply Hall.
Qed.

(** [insert] returns the value that was there. *)
Lemma btree_insert_old {V} k (v : V) m : btree_ok m -> fst (btree_insert k v m) = btree_get k m.
Proof.
  unfold btree_ok. intros Hm. induction m as [|[k1 v1] m IH]; simpl in *; [done|].
  apply StronglySorted_inv in Hm as [Hm Hall].
  destruct (String.eqb_spec k k1) as [->|Hne]; simpl; [done|].
  destruct (String.ltb k k1) eqn:Hl; simpl.
  - destruct (btree_get k m) as [v'|] eqn:Hg; [|done]. exfalso. apply ltb_key_lt in Hl.
    apply btree_get_elem in Hg; [|done]. rewrite Forall_forall in Hall.
    apply (key_lt_irrefl k). apply (key_lt_trans _ k1); [done|]. apply Hall, list_elem_of_fmap. by exists (k, v').
  - specialize (IH Hm). by destruct (btree_insert k v m).
Qed.

(** * Path *)

(** A path is its bytes; [/] separates components. *)
Definition is_sep (c : ascii) : bool := Ascii.eqb c "/".

(** The bytes between separators. *)
Fixpoint split_sep (l : list ascii) : list (list ascii) :=
  match l with
  | [] => [[]]
  | c :: l =>
      if is_sep c then [] :: split_sep l
      else match split_sep l with
           | comp :: rest => (c :: comp) :: rest
           | [] => [[c]]
           end
  end.

Fixpoint join_sep (cs : list (list ascii)) : list ascii :=
  match cs with
  | [] => []
  | [c] => c
  | c :: rest => (c ++ "/"%char :: join_sep rest)%list
  end.

(** Empty components and [.] are skipped. *)
Definition skipped (comp : list ascii) : bool :=
  match comp with [] => true | ["."%char] => true | _ => false end.

(** [cs] without the skipped components at its end. *)
Definition trim_right (cs : list (list ascii)) : list (list ascii) :=
  foldr (fun c rest => match rest with [] => if skipped c then [] else [c] | _ => c :: rest end) [] cs.

(** The root, or a leading [.], which are components of their own. *)
Definition has_root (p : list ascii) : bool := match p with c :: _ => is_sep c | [] => false end.
Definition has_cur_dir (p : list ascii) : bool :=
  match p with
  | ["."%char] => true
  | "."%char :: c :: _ => is_sep c
  | _ => false
  end.
Definition len_before_body (p : list ascii) : nat := if has_root p || has_cur_dir p then 1 else 0.

(** The components behind the root or the leading [.]. *)
Definition body (p : list ascii) : list (list ascii) := trim_right (split_sep (drop (len_before_body p) p)).

(** [Path::parent] *)
Definition parent (p : list ascii) : option (list ascii) :=
  match body p with
  | [] => if has_root p then None else if has_cur_dir p then Some [] else None
  | cs => Some (take (len_before_body p) p ++ join_sep (trim_right (removelast cs)))%list
  end.

(** [Path::ancestors]: the path and its parents; every parent is shorter. *)
Fixpoint ancestors_fuel (n : nat) (p : list ascii) : list (list ascii) :=
  match n with
  | O => []
  | S n => p :: match parent p with Some q => ancestors_fuel n q | None => [] end
  end.
Definition ancestors (p : list ascii) : list (list ascii) := ancestors_fuel (S (length p)) p.

(** [Path::file_name] and [Path::file_stem] *)
Definition file_name (p : list ascii) : option (list ascii) :=
  match last (body p) with
  | Some ["."%char; "."%char] | None => None
  | Some c => Some c
  end.

(** The bytes before the last dot, if there is one. *)
Fixpoint before_last_dot (l : list ascii) : option (list ascii) :=
  match l with
  | [] => None
  | c :: l =>
      match before_last_dot l with
      | Some b => Some (c :: b)
      | None => if Ascii.eqb c "." then Some [] else None
      end
  end.

Definition file_stem (p : list ascii) : option (list ascii) :=
  (fun name => match before_last_dot name with
               | None | Some [] => name
               | Some before => before
               end) <$> file_name p.

Definition show (p : list ascii) : string := String.string_of_list_ascii p.
Definition Path_new (s : string) : list ascii := String.list_ascii_of_string s.

Example ancestors_example :
  show <$> ancestors (Path_new "efi/boot/bootx64.efi") = ["efi/boot/bootx64.efi"; "efi/boot"; "efi"; ""] /\
  show <$> ancestors (Path_new "/a//b/./c/") = ["/a//b/./c/"; "/a//b"; "/a"; "/"] /\
  show <$> ancestors (Path_new "./a") = ["./a"; "."; ""] /\
  show <$> file_stem (Path_new "/x/nukleus-1.d") = Some "nukleus-1" /\
  show <$> file_stem (Path_new "a/.config") = Some ".config" /\
  show <$> file_stem (Path_new "a/..") = None.
Proof. vm_compute. auto 10. Qed.

(** * Files of the host *)

(** The files of the host, by path. *)
Definition host : Type := gmap string (list Z).

(** What the host decides: where a file can be created, which file can be
    deleted, and the name of the next temporary file. *)
Class HostFs := {
  can_create : string -> bool;
  can_remove : string -> bool;
  new_temp_file : host -> result string string;
}.

Definition not_found : error := ["No such file or directory (os error 2)"].
Definition denied : error := ["Permission denied (os error 13)"].

(** [fs::metadata(path)?.len()] *)
Definition metadata_len (path : string) : io host Z :=
  h ← io_get;
  match h !! path with
  | Some bytes => mret (Z.of_nat (length bytes))
  | None => io_fail not_found
  end.

(** [File::open(path)?] and everything read from it. *)
Definition read_file (path : string) : io host (list Z) :=
  h ← io_get;
  match h !! path with
  | Some bytes => mret bytes
  | None => io_fail not_found
  end.

Definition write_file (path : string) (bytes : list Z) : io host unit :=
  h ← io_get; io_put (<[path := bytes]> h).

(** [OpenOptions::new().read(true).write(true).create(true).truncate(true).open(path)] *)
Definition open_truncated {HF : HostFs} (path : string) : io host unit :=
  if can_create path then write_file path [] else io_fail denied.

(** [file.set_len(n)]: cut off, or filled with zeroes. *)
Definition resized (n : Z) (bytes : list Z) : list Z :=
  take (Z.to_nat n) bytes ++ replicate (Z.to_nat n - length bytes) 0.

Definition set_len (path : string) (n : Z) : io host unit :=
  bytes ← read_file path; write_file path (resized n bytes).

(** [bytes] written into a file at [pos], behind whose end are zeroes. *)
Definition written_at (pos : Z) (bytes file : list Z) : list Z :=
  take (Z.to_nat pos) (resized (Z.max pos (Z.of_nat (length file))) file) ++ bytes ++
  drop (Z.to_nat pos + length bytes) file.

Lemma written_twice path a b (h : host) : <[path := a]> (<[path := b]> h) = <[path := a]> h.
Proof. apply insert_insert_eq. Qed.

Lemma read_file_spec path (h : host) bytes : h !! path = Some bytes -> read_file path h = Ret (Ok bytes, h).
Proof. intros Hh. unfold read_file. erewrite io_bind_Ok by reflexivity. by rewrite Hh. Qed.

(** [fs::remove_file], which [NamedTempFile::close] calls. *)
Definition remove_file {HF : HostFs} (path : string) : io host unit :=
  h ← io_get;
  match h !! path with
  | Some _ => if can_remove path then io_put (delete path h) else io_fail denied
  | None => io_fail not_found
  end.

(** The files when the attempt has been made. *)
Definition removed {HF : HostFs} (path : string) (h : host) : host := if can_remove path then delete path h else h.

Lemma remove_file_eq {HF : HostFs} path h : remove_file path h =
  Ret (match h !! path with Some _ => if can_remove path then Ok tt else Err denied | None => Err not_found end, removed path h).
Proof.
  unfold remove_file, removed. erewrite io_bind_Ok by reflexivity.
  destruct (h !! path) eqn:Hp; destruct (can_remove path); try done. unfold io_fail. do 2 f_equal. symmetry. by apply delete_id.
Qed.

Lemma removed_other {HF : HostFs} path h q : q <> path -> removed path h !! q = h !! q.
Proof. intros Hq. unfold removed. destruct (can_remove path); [by apply lookup_delete_ne|done]. Qed.

Lemma removed_gone {HF : HostFs} path h : can_remove path = true -> removed path h !! path = None.
Proof. intros Hc. unfold removed. rewrite Hc. apply lookup_delete_eq. Qed.

(** [NamedTempFile::new()] *)
Definition named_temp_file {HF : HostFs} : io host string :=
  path ← io_call (fun h => (new_temp_file h, h));
  _ ← write_file path [];
  mret path.

Lemma named_temp_file_eq {HF : HostFs} h : named_temp_file h =
  match new_temp_file h with Ok path => Ret (Ok path, <[path := []]> h) | Err e => Ret (Err [e], h) end.
Proof. unfold named_temp_file, mbind, io_bind, io_call. by destruct (new_temp_file h). Qed.

(** [m], which holds the temporary file [path]: when [m] fails, the drop of the
    [NamedTempFile] removes the file, and ignores an error of that. *)
Definition holding_temp {HF : HostFs} {A} (path : string) (m : io host A) : io host A := fun h =>
  r ← m h;
  match r with
  | (Ok a, h) => Ret (Ok a, h)
  | (Err e, h) => dropped ← remove_file path h; Ret (Err e, snd dropped)
  end.

Lemma holding_temp_inv {HF : HostFs} {A} path (m : io host A) h r h' : holding_temp path m h = Ret (r, h') ->
  exists h1, m h = Ret (r, h1) /\ h' = match r with Ok _ => h1 | Err _ => removed path h1 end.
Proof.
  unfold holding_temp. destruct (m h) as [[[a|e] h1]| |]; simpl; [|rewrite remove_file_eq, bind_Ret|done|done];
    intros [= <- <-]; eauto.
Qed.

(** A call that changes one file. *)
Definition on_file {A} (path : string) (call : list Z -> result A string * list Z) : io host A :=
  bytes ← read_file path;
  let '(r, bytes) := call bytes in
  _ ← write_file path bytes;
  match r with Ok a => mret a | Err e => io_fail [e] end.

(** The name of a new temporary file is not in use. *)
Class HostFsLaws {HF : HostFs} := {
  new_temp_fresh h path : new_temp_file h = Ok path -> h !! path = None /\ can_create path = true;
}.

(** [option.context(msg)] *)
Definition context_option {S A} (msg : string) (o : option A) : io S A :=
  match o with Some a => mret a | None => io_fail [msg] end.

(** * file_data.rs *)

Inductive FileDataSource : Type :=
  | File_ (path : string)
  | Data (bytes : list Z).

(** [Debug for FileDataSource] *)
Definition debug (self : FileDataSource) : string :=
  match self with
  | File_ file => "data source: File " +:+ file
  | Data d => "data source: " +:+ pretty (length d) +:+ " raw bytes "
  end.

(** [FileDataSource::len] *)
Definition source_len (self : FileDataSource) : io host Z :=
  match self with
  | File_ path => context ("failed to read metadata of file `" +:+ path +:+ "`") (metadata_len path)
  | Data v => mret (Z.of_nat (length v))
  end.

(** [FileDataSource::copy_to]: [h] is the host, [write] the target's
    [Write]. *)
Definition copy_to {S} (h : host) (write : list Z -> io S unit) (self : FileDataSource) : io S unit :=
  match self with
  | File_ file_path =>
      contents ← context ("failed to open `" +:+ file_path +:+ "` for copying")
        (match h !! file_path with Some bytes => mret bytes | None => io_fail not_found end);
      write contents
  | Data contents => write contents
  end.

(** The bytes of a source, if it can be read. *)
Definition contents (h : host) (self : FileDataSource) : option (list Z) :=
  match self with File_ path => h !! path | Data v => Some v end.

Lemma source_len_spec h self bytes :
  contents h self = Some bytes -> source_len self h = Ret (Ok (Z.of_nat (length bytes)), h).
Proof.
  destruct self as [path|v]; simpl; [|by intros [= ->]]. intros Hb. apply context_Ok.
  unfold metadata_len. erewrite io_bind_Ok by reflexivity. by rewrite Hb.
Qed.

Lemma source_len_missing h self : contents h self = None -> exists e, source_len self h = Ret (Err e, h).
Proof.
  destruct self as [path|v]; simpl; [|done]. intros Hb. eexists. unfold context, metadata_len.
  erewrite io_bind_Ok by reflexivity. by rewrite Hb.
Qed.

Lemma set_len_spec path n (h : host) bytes :
  h !! path = Some bytes -> set_len path n h = Ret (Ok tt, <[path := resized n bytes]> h).
Proof. intros Hh. unfold set_len. by erewrite io_bind_Ok by (by apply read_file_spec). Qed.

Lemma on_file_Ok {A} path (call : list Z -> result A string * list Z) (h : host) bytes bytes' a :
  h !! path = Some bytes -> call bytes = (Ok a, bytes') -> on_file path call h = Ret (Ok a, <[path := bytes']> h).
Proof. intros Hh Hc. unfold on_file. erewrite io_bind_Ok by (by apply read_file_spec). by rewrite Hc. Qed.

Lemma resized_length n bytes : 0 <= n -> Z.of_nat (length (resized n bytes)) = n.
Proof. intros Hn. unfold resized. rewrite length_app, length_take, length_replicate. lia. Qed.

(** Bytes written inside a file. *)
Lemma written_at_inside pos bytes file :
  0 <= pos -> pos + Z.of_nat (length bytes) <= Z.of_nat (length file) ->
  written_at pos bytes file =
    (take (Z.to_nat pos) file ++ bytes ++ drop (Z.to_nat pos + length bytes) file)%list.
Proof.
  intros H0 H1. unfold written_at, resized. do 2 f_equal. rewrite Z.max_r by lia.
  rewrite Nat2Z.id, Nat.sub_diag, app_nil_r. by rewrite firstn_all.
Qed.

Lemma written_at_slice pos bytes file :
  0 <= pos -> pos + Z.of_nat (length bytes) <= Z.of_nat (length file) ->
  length (written_at pos bytes file) = length file /\
  take (length bytes) (drop (Z.to_nat pos) (written_at pos bytes file)) = bytes /\
  forall i, (i < Z.to_nat pos \/ Z.to_nat pos + length bytes <= i)%nat -> written_at pos bytes file !! i = file !! i.
Proof.
  intros H0 H1. rewrite written_at_inside by done.
  assert (Hl : length (take (Z.to_nat pos) file) = Z.to_nat pos) by (rewrite length_take; lia).
  split; [rewrite !length_app, Hl, length_drop; lia|]. split.
  - rewrite drop_app_length' by done. by rewrite take_app_length.
  - intros i [Hi|Hi].
    + rewrite lookup_app_l by lia. by rewrite lookup_take_lt.
    + rewrite lookup_app_r by lia. rewrite lookup_app_r by lia. rewrite lookup_drop. f_equal. lia.
Qed.

Lemma source_copy_spec {S} h (write : list Z -> io S unit) self bytes s :
  contents h self = Some bytes -> copy_to h write self s = write bytes s.
Proof.
  destruct self as [path|v]; simpl; [|by intros [= ->]]. intros Hb. rewrite Hb.
  by erewrite io_bind_Ok by (apply context_Ok; reflexivity).
Qed.

(** * Clean paths *)

(** A component that is a name: not empty, without separator, not a dot. *)
Definition name_ok (c : list ascii) : Prop := skipped c = false /\ Forall (fun x => is_sep x = false) c.

Lemma split_sep_nosep c : Forall (fun x => is_sep x = false) c -> split_sep c = [c].
Proof. induction 1 as [|x l Hx _ IH]; [done|]. simpl. by rewrite Hx, IH. Qed.

Lemma split_sep_cons c l :
  Forall (fun x => is_sep x = false) c -> split_sep (c ++ "/"%char :: l)%list = c :: split_sep l.
Proof. induction 1 as [|x c Hx _ IH]; simpl; [done|]. by rewrite Hx, IH. Qed.

Lemma split_join cs : cs <> [] -> Forall name_ok cs -> split_sep (join_sep cs) = cs.
Proof.
  induction cs as [|c [|c2 cs] IH]; intros Hne Hok; [done| |]; apply Forall_cons in Hok as [[_ Hc] Hok].
  - by apply split_sep_nosep.
  - simpl join_sep. rewrite split_sep_cons by done. f_equal. by apply IH.
Qed.

Lemma trim_right_names cs : Forall name_ok cs -> trim_right cs = cs.
Proof.
  induction 1 as [|c cs [Hc _] _ IH]; [done|]. unfold trim_right in *. simpl. rewrite IH.
  destruct cs; [by rewrite Hc|done].
Qed.

Lemma join_sep_head c cs : name_ok c -> exists x rest, join_sep (c :: cs) = x :: rest /\ is_sep x = false /\
  (x = "."%char -> exists y rest', rest = y :: rest' /\ is_sep y = false).
Proof.
  intros [Hs Hf]. destruct c as [|x c]; [done|]. apply Forall_cons in Hf as [Hx Hf].
  exists x, (join_sep (c :: cs)). split; [by destruct cs|]. split; [done|]. intros ->.
  destruct c as [|y c]; [done|]. apply Forall_cons in Hf as [Hy _].
  exists y, (join_sep (c :: cs)). split; [by destruct cs|done].
Qed.

Lemma len_before_body_names cs : Forall name_ok cs ->
  len_before_body (join_sep cs) = 0%nat /\ has_root (join_sep cs) = false /\ has_cur_dir (join_sep cs) = false.
Proof.
  destruct cs as [|c cs]; [done|]. intros [Hc _]%Forall_cons.
  destruct (join_sep_head c cs Hc) as (x & rest & -> & Hx & Hdot).
  assert (Hcd : has_cur_dir (x :: rest) = false).
  { simpl. destruct (Ascii.eqb_spec x "."%char) as [->|Hne].
    - destruct (Hdot eq_refl) as (y & r & -> & Hy). exact Hy.
    - by destruct x as [[] [] [] [] [] [] [] []]. }
  unfold len_before_body. rewrite Hcd. cbn [has_root]. by rewrite Hx.
Qed.

Lemma body_names cs : cs <> [] -> Forall name_ok cs -> body (join_sep cs) = cs.
Proof.
  intros Hne Hok. unfold body. destruct (len_before_body_names cs Hok) as (-> & _).
  rewrite drop_0, split_join by done. by apply trim_right_names.
Qed.

Lemma parent_names cs c : Forall name_ok (cs ++ [c]) -> parent (join_sep (cs ++ [c])) = Some (join_sep cs).
Proof.
  intros Hok. unfold parent. rewrite body_names by (done || by destruct cs).
  destruct (len_before_body_names _ Hok) as (-> & _ & _).
  destruct (cs ++ [c])%list as [|d l] eqn:E; [by destruct cs|]. rewrite <- E in Hok |- *.
  apply Forall_app in Hok as [Hok _]. by rewrite removelast_last, trim_right_names.
Qed.

Lemma parent_empty : parent [] = None.
Proof. done. Qed.

Lemma join_sep_length cs c : cs <> [] -> (length (join_sep (cs ++ [c])) = length (join_sep cs) + 1 + length c)%nat.
Proof.
  induction cs as [|d [|d2 cs] IH]; intros Hne; [done| |].
  - simpl. rewrite length_app. simpl. lia.
  - change (join_sep ((d :: d2 :: cs) ++ [c])) with (d ++ "/"%char :: join_sep ((d2 :: cs) ++ [c]))%list.
    change (join_sep (d :: d2 :: cs)) with (d ++ "/"%char :: join_sep (d2 :: cs))%list.
    rewrite !length_app. cbn [length]. rewrite IH by done. lia.
Qed.

(** The ancestors of a path of names are its prefixes, the longest first. *)
Lemma ancestors_names cs : Forall name_ok cs ->
  ancestors (join_sep cs) = (fun n => join_sep (take n cs)) <$> rev (seq 0 (S (length cs))).
Proof.
  intros Hok. unfold ancestors.
  assert (Hgen : forall n, (length (join_sep cs) < n)%nat ->
    ancestors_fuel n (join_sep cs) = (fun n => join_sep (take n cs)) <$> rev (seq 0 (S (length cs)))); [|apply Hgen; lia].
  induction cs as [|c cs IH] using rev_ind; intros n Hn.
  - destruct n as [|n]; [simpl in Hn; lia|]. done.
  - destruct n as [|n]; [lia|]. simpl ancestors_fuel. rewrite parent_names by done.
    apply Forall_app in Hok as [Hok Hc]. rewrite IH; [|done|].
    + rewrite length_app, Nat.add_1_r, (seq_S (S (length cs))), rev_app_distr, fmap_app.
      change (rev [(0 + S (length cs))%nat]) with [S (length cs)]. rewrite list_fmap_singleton.
      rewrite take_ge by (rewrite length_app; simpl; lia). change ([join_sep (cs ++ [c])] ++ ?l)%list with (join_sep (cs ++ [c]) :: l).
      f_equal. apply list_fmap_ext. intros i k Hk.
      apply list_elem_of_lookup_2, list_elem_of_In, in_rev in Hk.
      apply in_seq in Hk. by rewrite take_app_le by lia.
    + destruct cs as [|d cs]; [|rewrite join_sep_length in Hn by done; lia].
      apply Forall_cons in Hc as [[Hs _] _]. destruct c as [|x c]; [done|]. simpl in Hn |- *. lia.
Qed.

(** * What a computation touches *)

(** [m] changes no file but [path], whether it fails or not. *)
Definition touches {A} (path : string) (m : io host A) : Prop :=
  forall h r h', m h = Ret (r, h') -> forall q, q <> path -> h' !! q = h !! q.

Section Touches.
Context {A B : Type} (path : string).

Lemma touches_bind (m : io host A) (f : A -> io host B) :
  touches path m -> (forall a, touches path (f a)) -> touches path (m ≫= f).
Proof.
  intros Hm Hf h r h' [(e & -> & E)|(a & h1 & E & H)]%io_bind_inv q Hq; [by apply (Hm _ _ _ E)|].
  by rewrite (Hf a _ _ _ H), (Hm _ _ _ E).
Qed.

Lemma touches_ret (a : A) : touches path (mret a : io host A).
Proof. by intros h r h' [= <- <-]. Qed.

Lemma touches_fail e : touches path (io_fail e : io host A).
Proof. by intros h r h' [= <- <-]. Qed.

Lemma touches_get : touches path io_get.
Proof. by intros h r h' [= <- <-]. Qed.

Lemma touches_lift (m : outcome A) : touches path (io_lift m).
Proof. intros h r h'. unfold io_lift. destruct m; simpl; [|done|done]. by intros [= <- <-]. Qed.

Lemma touches_pure_call (f : host -> result A string) : touches path (io_call (fun h => (f h, h))).
Proof. by intros h r h' [= <- <-]. Qed.

Lemma touches_context msg (m : io host A) : touches path m -> touches path (context msg m).
Proof.
  intros Hm h r h' [(a & _ & E)|(e & _ & E)]%context_inv; by apply (Hm _ _ _ E).
Qed.

Lemma touches_unwrap (m : io host A) : touches path m -> touches path (io_unwrap m).
Proof.
  intros Hm h r h'. unfold io_unwrap. destruct (m h) as [[[a|e] h1]| |] eqn:E; simpl; [|done|done|done].
  intros [= <- <-]. by apply (Hm _ _ _ E).
Qed.

Lemma touches_write bytes : touches path (write_file path bytes).
Proof. intros h r h' [= <- <-] q Hq. by apply lookup_insert_ne. Qed.

Lemma touches_match {X} (o : option X) (f : X -> io host A) (m : io host A) :
  (forall x, touches path (f x)) -> touches path m -> touches path (match o with Some x => f x | None => m end).
Proof. by destruct o. Qed.

Lemma touches_if (b : bool) (m1 m2 : io host A) :
  touches path m1 -> touches path m2 -> touches path (if b then m1 else m2).
Proof. by destruct b. Qed.
End Touches.

Create HintDb touches.
#[export] Hint Resolve touches_bind touches_ret touches_fail touches_get touches_lift touches_pure_call
  touches_context touches_unwrap touches_write touches_match touches_if : touches.

Lemma touches_read path p : touches path (read_file p).
Proof. unfold read_file. auto with touches. Qed.

Lemma touches_len path p : touches path (metadata_len p).
Proof. unfold metadata_len. auto with touches. Qed.

#[export] Hint Resolve touches_read touches_len : touches.

Lemma touches_open {HF : HostFs} path : touches path (open_truncated path).
Proof. unfold open_truncated. auto with touches. Qed.

Lemma touches_set_len path n : touches path (set_len path n).
Proof. unfold set_len. auto with touches. Qed.

Lemma touches_source_len path src : touches path (source_len src).
Proof. destruct src; simpl; auto with touches. Qed.

Lemma touches_on_file {A} path (call : list Z -> result A string * list Z) : touches path (on_file path call).
Proof.
  unfold on_file. apply touches_bind; [auto with touches|]. intros bytes. destruct (call bytes) as [[a|e] b]; auto with touches.
Qed.

#[export] Hint Resolve touches_open touches_set_len touches_source_len touches_on_file : touches.
