(* ===== verification/FatImage.v ===== *)
(** src/src/fat_fs.rs: the FAT file system image that the host tool builds.

    The fatfs crate is the class [FatFs]: its calls on a mounted file system
    and on an image in bytes.  [FatFsLaws] says what they do to the directories
    and files of the volume, as long as these fit it. *)

From S2P Require Import Prelude HostFiles.
From stdpp Require Import pretty.
From Stdlib Require Import Ascii.

#[local] Open Scope string_scope.
#[local] Open Scope Z_scope.

(** disk_image.rs: the name of the kernel file. *)
Definition KERNEL_FILE_NAME : string := "kernel-x86_64".

(** * The fatfs crate *)

(** The calls: [format_volume] of an image, with a label of eleven bytes;
    [FileSystem::new]; [create_dir] and [create_file] of the root directory; and
    [truncate] and [write_all] of a file. [fat_image] is the image after the
    file system has been closed. *)
Class FatFs (S : Type) := {
  fat_format : list Z -> list Z -> result (list Z) string;
  fat_open : list Z -> result S string;
  fat_create_dir : string -> S -> result unit string * S;
  fat_create_file : string -> S -> result Z string * S;
  fat_truncate : Z -> S -> result unit string * S;
  fat_write : Z -> list Z -> S -> result unit string * S;
  fat_image : S -> list Z;
}.

(** [dirs] has the directory that a path lies in. *)
Definition in_dir (dirs : gset string) (path : string) : Prop :=
  match parent (Path_new path) with
  | Some [] => True
  | Some p => show p ∈ dirs
  | None => False
  end.

(** [d1], [f1] need no more room than [d2], [f2]. *)
Definition no_larger (d1 d2 : gset string) (f1 f2 : gmap string (list Z)) : Prop :=
  d1 ⊆ d2 /\ forall p b1, f1 !! p = Some b1 -> exists b2, f2 !! p = Some b2 /\ (length b1 <= length b2)%nat.

(** The directories and files of a volume, [fat_dirs] and [fat_files].  A
    volume of a size has room for some of them ([fat_fits]), and fewer or
    smaller ones fit where others do.  [fat_handle] is the path of an open
    file and the position in it. *)
Class FatFsLaws (S : Type) {FS : FatFs S} := {
  fat_inv : S -> Prop;
  fat_dirs : S -> gset string;
  fat_files : S -> gmap string (list Z);
  fat_size_of : S -> Z;
  fat_handle : S -> Z -> option (string * Z);
  fat_path_ok : string -> Prop;
  fat_fits : Z -> gset string -> gmap string (list Z) -> Prop;
  fat_fits_mono n d1 d2 f1 f2 : no_larger d1 d2 f1 f2 -> fat_fits n d2 f2 -> fat_fits n d1 f1;
  fat_image_length s : fat_inv s -> Z.of_nat (length (fat_image s)) = fat_size_of s;
  fat_reopen s : fat_inv s -> exists s', fat_open (fat_image s) = Ok s' /\
    fat_dirs s' = fat_dirs s /\ fat_files s' = fat_files s;
  fat_format_spec image label : fat_fits (Z.of_nat (length image)) ∅ ∅ -> length label = 11%nat ->
    exists image' s, fat_format image label = Ok image' /\ fat_open image' = Ok s /\ fat_inv s /\
      length image' = length image /\
      fat_dirs s = ∅ /\ fat_files s = ∅ /\ fat_size_of s = Z.of_nat (length image);
  fat_create_dir_spec p s : fat_inv s -> fat_path_ok p -> in_dir (fat_dirs s) p -> fat_files s !! p = None ->
    fat_fits (fat_size_of s) ({[p]} ∪ fat_dirs s) (fat_files s) ->
    exists s', fat_create_dir p s = (Ok tt, s') /\ fat_inv s' /\
      fat_dirs s' = {[p]} ∪ fat_dirs s /\ fat_files s' = fat_files s /\ fat_size_of s' = fat_size_of s;
  fat_create_file_spec p s : fat_inv s -> fat_path_ok p -> in_dir (fat_dirs s) p -> p ∉ fat_dirs s ->
    fat_fits (fat_size_of s) (fat_dirs s) (<[p := default [] (fat_files s !! p)]> (fat_files s)) ->
    exists f s', fat_create_file p s = (Ok f, s') /\ fat_inv s' /\ fat_handle s' f = Some (p, 0) /\
      fat_dirs s' = fat_dirs s /\ fat_files s' = <[p := default [] (fat_files s !! p)]> (fat_files s) /\
      fat_size_of s' = fat_size_of s;
  fat_truncate_spec f p s : fat_inv s -> fat_handle s f = Some (p, 0) ->
    exists s', fat_truncate f s = (Ok tt, s') /\ fat_inv s' /\ fat_handle s' f = Some (p, 0) /\
      fat_dirs s' = fat_dirs s /\ fat_files s' = <[p := []]> (fat_files s) /\ fat_size_of s' = fat_size_of s;
  fat_write_spec f p bytes s : fat_inv s -> fat_handle s f = Some (p, 0) -> fat_files s !! p = Some [] ->
    fat_fits (fat_size_of s) (fat_dirs s) (<[p := bytes]> (fat_files s)) ->
    exists s', fat_write f bytes s = (Ok tt, s') /\ fat_inv s' /\
      fat_dirs s' = fat_dirs s /\ fat_files s' = <[p := bytes]> (fat_files s) /\ fat_size_of s' = fat_size_of s;
}.

(** The directories and files of an image, if it holds a volume. *)
Definition volume_of {S} {FS : FatFs S} {FL : FatFsLaws S} (image : list Z) : option (gset string * gmap string (list Z)) :=
  match fat_open image with Ok s => Some (fat_dirs s, fat_files s) | Err _ => None end.

(** * fat_fs.rs *)

Section Fat.
Context {P : Profile} {HF : HostFs} {S : Type} {FS : FatFs S}.

(** The directories that are made for a file, the outermost first. *)
Definition directories_of (target_path : string) : list string :=
  show <$> drop 1 (rev (drop 1 (ancestors (Path_new target_path)))).

(** The body of the loop over the files. *)
Definition add_file (h : host) (entry : string * FileDataSource) : io S unit :=
  let '(target_path, source) := entry in
  _ ← io_for (directories_of target_path) (fun ancestor =>
        context ("failed to create directory `" +:+ ancestor +:+ "` on FAT filesystem")
          (io_call (fat_create_dir ancestor)));
  new_file ← context ("failed to create file at `" +:+ target_path +:+ "`") (io_call (fat_create_file target_path));
  _ ← io_unwrap (io_call (fat_truncate new_file));
  context ("failed to copy source data `" +:+ debug source +:+ "` to file at `" +:+ target_path +:+ "`")
    (copy_to h (fun bytes => io_call (fat_write new_file bytes)) source).

Definition add_files_to_image (h : host) (files : btree FileDataSource) : io S unit :=
  io_for files (add_file h).

Definition MB : Z := 1024 * 1024.

(** The sum of the lengths of the sources. *)
Fixpoint needed_size (sources : list FileDataSource) (sum : Z) : io host Z :=
  match sources with
  | [] => mret sum
  | source :: rest =>
      l ← source_len source;
      sum ← io_lift (u64_add sum l);
      needed_size rest sum
  end.

Definition fat_size_padded_and_rounded (needed : Z) : outcome Z :=
  a ← u64_add needed (1024 * 64);
  b ← u64_sub a 1;
  c ← u64_add (b / MB) 1;
  u64_mul c MB.

Definition bytes_of (s : list ascii) : list Z := (fun c => Z.of_N (N_of_ascii c)) <$> s.

Definition default_label : list Z := bytes_of (Path_new "L.I.F.E OS!").

(** The label: the first eleven bytes of the kernel file's stem. *)
Definition label_of (files : btree FileDataSource) : list Z :=
  match btree_get KERNEL_FILE_NAME files with
  | Some (File_ path) =>
      match file_stem (Path_new path) with
      | Some name =>
          let name := take (Nat.min 11 (length name)) (bytes_of name) in
          (name ++ drop (length name) (replicate 11 0))%list
      | None => default_label
      end
  | _ => default_label
  end.

(** A computation on the mounted file system, whose image is written to the
    file when it is closed. *)
Definition on_volume {A} (out : string) (s : S) (m : io S A) : io host A := fun h =>
  r ← m s;
  let '(res, s) := r in
  Ret (res, <[out := fat_image s]> h).

Definition create_fat_filesystem (files : btree FileDataSource) (out_fat_path : string) : io host unit :=
  needed ← needed_size files.*2 0;
  _ ← io_unwrap (open_truncated out_fat_path);
  size ← io_lift (fat_size_padded_and_rounded needed);
  _ ← io_unwrap (set_len out_fat_path size);
  let label := label_of files in
  image ← read_file out_fat_path;
  image ← context "Failed to format FAT file" (io_call (fun h => (fat_format image label, h)));
  _ ← write_file out_fat_path image;
  filesystem ← context "Failed to open FAT file system of UEFI FAT file" (io_call (fun h => (fat_open image, h)));
  h ← io_get;
  on_volume out_fat_path filesystem (add_files_to_image h files).
End Fat.

(** * Size and label *)

Section Size.
Context {P : Profile}.

(** The size of the volume, as a function on the integers. *)
Definition volume_size (needed : Z) : Z := ((needed + 1024 * 64 - 1) / MB + 1) * MB.

Lemma fat_size_spec needed :
  0 <= needed < 2 ^ 63 -> fat_size_padded_and_rounded needed = Ret (volume_size needed).
Proof.
  intros Hn. unfold fat_size_padded_and_rounded, volume_size.
  pose proof (Z.div_pos (needed + 1024 * 64 - 1) MB ltac:(lia) ltac:(done)).
  pose proof (Z.mul_div_le (needed + 1024 * 64 - 1) MB ltac:(done)). unfold MB in *.
  rewrite u64_add_ok, bind_Ret by (unfold u64_size; lia).
  rewrite u64_sub_ok, bind_Ret by (unfold u64_size; lia).
  rewrite u64_add_ok, bind_Ret by (unfold u64_size; lia).
  apply u64_mul_ok. unfold u64_size. lia.
Qed.

(** C39: the size of the FAT volume is a whole number of MiB that leaves at
    least 64 KiB, and less than 64 KiB and a MiB, beside the files; no
    arithmetic overflows below 2^63 bytes. *)
Theorem volume_size_bounds needed :
  0 <= needed < 2 ^ 63 ->
  exists size, fat_size_padded_and_rounded needed = Ret size /\ (MB | size) /\
    needed + 64 * 1024 <= size < needed + 64 * 1024 + MB /\ size < 2 ^ 64.
Proof.
  intros Hn. exists (volume_size needed). split; [by apply fat_size_spec|]. unfold volume_size.
  split; [by apply Z.divide_factor_r|].
  pose proof (Z.div_mod (needed + 1024 * 64 - 1) MB ltac:(done)).
  pose proof (Z.mod_pos_bound (needed + 1024 * 64 - 1) MB ltac:(done)). unfold MB in *. lia.
Qed.
End Size.

Lemma label_length files : length (label_of files) = 11%nat.
Proof.
  unfold label_of. destruct (btree_get _ _) as [[path|v]|]; [|done|done].
  destruct (file_stem _) as [name|]; [|done]. unfold bytes_of.
  rewrite length_app, length_drop, length_replicate, length_take, length_fmap. lia.
Qed.

(** * What the volume holds *)

(** All directories made for the files, and the contents of the files. *)
Definition all_dirs (files : btree FileDataSource) : gset string := list_to_set (files.*1 ≫= directories_of).

Definition file_contents (h : host) (files : btree FileDataSource) : gmap string (list Z) :=
  foldl (fun m e => match contents h e.2 with Some b => <[e.1 := b]> m | None => m end) ∅ files.

Lemma all_dirs_snoc files e : all_dirs (files ++ [e])%list = all_dirs files ∪ list_to_set (directories_of e.1).
Proof.
  unfold all_dirs. rewrite fmap_app, bind_app, list_to_set_app_L. simpl. by rewrite app_nil_r.
Qed.

Lemma file_contents_snoc h files p src b :
  contents h src = Some b -> file_contents h (files ++ [(p, src)])%list = <[p := b]> (file_contents h files).
Proof. intros Hb. unfold file_contents. rewrite foldl_app. simpl. by rewrite Hb. Qed.

Lemma file_contents_lookup h files p b :
  NoDup files.*1 -> Forall (fun e => is_Some (contents h e.2)) files ->
  file_contents h files !! p = Some b <-> exists src, (p, src) ∈ files /\ contents h src = Some b.
Proof.
  induction files as [|[q src] files IH] using rev_ind; intros Hnd Hok.
  - split; [done|]. by intros (src & ?%elem_of_nil & _).
  - rewrite fmap_app in Hnd. apply NoDup_app in Hnd as (Hnd & Hn & _).
    apply Forall_app in Hok as [Hok [[c Hc] _]%Forall_cons]. simpl in Hc.
    rewrite (file_contents_snoc h files q src c Hc), lookup_insert_Some, IH by done.
    setoid_rewrite elem_of_app. setoid_rewrite list_elem_of_singleton. split.
    + intros [[-> <-]|(Hne & src' & Hin & Hb)]; [by exists src; auto|by exists src'; auto].
    + intros (src' & [Hin|[= -> ->]] & Hb); [|left; split; congruence]. right. split; [|by exists src'].
      intros ->. apply (Hn p); [apply list_elem_of_fmap; by exists (p, src')|by left].
Qed.

Lemma btree_keys_NoDup {V} (m : btree V) : btree_ok m -> NoDup m.*1.
Proof.
  unfold btree_ok. induction 1 as [|k ks _ IH Hall]; constructor; [|done].
  intros Hin. rewrite Forall_forall in Hall. by apply (key_lt_irrefl k), Hall.
Qed.

(** A path of names. *)
Definition path_names (p : string) (cs : list (list ascii)) : Prop :=
  p = show (join_sep cs) /\ cs <> [] /\ Forall name_ok cs.

Lemma Path_new_show p : Path_new (show p) = p.
Proof. apply String.list_ascii_of_string_of_list_ascii. Qed.

Lemma directories_of_names p cs : path_names p cs ->
  directories_of p = (fun n => show (join_sep (take n cs))) <$> seq 1 (length cs - 1).
Proof.
  intros (-> & Hne & Hok). unfold directories_of. rewrite Path_new_show, ancestors_names by done.
  destruct (length cs) as [|n] eqn:El; [by destruct cs|].
  assert (Hr : (fun n => join_sep (take n cs)) <$> rev (seq 0 (S (S n))) =
    join_sep (take (S n) cs) :: rev ((fun n => join_sep (take n cs)) <$> seq 0 (S n))).
  { rewrite (seq_S (S n)), rev_app_distr. change (rev [(0 + S n)%nat]) with [S n].
    rewrite fmap_app, list_fmap_singleton. cbn [app]. f_equal. apply map_rev. }
  rewrite Hr, skipn_cons, drop_0, rev_involutive. cbn [seq]. rewrite fmap_cons, skipn_cons, drop_0.
  rewrite <- list_fmap_compose. simpl. by rewrite Nat.sub_0_r.
Qed.

(** Every directory lies in the one before it, the file in the last one. *)
Lemma in_dir_names (dirs : gset string) cs n :
  Forall name_ok cs -> (0 < n <= length cs)%nat ->
  ((1 < n)%nat -> show (join_sep (take (n - 1) cs)) ∈ dirs) -> in_dir dirs (show (join_sep (take n cs))).
Proof.
  intros Hok Hn Hdir. unfold in_dir. rewrite Path_new_show.
  destruct n as [|n]; [lia|]. destruct (lookup_lt_is_Some_2 cs n ltac:(lia)) as [c Hc].
  rewrite (take_S_r _ _ c) by done.
  rewrite parent_names by (rewrite <- (take_S_r _ _ c) by done; by apply Forall_take).
  destruct (join_sep (take n cs)) as [|x r] eqn:E; [done|]. rewrite <- E.
  replace n with (S n - 1)%nat at 1 by lia. apply Hdir. destruct n; [done|lia].
Qed.

Section Contents.
Context {P : Profile} {HF : HostFs} {S : Type} {FS : FatFs S} {FL : FatFsLaws S}.

(** Files that can be put on a volume of [size] bytes: their sources can be
    read; their paths are made of names, none of them that of a directory of
    another; and everything fits. *)
Record files_ok (h : host) (files : btree FileDataSource) (size : Z) : Prop := {
  fk_sorted : btree_ok files;
  fk_sources : Forall (fun e => is_Some (contents h e.2)) files;
  fk_names p : p ∈ files.*1 -> exists cs, path_names p cs;
  fk_paths p : p ∈ files.*1 -> fat_path_ok p /\ Forall fat_path_ok (directories_of p);
  fk_apart p : p ∈ files.*1 -> p ∉ all_dirs files;
  fk_fits : fat_fits size (all_dirs files) (file_contents h files);
}.

(** The volume holds the files [don]. *)
Record holds (h : host) (size : Z) (don : btree FileDataSource) (s : S) : Prop := {
  hl_inv : fat_inv s;
  hl_dirs : fat_dirs s = all_dirs don;
  hl_files : fat_files s = file_contents h don;
  hl_size : fat_size_of s = size;
}.

Lemma no_larger_prefix h don rest size d f :
  files_ok h (don ++ rest)%list size -> d ⊆ all_dirs (don ++ rest)%list ->
  (forall p b, f !! p = Some b -> exists b', file_contents h (don ++ rest)%list !! p = Some b' /\ (length b <= length b')%nat) ->
  fat_fits size d f.
Proof. intros Hok Hd Hf. eapply fat_fits_mono; [|apply Hok]. by split. Qed.

(** Contents of some of the files are contents of all of them. *)
Lemma file_contents_prefix h don rest size p b :
  files_ok h (don ++ rest)%list size -> file_contents h don !! p = Some b -> file_contents h (don ++ rest)%list !! p = Some b.
Proof.
  intros Hok. pose proof (btree_keys_NoDup _ (fk_sorted _ _ _ Hok)) as Hnd. pose proof (fk_sources _ _ _ Hok) as Hs.
  rewrite (file_contents_lookup h (don ++ rest)%list) by done.
  rewrite fmap_app in Hnd. apply NoDup_app in Hnd as (Hnd & _). apply Forall_app in Hs as [Hs _].
  rewrite file_contents_lookup by done. intros (src & Hin & Hb). exists src. split; [|done]. apply elem_of_app. by left.
Qed.

(** The directories of one file. *)
Lemma make_dirs_spec h don p src rest size s :
  files_ok h (don ++ (p, src) :: rest)%list size -> holds h size don s ->
  exists s', io_for (directories_of p) (fun ancestor =>
      context ("failed to create directory `" +:+ ancestor +:+ "` on FAT filesystem")
        (io_call (fat_create_dir ancestor))) s = Ret (Ok tt, s') /\
    fat_inv s' /\ fat_dirs s' = all_dirs (don ++ [(p, src)])%list /\ fat_files s' = file_contents h don /\
    fat_size_of s' = size.
Proof.
  intros Hok [Hi Hd Hf Hsz]. set (files := (don ++ (p, src) :: rest)%list) in *.
  assert (Hin : p ∈ files.*1) by (unfold files; rewrite fmap_app, elem_of_app, fmap_cons; right; left).
  destruct (fk_names _ _ _ Hok p Hin) as (cs & Hcs). pose proof (directories_of_names p cs Hcs) as Hdirs.
  destruct Hcs as (Hp & Hne & Hnames). destruct (fk_paths _ _ _ Hok p Hin) as [_ Hpaths]. rewrite Forall_forall in Hpaths.
  assert (Hsub : all_dirs don ∪ list_to_set (directories_of p) ⊆ all_dirs files).
  { unfold files, all_dirs. rewrite fmap_app, bind_app, list_to_set_app_L, fmap_cons. simpl.
    rewrite list_to_set_app_L. set_solver. }
  destruct (io_for_invariant (fun ds s' => fat_inv s' /\ fat_dirs s' = all_dirs don ∪ list_to_set ds /\
      fat_files s' = file_contents h don /\ fat_size_of s' = size) (directories_of p)
    (fun ancestor => context ("failed to create directory `" +:+ ancestor +:+ "` on FAT filesystem")
      (io_call (fat_create_dir ancestor))) s) as (s' & Hr & Hi' & Hd' & Hf' & Hsz').
  - split; [done|]. split; [by rewrite Hd, list_to_set_nil, union_empty_r_L|done].
  - intros ds d more s1 Heq (Hi1 & Hd1 & Hf1 & Hsz1).
    assert (Hmem : d ∈ directories_of p) by (rewrite Heq; set_solver).
    destruct (fat_create_dir_spec d s1) as (s2 & Hc & Hi2 & Hd2 & Hf2 & Hsz2).
    + done.
    + by apply Hpaths.
    + assert (Hl : directories_of p !! length ds = Some d) by (rewrite Heq; by apply list_lookup_middle).
      rewrite Hdirs in Hl. apply list_lookup_fmap_Some in Hl as (n & -> & Hn). apply lookup_seq in Hn as [-> Hlt].
      apply in_dir_names; [done|lia|]. intros Hgt. rewrite Hd1. apply elem_of_union. right. apply elem_of_list_to_set.
      assert (Hprev : directories_of p !! (length ds - 1)%nat = Some (show (join_sep (take (1 + length ds - 1) cs)))).
      { rewrite Hdirs. apply list_lookup_fmap_Some. exists (length ds). split; [by replace (1 + length ds - 1)%nat with (length ds) by lia|].
        apply lookup_seq. lia. }
      rewrite Heq, lookup_app_l in Hprev by lia. by apply list_elem_of_lookup_2 in Hprev.
    + rewrite Hf1. destruct (file_contents h don !! d) as [b|] eqn:Hb; [|done]. exfalso.
      apply (file_contents_prefix h don ((p, src) :: rest) size d b Hok) in Hb.
      apply file_contents_lookup in Hb as (src' & Hin' & _); [|by apply btree_keys_NoDup, Hok|by apply Hok].
      apply (fk_apart _ _ _ Hok d); [apply list_elem_of_fmap; by exists (d, src')|].
      apply Hsub, elem_of_union. right. by apply elem_of_list_to_set.
    + rewrite Hsz1, Hd1, Hf1. eapply (no_larger_prefix h don ((p, src) :: rest)); [exact Hok| |].
      * fold files. rewrite Heq in Hsub. rewrite list_to_set_app_L, list_to_set_cons in Hsub. clear -Hsub. set_solver.
      * intros q b Hb. exists b. split; [by eapply file_contents_prefix|done].
    + exists s2. split; [by apply context_Ok, io_call_Ok|]. split; [done|].
      split; [|by rewrite Hf2, Hsz2]. rewrite Hd2, Hd1, list_to_set_app_L. clear. set_solver.
  - exists s'. split; [exact Hr|]. split; [done|]. split; [by rewrite all_dirs_snoc|done].
Qed.

Lemma holds_prefix_lookup h don p src rest size :
  files_ok h (don ++ (p, src) :: rest)%list size ->
  exists b, contents h src = Some b /\ file_contents h don !! p = None /\
    file_contents h (don ++ (p, src) :: rest)%list !! p = Some b.
Proof.
  intros Hok. pose proof (btree_keys_NoDup _ (fk_sorted _ _ _ Hok)) as Hnd. pose proof (fk_sources _ _ _ Hok) as Hs.
  pose proof Hs as [Hs1 [[b Hb] _]%Forall_cons]%Forall_app. simpl in Hb. exists b. split; [done|]. split.
  - destruct (file_contents h don !! p) as [b'|] eqn:E; [|done]. exfalso.
    rewrite fmap_app, fmap_cons in Hnd. apply NoDup_app in Hnd as (Hnd & Hn & _).
    apply file_contents_lookup in E as (src' & Hin & _); [|done|done].
    apply (Hn p); [apply list_elem_of_fmap; by exists (p, src')|by left].
  - apply file_contents_lookup; [done|done|]. exists src. split; [|done]. set_solver.
Qed.

(** One file: its directories are made, it is created and written. *)
Lemma add_file_spec h don p src rest size s :
  files_ok h (don ++ (p, src) :: rest)%list size -> holds h size don s ->
  exists s', add_file h (p, src) s = Ret (Ok tt, s') /\ holds h size (don ++ [(p, src)])%list s'.
Proof.
  intros Hok Hh. destruct (holds_prefix_lookup h don p src rest size Hok) as (b & Hb & Hnew & Hfull).
  destruct (make_dirs_spec h don p src rest size s Hok Hh) as (s1 & Hr1 & Hi1 & Hd1 & Hf1 & Hz1).
  assert (Hin : p ∈ (don ++ (p, src) :: rest)%list.*1) by (rewrite fmap_app, elem_of_app, fmap_cons; right; left).
  assert (Hsub : all_dirs (don ++ [(p, src)])%list ⊆ all_dirs (don ++ (p, src) :: rest)%list).
  { change ((p, src) :: rest) with ([(p, src)] ++ rest)%list. rewrite app_assoc. generalize (don ++ [(p, src)])%list.
    intros l. unfold all_dirs. rewrite fmap_app, bind_app, list_to_set_app_L. set_solver. }
  assert (Hfit : forall c, (length c <= length b)%nat ->
    fat_fits (fat_size_of s1) (fat_dirs s1) (<[p := c]> (fat_files s1))).
  { intros c Hc. rewrite Hz1, Hd1, Hf1. eapply (no_larger_prefix h don ((p, src) :: rest)); [exact Hok|exact Hsub|].
    intros q c'. rewrite lookup_insert_Some. intros [[<- <-]|[_ Hq]]; [by exists b|].
    exists c'. split; [by eapply file_contents_prefix|done]. }
  assert (Hdef : default [] (fat_files s1 !! p) = []) by (by rewrite Hf1, Hnew).
  destruct (fk_names _ _ _ Hok p Hin) as (cs & -> & Hne & Hcs).
  set (p := show (join_sep cs)) in *.
  destruct (fat_create_file_spec p s1) as (f & s2 & Hc2 & Hi2 & Hh2 & Hd2 & Hf2 & Hz2).
  - done.
  - by apply (fk_paths _ _ _ Hok).
  - unfold p. rewrite <- (firstn_all cs). apply in_dir_names; [done|destruct cs; [done|simpl; lia]|].
    intros Hgt. rewrite Hd1, all_dirs_snoc. apply elem_of_union. right. apply elem_of_list_to_set.
    cbn [fst]. rewrite (directories_of_names p cs) by done. apply list_elem_of_fmap.
    exists (length cs - 1)%nat. split; [done|]. apply elem_of_seq. lia.
  - rewrite Hd1. intros Hbad. apply (fk_apart _ _ _ Hok p Hin). by apply Hsub.
  - apply Hfit. rewrite Hdef. simpl. lia.
  - destruct (fat_truncate_spec f p s2 Hi2 Hh2) as (s3 & Hc3 & Hi3 & Hh3 & Hd3 & Hf3 & Hz3).
    rewrite Hf2, insert_insert_eq in Hf3.
    destruct (fat_write_spec f p b s3 Hi3 Hh3) as (s4 & Hc4 & Hi4 & Hd4 & Hf4 & Hz4).
    + by rewrite Hf3, lookup_insert_eq.
    + rewrite Hz3, Hd3, Hf3, Hz2, Hd2, insert_insert_eq. by apply Hfit.
    + exists s4. split.
      * unfold add_file. erewrite io_bind_Ok by exact Hr1.
        erewrite io_bind_Ok by (apply context_Ok, io_call_Ok; exact Hc2).
        erewrite io_bind_Ok by (apply io_unwrap_Ok, io_call_Ok; exact Hc3).
        apply context_Ok. rewrite (source_copy_spec h _ src b) by done. by apply io_call_Ok.
      * split; [done| | |congruence].
        -- by rewrite Hd4, Hd3, Hd2, Hd1.
        -- rewrite Hf4, Hf3, Hf1, insert_insert_eq. by rewrite (file_contents_snoc h don p src b).
Qed.

(** All files, in the order of their names. *)
Lemma add_files_to_image_spec h files size s :
  files_ok h files size -> holds h size [] s ->
  exists s', add_files_to_image h files s = Ret (Ok tt, s') /\ holds h size files s'.
Proof.
  intros Hok H0. apply (io_for_invariant (holds h size)); [exact H0|].
  intros don [p src] rest s1 Heq Hh. rewrite Heq in Hok. by apply (add_file_spec h don p src rest).
Qed.
End Contents.

(** * The whole volume *)

Definition source_size (h : host) (src : FileDataSource) : Z := Z.of_nat (length (default [] (contents h src))).

(** The bytes of all sources. *)
Definition total_size (h : host) (files : btree FileDataSource) : Z :=
  foldr (fun e sum => source_size h e.2 + sum) 0 files.

Lemma total_size_nonneg h files : 0 <= total_size h files.
Proof. induction files as [|e files IH]; simpl; [done|]. unfold source_size. lia. Qed.

Section Volume.
Context {P : Profile} {HF : HostFs} {S : Type} {FS : FatFs S} {FL : FatFsLaws S}.

Lemma needed_size_spec h files sum :
  Forall (fun e => is_Some (contents h e.2)) files -> 0 <= sum -> sum + total_size h files < 2 ^ 64 ->
  needed_size files.*2 sum h = Ret (Ok (sum + total_size h files), h).
Proof.
  intros Hs. revert sum. induction Hs as [|[p src] files [b Hb] _ IH]; intros sum H0 Hlt; simpl in *.
  - by rewrite Z.add_0_r.
  - assert (Hsz : source_size h src = Z.of_nat (length b)) by (unfold source_size; by rewrite Hb).
    rewrite Hsz in *. pose proof (total_size_nonneg h files).
    erewrite io_bind_Ok by (by apply source_len_spec).
    erewrite io_bind_Ok by (unfold io_lift; rewrite u64_add_ok by (unfold u64_size; lia); reflexivity).
    rewrite IH by lia. by rewrite Z.add_assoc.
Qed.

(** A source that cannot be read is an error of [needed_size]. *)
Lemma needed_size_missing h files sum :
  0 <= sum -> sum + total_size h files < 2 ^ 64 -> Exists (fun e => contents h e.2 = None) files ->
  exists e, needed_size files.*2 sum h = Ret (Err e, h).
Proof.
  intros H0 Hlt Hex. revert sum H0 Hlt. induction files as [|[p src] files IH]; intros sum H0 Hlt; [by inversion Hex|].
  simpl in *. destruct (contents h src) as [b|] eqn:Hb.
  - apply Exists_cons in Hex as [Hex|Hex]; [simpl in Hex; congruence|].
    assert (Hsz : source_size h src = Z.of_nat (length b)) by (unfold source_size; by rewrite Hb).
    rewrite Hsz in *. pose proof (total_size_nonneg h files).
    erewrite io_bind_Ok by (by apply source_len_spec).
    erewrite io_bind_Ok by (unfold io_lift; rewrite u64_add_ok by (unfold u64_size; lia); reflexivity).
    apply IH; [done|lia|lia].
  - destruct (source_len_missing h src Hb) as (e & He). exists e. by apply io_bind_Err.
Qed.

(** The volume's own file is not among the sources. *)
Lemma contents_other h out image src :
  src <> File_ out -> contents (<[out := image]> h) src = contents h src.
Proof. destruct src as [path|v]; [|done]. intros Hne. simpl. apply lookup_insert_ne. congruence. Qed.

Lemma file_contents_other h out image files :
  Forall (fun e => e.2 <> File_ out) files -> file_contents (<[out := image]> h) files = file_contents h files.
Proof.
  induction files as [|e files IH] using rev_ind; [done|]. intros [Hf He]%Forall_app.
  apply Forall_cons in He as [He _]. unfold file_contents in *. rewrite !foldl_app. simpl.
  by rewrite contents_other, IH.
Qed.

Lemma files_ok_other h out image files size :
  Forall (fun e => e.2 <> File_ out) files -> files_ok h files size -> files_ok (<[out := image]> h) files size.
Proof.
  intros Hout [Hs Hc Hn Hp Ha Hf]. split; [done| |done|done|done|by rewrite file_contents_other].
  rewrite Forall_forall in *. intros e He. rewrite contents_other by auto. auto.
Qed.

(** When the sources can be read, their paths are made of names that the
    file system takes and everything fits, [create_fat_filesystem] makes a
    volume of the computed size in its file, which holds exactly the given
    files, with the contents of their sources, and the directories above them;
    no other file is touched. *)
Theorem create_fat_filesystem_contents h files out :
  let size := volume_size (total_size h files) in
  total_size h files < 2 ^ 63 -> can_create out = true -> Forall (fun e => e.2 <> File_ out) files ->
  files_ok h files size ->
  exists image, create_fat_filesystem files out h = Ret (Ok tt, <[out := image]> h) /\
    volume_of image = Some (all_dirs files, file_contents h files) /\ Z.of_nat (length image) = size.
Proof.
  intros size Htot Hcan Hout Hok. pose proof (total_size_nonneg h files) as H0.
  assert (Hsize : 0 <= size).
  { unfold size, volume_size, MB. pose proof (Z.div_pos (total_size h files + 1024 * 64 - 1) (1024 * 1024)). lia. }
  set (blank := resized size []). pose proof (resized_length size [] Hsize) as Hblank. fold blank in Hblank.
  assert (Hempty : fat_fits (Z.of_nat (length blank)) ∅ ∅).
  { rewrite Hblank. eapply fat_fits_mono; [|apply (fk_fits _ _ _ Hok)]. split; [set_solver|done]. }
  destruct (fat_format_spec blank (label_of files) Hempty (label_length files)) as
    (image & s & Hformat & Hopen & Hi & Hlen & Hd & Hf & Hz).
  destruct (add_files_to_image_spec (<[out := image]> h) files size s) as (s' & Hadd & [Hi' Hd' Hf' Hz']).
  { by apply files_ok_other. }
  { split; [done|done|done|by rewrite Hz, Hblank]. }
  exists (fat_image s'). split; [|split; [|by rewrite fat_image_length]].
  2:{ destruct (fat_reopen s' Hi') as (s2 & Ho & Hd2 & Hf2). unfold volume_of.
      by rewrite Ho, Hd2, Hf2, Hd', Hf', file_contents_other. }
  unfold create_fat_filesystem. erewrite io_bind_Ok by (apply needed_size_spec; [apply Hok|lia|lia]).
  erewrite io_bind_Ok by (apply io_unwrap_Ok; unfold open_truncated; rewrite Hcan; reflexivity).
  rewrite Z.add_0_l. erewrite io_bind_Ok by (unfold io_lift; rewrite fat_size_spec by lia; reflexivity).
  erewrite io_bind_Ok.
  2:{ apply io_unwrap_Ok, set_len_spec, lookup_insert_eq. }
  erewrite io_bind_Ok by (apply read_file_spec, lookup_insert_eq). fold size. fold blank.
  erewrite io_bind_Ok by (apply context_Ok, io_call_Ok; rewrite Hformat; reflexivity).
  erewrite io_bind_Ok by reflexivity.
  erewrite io_bind_Ok by (apply context_Ok, io_call_Ok; rewrite Hopen; reflexivity).
  rewrite !written_twice. erewrite io_bind_Ok by reflexivity.
  unfold on_volume. rewrite Hadd, bind_Ret. by rewrite written_twice.
Qed.

(** A source that cannot be read is reported before any file is touched. *)
Lemma create_fat_filesystem_missing h files out :
  total_size h files < 2 ^ 64 -> Exists (fun e => contents h e.2 = None) files ->
  exists e, create_fat_filesystem files out h = Ret (Err e, h).
Proof.
  intros Htot Hex. destruct (needed_size_missing h files 0) as (e & He); [done|lia|done|].
  exists e. unfold create_fat_filesystem. by apply io_bind_Err.
Qed.
End Volume.

(** * Frame *)

Section Frame.
Context {P : Profile} {HF : HostFs} {S : Type} {FS : FatFs S}.

Lemma touches_needed_size path sources sum : touches path (needed_size sources sum).
Proof. revert sum. induction sources as [|src rest IH]; intros sum; simpl; auto with touches. Qed.

Lemma touches_on_volume {A} path s (m : io S A) : touches path (on_volume path s m).
Proof.
  intros h r h'. unfold on_volume. destruct (m s) as [[res s']| |]; simpl; [|done|done].
  intros [= _ <-] q Hq. by apply lookup_insert_ne.
Qed.

(** The volume's file is the only one that is written. *)
Lemma touches_create_fat files out : touches out (create_fat_filesystem files out).
Proof.
  unfold create_fat_filesystem. pose proof (touches_needed_size out). pose proof (@touches_on_volume unit out).
  auto 20 with touches.
Qed.
End Frame.

#[export] Hint Resolve touches_create_fat : touches.
