(* ===== verification/GptDisk.v ===== *)
(** src/src/gpt_part.rs: the disk image with a GPT partition table.

    The gpt crate is the class [Gpt].  [GptLaws] says what a disk holds after a
    partition has been added and the table written; [gpt_table] is what a reader
    of the disk finds. *)

From S2P Require Import Prelude HostFiles.

#[local] Open Scope string_scope.
#[local] Open Scope Z_scope.

(** * The gpt crate *)

(** The calls: [ProtectiveMBR::overwrite_lba0] with a size in blocks;
    [GptConfig::create_from_device] for a writable device that is not
    initialized, in blocks of 512 bytes; [update_partitions] with no
    partitions; [add_partition] of an EFI partition with a name and a size in
    bytes, without flags and alignment; [partitions]; [Partition::bytes_start];
    and [write].  [gpt_device] is the device that a [GptDisk] has written to. *)
Class Gpt (G Part : Type) := {
  gpt_overwrite_lba0 : Z -> list Z -> result unit string * list Z;
  gpt_create_from_device : list Z -> result G string * list Z;
  gpt_update_partitions : G -> result unit string * G;
  gpt_add_partition : string -> Z -> G -> result Z string * G;
  gpt_partitions : G -> gmap Z Part;
  gpt_bytes_start : Part -> result Z string;
  gpt_write : G -> result unit string * G;
  gpt_device : G -> list Z;
}.

(** A partition: its name, its first byte and its size. *)
Definition entry : Type := string * Z * Z.

(** A disk is long enough for a partition of [size] bytes: 34 sectors in front
    of it and 33 behind it hold the MBR and the two partition tables. *)
Definition has_room (size : Z) (disk : list Z) : Prop :=
  (512 | Z.of_nat (length disk)) /\ size + 67 * 512 <= Z.of_nat (length disk).

(** Equal tables: disks of one length that differ at most where partitions can
    lie. *)
Definition same_tables (d1 d2 : list Z) : Prop :=
  length d1 = length d2 /\
  forall i, Z.of_nat i < 34 * 512 \/ Z.of_nat (length d1) - 33 * 512 <= Z.of_nat i -> d1 !! i = d2 !! i.

Class GptLaws (G Part : Type) {GP : Gpt G Part} := {
  gpt_inv : G -> Prop;
  gpt_entry : Part -> entry;
  gpt_table : list Z -> option (list entry);
  gpt_table_same d1 d2 : same_tables d1 d2 -> gpt_table d1 = gpt_table d2;
  gpt_overwrite_lba0_spec blocks d : has_room 0 d ->
    exists d', gpt_overwrite_lba0 blocks d = (Ok tt, d') /\ length d' = length d;
  gpt_create_spec d : has_room 0 d ->
    exists g d', gpt_create_from_device d = (Ok g, d') /\ gpt_inv g /\ length (gpt_device g) = length d;
  gpt_update_spec g : gpt_inv g ->
    exists g', gpt_update_partitions g = (Ok tt, g') /\ gpt_inv g' /\ gpt_partitions g' = ∅ /\
      length (gpt_device g') = length (gpt_device g);
  gpt_add_spec name size g : gpt_inv g -> gpt_partitions g = ∅ -> 0 < size -> (512 | size) ->
    has_room size (gpt_device g) ->
    exists id part start g', gpt_add_partition name size g = (Ok id, g') /\ gpt_inv g' /\
      gpt_partitions g' = {[id := part]} /\ gpt_entry part = (name, start, size) /\
      gpt_bytes_start part = Ok start /\ 34 * 512 <= start /\
      start + size <= Z.of_nat (length (gpt_device g)) - 33 * 512 /\
      length (gpt_device g') = length (gpt_device g);
  gpt_write_spec g : gpt_inv g ->
    exists g', gpt_write g = (Ok tt, g') /\ length (gpt_device g') = length (gpt_device g) /\
      gpt_table (gpt_device g') = Some (gpt_entry <$> (map_to_list (gpt_partitions g)).*2);
}.

(** * gpt_part.rs *)

Section Gpt.
Context {P : Profile} {HF : HostFs} {G Part : Type} {GP : Gpt G Part}.

(** [u32::try_from((disk_size / 512) - 1).unwrap_or(0xFF_FF_FF_FF)] *)
Definition mbr_blocks (disk_size : Z) : outcome Z :=
  n ← u64_sub (disk_size / 512) 1;
  Ret (if n <? 2 ^ 32 then n else 0xFFFFFFFF).

(** A computation on a [GptDisk], which writes to the file. *)
Definition on_gpt {A} (path : string) (gpt : G) (m : io G A) : io host A := fun h =>
  r ← m gpt;
  let '(res, gpt) := r in
  Ret (res, <[path := gpt_device gpt]> h).

(** The partition is made, its place is looked up, and the table is written. *)
Definition boot_partition (partition_size : Z) : io G Z :=
  _ ← context "failed to update GPT partitions" (io_call gpt_update_partitions);
  partition_id ← context "failed to add boot EFI partition" (io_call (gpt_add_partition "boot" partition_size));
  gpt ← io_get;
  partition ← context_option "failed to open boot partition after creation" (gpt_partitions gpt !! partition_id);
  start_offset ← context "failed to get start offset of boot partition"
    (io_call (fun g => (gpt_bytes_start partition, g)));
  _ ← context "failed to write out GPT changes" (io_call gpt_write);
  mret start_offset.

(** [disk.seek(SeekFrom::Start(offset))]: offsets are signed. *)
Definition seek_start (offset : Z) : io host unit :=
  if offset <? 2 ^ 63 then mret tt else io_fail ["Invalid argument (os error 22)"].

Definition create_gpt_disk (fat_image out_gpt_path : string) : io host unit :=
  _ ← context ("failed to create GPT file at `" +:+ out_gpt_path +:+ "`") (open_truncated out_gpt_path);
  partition_size ← context "failed to read metadata of fat image" (metadata_len fat_image);
  disk_size ← io_lift (u64_add partition_size (1024 * 64));
  _ ← context "failed to set GPT image file length" (set_len out_gpt_path disk_size);
  blocks ← io_lift (mbr_blocks disk_size);
  _ ← context "failed to write protective MBR" (on_file out_gpt_path (gpt_overwrite_lba0 blocks));
  gpt ← context "failed to create GPT structure in file" (on_file out_gpt_path gpt_create_from_device);
  start_offset ← on_gpt out_gpt_path gpt (boot_partition partition_size);
  _ ← context "failed to seek to start offset" (seek_start start_offset);
  fat ← context "failed to open FAT image" (read_file fat_image);
  context "failed to copy FAT image to GPT disk"
    (on_file out_gpt_path (fun disk => (Ok tt, written_at start_offset fat disk))).
End Gpt.

(** * Its contract *)

(** A disk with one partition, which holds [fat]. *)
Definition boot_disk {G Part} {GP : Gpt G Part} {GL : GptLaws G Part} (fat disk : list Z) : Prop :=
  exists start, 34 * 512 <= start /\ start + Z.of_nat (length fat) <= Z.of_nat (length disk) - 33 * 512 /\
    gpt_table disk = Some [("boot", start, Z.of_nat (length fat))] /\
    take (length fat) (drop (Z.to_nat start) disk) = fat.

Section Contract.
Context {P : Profile} {HF : HostFs} {G Part : Type} {GP : Gpt G Part} {GL : GptLaws G Part}.

Lemma metadata_len_spec path (h : host) bytes :
  h !! path = Some bytes -> metadata_len path h = Ret (Ok (Z.of_nat (length bytes)), h).
Proof. intros Hh. unfold metadata_len. erewrite io_bind_Ok by reflexivity. by rewrite Hh. Qed.

Lemma mbr_blocks_Ret size : 512 <= size < 2 ^ 64 -> exists n, mbr_blocks size = Ret n.
Proof.
  intros Hs. pose proof (Z.div_le_mono 512 size 512 ltac:(done) ltac:(lia)) as H1. rewrite Z.div_same in H1 by done.
  pose proof (Z.div_le_upper_bound size 512 (2 ^ 64) ltac:(done) ltac:(lia)).
  unfold mbr_blocks. rewrite u64_sub_ok, bind_Ret by (unfold u64_size; lia). by eexists.
Qed.

Lemma boot_partition_spec size g :
  gpt_inv g -> 0 < size -> (512 | size) -> has_room size (gpt_device g) ->
  exists start g', boot_partition size g = Ret (Ok start, g') /\ 34 * 512 <= start /\
    start + size <= Z.of_nat (length (gpt_device g')) - 33 * 512 /\
    length (gpt_device g') = length (gpt_device g) /\
    gpt_table (gpt_device g') = Some [("boot", start, size)].
Proof.
  intros Hi H0 Hd Hroom. destruct (gpt_update_spec g Hi) as (g1 & Hc1 & Hi1 & He1 & Hl1).
  destruct (gpt_add_spec "boot" size g1) as (id & part & start & g2 & Hc2 & Hi2 & He2 & Hent & Hst & Hs1 & Hs2 & Hl2);
    [done|done|done|done|unfold has_room in *; by rewrite Hl1|].
  destruct (gpt_write_spec g2 Hi2) as (g3 & Hc3 & Hl3 & Ht).
  exists start, g3. split; [|split; [done|split; [lia|split; [congruence|]]]].
  - unfold boot_partition. erewrite io_bind_Ok by (apply context_Ok, io_call_Ok; exact Hc1).
    erewrite io_bind_Ok by (apply context_Ok, io_call_Ok; exact Hc2). erewrite io_bind_Ok by reflexivity.
    rewrite He2, lookup_singleton_eq. erewrite io_bind_Ok by reflexivity.
    erewrite io_bind_Ok by (apply context_Ok, io_call_Ok; rewrite Hst; reflexivity).
    by erewrite io_bind_Ok by (apply context_Ok, io_call_Ok; exact Hc3).
  - rewrite Ht, He2, map_to_list_singleton. simpl. by rewrite Hent.
Qed.

(** Bytes of the partition do not change the table. *)
Lemma written_partition start fat disk :
  34 * 512 <= start -> start + Z.of_nat (length fat) <= Z.of_nat (length disk) - 33 * 512 ->
  gpt_table disk = Some [("boot", start, Z.of_nat (length fat))] -> boot_disk fat (written_at start fat disk).
Proof.
  intros H1 H2 Ht. destruct (written_at_slice start fat disk) as (Hl & Hs & Hi); [lia|lia|].
  exists start. rewrite Hl. split; [done|]. split; [done|]. split; [|done].
  rewrite <- Ht. apply gpt_table_same. split; [done|]. intros i Hi'. apply Hi. rewrite Hl in Hi'. lia.
Qed.

(** The disk image has one partition, named boot, that lies behind the
    first partition table and before the second one and whose bytes are those
    of the FAT image; the image is 64 KiB longer than it, and no other file is
    touched. *)
Theorem create_gpt_disk_correct (h : host) fat_image out fat :
  h !! fat_image = Some fat -> fat_image <> out -> can_create out = true ->
  (512 | Z.of_nat (length fat)) -> 0 < Z.of_nat (length fat) < 2 ^ 62 ->
  exists disk, create_gpt_disk fat_image out h = Ret (Ok tt, <[out := disk]> h) /\
    boot_disk fat disk /\ Z.of_nat (length disk) = Z.of_nat (length fat) + 64 * 1024.
Proof.
  intros Hfat Hne Hcan Hdiv Hlen. set (n := Z.of_nat (length fat)) in *.
  assert (Hother : forall d : list Z, (<[out := d]> h : host) !! fat_image = Some fat).
  { intros d. by apply eq_trans with (h !! fat_image); [apply lookup_insert_ne|]. }
  assert (Hout : forall d : list Z, (<[out := d]> h : host) !! out = Some d) by (intros d; apply lookup_insert_eq).
  assert (Hroom : forall d : list Z, Z.of_nat (length d) = n + 1024 * 64 -> has_room n d /\ has_room 0 d).
  { intros d Hd. unfold has_room. rewrite Hd. assert ((512 | n + 1024 * 64)).
    { apply Z.divide_add_r; [done|]. by exists 128. }
    split; split; [done|lia|done|lia]. }
  set (d0 := resized (n + 1024 * 64) []).
  assert (Hd0 : Z.of_nat (length d0) = n + 1024 * 64) by (apply resized_length; lia).
  destruct (mbr_blocks_Ret (n + 1024 * 64) ltac:(lia)) as [blocks Hblocks].
  destruct (gpt_overwrite_lba0_spec blocks d0) as (d1 & Hc1 & Hl1); [by apply Hroom|].
  destruct (gpt_create_spec d1) as (g & d2 & Hc2 & Hi & Hl2); [apply Hroom; lia|].
  destruct (boot_partition_spec n g Hi) as (start & g' & Hb & Hs1 & Hs2 & Hl3 & Ht); [lia|done|apply Hroom; lia|].
  exists (written_at start fat (gpt_device g')).
  split; [|split; [by apply written_partition|]].
  2:{ destruct (written_at_slice start fat (gpt_device g')) as (-> & _); lia. }
  unfold create_gpt_disk.
  erewrite io_bind_Ok by (apply context_Ok; unfold open_truncated; rewrite Hcan; reflexivity).
  erewrite io_bind_Ok by (apply context_Ok, metadata_len_spec, Hother). fold n.
  erewrite io_bind_Ok by (unfold io_lift; rewrite u64_add_ok by (unfold u64_size; lia); reflexivity).
  erewrite io_bind_Ok by (apply context_Ok, set_len_spec, Hout). fold d0. rewrite written_twice.
  erewrite io_bind_Ok by (unfold io_lift; rewrite Hblocks; reflexivity).
  erewrite io_bind_Ok by (apply context_Ok; eapply on_file_Ok; [apply Hout|exact Hc1]). rewrite written_twice.
  erewrite io_bind_Ok by (apply context_Ok; eapply on_file_Ok; [apply Hout|exact Hc2]). rewrite written_twice.
  erewrite io_bind_Ok by (unfold on_gpt; rewrite Hb; reflexivity). rewrite written_twice.
  erewrite io_bind_Ok by (apply context_Ok; unfold seek_start; rewrite (proj2 (Z.ltb_lt _ _)) by lia; reflexivity).
  erewrite io_bind_Ok by (apply context_Ok, read_file_spec, Hother).
  apply context_Ok. erewrite on_file_Ok; [by rewrite written_twice|apply Hout|done].
Qed.
End Contract.

(** * Frame *)

Section Frame.
Context {P : Profile} {HF : HostFs} {G Part : Type} {GP : Gpt G Part}.

Lemma touches_on_gpt {A} path gpt (m : io G A) : touches path (on_gpt path gpt m).
Proof.
  intros h r h'. unfold on_gpt. destruct (m gpt) as [[res g']| |]; simpl; [|done|done].
  intros [= _ <-] q Hq. by apply lookup_insert_ne.
Qed.

(** The disk image is the only file that is written. *)
Lemma touches_create_gpt fat_image out : touches out (create_gpt_disk fat_image out).
Proof.
  unfold create_gpt_disk, seek_start. pose proof (@touches_on_gpt Z out). auto 30 with touches.
Qed.
End Frame.

#[export] Hint Resolve touches_create_gpt : touches.
