(* ===== verification/DiskImage.v ===== *)
(** src/src/disk_image.rs, uefi.rs and main.rs: the bootable disk image.

    [DiskImageBuilder] collects the files of the image; [create_uefi_image]
    puts them, with the boot loader, on a FAT volume in a temporary file, and
    that volume into the partition of a GPT disk.  [UefiBoot] is the tool's
    interface to it. *)

From S2P Require Import Prelude HostFiles FatImage GptDisk.

#[local] Open Scope string_scope.
#[local] Open Scope Z_scope.

(** * disk_image.rs *)

Definition BOOTLOADER_FILE_NAME : string := "efi/boot/bootx64.efi".
Definition RAMDISK_FILE_NAME : string := "ramdisk".

Record DiskImageBuilder : Type := { files : btree FileDataSource }.

Definition empty : DiskImageBuilder := {| files := [] |}.

Definition set_file_source (destination : string) (source : FileDataSource) (self : DiskImageBuilder) : DiskImageBuilder :=
  {| files := snd (btree_insert destination source (files self)) |}.

Definition set_kernel (path : string) (self : DiskImageBuilder) : DiskImageBuilder :=
  set_file_source KERNEL_FILE_NAME (File_ path) self.

Definition set_ramdisk (path : string) (self : DiskImageBuilder) : DiskImageBuilder :=
  set_file_source RAMDISK_FILE_NAME (File_ path) self.

Definition set_file_contents (destination : string) (data : list Z) (self : DiskImageBuilder) : DiskImageBuilder :=
  set_file_source destination (Data data) self.

Definition set_file (destination file_path : string) (self : DiskImageBuilder) : DiskImageBuilder :=
  set_file_source destination (File_ file_path) self.

Definition new (kernel : string) : DiskImageBuilder := set_kernel kernel empty.

(** The first loop: the builder's files. *)
Definition local_files (self : DiskImageBuilder) : btree FileDataSource :=
  foldl (fun m e => snd (btree_insert e.1 e.2 m)) [] (files self).

(** The second loop: the internal files, none of which may be there. *)
Fixpoint add_internal (internal : btree FileDataSource) (local_map : btree FileDataSource) :
    result (btree FileDataSource) string :=
  match internal with
  | [] => Ok local_map
  | (k, source) :: rest =>
      match btree_insert k source local_map with
      | (Some _, _) => Err ("Attempted to overwrite internal file: " +:+ k)
      | (None, local_map) => add_internal rest local_map
      end
  end.

Section Image.
Context {P : Profile} {HF : HostFs} {S : Type} {FS : FatFs S} {G Part : Type} {GP : Gpt G Part}.

Definition create_fat_filesystem_image (self : DiskImageBuilder) (internal_files : btree FileDataSource) :
    io host string :=
  local_map ← io_call (fun h => (add_internal internal_files (local_files self), h));
  out_file ← context "failed to create temp file" named_temp_file;
  _ ← holding_temp out_file (context "failed to create BIOS FAT filesystem" (create_fat_filesystem local_map out_file));
  mret out_file.

Definition create_uefi_image (self : DiskImageBuilder) (bootloader_path image_path : string) : io host unit :=
  let internal_files := snd (btree_insert BOOTLOADER_FILE_NAME (File_ bootloader_path) []) in
  fat_partition ← context "failed to create FAT partition" (create_fat_filesystem_image self internal_files);
  _ ← holding_temp fat_partition
    (context "failed to create UEFI GPT disk image" (create_gpt_disk fat_partition image_path));
  context "failed to delete FAT partition after disk image creation" (remove_file fat_partition).

(** * uefi.rs *)

Record UefiBoot : Type := { image_builder : DiskImageBuilder }.

Definition UefiBoot_new (kernel_path : string) : UefiBoot := {| image_builder := new kernel_path |}.

Definition UefiBoot_set_ramdisk (ramdisk_path : string) (self : UefiBoot) : UefiBoot :=
  {| image_builder := set_ramdisk ramdisk_path (image_builder self) |}.

Definition create_disk_image (self : UefiBoot) (bootloader_path out_path : string) : io host unit :=
  create_uefi_image (image_builder self) bootloader_path out_path.

(** * main.rs *)

(** [Path::join] *)
Definition join (p q : string) : string :=
  let p' := Path_new p in
  if has_root (Path_new q) then q
  else if (match last p' with Some c => is_sep c | None => true end) then p +:+ q
  else p +:+ "/" +:+ q.

(** The disk image is built; the result is the command that starts the
    emulator on it. *)
Definition main (out_dir nukleus initium ovmf_pure_efi : string) : io host (string * list string) :=
  let uefi_path := join out_dir "uefi.img" in
  let uefi_boot := UefiBoot_new nukleus in
  _ ← io_unwrap (create_disk_image uefi_boot initium uefi_path);
  mret ("qemu-system-x86_64", ["-bios"; ovmf_pure_efi; "-drive"; "format=raw,file=" +:+ uefi_path]).
End Image.

(** * The builder *)

(** Entries behind all others are appended. *)
Lemma btree_insert_last {V} k (v : V) m :
  Forall (fun k' => key_lt k' k) m.*1 -> btree_insert k v m = (None, (m ++ [(k, v)])%list).
Proof.
  induction m as [|[k' v'] m IH]; simpl; [done|]. intros [Hk Hm]%Forall_cons.
  destruct (String.eqb_spec k k') as [->|_]; [by destruct (key_lt_irrefl k')|].
  destruct (String.ltb k k') eqn:Hl; [|by rewrite IH].
  apply ltb_key_lt in Hl. by destruct (key_lt_irrefl _ (key_lt_trans _ _ _ Hk Hl)).
Qed.

Lemma sorted_snoc ks (k : string) : StronglySorted key_lt (ks ++ [k])%list ->
  StronglySorted key_lt ks /\ Forall (fun k' => key_lt k' k) ks.
Proof.
  induction ks as [|a ks IH]; simpl; [by split; constructor|]. intros [Hs Ha]%StronglySorted_inv.
  destruct (IH Hs) as [H1 H2]. apply Forall_app in Ha as [Ha [Hk _]%Forall_cons].
  by split; constructor.
Qed.

(** The copy of the builder's map is the map. *)
Lemma local_files_eq self : btree_ok (files self) -> local_files self = files self.
Proof.
  unfold local_files, btree_ok. destruct self as [fs]. simpl. induction fs as [|[k v] fs IH] using rev_ind; [done|].
  rewrite fmap_app. intros [Hs Hk]%sorted_snoc. rewrite foldl_app, IH by done. simpl. by rewrite btree_insert_last.
Qed.

(** The operations keep the map in order. *)
Lemma new_ok kernel : btree_ok (files (new kernel)).
Proof. repeat constructor. Qed.

Lemma set_file_source_ok destination source self :
  btree_ok (files self) -> btree_ok (files (set_file_source destination source self)).
Proof. apply btree_insert_ok. Qed.

(** All files of the image: those of the builder and the boot loader. *)
Definition image_files (self : DiskImageBuilder) (bootloader_path : string) : btree FileDataSource :=
  snd (btree_insert BOOTLOADER_FILE_NAME (File_ bootloader_path) (files self)).

Lemma add_internal_bootloader self boot :
  btree_ok (files self) ->
  add_internal [(BOOTLOADER_FILE_NAME, File_ boot)] (local_files self) =
    match btree_get BOOTLOADER_FILE_NAME (files self) with
    | Some _ => Err ("Attempted to overwrite internal file: " +:+ BOOTLOADER_FILE_NAME)
    | None => Ok (image_files self boot)
    end.
Proof.
  intros Hok. rewrite local_files_eq by done. pose proof (btree_insert_old BOOTLOADER_FILE_NAME (File_ boot) _ Hok) as Ho.
  unfold add_internal, image_files. destruct (btree_insert _ _ _) as [o m]. simpl in *. rewrite <- Ho. by destruct o.
Qed.

Section Theorems.
Context {P : Profile} {HF : HostFs} {HL : HostFsLaws} {S : Type} {FS : FatFs S} {G Part : Type} {GP : Gpt G Part}.

(** C38: a builder that has a file in the place of the boot loader is an error,
    and no file is touched. *)
Theorem create_uefi_image_overwrite self bootloader_path image_path source h :
  btree_ok (files self) -> btree_get BOOTLOADER_FILE_NAME (files self) = Some source ->
  create_uefi_image self bootloader_path image_path h =
    Ret (Err ["failed to create FAT partition"; "Attempted to overwrite internal file: efi/boot/bootx64.efi"], h).
Proof.
  intros Hok Hget. unfold create_uefi_image. apply io_bind_Err. unfold context, create_fat_filesystem_image.
  erewrite io_bind_Err; [reflexivity|]. unfold io_call. cbn [btree_insert snd].
  by rewrite add_internal_bootloader, Hget.
Qed.

(** The temporary file of a run that starts at [h], when it cannot be deleted. *)
Definition stuck (h : host) (q : string) : Prop := new_temp_file h = Ok q /\ can_remove q = false.

Lemma removed_clean h h1 tmp q :
  new_temp_file h = Ok tmp -> (q <> tmp -> h1 !! q = h !! q) -> removed tmp h1 !! q = h !! q \/ stuck h q.
Proof.
  intros Htmp Hq. destruct (decide (q = tmp)) as [->|Hne]; [|left; rewrite removed_other by done; by apply Hq].
  destruct (can_remove tmp) eqn:Hc; [left|by right].
  rewrite removed_gone by done. symmetry. by apply new_temp_fresh.
Qed.

Lemma create_fat_image_other self internal h r h' : create_fat_filesystem_image self internal h = Ret (r, h') ->
  match r with
  | Ok tmp => new_temp_file h = Ok tmp /\ forall q, q <> tmp -> h' !! q = h !! q
  | Err _ => forall q, h' !! q = h !! q \/ stuck h q
  end.
Proof.
  unfold create_fat_filesystem_image, io_call. destruct (add_internal _ _) as [m|e]; [|intros [= <- <-]; by left].
  erewrite io_bind_Ok by reflexivity. pose proof (named_temp_file_eq h) as Hn.
  destruct (new_temp_file h) as [tmp|e] eqn:Ht; [|erewrite io_bind_Err by (apply context_Err, Hn); intros [= <- <-]; by left].
  destruct (new_temp_fresh h tmp Ht) as [Hfresh _]. erewrite io_bind_Ok by (apply context_Ok, Hn).
  set (h0 := <[tmp := []]> h).
  assert (Hother : forall r1 h1, context "failed to create BIOS FAT filesystem" (create_fat_filesystem m tmp) h0 = Ret (r1, h1) ->
    forall q, q <> tmp -> h1 !! q = h !! q).
  { intros r1 h1 E q Hq. rewrite (touches_context tmp _ _ (touches_create_fat m tmp) _ _ _ E q Hq). by apply lookup_insert_ne. }
  intros [(e & -> & (h1 & E & ->)%holding_temp_inv)|([] & h1 & (h2 & E & ->)%holding_temp_inv & [= <- <-])]%io_bind_inv.
  - intros q. apply removed_clean; [done|]. by apply (Hother _ _ E).
  - split; [done|]. by apply (Hother _ _ E).
Qed.

(** C36: however [create_uefi_image] ends, with an image or with any of its
    errors, no file but the image is changed; in particular the temporary file
    of the FAT volume is gone.  The only exception is a temporary file that the
    host refuses to delete: it stays, and the result is an error. *)
Theorem create_uefi_image_clean self bootloader_path image_path h r h' :
  create_uefi_image self bootloader_path image_path h = Ret (r, h') ->
  forall q, q <> image_path ->
    h' !! q = h !! q \/ (exists e, r = Err e) /\ new_temp_file h = Ok q /\ can_remove q = false.
Proof.
  unfold create_uefi_image. generalize (snd (btree_insert BOOTLOADER_FILE_NAME (File_ bootloader_path) [])).
  intros internal [(e & -> & E)|(tmp & h1 & E & H)]%io_bind_inv.
  { apply context_inv in E as [(? & ? & E)|(e' & _ & E)]; [done|]. intros q _.
    destruct (create_fat_image_other _ _ _ _ _ E q) as [?|?]; eauto. }
  apply context_inv in E as [(? & [= <-] & E)|(? & ? & _)]; [|done].
  destruct (create_fat_image_other _ _ _ _ _ E) as [Htmp H1]. clear E. intros q Hq.
  assert (Hother : forall r2 h2, context "failed to create UEFI GPT disk image" (create_gpt_disk tmp image_path) h1 = Ret (r2, h2) ->
    q <> tmp -> h2 !! q = h !! q).
  { intros r2 h2 E Hne. by rewrite (touches_context image_path _ _ (touches_create_gpt tmp image_path) _ _ _ E q Hq), H1. }
  apply io_bind_inv in H as [(e & -> & (h2 & E & ->)%holding_temp_inv)|([] & h2 & (h3 & E & ->)%holding_temp_inv & H)].
  { destruct (removed_clean h h2 tmp q Htmp (Hother _ _ E)) as [?|?]; eauto. }
  specialize (Hother _ _ E). unfold context in H. rewrite remove_file_eq in H. simpl in H.
  destruct (removed_clean h h3 tmp q Htmp Hother) as [?|[Hq' Hc]]; [left|right].
  - by destruct (h3 !! tmp), (can_remove tmp); injection H as _ <-.
  - rewrite Htmp in Hq'. injection Hq' as ->. rewrite Hc in H. destruct (h3 !! q); injection H as <- _; eauto.
Qed.
End Theorems.

(** * The image *)

Lemma total_size_other h out image (fs : btree FileDataSource) :
  Forall (fun e => e.2 <> File_ out) fs -> total_size (<[out := image]> h) fs = total_size h fs.
Proof.
  induction 1 as [|e fs He _ IH]; [done|]. simpl. by rewrite IH; unfold source_size; rewrite contents_other.
Qed.

Lemma volume_size_facts n : 0 <= n < 2 ^ 61 -> (512 | volume_size n) /\ 0 < volume_size n < 2 ^ 62.
Proof.
  intros Hn. split; [apply (Z.divide_trans _ MB); [by exists 2048|by apply Z.divide_factor_r]|].
  unfold volume_size, MB. pose proof (Z.div_mod (n + 1024 * 64 - 1) (1024 * 1024) ltac:(done)).
  pose proof (Z.mod_pos_bound (n + 1024 * 64 - 1) (1024 * 1024) ltac:(done)). lia.
Qed.

(** The disk has one partition, with a FAT volume of directories and files. *)
Definition bootable {S} {FS : FatFs S} {FL : FatFsLaws S} {G Part} {GP : Gpt G Part} {GL : GptLaws G Part}
    (dirs : gset string) (fs : gmap string (list Z)) (disk : list Z) : Prop :=
  exists fat, boot_disk fat disk /\ volume_of fat = Some (dirs, fs).

Section Image.
Context {P : Profile} {HF : HostFs} {HL : HostFsLaws} {S : Type} {FS : FatFs S} {FL : FatFsLaws S}.
Context {G Part : Type} {GP : Gpt G Part} {GL : GptLaws G Part}.

(** The image is complete; the result says whether the temporary file is gone. *)
Lemma create_uefi_image_spec self bootloader_path image_path tmp h :
  let local := image_files self bootloader_path in
  btree_ok (files self) -> btree_get BOOTLOADER_FILE_NAME (files self) = None ->
  new_temp_file h = Ok tmp -> tmp <> image_path -> can_create image_path = true ->
  total_size h local < 2 ^ 61 -> files_ok h local (volume_size (total_size h local)) ->
  exists disk fat, bootable (all_dirs local) (file_contents h local) disk /\
    create_uefi_image self bootloader_path image_path h = Ret (
      if can_remove tmp then (Ok tt, <[image_path := disk]> h)
      else (Err ("failed to delete FAT partition after disk image creation" :: denied),
            <[image_path := disk]> (<[tmp := fat]> h))).
Proof.
  intros local Hord Hboot Htmp Hne Hcan Htot Hok. destruct (new_temp_fresh h tmp Htmp) as [Hfresh Hcant].
  set (h0 := <[tmp := []]> h : host).
  assert (Hsrc : Forall (fun e => e.2 <> File_ tmp) local).
  { eapply Forall_impl; [apply (fk_sources _ _ _ Hok)|]. simpl. intros e [b Hb] He. rewrite He in Hb. simpl in Hb. congruence. }
  destruct (volume_size_facts (total_size h local)) as [Hdiv Hlen]; [split; [apply total_size_nonneg|done]|].
  destruct (create_fat_filesystem_contents h0 local tmp) as (fat & Hfat & Hvol & Hlfat); unfold h0 in *.
  { rewrite total_size_other by done. lia. }
  { done. } { done. } { rewrite total_size_other by done. by apply files_ok_other. }
  rewrite total_size_other in Hlfat by done. rewrite file_contents_other in Hvol by done. rewrite written_twice in Hfat.
  destruct (create_gpt_disk_correct (<[tmp := fat]> h) tmp image_path fat) as (disk & Hdisk & Hbd & _).
  { apply lookup_insert_eq. } { done. } { done. } { by rewrite Hlfat. } { by rewrite Hlfat. }
  exists disk, fat. split; [by exists fat|].
  unfold create_uefi_image. cbn [btree_insert snd]. erewrite io_bind_Ok.
  2:{ apply context_Ok. unfold create_fat_filesystem_image, io_call. rewrite add_internal_bootloader, Hboot by done.
      erewrite io_bind_Ok by reflexivity. pose proof (named_temp_file_eq h) as Hn. rewrite Htmp in Hn.
      erewrite io_bind_Ok by (apply context_Ok, Hn). erewrite io_bind_Ok; [reflexivity|].
      unfold holding_temp. fold local. by rewrite (context_Ok _ _ _ _ _ Hfat). }
  erewrite io_bind_Ok by (unfold holding_temp; rewrite (context_Ok _ _ _ _ _ Hdisk); reflexivity).
  assert (Hl : (<[image_path := disk]> (<[tmp := fat]> h) : host) !! tmp = Some fat).
  { apply eq_trans with ((<[tmp := fat]> h : host) !! tmp); [by apply lookup_insert_ne|apply lookup_insert_eq]. }
  unfold context. rewrite remove_file_eq, Hl, bind_Ret. unfold removed. destruct (can_remove tmp); [|done].
  do 2 f_equal. apply eq_trans with (<[image_path := disk]> (delete tmp (<[tmp := fat]> h))).
  - by apply delete_insert_ne.
  - f_equal. apply delete_insert_id, Hfresh.
Qed.

(** The files that the tool puts on the image, and their directories. *)
Definition tool_dirs : gset string := {["efi"; "efi/boot"]}.
Definition tool_contents (kernel bootloader : list Z) : gmap string (list Z) :=
  {[KERNEL_FILE_NAME := kernel; BOOTLOADER_FILE_NAME := bootloader]}.

Lemma tool_files_dirs nukleus initium : all_dirs (image_files (new nukleus) initium) = tool_dirs.
Proof. apply set_eq. intros x. unfold tool_dirs. change (all_dirs _) with (list_to_set ["efi"; "efi/boot"] : gset string). set_solver. Qed.

Lemma tool_files_contents h nukleus initium kernel bootloader :
  h !! nukleus = Some kernel -> h !! initium = Some bootloader ->
  file_contents h (image_files (new nukleus) initium) = tool_contents kernel bootloader.
Proof. intros Hk Hb. unfold file_contents. simpl. by rewrite Hk, Hb. Qed.

Lemma tool_files_ok h nukleus initium kernel bootloader size :
  h !! nukleus = Some kernel -> h !! initium = Some bootloader ->
  (forall p, p ∈ [KERNEL_FILE_NAME; BOOTLOADER_FILE_NAME; "efi"; "efi/boot"] -> fat_path_ok p) ->
  fat_fits size tool_dirs (tool_contents kernel bootloader) ->
  files_ok h (image_files (new nukleus) initium) size.
Proof.
  intros Hk Hb Hpath Hfit.
  assert (Hkeys : forall p, p ∈ (image_files (new nukleus) initium).*1 -> p = BOOTLOADER_FILE_NAME \/ p = KERNEL_FILE_NAME).
  { intros p Hp. change (p ∈ [BOOTLOADER_FILE_NAME; KERNEL_FILE_NAME]) in Hp. set_solver. }
  split.
  - apply btree_insert_ok, new_ok.
  - repeat constructor; simpl; eauto.
  - intros p Hp. exists (split_sep (Path_new p)).
    apply Hkeys in Hp as [-> | ->]; (split; [reflexivity|split; [done|repeat constructor]]).
  - intros p [-> | ->]%Hkeys; (split; [apply Hpath; set_solver|]);
      [change (Forall fat_path_ok ["efi"; "efi/boot"])|change (Forall fat_path_ok [])]; repeat constructor; apply Hpath; set_solver.
  - intros p Hp. rewrite tool_files_dirs. unfold tool_dirs.
    apply Hkeys in Hp as [-> | ->]; by rewrite elem_of_union, !elem_of_singleton; intros [?|?].
  - by rewrite tool_files_dirs, (tool_files_contents h nukleus initium kernel bootloader).
Qed.

(** C2: the tool builds a bootable image of the kernel and the boot loader: the
    disk has one partition, whose FAT volume holds the kernel as kernel-x86_64
    and the boot loader as efi/boot/bootx64.efi, byte by byte, and nothing
    else; no other file is changed, and the emulator is started on the image.
    The two files can be read and are smaller together than 2^61 bytes, the
    image's path can be written and is not the temporary file, and the two
    files with their directories fit on a FAT volume of the size that the tool
    chooses.  If the host will not delete the temporary file, the tool panics
    behind the finished image instead. *)
Theorem main_builds_image h out_dir nukleus initium ovmf kernel bootloader tmp :
  let image := join out_dir "uefi.img" in
  let size := Z.of_nat (length bootloader) + Z.of_nat (length kernel) in
  h !! nukleus = Some kernel -> h !! initium = Some bootloader -> size < 2 ^ 61 ->
  new_temp_file h = Ok tmp -> tmp <> image -> can_create image = true ->
  (forall p, p ∈ [KERNEL_FILE_NAME; BOOTLOADER_FILE_NAME; "efi"; "efi/boot"] -> fat_path_ok p) ->
  fat_fits (volume_size size) tool_dirs (tool_contents kernel bootloader) ->
  exists disk, bootable tool_dirs (tool_contents kernel bootloader) disk /\
    main out_dir nukleus initium ovmf h =
      (if can_remove tmp
       then Ret (Ok ("qemu-system-x86_64", ["-bios"; ovmf; "-drive"; "format=raw,file=" +:+ image]), <[image := disk]> h)
       else Panic "called `Result::unwrap()` on an `Err` value") /\
    exists fat, create_disk_image (UefiBoot_new nukleus) initium image h =
      Ret (if can_remove tmp then (Ok tt, <[image := disk]> h)
           else (Err ("failed to delete FAT partition after disk image creation" :: denied),
                 <[image := disk]> (<[tmp := fat]> h))).
Proof.
  intros image size Hk Hb Hsize Htmp Hne Hcan Hpath Hfit.
  assert (Htot : total_size h (image_files (new nukleus) initium) = size).
  { unfold total_size, source_size, size. simpl. rewrite Hk, Hb. simpl. lia. }
  destruct (create_uefi_image_spec (new nukleus) initium image tmp h) as (disk & fat & Hbd & Hr);
    [apply new_ok|done|done|done|done|by rewrite Htot|rewrite Htot; by eapply tool_files_ok|].
  rewrite tool_files_dirs, (tool_files_contents h nukleus initium kernel bootloader) in Hbd by done.
  exists disk. split; [done|]. split; [|by exists fat]. unfold main, mbind, io_bind, io_unwrap.
  fold image. unfold create_disk_image. simpl image_builder. rewrite Hr, bind_Ret. by destruct (can_remove tmp).
Qed.
End Image.
