(* ===== verification/HostSample.v ===== *)
(** A host, a FAT file system and a GPT library for the host tool.

    Reference instances of [HostFs], [FatFs] and [Gpt] with their laws, and the
    theorems about the host tool at concrete inputs.  A volume keeps its
    directories and files in its first element, a disk its partition table in
    the first element of the second sector. *)

From S2P Require Import Prelude HostFiles FatImage GptDisk DiskImage.
From stdpp Require Import countable.

#[local] Open Scope string_scope.
#[local] Open Scope Z_scope.

(** * The host *)

Definition temp_path : string := "/tmp/.tmpZq3xYb".

#[export] Instance sample_host : HostFs := {
  can_create _ := true;
  can_remove _ := true;
  new_temp_file h := match h !! temp_path with None => Ok temp_path | Some _ => Err "File exists (os error 17)" end;
}.

#[export] Instance sample_host_laws : HostFsLaws.
Proof. split. intros h path. simpl. destruct (h !! temp_path) eqn:E; [done|]. by intros [= <-]. Qed.

(** * The volume *)

Record volume : Type := Volume {
  v_size : Z;
  v_dirs : gset string;
  v_files : gmap string (list Z);
  v_open : list (string * Z);
}.

Definition in_dirb (dirs : gset string) (path : string) : bool :=
  match parent (Path_new path) with
  | Some [] => true
  | Some p => bool_decide (show p ∈ dirs)
  | None => false
  end.

Lemma in_dirb_spec dirs path : in_dir dirs path -> in_dirb dirs path = true.
Proof. unfold in_dir, in_dirb. destruct (parent _) as [[|x p]|]; [done| |done]. apply bool_decide_eq_true_2. Qed.

Definition set_files (f : gmap string (list Z)) (s : volume) : volume :=
  Volume (v_size s) (v_dirs s) f (v_open s).

(** A volume of [n] bytes takes files of at most [n] bytes. *)
Definition volume_fits (n : Z) (_ : gset string) (f : gmap string (list Z)) : Prop :=
  1 <= n /\ forall p b, f !! p = Some b -> Z.of_nat (length b) <= n.

Definition volume_image (s : volume) : list Z :=
  Z.pos (encode (v_dirs s, v_files s)) :: replicate (Z.to_nat (v_size s - 1)) 0.

#[export] Instance sample_fat : FatFs volume := {
  fat_format image _ :=
    match image with
    | [] => Err "volume is too small"
    | _ :: rest => Ok (Z.pos (encode (∅ : gset string, ∅ : gmap string (list Z))) :: rest)
    end;
  fat_open image :=
    match image with
    | [] => Err "no boot sector"
    | x :: rest =>
        match decode (Z.to_pos x) with
        | Some (dirs, files) => Ok (Volume (Z.of_nat (length image)) dirs files [])
        | None => Err "no volume"
        end
    end;
  fat_create_dir p s :=
    if in_dirb (v_dirs s) p
    then (Ok tt, Volume (v_size s) ({[p]} ∪ v_dirs s) (v_files s) (v_open s)) else (Err "no such directory", s);
  fat_create_file p s :=
    if in_dirb (v_dirs s) p
    then (Ok (Z.of_nat (length (v_open s))),
          Volume (v_size s) (v_dirs s) (<[p := default [] (v_files s !! p)]> (v_files s)) (v_open s ++ [(p, 0)])%list)
    else (Err "no such directory", s);
  fat_truncate f s :=
    match v_open s !! Z.to_nat f with
    | Some (p, pos) => (Ok tt, set_files (<[p := take (Z.to_nat pos) (default [] (v_files s !! p))]> (v_files s)) s)
    | None => (Err "not open", s)
    end;
  fat_write f bytes s :=
    match v_open s !! Z.to_nat f with
    | Some (p, pos) =>
        let new := written_at pos bytes (default [] (v_files s !! p)) in
        if Z.of_nat (length new) <=? v_size s then (Ok tt, set_files (<[p := new]> (v_files s)) s)
        else (Err "no space left", s)
    | None => (Err "not open", s)
    end;
  fat_image := volume_image;
}.

#[export] Program Instance sample_fat_laws : FatFsLaws volume := {
  fat_inv s := 1 <= v_size s;
  fat_dirs := v_dirs;
  fat_files := v_files;
  fat_size_of := v_size;
  fat_handle s f := if f <? 0 then None else v_open s !! Z.to_nat f;
  fat_path_ok p := (String.length p <= 255)%nat;
  fat_fits := volume_fits;
}.
Next Obligation.
  intros n d1 d2 f1 f2 [_ Hf] [H1 H2]. split; [done|]. intros p b1 Hb. destruct (Hf p b1 Hb) as (b2 & Hb2 & Hl).
  specialize (H2 p b2 Hb2). lia.
Qed.
Next Obligation. intros s Hi. simpl in *. rewrite length_replicate. lia. Qed.
Next Obligation.
  intros s Hi. cbn -[decode encode]. rewrite decode_encode. by eexists.
Qed.
Next Obligation.
  intros image label [Hlen _] _. destruct image as [|x image]; [simpl in Hlen; lia|].
  cbn -[decode encode length]. do 2 eexists. split; [done|]. cbn -[decode encode length]. rewrite decode_encode. split; [done|]. simpl. split; [lia|done].
Qed.
Next Obligation.
  intros p s Hi _ Hd _ _. simpl. rewrite in_dirb_spec by done. by eexists.
Qed.
Next Obligation.
  intros p s Hi _ Hd _ _. simpl. rewrite in_dirb_spec by done. do 2 eexists. split; [done|]. split; [done|].
  split; [|done]. cbn -[Z.ltb]. rewrite (proj2 (Z.ltb_ge _ _)), Nat2Z.id by lia. by rewrite list_lookup_middle.
Qed.
Next Obligation.
  intros f p s Hi. cbn -[Z.ltb]. destruct (f <? 0) eqn:Hf; [done|]. intros Hh. rewrite Hh. eexists. split; [done|].
  done.
Qed.
Next Obligation.
  intros f p bytes s Hi. cbn -[Z.ltb Z.leb]. destruct (f <? 0); [done|]. intros Hh Hnew [_ Hfit]. rewrite Hh, Hnew. simpl.
  unfold written_at, resized. simpl. rewrite drop_nil, app_nil_r.
  rewrite (proj2 (Z.leb_le _ _)) by (apply (Hfit p), lookup_insert_eq). by eexists.
Qed.

(** * The partition table *)

Record table : Type := Table { t_device : list Z; t_parts : gmap Z entry }.

Definition table_of (disk : list Z) : option (list entry) := disk !! 512%nat ≫= fun x => decode (Z.to_pos x).

#[export] Instance sample_gpt : Gpt table entry := {
  gpt_overwrite_lba0 blocks d := (Ok tt, <[450%nat := 0xEE]> d);
  gpt_create_from_device d :=
    if 67 * 512 <=? Z.of_nat (length d) then (Ok (Table d ∅), d) else (Err "device is too small", d);
  gpt_update_partitions g := (Ok tt, Table (t_device g) ∅);
  gpt_add_partition name size g :=
    if (size + 67 * 512 <=? Z.of_nat (length (t_device g))) && bool_decide (t_parts g = ∅)
    then (Ok 1, Table (t_device g) {[1 := (name, 34 * 512, size)]}) else (Err "not enough space", g);
  gpt_partitions := t_parts;
  gpt_bytes_start p := Ok p.1.2;
  gpt_write g := (Ok tt, Table (<[512%nat := Z.pos (encode (map_to_list (t_parts g)).*2)]> (t_device g)) (t_parts g));
  gpt_device := t_device;
}.

#[export] Program Instance sample_gpt_laws : GptLaws table entry := {
  gpt_inv g := 67 * 512 <= Z.of_nat (length (t_device g));
  gpt_entry p := p;
  gpt_table := table_of;
}.
Next Obligation.
  intros d1 d2 [_ Hd]. unfold table_of. by rewrite (Hd 512%nat) by lia.
Qed.
Next Obligation. intros blocks d _. eexists. split; [done|]. apply length_insert. Qed.
Next Obligation.
  intros d [_ Hd]. cbn -[Z.leb]. rewrite (proj2 (Z.leb_le _ _)) by lia. by do 2 eexists.
Qed.
Next Obligation. intros g Hi. by eexists. Qed.
Next Obligation.
  intros name size g Hi He H0 _ [_ Hroom]. cbn -[Z.leb] in *. rewrite (proj2 (Z.leb_le _ _)) by lia.
  rewrite bool_decide_eq_true_2 by done. do 4 eexists. split; [done|]. repeat (split; [done|]). split; [|done]. lia.
Qed.
Next Obligation.
  intros [d parts] Hi. cbn -[Z.le Z.mul] in Hi. eexists. split; [done|]. cbn -[decode encode].
  split; [apply length_insert|]. unfold table_of. rewrite list_lookup_insert_eq by lia.
  cbn -[decode encode]. rewrite decode_encode. by rewrite list_fmap_id.
Qed.

(** * The theorems at concrete inputs *)

#[local] Instance debug_profile : Profile := true.

Lemma volume_size_bounds_witness :
  exists size, fat_size_padded_and_rounded 1000000 = Ret size /\ (MB | size) /\
    1000000 + 64 * 1024 <= size < 1000000 + 64 * 1024 + MB /\ size < 2 ^ 64.
Proof. apply (volume_size_bounds 1000000). lia. Defined.

(** Two files of the host. *)
Definition nukleus_path : string := "/target/nukleus-1d2f".
Definition initium_path : string := "/target/initium.efi".
Definition sample_files : host := {[nukleus_path := [0x7F; 69; 76; 70]; initium_path := [77; 90]]}.

Lemma main_builds_image_witness :
  exists disk, main "/out" nukleus_path initium_path "/ovmf.fd" sample_files =
      Ret (Ok ("qemu-system-x86_64", ["-bios"; "/ovmf.fd"; "-drive"; "format=raw,file=/out/uefi.img"]),
           <["/out/uefi.img" := disk]> sample_files) /\
    bootable tool_dirs (tool_contents [0x7F; 69; 76; 70] [77; 90]) disk.
Proof.
  destruct (main_builds_image sample_files "/out" nukleus_path initium_path "/ovmf.fd" [0x7F; 69; 76; 70] [77; 90] temp_path)
    as (disk & Hb & Hr & _); [reflexivity|reflexivity|done|reflexivity|done|done| | |].
  - intros p Hp. repeat (apply elem_of_cons in Hp as [-> | Hp]; [apply Nat.leb_le; reflexivity|]). by apply elem_of_nil in Hp.
  - split; [done|]. intros p b. unfold tool_contents. rewrite lookup_insert_Some.
    intros [[_ <-]|[_ [_ <-]%lookup_singleton_Some]]; done.
  - change (can_remove temp_path) with true in Hr. cbv iota in Hr. exists disk. split; [exact Hr|exact Hb].
Defined.

(** A builder with a file in the place of the boot loader. *)
Lemma create_uefi_image_overwrite_witness :
  create_uefi_image (set_file_contents BOOTLOADER_FILE_NAME [1] (new nukleus_path)) initium_path "/out/uefi.img" sample_files =
    Ret (Err ["failed to create FAT partition"; "Attempted to overwrite internal file: efi/boot/bootx64.efi"], sample_files).
Proof.
  apply create_uefi_image_overwrite with (source := Data [1]); [|reflexivity].
  apply set_file_source_ok, new_ok.
Defined.

(** A kernel that is not there. *)
Definition missing_kernel : list string :=
  ["failed to create FAT partition"; "failed to create BIOS FAT filesystem";
   "failed to read metadata of file `/target/none`"; "No such file or directory (os error 2)"].

Lemma missing_kernel_run :
  create_uefi_image (new "/target/none") initium_path "/out/uefi.img" sample_files =
    Ret (Err missing_kernel, delete temp_path (<[temp_path := []]> sample_files)).
Proof. vm_compute. reflexivity. Qed.

(** On a host that refuses to delete it the temporary file stays. *)
#[local] Instance stuck_host : HostFs | 10 := {
  can_create _ := true;
  can_remove p := negb (String.eqb p temp_path);
  new_temp_file := new_temp_file (HostFs := sample_host);
}.

#[local] Instance stuck_host_laws : HostFsLaws (HF := stuck_host).
Proof. split. apply (new_temp_fresh (HF := sample_host)). Qed.

Lemma missing_kernel_stuck :
  create_uefi_image (HF := stuck_host) (new "/target/none") initium_path "/out/uefi.img" sample_files =
    Ret (Err missing_kernel, <[temp_path := []]> sample_files).
Proof. vm_compute. reflexivity. Qed.

(** The temporary file is gone, or it is the one that the host keeps. *)
Lemma create_uefi_image_clean_witness :
  (forall q, q <> "/out/uefi.img" ->
     (delete temp_path (<[temp_path := []]> sample_files) : host) !! q = sample_files !! q \/
     (exists e, (Err missing_kernel : result unit (list string)) = Err e) /\ new_temp_file (HostFs := sample_host) sample_files = Ok q /\
       can_remove (HostFs := sample_host) q = false) /\
  forall q, q <> "/out/uefi.img" ->
    (<[temp_path := []]> sample_files : host) !! q = sample_files !! q \/
    (exists e, (Err missing_kernel : result unit (list string)) = Err e) /\ new_temp_file (HostFs := stuck_host) sample_files = Ok q /\
      can_remove (HostFs := stuck_host) q = false.
Proof.
  split.
  - exact (create_uefi_image_clean _ _ _ _ _ _ missing_kernel_run).
  - exact (create_uefi_image_clean (HF := stuck_host) _ _ _ _ _ _ missing_kernel_stuck).
Defined.
